(* ===== verification/_CoqProject ===== *)
-Q . S2P
Prelude.v
GoNet.v
Cnet.v
Iprange.v
Idalloc.v
K8s.v
EipTypes.v
Kube.v
Ipam.v
IpamController.v
NodeProxy.v
LbController.v
Calls.v
Speaker.v
SpeakerManager.v
Events.v
Sha256.v
Keepalived.v
Layer2.v
BgpPath.v
Strconv.v
KeepalivedConf.v
Metrics.v
BgpConfig.v
BgpTable.v
BgpTypes.v
BgpDaemon.v
BgpControllers.v
HttpServer.v
GoSet.v
Nettool.v
System.v
Interleave.v
Options.v
Lifecycle.v
BgpRoutes.v
SpeakerProcess.v
Fleet.v
Watch.v
Locks.v
Mac.v
MemberLog.v
Routes.v
Commands.v
DeepCopy.v
DeepCopyV1.v
DeepCopyV2.v
