(* ===== verification/Prelude.v ===== *)
(** * OpenELB: a Rocq verification library

    OpenELB gives Kubernetes services of type [LoadBalancer] addresses from
    administrator-defined pools (the custom resource [Eip]) and announces the
    addresses to the network.  This library models the Go sources (under
    [src/]) as executable definitions and proves what makes them correct.

    ** The program and the files

    The data path is: an administrator creates an [Eip]; the admission webhook
    checks it; the Eip reconciler initialises its status; the service
    reconciler asks the address manager for an address, which is recorded in
    the status of the pool; the speaker manager sees the recorded addresses
    and tells the speaker of the pool's protocol to announce them.

    - [Prelude]: Go results ([Ok], [Err], panics), the state-and-error monad
      [ST], machine integers with their wrap-around, strings, the unspecified
      iteration order of Go maps (class [GoRange]) and of [sort.Slice] (class
      [GoSort]), tactics ([go_case], [bool_to_prop]) and the hint database
      [openelb].
    - [GoNet]: packages [net], [net/netip] and [math/big], byte for byte;
      [Sha256]: [crypto/sha256] and [encoding/hex].
    - [Cnet] ([pkg/util/net]): addresses as big integers.
    - [Iprange] ([pkg/util/iprange]): address ranges, their parser and printer.
    - [Idalloc] ([pkg/util/idalloc]): the bitmap allocator of IDs.
    - [K8s] ([pkg/util], [pkg/validate], [pkg/constant]): the fields of the
      Kubernetes objects the code uses, and the helpers on them.
    - [EipTypes] ([api/v1alpha2/eip_types.go]): the pool resource, sizes and
      ordinals at [int64] width, and the webhook.
    - [Kube]: the API server as the controllers see it: the class
      [KubeClient], its laws [KubeClientOk], and a store that satisfies them.
    - [Ipam] and [IpamController] ([pkg/controllers/ipam]): the address
      manager ([Manager]) and the Eip reconciler ([EIPController]).
    - [LbController] and [NodeProxy] ([pkg/controllers/lb]): the service
      reconciler with its event filters, and services exported by proxy pods.
    - [Speaker] ([pkg/speaker/interface.go], [utils.go]): the interface of a
      speaker, as the class [Speaker] with the laws [SpeakerOk] its client
      relies on.  [SpeakerManager] ([manager.go], [eip_controller.go],
      [lb_controller.go]) is the client, proved against the laws, and [Events]
      the events it records;
      [Keepalived] ([vip/keepalived.go], with the text of its configuration
      file and its log in [KeepalivedConf]) and [BgpPath] ([bgp/bgp/path.go]) are
      implementations and discharge them; [Layer2] ([layer2/]) is the third
      implementation, with its election.  [GoSet] ([pkg/util/set],
      [pkg/speaker/fake.go]) is the in-memory speaker of the tests.
    - [Strconv]: the parts of [strconv], [strings] and [regexp] that the
      policy configuration uses.  [BgpConfig] ([bgp/bgp/config]): the structs
      and string enumerations of a policy file and its defined sets;
      [BgpTable] ([bgp/bgp/table]): the policies in the form of gobgp's API.
    - [BgpTypes] ([api/v1alpha2/bgppeer_types.go], [bgpconf_types.go]): the two
      BGP resources, their JSON forms, and the conversions to and from gobgp.
    - [BgpDaemon] ([bgp/bgp/conf.go], [peers.go], [policy.go]): the gobgp
      process of a node: its global configuration, peers and policies.
      [BgpControllers] ([bgp/bgpconf_controller.go], [bgppeer_controller.go],
      [eventhandler.go]): the reconcilers of the two resources.
    - [Metrics] ([pkg/metrics]), [Nettool] ([pkg/nettool]) and [HttpServer]
      ([pkg/server]): the metric vectors, the port-forwarding rule with the
      in-memory iptables, and the HTTP front end; [Routes]: the routes of the
      front end and the way of a request to its endpoint.
    - [System]: both controllers of [pkg/controllers] and the users of the
      cluster acting on one API server, a reconciliation being one step.
      [Calls]: the same reconcilers as programs of calls to the API server;
      [Interleave]: such programs and users taking turns call by call, on a
      server that refuses writes of old versions.  [BgpRoutes]: the BGP speaker with its
      peers and metrics.  [SpeakerProcess] ([cmd/speaker/app/speaker.go]): the
      three speakers behind the manager, as [Run] registers them, and what
      handling pools and services does to the routes of gobgp.  [Fleet]: any
      number of nodes next to the cluster of [Interleave], with caches that lag
      behind.
    - [Options] and [Commands] (the [options.go] files, [cmd/],
      [pkg/manager], [pkg/version]): the flags of the binaries, their commands
      and the [Run] of the controller.
    - [Lifecycle]: what runs for the life of a process, as step relations over
      the program counters of its goroutines: the announcers' receivers and
      their [Stop], the supervision of keepalived, the start and the end of the
      speaker manager; also the construction and the loop of the layer-2
      speaker and the start of gobgp and of the HTTP server.  [Locks]: the
      goroutines of an announcer under its [sync.RWMutex].
    - [Watch]: the watches of all controllers ([SetupWithManager]): which event
      of which object puts which request on the queue; the status loops.
    - [DeepCopy], [DeepCopyV1], [DeepCopyV2] ([api/*/zz_generated.deepcopy.go]):
      a memory with pointers, slices and maps, and the copying methods of the
      API objects on it.
    - [Mac] ([pkg/util/net/mac.go]) and [MemberLog] ([layer2/log.go]):
      hardware addresses as JSON, and the log of the member list.

    State is a record per component with the fields of the Go struct
    ([EipStatus], [IDAllocator], [SMgr], [keepAlived], [announcer],
    [layer2Speaker], [Bgp], [Registry]); a method is a function on it, in [ST] where it can
    fail after a change, so the state after an error is the one the code leaves
    behind.  A map is a [gmap]; a loop over a map is a loop over [range_map],
    any order of its entries.  A nil dereference, an index out of range and a
    call on a nil interface are [Panic].

    ** What the theorems show

    - The system.  In every run of the service reconciler, the Eip reconciler
      and the users through the webhook, with calls that fail anywhere, no
      address is recorded by two pools, no service is recorded twice by live
      pools, and every pool counts exactly ([system_invariant]).
      A service that names its pool settles after one reconciliation
      ([reconcile_settles]); one that names none may not: the next
      reconciliation moves it out of a pool that is full when another one of
      its namespace is not ([full_pool_evicts]).
      The same holds when the reconcilers take turns after every call and
      stop anywhere ([interleaved_invariant]).  When reads come from a cache
      that may show any earlier state, the pools still count exactly and share
      no address ([cached_invariant]), but a service can be recorded twice
      ([stale_cache_records_twice]).  The programs of calls are the
      reconcilers ([programs_run]).
    - The pools.  A status is exact: the recorded addresses are addresses of
      the pool, the usage is their number, the pool is marked occupied exactly
      when it is full; every run of assignments, releases and reconciliations
      keeps it so.  Assignment gives the first free address (or the requested
      one) and fails exactly when there is none; release forgets the service
      and nothing else; the two cancel out.
    - The address manager and the reconcilers, against the API server: what
      [AssignIP], [ReleaseIP] and a whole [Reconcile] do to the objects on the
      server, on success and on each error, that a settled service needs
      nothing, and that an address is never replaced without being released.
    - The webhook: admitted pools are readable, pairwise disjoint, and at most
      one is the default.  Sizes, ordinals and containment are those of the
      network, up to the [int64] overflow that is stated exactly.
    - The libraries: ranges print and parse back; the ID allocator refines a
      set of IDs, with the least free ID or the first one from a hash.
    - The speakers: the manager announces only recorded addresses, but for
      those that a service event, a resynchronisation or a failed handling
      announced and nothing has withdrawn since
      ([manager_announces_only_recorded]); it computes exactly the serving nodes
      as next hops ([getServiceNodes_serving]); recording its events never
      changes what it does ([HandleEIP_events_erase]); keepalived's instances have
      distinct router IDs and none leaks, and the file written for it reads
      back as its enabled instances ([keepalived_conf_roundtrip]); layer 2 elects one announcer; BGP's
      routes are exactly the next hops.
    - BGP.  Reconciling the configuration leaves the daemon with the
      configuration of the node's rack and exactly the peers that select the
      node; reconciling a peer makes the daemon follow the resource and its
      node selector, and a deleted peer goes; the status is, field by field,
      the messages of gobgp that the daemon shows by the JSON mapping of proto3,
      which is specified on its own ([pb_json]); the
      enumerations and mask-length ranges of a policy file are read exactly.
    - The front end: what each answer of the HTTP server is, and which object
      a request changes.
    - From the pool to the network.  The controllers interleave call by call;
      all nodes of the cluster start, restart and reconcile pools, service
      events and resynchronisations, with any result and every cache late in
      its own way.  Every announced address was recorded by a pool of its
      protocol, or was in the status of a service; but for the addresses of the
      manager's ledger, nodes that have caught up announce only recorded
      addresses and agree on the protocol of each ([fleet_announces_assigned]).
      A successful handling of a BGP pool changes the routes of the addresses
      to announce and to withdraw, to exactly the next hops and to none, and no
      other route ([bgp_pool_routes]); a service event can leave routes that no
      handling of the pool takes back ([HandleService_leaves_routes]).
    - Processes.  When the speaker manager's [Start] can return, and with what
      ([manager_Start_returns_iff]); when the [Stop] of an announcer returns
      and when it hangs; a keepalived that ends is restarted in finitely many
      steps, or [Start] returns the error of starting it
      ([keepalived_supervised]); which goroutines race on the table of an
      announcer ([announcer_race_iff]).
    - Events.  The controllers of the pools and of the BGP configuration do not
      wake themselves: no single write of a reconciliation is queued, but for
      the deletion of the object itself, which then needs nothing
      ([ipam_own_writes_dropped], [bgpconf_own_writes_dropped]); a service whose
      events are dropped needs nothing ([dropped_service_idle]).
    - Memory.  A deep copy shows what the original shows and shares no memory
      with it ([DeepCopy_isolated]).
    - Where the code does not do what it means to, a theorem says what it does
      instead (a finalizer that stays, a withdrawal that is lost, a node that
      does not step back, routes that a reconfiguration drops, a service that
      moves between two pools for ever, and others).

    ** Bounds and fuel

    Integers keep their Go width: [wrap64] for [int] and [int64], [wrapU32] for
    [uint32].  The allocation loop of a pool runs [PoolSize - offset] times, as
    in the code.  The loops of the ID allocator take fuel: one more than the
    number of blocks for the growth and the word scan, the capacity for the
    hash scan; [Allocate_refines] and [AllocateWithHash_refines] show it is
    enough.  [wait_running] takes the time until keepalived has started,
    which [wait_running_stops] shows to be enough.  All other recursion is
    structural.

    ** Assumptions

    Third-party code is a parameter with named laws: the API server
    ([KubeClientOk]: reads see the latest state; a failed write either happened
    or did not; [Interleave] has its own server, with versions and stale
    reads), label selectors, [cidr.AddressRange] ([CidrLibOk]), the
    interfaces of the host ([HostNet]), keepalived and the file system
    ([KeepalivedHostOk]), the packet libraries and the member list ([L2Host]),
    gobgp ([BgpServerOk] for its routes, [BgpDaemonOk] and [BgpRestartOk] for
    its configuration), its messages with their protobuf JSON
    ([GoBgpMessagesOk]), the reader of policy files ([Viper]), temporary files
    ([TempFilesOk]), prometheus vectors ([MetricVecOk]), iptables
    ([IptablesOk]), the client of the front end ([ApiClientOk]), the start of
    the member list ([L2Boot]), the metadata types of apimachinery and their
    copying methods ([MetaV1Ok]), and, as definitions with the behaviour they
    document, the predicates of controller-runtime ([Watch]), pflag and cobra
    ([Options], [Commands]), chi ([Routes]) and [html/template]
    ([KeepalivedConf]).  Each class has an instance on
    which the witnesses evaluate.

    ** Not modelled

    The events of the reconcilers of [pkg/controllers], and logs; help texts;
    the CORS headers; scheme registration and the construction of the
    controller-runtime manager and client; the settings of keepalived's log
    file.  These only hand constants to libraries.  The end-to-end tests and the
    helpers that only tests call are not part of the program.
    The part of a reconciliation for node-proxy services is one call in
    [Interleave]; it writes no pool.  In [Fleet] a reconciliation by a node is
    one step, with any result.  The speakers of [Fleet] and of
    [manager_announces_only_recorded] are those that keep the promises of the
    interface ([SpeakerOk]), which the BGP and the keepalived speaker do; the
    layer-2 speaker does only while pools do not overlap. *)
From Stdlib Require Export ZArith Lia Ascii.
From stdpp Require Export sorting pretty numbers base tactics gmap strings list list_basics list_relations list_monad.

(** The development's own scope for the notations of the Go fragment. *)
Declare Scope go_scope.
Delimit Scope go_scope with go.

(** ** Go results

    A call of the source either returns, returns a non-nil [error], or
    panics.  Errors keep the one distinction the code makes on them
    ([errors.IsNotFound]); the message is kept as text. *)
Inductive error :=
| ErrNotFound (msg : string)
| Errorf (msg : string).

#[export] Instance error_eq_dec : EqDecision error.
Proof. solve_decision. Defined.

Definition IsNotFound (e : error) : bool :=
  match e with ErrNotFound _ => true | Errorf _ => false end.

Definition err_text (e : error) : string :=
  match e with ErrNotFound m => m | Errorf m => m end.

Inductive Result (A : Type) :=
| Ok (a : A)
| Err (e : error)
| Panic.
Arguments Ok {A} a.
Arguments Err {A} e.
Arguments Panic {A}.

#[export] Instance Result_eq_dec {A} `{EqDecision A} : EqDecision (Result A).
Proof. solve_decision. Defined.

#[export] Instance Result_ret : MRet Result := @Ok.
#[export] Instance Result_bind : MBind Result := λ A B f r,
  match r with Ok a => f a | Err e => Err e | Panic => Panic end.
#[export] Instance Result_fmap : FMap Result := λ A B f r,
  match r with Ok a => Ok (f a) | Err e => Err e | Panic => Panic end.

Definition is_ok {A} (r : Result A) : bool :=
  match r with Ok _ => true | _ => false end.

Lemma Result_bind_Ok {A B} (f : A → Result B) (m : Result A) b :
  m ≫= f = Ok b ↔ ∃ a, m = Ok a ∧ f a = Ok b.
Proof. destruct m; cbn; split; intros H; try destruct H as (?&?&?); simplify_eq; eauto. Qed.

(** A conversion of every element: all succeed, in order. *)
Lemma mapM_Ok {A B} (f : A → Result B) l k : mapM f l = Ok k ↔ Forall2 (λ x y, f x = Ok y) l k.
Proof.
  revert k. induction l as [|x l IH]; intros k; cbn.
  - split; [intros [= <-]; constructor|by inversion 1].
  - rewrite Result_bind_Ok. setoid_rewrite Result_bind_Ok. setoid_rewrite IH.
    split; [intros (y & Hy & k' & Hk & [= <-]); by constructor|].
    inversion 1 as [|? y ? k' ? ?]; simplify_eq. eauto 6.
Qed.

Lemma mapM_is_ok {A B} (f : A → Result B) l : (∀ x, f x ≠ Panic) →
  is_ok (mapM f l) = forallb (λ x, is_ok (f x)) l ∧ mapM f l ≠ Panic.
Proof.
  intros Hp. induction l as [|x l [IH1 IH2]]; cbn; [done|]. specialize (Hp x).
  destruct (f x) as [y|e|]; cbn; [|done..]. rewrite <- IH1. by destruct (mapM f l).
Qed.

(** ** Calls that change the world

    A handler that talks to the API server threads the world it talks to; an
    error keeps the changes made before it. *)
Definition ST (W A : Type) : Type := W → W * Result A.

#[export] Instance ST_ret {W} : MRet (ST W) := λ A a w, (w, Ok a).
#[export] Instance ST_bind {W} : MBind (ST W) := λ A B f m w,
  match m w with
  | (w', Ok a) => f a w'
  | (w', Err e) => (w', Err e)
  | (w', Panic) => (w', Panic)
  end.

(** A read, and a result that needs no world. *)
Definition st_read {W A} (f : W → Result A) : ST W A := λ w, (w, f w).
Definition st_lift {W A} (r : Result A) : ST W A := λ w, (w, r).
(** A call whose error the code looks at. *)
Definition st_try {W A} (m : ST W A) : ST W (Result A) := λ w,
  match m w with (w', Panic) => (w', Panic) | (w', r) => (w', Ok r) end.

Lemma pair_result {W A} (c : ST W A) w r : snd (c w) = r → c w = (fst (c w), r).
Proof. destruct (c w). cbn. by intros ->. Qed.

Lemma ST_bind_Ok {W A B} (f : A → ST W B) (m : ST W A) w w' b :
  mbind (M := ST W) f m w = (w', Ok b) ↔ ∃ w1 a, m w = (w1, Ok a) ∧ f a w1 = (w', Ok b).
Proof.
  unfold mbind, ST_bind. destruct (m w) as [w1 [a|e|]]; split; intros H;
    try destruct H as (? & ? & ? & ?); simplify_eq; eauto.
Qed.

(** ** Machine integers: [int]/[int64] and [uint32] of the target *)
Definition two63 : Z := 9223372036854775808.
Definition two64 : Z := 18446744073709551616.
Definition two32 : Z := 4294967296.

(** Two's complement reading of the low 64 bits. *)
Definition wrap64 (z : Z) : Z := ((z + two63) mod two64 - two63)%Z.
Definition wrapU32 (z : Z) : Z := (z mod two32)%Z.

Lemma wrap64_small z : (- two63 <= z < two63)%Z → wrap64 z = z.
Proof. unfold wrap64, two63, two64. intros. rewrite Z.mod_small; lia. Qed.

Lemma wrapU32_small z : (0 <= z < two32)%Z → wrapU32 z = z.
Proof. unfold wrapU32. intros. by rewrite Z.mod_small. Qed.

Lemma wrapU32_bound z : (0 <= wrapU32 z < two32)%Z.
Proof. unfold wrapU32, two32. apply Z.mod_pos_bound. lia. Qed.

(** ** Strings of the Go standard library

    A Go string is a byte sequence; [string] is a list of [ascii] bytes. *)
Definition chr (n : nat) : ascii := ascii_of_nat n.
Definition ord (c : ascii) : Z := Z.of_nat (nat_of_ascii c).

Fixpoint str_elem (c : ascii) (s : string) : bool :=
  match s with
  | EmptyString => false
  | String d s' => if decide (c = d) then true else str_elem c s'
  end.

(** [strings.Split s sep] for a one-byte separator: never empty. *)
Fixpoint Split (sep : ascii) (s : string) : list string :=
  match s with
  | EmptyString => [EmptyString]
  | String c s' =>
      if decide (c = sep) then EmptyString :: Split sep s'
      else match Split sep s' with
           | [] => [String c EmptyString]
           | w :: ws => String c w :: ws
           end
  end.

(** [strings.SplitN s sep 2] for a one-byte separator. *)
Fixpoint SplitN2 (sep : ascii) (s : string) : list string :=
  match s with
  | EmptyString => [EmptyString]
  | String c s' =>
      if decide (c = sep) then [EmptyString; s']
      else match SplitN2 sep s' with
           | [] => [String c EmptyString]
           | w :: ws => String c w :: ws
           end
  end.

(** [strings.Join ws sep]. *)
Fixpoint Join (ws : list string) (sep : string) : string :=
  match ws with
  | [] => EmptyString
  | [w] => w
  | w :: ws' => w +:+ sep +:+ Join ws' sep
  end.

(** [strings.IndexByte s c] cut: the text before and after the first [c]. *)
Fixpoint CutByte (c : ascii) (s : string) : option (string * string) :=
  match s with
  | EmptyString => None
  | String d s' =>
      if decide (d = c) then Some (EmptyString, s')
      else match CutByte c s' with
           | Some (a, b) => Some (String d a, b)
           | None => None
           end
  end.

(** [strings.LastIndexByte] cut. *)
Fixpoint LastCutByte (c : ascii) (s : string) : option (string * string) :=
  match s with
  | EmptyString => None
  | String d s' =>
      match LastCutByte c s' with
      | Some (a, b) => Some (String d a, b)
      | None => if decide (d = c) then Some (EmptyString, s') else None
      end
  end.

Definition lower_ascii (c : ascii) : ascii :=
  let n := nat_of_ascii c in
  if (65 <=? n) && (n <=? 90) then ascii_of_nat (n + 32) else c.

(** [strings.ToLower] on ASCII text; bytes above 127 are left unchanged. *)
Fixpoint ToLower (s : string) : string :=
  match s with
  | EmptyString => EmptyString
  | String c s' => String (lower_ascii c) (ToLower s')
  end.

Definition str_empty (s : string) : bool :=
  match s with EmptyString => true | _ => false end.

Fixpoint HasPrefix (s p : string) : bool :=
  match p, s with
  | EmptyString, _ => true
  | String c p', String d s' => if decide (c = d) then HasPrefix s' p' else false
  | String _ _, EmptyString => false
  end.

(** Byte-wise string order, the order of Go's [<] on strings. *)
Fixpoint str_ltb (s t : string) : bool :=
  match s, t with
  | EmptyString, EmptyString => false
  | EmptyString, String _ _ => true
  | String _ _, EmptyString => false
  | String c s', String d t' =>
      if nat_of_ascii c <? nat_of_ascii d then true
      else if nat_of_ascii d <? nat_of_ascii c then false
      else str_ltb s' t'
  end.

Definition str_leb (s t : string) : bool := negb (str_ltb t s).

(** [strconv.Itoa] / the verb [%d]. *)
Definition Itoa (z : Z) : string := pretty z.

(** ** Lemmas on strings *)
#[global] Arguments String.append : simpl nomatch.

Lemma str_app_nil_r s : s +:+ "" = s.
Proof. induction s as [|c s IH]; cbn; [done|by f_equal]. Qed.

Lemma str_app_assoc s t u : (s +:+ t) +:+ u = s +:+ (t +:+ u).
Proof. induction s as [|c s IH]; cbn; [done|by f_equal]. Qed.

Lemma str_elem_app c s t : str_elem c (s +:+ t) = str_elem c s || str_elem c t.
Proof. induction s as [|d s IH]; cbn; [done|]. by case_decide. Qed.

Lemma Split_not_nil c s : Split c s ≠ [].
Proof. destruct s as [|d s]; cbn; [done|]. case_decide; [done|]. by destruct (Split c s). Qed.

Lemma Split_no_sep c s : str_elem c s = false → Split c s = [s].
Proof.
  induction s as [|d s IH]; cbn; [done|]. case_decide; [done|]. intros Hs.
  rewrite decide_False by done. by rewrite (IH Hs).
Qed.

Lemma Split_app c s t : str_elem c s = false →
  Split c (s +:+ String c t) = s :: Split c t.
Proof.
  induction s as [|d s IH]; cbn; intros Hs.
  - by rewrite decide_True.
  - case_decide; [done|]. rewrite decide_False by done. by rewrite (IH Hs).
Qed.

Lemma Split_concat c s t : Split c (s +:+ String c t) = Split c s ++ Split c t.
Proof.
  induction s as [|d s IH]; cbn; [by rewrite decide_True|].
  case_decide; [cbn; f_equal; apply IH|].
  rewrite IH. pose proof (Split_not_nil c s). by destruct (Split c s).
Qed.

Lemma Split_elems_no_sep c s : Forall (λ w, str_elem c w = false) (Split c s).
Proof.
  induction s as [|d s IH]; cbn; [by repeat constructor|].
  case_decide; [by constructor|].
  destruct (Split c s) as [|w ws]; inversion IH; subst;
    repeat constructor; cbn; by rewrite ?decide_False by done.
Qed.

Lemma Join_cons w ws sep : ws ≠ [] → Join (w :: ws) sep = w +:+ sep +:+ Join ws sep.
Proof. by destruct ws. Qed.

(** Joining the pieces of a split gives the text back. *)
Lemma Join_Split c s : Join (Split c s) (String c "") = s.
Proof.
  induction s as [|d s IH]; cbn; [done|].
  pose proof (Split_not_nil c s) as Hnn. case_decide as Hd.
  - subst. rewrite Join_cons by done. cbn. by rewrite IH.
  - destruct (Split c s) as [|w ws]; [done|].
    destruct ws; cbn in *; by rewrite IH.
Qed.

(** Splitting a join of separator-free words gives the words back. *)
Lemma Split_Join c ws :
  ws ≠ [] → Forall (λ w, str_elem c w = false) ws →
  Split c (Join ws (String c "")) = ws.
Proof.
  induction ws as [|w ws IH]; [done|]. intros _ [Hw Hws]%Forall_cons.
  destruct ws as [|w' ws'].
  - cbn. by apply Split_no_sep.
  - rewrite Join_cons by done. cbn [String.append]. rewrite (Split_app c w) by done.
    by rewrite IH.
Qed.

Lemma SplitN2_app c s t : str_elem c s = false →
  SplitN2 c (s +:+ String c t) = [s; t].
Proof.
  induction s as [|d s IH]; cbn; intros Hs.
  - by rewrite decide_True.
  - case_decide; [done|]. rewrite decide_False by done. by rewrite (IH Hs).
Qed.

Lemma CutByte_app c s t : str_elem c s = false →
  CutByte c (s +:+ String c t) = Some (s, t).
Proof.
  induction s as [|d s IH]; cbn; intros Hs.
  - by rewrite decide_True.
  - case_decide; [done|]. rewrite decide_False by done. by rewrite (IH Hs).
Qed.

Lemma CutByte_none c s : str_elem c s = false → CutByte c s = None.
Proof.
  induction s as [|d s IH]; cbn; intros Hs; [done|].
  case_decide; [done|]. rewrite decide_False by done. by rewrite (IH Hs).
Qed.

Lemma str_empty_spec s : str_empty s = true ↔ s = "".
Proof. by destruct s. Qed.

(** ** Maps and their iteration order

    Ranging over a Go map visits every entry once, in an order the language
    leaves open.  [GoRange] is one such order; every theorem about a loop
    over a map is proved for all of them. *)
Class GoRange := {
  range_map : ∀ {V : Type}, gmap string V → list (string * V);
  range_map_perm : ∀ {V : Type} (m : gmap string V), range_map m ≡ₚ map_to_list m
}.

(** A concrete order, used to evaluate the definitions. *)
Definition canonical_range : GoRange :=
  {| range_map := λ V m, map_to_list m; range_map_perm := λ V m, reflexivity _ |}.

Section range.
Context {R : GoRange} {V : Type}.
Implicit Types (m : gmap string V).

Lemma elem_of_range_map m k v : (k, v) ∈ range_map m ↔ m !! k = Some v.
Proof. rewrite range_map_perm. apply elem_of_map_to_list. Qed.

Lemma NoDup_range_map_fst m : NoDup (range_map m).*1.
Proof. rewrite range_map_perm. apply NoDup_fst_map_to_list. Qed.

Lemma length_range_map m : length (range_map m) = size m.
Proof. rewrite range_map_perm. by rewrite length_map_to_list. Qed.

Lemma list_to_map_range m : list_to_map (range_map m) = m.
Proof.
  apply map_eq. intros k. destruct (m !! k) as [v|] eqn:E.
  - apply elem_of_list_to_map; [apply NoDup_range_map_fst|by apply elem_of_range_map].
  - apply not_elem_of_list_to_map. intros Hin. apply list_elem_of_fmap in Hin as ([k' v'] & -> & Hin).
    apply elem_of_range_map in Hin. cbn in *. congruence.
Qed.
End range.

(** ** [sort.Slice]

    Not stable: elements that compare equal may come in any order.  [GoSort]
    is one implementation, with what the package documents of it. *)
Definition strict_weak {A} (less : A → A → bool) : Prop :=
  (∀ x y, less x y = true → less y x = false) ∧
  (∀ x y z, less x y = true → less x z = true ∨ less z y = true).

Class GoSort := {
  sort_Slice : ∀ {A : Type}, (A → A → bool) → list A → list A;
  sort_Slice_perm : ∀ {A} (less : A → A → bool) l, sort_Slice less l ≡ₚ l;
  sort_Slice_sorted : ∀ {A} (less : A → A → bool) l, strict_weak less →
    StronglySorted (λ x y, less y x = false) (sort_Slice less l)
}.

Fixpoint insert_sorted {A} (less : A → A → bool) (x : A) (l : list A) : list A :=
  match l with
  | [] => [x]
  | y :: l' => if less y x then y :: insert_sorted less x l' else x :: l
  end.

Lemma insert_sorted_perm {A} (less : A → A → bool) x l : insert_sorted less x l ≡ₚ x :: l.
Proof.
  induction l as [|y l IH]; cbn; [done|]. destruct (less y x); [|done].
  rewrite IH. apply Permutation_swap.
Qed.

Lemma insert_sorted_sorted {A} (less : A → A → bool) x l : strict_weak less →
  StronglySorted (λ x y, less y x = false) l →
  StronglySorted (λ x y, less y x = false) (insert_sorted less x l).
Proof.
  intros [Ha Ht] Hl. induction Hl as [|y l Hl IH Hy]; cbn; [by repeat constructor|].
  destruct (less y x) eqn:E.
  - constructor; [done|]. rewrite insert_sorted_perm. apply Forall_cons. auto.
  - constructor; [by constructor|]. apply Forall_cons. split; [done|].
    eapply Forall_impl; [done|]. intros z Hz. destruct (less z x) eqn:E'; [|done].
    destruct (Ht _ _ y E'); congruence.
Qed.

(** Insertion sort, used to evaluate the definitions. *)
#[refine] Definition insertion_sort : GoSort :=
  {| sort_Slice := λ A less l, foldr (insert_sorted less) [] l |}.
Proof.
  - intros A less l. induction l as [|x l IH]; cbn; [done|].
    by rewrite insert_sorted_perm, IH.
  - intros A less l Hless. induction l as [|x l IH]; cbn; [constructor|].
    by apply insert_sorted_sorted.
Defined.

Lemma str_ltb_irrefl s : str_ltb s s = false.
Proof. induction s as [|c s IH]; cbn [str_ltb]; [done|]. by rewrite Nat.ltb_irrefl. Qed.

Lemma str_ltb_total s : ∀ t, s = t ∨ str_ltb s t = true ∨ str_ltb t s = true.
Proof.
  induction s as [|c s IH]; intros [|d t]; cbn [str_ltb]; [auto..|].
  destruct (nat_of_ascii c <? nat_of_ascii d)%nat eqn:E1; [auto|].
  destruct (nat_of_ascii d <? nat_of_ascii c)%nat eqn:E2; [auto|].
  apply Nat.ltb_ge in E1, E2. assert (c = d) as ->.
  { rewrite <- (ascii_nat_embedding c), <- (ascii_nat_embedding d). f_equal. lia. }
  destruct (IH t) as [->|[?|?]]; auto.
Qed.

Lemma str_ltb_trans s : ∀ t u, str_ltb s t = true → str_ltb t u = true → str_ltb s u = true.
Proof.
  induction s as [|c s IH]; intros [|d t] [|e u]; cbn [str_ltb]; try done.
  destruct (nat_of_ascii c <? nat_of_ascii d)%nat eqn:E1, (nat_of_ascii d <? nat_of_ascii e)%nat eqn:E2,
    (nat_of_ascii d <? nat_of_ascii c)%nat eqn:E3, (nat_of_ascii e <? nat_of_ascii d)%nat eqn:E4,
    (nat_of_ascii c <? nat_of_ascii e)%nat eqn:E5, (nat_of_ascii e <? nat_of_ascii c)%nat eqn:E6;
  rewrite ?Nat.ltb_lt, ?Nat.ltb_ge in *; try done; try lia. apply IH.
Qed.

Lemma str_ltb_strict_weak : strict_weak str_ltb.
Proof.
  split.
  - intros x y H. destruct (str_ltb y x) eqn:E; [|done].
    pose proof (str_ltb_trans _ _ _ H E). by rewrite str_ltb_irrefl in *.
  - intros x y z H. destruct (str_ltb_total x z) as [->|[?|H']]; [auto..|].
    right. by eapply str_ltb_trans.
Qed.

#[export] Instance str_leb_antisymm : AntiSymm (=) (λ x y, str_ltb y x = false).
Proof. intros x y H1 H2. destruct (str_ltb_total x y) as [?|[?|?]]; congruence. Qed.

(** Sorting strings gives one result, whatever the algorithm and the order of
    the input. *)
Lemma sort_strings_unique (G1 G2 : GoSort) l l' : l ≡ₚ l' →
  @sort_Slice G1 _ str_ltb l = @sort_Slice G2 _ str_ltb l'.
Proof.
  intros Hp. apply (StronglySorted_unique (λ x y, str_ltb y x = false)).
  - by apply (@sort_Slice_sorted G1), str_ltb_strict_weak.
  - by apply (@sort_Slice_sorted G2), str_ltb_strict_weak.
  - rewrite (@sort_Slice_perm G1), (@sort_Slice_perm G2). done.
Qed.

(** ** Generic lemmas on lists and maps *)
Lemma existsb_elem {A} (f : A → bool) l : existsb f l = true ↔ ∃ x, x ∈ l ∧ f x = true.
Proof. rewrite List.existsb_exists. setoid_rewrite list_elem_of_In. done. Qed.

Lemma existsb_false_elem {A} (f : A → bool) l x :
  existsb f l = false → x ∈ l → f x = false.
Proof.
  intros He Hx. destruct (f x) eqn:Hf; [|done].
  assert (existsb f l = true) by (apply existsb_elem; eauto). congruence.
Qed.

Lemma foldl_pointwise {A B} (f g : A → B → A) l x :
  (∀ a b, f a b = g a b) → foldl f x l = foldl g x l.
Proof. intros H. revert x. induction l as [|b l IH]; intros x; cbn; [done|]. by rewrite H, IH. Qed.

Lemma size_delete_Some {V} (m : gmap string V) k v :
  m !! k = Some v → size m = S (size (delete k m)).
Proof.
  intros Hk. rewrite <- (insert_delete_id m k v Hk) at 1.
  rewrite map_size_insert_None; [done|]. apply lookup_delete_eq.
Qed.

(** ** Automation *)
Create HintDb openelb discriminated.
#[export] Hint Resolve Split_not_nil Split_elems_no_sep : openelb.

(** Destruct the innermost scrutinee of the goal or of a hypothesis. *)
Ltac go_case :=
  match goal with
  | H : context [match ?x with _ => _ end] |- _ =>
      lazymatch x with context [match _ with _ => _ end] => fail | _ => destruct x eqn:? end
  | |- context [match ?x with _ => _ end] =>
      lazymatch x with context [match _ with _ => _ end] => fail | _ => destruct x eqn:? end
  end.

(** Run a definition through all its branches. *)
Ltac go_cases := repeat (go_case; simplify_eq/=).

(** Turn boolean tests on integers and strings into propositions. *)
Ltac bool_to_prop :=
  repeat match goal with
  | H : (_ && _) = true |- _ => apply andb_prop in H; destruct H
  | H : (_ || _) = false |- _ => apply orb_false_elim in H; destruct H
  | H : negb _ = true |- _ => apply negb_true_iff in H
  | H : negb _ = false |- _ => apply negb_false_iff in H
  | H : Z.eqb _ _ = true |- _ => apply Z.eqb_eq in H
  | H : Z.eqb _ _ = false |- _ => apply Z.eqb_neq in H
  | H : Z.ltb _ _ = true |- _ => apply Z.ltb_lt in H
  | H : Z.ltb _ _ = false |- _ => apply Z.ltb_ge in H
  | H : Z.leb _ _ = true |- _ => apply Z.leb_le in H
  | H : Z.leb _ _ = false |- _ => apply Z.leb_gt in H
  | H : Nat.eqb _ _ = true |- _ => apply Nat.eqb_eq in H
  | H : Nat.eqb _ _ = false |- _ => apply Nat.eqb_neq in H
  | H : Nat.ltb _ _ = true |- _ => apply Nat.ltb_lt in H
  | H : Nat.ltb _ _ = false |- _ => apply Nat.ltb_ge in H
  | H : Nat.leb _ _ = true |- _ => apply Nat.leb_le in H
  | H : Nat.leb _ _ = false |- _ => apply Nat.leb_gt in H
  | H : String.eqb _ _ = true |- _ => apply String.eqb_eq in H
  | H : String.eqb _ _ = false |- _ => apply String.eqb_neq in H
  | H : str_empty _ = true |- _ => apply str_empty_spec in H
  | H : bool_decide _ = true |- _ => apply bool_decide_eq_true in H
  | H : bool_decide _ = false |- _ => apply bool_decide_eq_false in H
  end.
