(* ===== verification/GoNet.v ===== *)
(** * The Go standard library: package [net] and [math/big]

    What the sources use of the standard library's [net] package: [net.IP]
    as a byte slice, [To4]/[To16], [net.ParseIP] (through
    [net/netip.ParseAddr], IPv4 dotted form and the full IPv6 grammar with
    [::], embedded IPv4 and zones), [IP.String] (dotted form, or the IPv6
    text form with the longest zero run compressed), [net.ParseCIDR],
    [IPMask.Size], [IPNet.Contains], [IP.Equal], and of [math/big] the
    conversions [SetBytes], [FillBytes] and [Int64].

    The main results are the round trips: printing an address and parsing it
    gives the address back in 16-byte form ([ParseIP_String]), so distinct
    addresses have distinct texts ([IP_String_inj]). *)
From S2P Require Import Prelude.
Local Open Scope Z_scope.

(** ** Byte slices

    [net.IP] is a byte slice; a byte is a [Z] in [0, 256).  The nil slice is
    the empty list: the sources only ever build slices of 0, 4 or 16 bytes. *)
Abbreviation IP := (list Z).

Definition is_byte (b : Z) : Prop := 0 <= b < 256.
Definition bytes_ok (ip : IP) : Prop := Forall is_byte ip.

(** An address value: 4 or 16 bytes. *)
Definition ip_ok (ip : IP) : Prop :=
  bytes_ok ip ∧ (length ip = 4%nat ∨ length ip = 16%nat).

Definition v4InV6Prefix : IP := [0;0;0;0;0;0;0;0;0;0;255;255].

Definition To4 (ip : IP) : IP :=
  if Nat.eqb (length ip) 4 then ip
  else if Nat.eqb (length ip) 16 && bool_decide (take 12 ip = v4InV6Prefix)
  then drop 12 ip else [].

Definition To16 (ip : IP) : IP :=
  if Nat.eqb (length ip) 4 then v4InV6Prefix ++ ip
  else if Nat.eqb (length ip) 16 then ip else [].

(** [ip == nil] *)
Definition ip_nil (ip : IP) : bool := match ip with [] => true | _ => false end.

(** [bytes.Compare]: lexicographic, a prefix sorts first. *)
Fixpoint bytes_compare (a b : list Z) : comparison :=
  match a, b with
  | [], [] => Eq
  | [], _ :: _ => Lt
  | _ :: _, [] => Gt
  | x :: a', y :: b' =>
      match x ?= y with Eq => bytes_compare a' b' | c => c end
  end.

(** [IP.Equal]: an IPv4 address and its IPv4-in-IPv6 form are equal. *)
Definition IP_Equal (a b : IP) : bool :=
  if Nat.eqb (length a) (length b) then bool_decide (a = b)
  else if Nat.eqb (length a) 4 && Nat.eqb (length b) 16 then
    bool_decide (take 12 b = v4InV6Prefix) && bool_decide (a = drop 12 b)
  else if Nat.eqb (length a) 16 && Nat.eqb (length b) 4 then
    bool_decide (take 12 a = v4InV6Prefix) && bool_decide (drop 12 a = b)
  else false.

(** ** [math/big] *)
Definition SetBytes (bs : list Z) : Z := foldl (λ acc b, acc * 256 + b) 0 bs.

(** Big-endian bytes of the low [8 * n] bits. *)
Fixpoint be_bytes (n : nat) (z : Z) : list Z :=
  match n with
  | O => []
  | S n' => be_bytes n' (z / 256) ++ [z mod 256]
  end.

(** [x.FillBytes(buf)] writes the absolute value, and panics when it does not fit. *)
Definition FillBytes (z : Z) (n : nat) : Result (list Z) :=
  if Z.abs z <? 256 ^ Z.of_nat n then Ok (be_bytes n (Z.abs z)) else Panic.

(** [x.Int64()]: the low 64 bits of the magnitude, with the sign. *)
Definition big_Int64 (z : Z) : Z := wrap64 (Z.sgn z * (Z.abs z mod two64)).

(** ** Parsing: [net/netip.ParseAddr] *)
Definition is_digit (c : ascii) : bool := (48 <=? ord c) && (ord c <=? 57).

Definition hex_val (c : ascii) : option Z :=
  let n := ord c in
  if (48 <=? n) && (n <=? 57) then Some (n - 48)
  else if (97 <=? n) && (n <=? 102) then Some (n - 97 + 10)
  else if (65 <=? n) && (n <=? 70) then Some (n - 65 + 10)
  else None.

(** [parseIPv4Fields]: [fields] are the octets already closed by a dot. *)
Fixpoint parseIPv4Fields (s : string) (fields : list Z) (val digLen : Z)
  : option (list Z) :=
  match s with
  | EmptyString =>
      if Nat.ltb (length fields) 3 then None else Some (fields ++ [val])
  | String c s' =>
      if is_digit c then
        if (digLen =? 1) && (val =? 0) then None
        else let val' := val * 10 + (ord c - 48) in
             if 255 <? val' then None
             else parseIPv4Fields s' fields val' (digLen + 1)
      else if decide (c = "."%char) then
        if (digLen =? 0) || str_empty s' then None
        else if Nat.eqb (length fields) 3 then None
        else parseIPv4Fields s' (fields ++ [val]) 0 0
      else None
  end.

(** The hexadecimal digits at the head of [s]: value, count, rest. *)
Fixpoint scanHex (s : string) (off acc : Z) : option (Z * Z * string) :=
  match s with
  | EmptyString => Some (acc, off, s)
  | String c s' =>
      match hex_val c with
      | None => Some (acc, off, s)
      | Some d =>
          let acc' := acc * 16 + d in
          if 3 <? off then None
          else if 65535 <? acc' then None
          else scanHex s' (off + 1) acc'
      end
  end.

(** The group loop of [parseIPv6]: [k] groups of the 8 are still free, [ip]
    holds the bytes read, [ell] the position of the ellipsis. *)
Fixpoint parseIPv6_loop (k : nat) (s : string) (ip : list Z) (ell : option nat)
  : option (list Z * option nat * string) :=
  match k with
  | O => Some (ip, ell, s)
  | S k' =>
      match scanHex s 0 0 with
      | None => None
      | Some (acc, off, rest) =>
          if off =? 0 then None
          else match rest with
          | EmptyString => Some (ip ++ [acc / 256; acc mod 256], ell, EmptyString)
          | String c rest' =>
              if decide (c = "."%char) then
                if bool_decide (ell = None) && negb (Nat.eqb (length ip) 12) then None
                else if Nat.ltb 16 (length ip + 4) then None
                else match parseIPv4Fields s [] 0 0 with
                     | None => None
                     | Some f => Some (ip ++ f, ell, EmptyString)
                     end
              else if decide (c = ":"%char) then
                let ip' := ip ++ [acc / 256; acc mod 256] in
                match rest' with
                | EmptyString => None
                | String c2 rest'' =>
                    if decide (c2 = ":"%char) then
                      match ell with
                      | Some _ => None
                      | None =>
                          if str_empty rest'' then Some (ip', Some (length ip'), EmptyString)
                          else parseIPv6_loop k' rest'' ip' (Some (length ip'))
                      end
                    else parseIPv6_loop k' rest' ip' ell
                end
              else None
          end
      end
  end.

(** Expand the ellipsis and check the total length. *)
Definition parseIPv6_finish (r : option (list Z * option nat * string)) : option (list Z) :=
  match r with
  | None => None
  | Some (ip, ell, s) =>
      if negb (str_empty s) then None
      else if Nat.ltb (length ip) 16 then
        match ell with
        | None => None
        | Some e => Some (take e ip ++ replicate (16 - length ip) 0 ++ drop e ip)
        end
      else match ell with Some _ => None | None => Some ip end
  end.

(** [parseIPv6] on text without a zone. *)
Definition parseIPv6_nozone (s : string) : option (list Z) :=
  match s with
  | String ":" (String ":" s') =>
      if str_empty s' then Some (replicate 16 0)
      else parseIPv6_finish (parseIPv6_loop 8 s' [] (Some 0%nat))
  | _ => parseIPv6_finish (parseIPv6_loop 8 s [] None)
  end.

(** [netip.Addr]: an IPv4 address, or an IPv6 address with a zone. *)
Inductive Addr :=
| Addr4 (b : list Z)
| Addr6 (b : list Z) (zone : string).

Definition parseIPv6 (s : string) : option Addr :=
  match CutByte "%" s with
  | Some (a, zone) =>
      if str_empty zone then None
      else match parseIPv6_nozone a with Some b => Some (Addr6 b zone) | None => None end
  | None => match parseIPv6_nozone s with Some b => Some (Addr6 b "") | None => None end
  end.

Definition parseIPv4 (s : string) : option Addr :=
  match parseIPv4Fields s [] 0 0 with Some b => Some (Addr4 b) | None => None end.

(** [netip.ParseAddr] decides the family on the first [.], [:] or [%]. *)
Fixpoint addr_kind (s : string) : option ascii :=
  match s with
  | EmptyString => None
  | String c s' =>
      if decide (c = "."%char) then Some c
      else if decide (c = ":"%char) then Some c
      else if decide (c = "%"%char) then Some c
      else addr_kind s'
  end.

Definition ParseAddr (s : string) : option Addr :=
  match addr_kind s with
  | Some "."%char => parseIPv4 s
  | Some ":"%char => parseIPv6 s
  | _ => None
  end.

Definition Addr_zone (a : Addr) : string :=
  match a with Addr4 _ => "" | Addr6 _ z => z end.
Definition As16 (a : Addr) : list Z :=
  match a with Addr4 b => v4InV6Prefix ++ b | Addr6 b _ => b end.
Definition BitLen (a : Addr) : Z :=
  match a with Addr4 _ => 32 | Addr6 _ _ => 128 end.

(** [net.ParseIP]: always 16 bytes, nil for text that is no address. *)
Definition ParseIP (s : string) : IP :=
  match ParseAddr s with
  | Some a => if str_empty (Addr_zone a) then As16 a else []
  | None => []
  end.

(** ** Printing *)
Definition hex_digit (d : Z) : ascii :=
  ascii_of_nat (Z.to_nat (if d <? 10 then 48 + d else 97 + (d - 10))).

(** [appendDecimal] of an octet. *)
Definition appendDecimal (x : Z) : string :=
  (if 100 <=? x then String (hex_digit (x / 100)) "" else "") +:+
  (if 10 <=? x then String (hex_digit (x / 10 mod 10)) "" else "") +:+
  String (hex_digit (x mod 10)) "".

(** [appendHex] of a 16-bit group. *)
Definition appendHex (x : Z) : string :=
  (if 4096 <=? x then String (hex_digit (x / 4096)) "" else "") +:+
  (if 256 <=? x then String (hex_digit (x / 256 mod 16)) "" else "") +:+
  (if 16 <=? x then String (hex_digit (x / 16 mod 16)) "" else "") +:+
  String (hex_digit (x mod 16)) "".

Definition string4 (b : list Z) : string := Join (appendDecimal <$> b) ".".

(** The 16-bit groups of an IPv6 address, [ip.v6u16(i)]. *)
Fixpoint hextets (b : list Z) : list Z :=
  match b with
  | hi :: lo :: b' => (hi * 256 + lo) :: hextets b'
  | _ => []
  end.

Fixpoint zero_run (hs : list Z) : nat :=
  match hs with
  | h :: hs' => if h =? 0 then S (zero_run hs') else O
  | [] => O
  end.

(** The first longest run of at least two zero groups: start and end, [(255, 255)] for none. *)
Fixpoint best_run (hs : list Z) (i : nat) (best : nat * nat) : nat * nat :=
  match hs with
  | [] => best
  | _ :: hs' =>
      let l := zero_run hs in
      best_run hs' (S i)
        (if Nat.leb 2 l && Nat.ltb (best.2 - best.1) l then (i, i + l)%nat else best)
  end.

(** [appendTo6]'s print loop; [fuel] bounds the 8 groups. *)
Fixpoint appendTo6_loop (fuel : nat) (hs : list Z) (i zs ze : nat) : string :=
  match fuel with
  | O => ""
  | S f =>
      if Nat.leb 8 i then ""
      else if Nat.eqb i zs then
        "::" +:+ (if Nat.leb 8 ze then ""
                  else appendHex (nth ze hs 0) +:+ appendTo6_loop f hs (S ze) zs ze)
      else (if Nat.ltb 0 i then ":" else "") +:+ appendHex (nth i hs 0) +:+
           appendTo6_loop f hs (S i) zs ze
  end.

Definition string6 (b : list Z) : string :=
  let hs := hextets b in
  let '(zs, ze) := best_run hs 0 (255, 255)%nat in
  appendTo6_loop 8 hs 0 zs ze.

(** Two hexadecimal digits per byte. *)
Fixpoint hexString (b : list Z) : string :=
  match b with
  | [] => ""
  | x :: b' => String (hex_digit (x / 16)) (String (hex_digit (x mod 16)) (hexString b'))
  end.

(** [IP.String] *)
Definition IP_String (ip : IP) : string :=
  match ip with
  | [] => "<nil>"
  | _ =>
      match To4 ip with
      | [] => if Nat.eqb (length ip) 16 then string6 ip else "?" +:+ hexString ip
      | p4 => string4 p4
      end
  end.

(** ** Masks and networks *)
Record IPNet := { IPNet_IP : IP; IPNet_Mask : IP }.

(** [dtoi]: a decimal prefix of the text, refused from 0xFFFFFF on. *)
Fixpoint dtoi (s : string) (n i : Z) : option (Z * Z * string) :=
  match s with
  | String c s' =>
      if is_digit c then
        let n' := n * 10 + (ord c - 48) in
        if 16777215 <=? n' then None else dtoi s' n' (i + 1)
      else Some (n, i, s)
  | EmptyString => Some (n, i, s)
  end.

(** [net.CIDRMask(ones, bits)] for [bits] of 32 or 128. *)
Definition CIDRMask (ones : Z) (len : nat) : IP :=
  be_bytes len (256 ^ Z.of_nat len - 2 ^ (8 * Z.of_nat len - ones)).

Definition and_bytes (a b : list Z) : list Z := zip_with Z.land a b.

(** [IP.Mask] *)
Definition IP_Mask (ip mask : IP) : IP :=
  let mask := if Nat.eqb (length mask) 16 && Nat.eqb (length ip) 4 &&
                 bool_decide (take 12 mask = replicate 12 255)
              then drop 12 mask else mask in
  let ip := if Nat.eqb (length mask) 4 && Nat.eqb (length ip) 16 &&
               bool_decide (take 12 ip = v4InV6Prefix)
            then drop 12 ip else ip in
  if Nat.eqb (length ip) (length mask) then and_bytes ip mask else [].

Definition ParseCIDR (s : string) : Result (IP * IPNet) :=
  match CutByte "/" s with
  | None => Err (Errorf "invalid CIDR address")
  | Some (addr, mask) =>
      match ParseAddr addr with
      | None => Err (Errorf "invalid CIDR address")
      | Some a =>
          if negb (str_empty (Addr_zone a)) then Err (Errorf "invalid CIDR address")
          else match dtoi mask 0 0 with
          | Some (n, i, EmptyString) =>
              if (i =? 0) || (BitLen a <? n) then Err (Errorf "invalid CIDR address")
              else
                let m := CIDRMask n (Z.to_nat (BitLen a / 8)) in
                Ok (As16 a, {| IPNet_IP := IP_Mask (As16 a) m; IPNet_Mask := m |})
          | _ => Err (Errorf "invalid CIDR address")
          end
      end
  end.

Fixpoint lead_ones (bits : nat) (v : Z) : nat :=
  match bits with
  | O => O
  | S b => if Z.testbit v (Z.of_nat b) then S (lead_ones b v) else O
  end.

(** [simpleMaskLength]: the ones of a contiguous mask, [-1] otherwise. *)
Fixpoint simpleMaskLength (mask : IP) : Z :=
  match mask with
  | [] => 0
  | v :: rest =>
      if v =? 255 then
        let r := simpleMaskLength rest in if r =? -1 then -1 else 8 + r
      else
        let n := lead_ones 8 v in
        if negb (v =? 256 - 2 ^ (8 - Z.of_nat n)) then -1
        else if bool_decide (Forall (λ b, b = 0) rest) then Z.of_nat n else -1
  end.

(** [IPMask.Size]: [(0, 0)] for a mask that is not a prefix. *)
Definition Mask_Size (mask : IP) : Z * Z :=
  let ones := simpleMaskLength mask in
  if ones =? -1 then (0, 0) else (ones, 8 * Z.of_nat (length mask)).

(** [networkNumberAndMask] *)
Definition networkNumberAndMask (n : IPNet) : IP * IP :=
  let ip4 := To4 (IPNet_IP n) in
  let ip := if ip_nil ip4 then IPNet_IP n else ip4 in
  if ip_nil ip4 && negb (Nat.eqb (length (IPNet_IP n)) 16) then ([], [])
  else
    let m := IPNet_Mask n in
    if Nat.eqb (length m) 4 then
      (if Nat.eqb (length ip) 4 then (ip, m) else ([], []))
    else if Nat.eqb (length m) 16 then
      (if Nat.eqb (length ip) 4 then (ip, drop 12 m) else (ip, m))
    else ([], []).

(** [IPNet.Contains] *)
Definition IPNet_Contains (n : IPNet) (ip : IP) : bool :=
  let '(nn, m) := networkNumberAndMask n in
  let x4 := To4 ip in
  let ip := if ip_nil x4 then ip else x4 in
  if negb (Nat.eqb (length ip) (length nn)) then false
  else bool_decide (and_bytes nn m = and_bytes ip m).

(** [IPNet.String]: address, slash, prefix length, or the mask in hexadecimal
    when it is not a prefix. *)
Definition IPNet_String (n : IPNet) : string :=
  let '(nn, m) := networkNumberAndMask n in
  if ip_nil nn || ip_nil m then "<nil>"
  else let l := simpleMaskLength m in
       if l =? -1 then IP_String nn +:+ "/" +:+ hexString m
       else IP_String nn +:+ "/" +:+ Itoa l.

(** ** Big-endian bytes and integers *)
Section bytes.
Lemma SetBytes_snoc bs b : SetBytes (bs ++ [b]) = SetBytes bs * 256 + b.
Proof. unfold SetBytes. by rewrite foldl_app. Qed.

Lemma SetBytes_bound bs :
  bytes_ok bs → 0 <= SetBytes bs < 256 ^ Z.of_nat (length bs).
Proof.
  induction bs as [|b bs IH] using rev_ind; [done|].
  intros [Hbs Hb]%Forall_app. apply Forall_cons in Hb as [Hb _]; unfold is_byte in Hb.
  specialize (IH Hbs). rewrite SetBytes_snoc, length_app, Nat.add_1_r.
  rewrite Nat2Z.inj_succ, Z.pow_succ_r by lia. lia.
Qed.

Lemma length_be_bytes n z : length (be_bytes n z) = n.
Proof. revert z. induction n; intros; cbn; [done|]. rewrite length_app, IHn. cbn. lia. Qed.

Lemma be_bytes_ok n z : bytes_ok (be_bytes n z).
Proof.
  revert z. induction n as [|n IH]; intros; cbn; [constructor|].
  apply Forall_app; split; [apply IH|]. apply Forall_singleton. unfold is_byte.
  apply Z.mod_pos_bound. lia.
Qed.

Lemma be_bytes_SetBytes bs : bytes_ok bs → be_bytes (length bs) (SetBytes bs) = bs.
Proof.
  induction bs as [|b bs IH] using rev_ind; [done|].
  intros [Hbs Hb]%Forall_app. apply Forall_cons in Hb as [Hb _]; unfold is_byte in Hb.
  rewrite length_app, Nat.add_1_r, SetBytes_snoc. cbn.
  rewrite Z.div_add_l, (Z.div_small b), Z.add_0_r by lia.
  rewrite Z.add_comm, Z_mod_plus_full, Z.mod_small by lia. by rewrite IH.
Qed.

Lemma SetBytes_be_bytes n z :
  0 <= z < 256 ^ Z.of_nat n → SetBytes (be_bytes n z) = z.
Proof.
  revert z. induction n as [|n IH]; intros z Hz; [cbn in *; lia|].
  cbn [be_bytes]. rewrite SetBytes_snoc, IH.
  - pose proof (Z.div_mod z 256). lia.
  - rewrite Nat2Z.inj_succ, Z.pow_succ_r in Hz by lia.
    split; [apply Z.div_pos; lia|]. apply Z.div_lt_upper_bound; lia.
Qed.

Lemma SetBytes_inj a b :
  bytes_ok a → bytes_ok b → length a = length b → SetBytes a = SetBytes b → a = b.
Proof.
  intros Ha Hb Hl He. rewrite <- (be_bytes_SetBytes a Ha), Hl, He.
  by apply be_bytes_SetBytes.
Qed.

Lemma FillBytes_Ok z n :
  0 <= z < 256 ^ Z.of_nat n → FillBytes z n = Ok (be_bytes n z).
Proof.
  intros Hz. unfold FillBytes. rewrite Z.abs_eq by lia.
  by rewrite (proj2 (Z.ltb_lt _ _)) by lia.
Qed.

Lemma big_Int64_small z : - two63 <= z < two63 → big_Int64 z = z.
Proof.
  intros Hz. unfold big_Int64.
  destruct (decide (z = - two63)) as [->|]; [reflexivity|].
  rewrite Z.mod_small by (unfold two63, two64 in *; lia).
  rewrite wrap64_small; rewrite (Z.mul_comm (Z.sgn z)), Z.abs_sgn; [done|lia].
Qed.
End bytes.

(** [bytes.Compare] on slices of one length is the order of the numbers. *)
Lemma SetBytes_cons x a : bytes_ok (x :: a) →
  SetBytes (x :: a) = x * 256 ^ Z.of_nat (length a) + SetBytes a.
Proof.
  induction a as [|b a IH] using rev_ind; intros Hok; [cbn; lia|].
  rewrite app_comm_cons, !SetBytes_snoc, IH.
  - rewrite length_app, Nat.add_1_r, Nat2Z.inj_succ, Z.pow_succ_r by lia. lia.
  - rewrite app_comm_cons in Hok. by apply Forall_app in Hok as [? _].
Qed.

Lemma bytes_compare_SetBytes a b :
  bytes_ok a → bytes_ok b → length a = length b →
  bytes_compare a b = (SetBytes a ?= SetBytes b).
Proof.
  revert b. induction a as [|x a IH]; intros [|y b] Ha Hb Hl; try done.
  rewrite !SetBytes_cons by done. apply Forall_cons in Ha as [Hx Ha], Hb as [Hy Hb].
  injection Hl as Hl. rewrite Hl.
  pose proof (SetBytes_bound a Ha). pose proof (SetBytes_bound b Hb). rewrite Hl in *.
  set (p := 256 ^ Z.of_nat (length b)) in *.
  cbn. rewrite IH by done. destruct (Z.compare_spec x y); subst; symmetry.
  - destruct (Z.compare_spec (SetBytes a) (SetBytes b)) as [He| |];
      [apply Z.compare_eq_iff|apply Z.compare_lt_iff|apply Z.compare_gt_iff]; lia.
  - apply Z.compare_lt_iff. nia.
  - apply Z.compare_gt_iff. nia.
Qed.

(** ** Scanning what was printed *)
Lemma Z_range_cases (P : Z → Prop) (n : nat) :
  Forall P (seqZ 0 (Z.of_nat n)) → ∀ d, 0 <= d < Z.of_nat n → P d.
Proof. intros HF d Hd. rewrite Forall_forall in HF. apply HF, elem_of_seqZ. lia. Qed.

Ltac digit_cases d H :=
  revert d H; refine (Z_range_cases _ 10 _); repeat constructor.
Ltac hexdigit_cases d H :=
  revert d H; refine (Z_range_cases _ 16 _); repeat constructor.

Section scan.
Lemma parseIPv4Fields_digit d s f v k : 0 <= d < 10 →
  parseIPv4Fields (String (hex_digit d) s) f v k =
  if (k =? 1) && (v =? 0) then None
  else if 255 <? v * 10 + d then None else parseIPv4Fields s f (v * 10 + d) (k + 1).
Proof. intros Hd. digit_cases d Hd. Qed.

Lemma hex_val_digit d : 0 <= d < 16 → hex_val (hex_digit d) = Some d.
Proof. intros Hd. hexdigit_cases d Hd. Qed.

Lemma hex_digit_plain d c : 0 <= d < 16 → c ∈ ["."; ":"; "%"; "/"; ";"; "-"]%char →
  hex_digit d ≠ c.
Proof.
  intros Hd Hc.
  assert (Forall (λ e, bool_decide (hex_digit d ≠ e) = true) ["."; ":"; "%"; "/"; ";"; "-"]%char) as HF
    by (hexdigit_cases d Hd).
  rewrite Forall_forall in HF. by apply HF, bool_decide_eq_true in Hc.
Qed.

Lemma scanHex_digit d s off acc : 0 <= d < 16 →
  scanHex (String (hex_digit d) s) off acc =
  if 3 <? off then None else if 65535 <? acc * 16 + d then None
  else scanHex s (off + 1) (acc * 16 + d).
Proof. intros Hd. cbn [scanHex]. by rewrite hex_val_digit. Qed.

Lemma parseIPv4Fields_digit_ok d s f v k : 0 <= d < 10 → k ≠ 1 ∨ v ≠ 0 →
  v * 10 + d <= 255 →
  parseIPv4Fields (String (hex_digit d) s) f v k = parseIPv4Fields s f (v * 10 + d) (k + 1).
Proof.
  intros Hd Hk Hv. rewrite parseIPv4Fields_digit by done.
  rewrite (proj2 (Z.ltb_ge 255 _)) by lia.
  destruct (k =? 1) eqn:E1; destruct (v =? 0) eqn:E2; bool_to_prop; cbn; (done || lia).
Qed.

(** An octet printed in decimal is read back, leaving the rest. *)
Lemma parseIPv4Fields_octet x rest f : is_byte x →
  ∃ k, 0 < k ∧ parseIPv4Fields (appendDecimal x +:+ rest) f 0 0 =
               parseIPv4Fields rest f x k.
Proof.
  unfold is_byte, appendDecimal. intros Hx.
  pose proof (Z.mod_pos_bound x 10 ltac:(lia)).
  pose proof (Z.mod_pos_bound (x / 10) 10 ltac:(lia)).
  pose proof (Z.div_mod x 10 ltac:(lia)). pose proof (Z.div_mod (x / 10) 10 ltac:(lia)).
  assert (x / 100 = x / 10 / 10) as H100 by (rewrite Z.div_div; done).
  assert (0 <= x / 10) by (apply Z.div_pos; lia).
  assert (0 <= x / 10 / 10) by (apply Z.div_pos; lia).
  destruct (100 <=? x) eqn:E1; destruct (10 <=? x) eqn:E2; bool_to_prop; try lia;
    cbn [String.append]; rewrite ?H100;
    [exists (0 + 1 + 1 + 1)|exists (0 + 1 + 1)|exists (0 + 1)]; (split; [lia|]);
    repeat rewrite parseIPv4Fields_digit_ok by lia; f_equal; lia.
Qed.

Definition not_hex_head (s : string) : Prop :=
  match s with EmptyString => True | String c _ => hex_val c = None end.

Lemma scanHex_stop s off acc : not_hex_head s → scanHex s off acc = Some (acc, off, s).
Proof. destruct s; cbn; [done|]. by intros ->. Qed.

(** One step of the scan on a printed digit that stays in range. *)
Lemma scanHex_digit_ok d s off acc : 0 <= d < 16 → off <= 3 → acc * 16 + d <= 65535 →
  scanHex (String (hex_digit d) s) off acc = scanHex s (off + 1) (acc * 16 + d).
Proof.
  intros. rewrite scanHex_digit by done.
  rewrite (proj2 (Z.ltb_ge 3 _)), (proj2 (Z.ltb_ge 65535 _)) by lia. done.
Qed.

(** A group printed in hexadecimal is read back, leaving the rest. *)
Lemma scanHex_group x rest : 0 <= x < 65536 → not_hex_head rest →
  ∃ k, 0 < k ∧ scanHex (appendHex x +:+ rest) 0 0 = Some (x, k, rest).
Proof.
  unfold appendHex. intros Hx Hrest.
  assert (x / 256 = x / 16 / 16) as -> by (rewrite Z.div_div; done).
  assert (x / 4096 = x / 16 / 16 / 16) as -> by (rewrite !Z.div_div; done).
  assert (0 <= x / 16) by (apply Z.div_pos; lia).
  assert (0 <= x / 16 / 16) by (apply Z.div_pos; lia).
  assert (0 <= x / 16 / 16 / 16) by (apply Z.div_pos; lia).
  pose proof (Z.mod_pos_bound x 16 ltac:(lia)).
  pose proof (Z.mod_pos_bound (x / 16) 16 ltac:(lia)).
  pose proof (Z.mod_pos_bound (x / 16 / 16) 16 ltac:(lia)).
  pose proof (Z.div_mod x 16 ltac:(lia)). pose proof (Z.div_mod (x / 16) 16 ltac:(lia)).
  pose proof (Z.div_mod (x / 16 / 16) 16 ltac:(lia)).
  destruct (4096 <=? x) eqn:E1; destruct (256 <=? x) eqn:E2; destruct (16 <=? x) eqn:E3;
    bool_to_prop; try lia; cbn [String.append];
    [exists 4|exists 3|exists 2|exists 1]; (split; [lia|]);
    repeat rewrite scanHex_digit_ok by lia;
    rewrite scanHex_stop by done; repeat f_equal; lia.
Qed.
End scan.

(** ** Round trips *)
Section roundtrip.
Definition unhex (g : Z) : list Z := [g / 256; g mod 256].
Definition group_ok (g : Z) : Prop := 0 <= g < 65536.

Lemma appendHex_head x : group_ok x →
  ∃ d s, 0 <= d < 16 ∧ appendHex x = String (hex_digit d) s.
Proof.
  unfold appendHex, group_ok. intros Hx.
  destruct (4096 <=? x) eqn:E1; destruct (256 <=? x) eqn:E2; destruct (16 <=? x) eqn:E3;
    bool_to_prop; try lia; cbn [String.append]; eexists _, _; (split; [|reflexivity]);
    try (apply Z.mod_pos_bound; lia).
  split; [apply Z.div_pos; lia|apply Z.div_lt_upper_bound; lia].
Qed.

Lemma string4_parse b0 b1 b2 b3 :
  is_byte b0 → is_byte b1 → is_byte b2 → is_byte b3 →
  parseIPv4Fields (string4 [b0; b1; b2; b3]) [] 0 0 = Some [b0; b1; b2; b3].
Proof.
  intros H0 H1 H2 H3. unfold string4. cbn [fmap list_fmap Join].
  set (s3 := appendDecimal b3). set (s2 := appendDecimal b2 +:+ String "." s3).
  set (s1 := appendDecimal b1 +:+ String "." s2).
  change (parseIPv4Fields (appendDecimal b0 +:+ String "." s1) [] 0 0 = Some [b0; b1; b2; b3]).
  destruct (parseIPv4Fields_octet b0 (String "." s1) [] H0) as (k0 & ? & ->).
  destruct (parseIPv4Fields_octet b1 (String "." s2) [b0] H1) as (k1 & ? & E1).
  destruct (parseIPv4Fields_octet b2 (String "." s3) [b0; b1] H2) as (k2 & ? & E2).
  destruct (parseIPv4Fields_octet b3 "" [b0; b1; b2] H3) as (k3 & ? & E3).
  rewrite str_app_nil_r in E3.
  assert (∀ x s, str_empty (appendDecimal x +:+ s) = false) as Hne.
  { intros x s. unfold appendDecimal. by destruct (100 <=? x), (10 <=? x). }
  pose proof (Hne b3 "") as Hne3. rewrite str_app_nil_r in Hne3.
  fold s1 in E1. fold s2 in E2. fold s3 in E3, Hne3.
  assert (∀ s f v k, 0 < k → str_empty s = false → length f ≠ 3%nat →
    parseIPv4Fields (String "." s) f v k = parseIPv4Fields s (f ++ [v]) 0 0) as Hdot.
  { intros s f v k Hk Hs Hf. cbn. rewrite Hs, (proj2 (Z.eqb_neq k 0)) by lia.
    by rewrite (proj2 (Nat.eqb_neq _ _)) by done. }
  rewrite Hdot by (done || apply Hne). cbn [app]. rewrite E1.
  rewrite Hdot by (done || apply Hne). cbn [app]. rewrite E2.
  rewrite Hdot by (done || apply Hne). cbn [app]. by rewrite E3.
Qed.

(** One group followed by a colon that is not an ellipsis. *)
Lemma parseIPv6_loop_colon k x s ip ell : group_ok x →
  s ≠ "" → (∀ s', s ≠ String ":" s') →
  parseIPv6_loop (S k) (appendHex x +:+ String ":" s) ip ell =
  parseIPv6_loop k s (ip ++ unhex x) ell.
Proof.
  intros Hx Hne Hnc. cbn [parseIPv6_loop].
  destruct (scanHex_group x (String ":" s) Hx eq_refl) as (n & Hn & ->).
  rewrite (proj2 (Z.eqb_neq n 0)) by lia.
  rewrite decide_False, decide_True by done.
  destruct s as [|c s]; [done|]. rewrite decide_False; [done|].
  intros ->. by eapply Hnc.
Qed.

(** One group followed by the ellipsis. *)
Lemma parseIPv6_loop_ellipsis k x s ip : group_ok x →
  parseIPv6_loop (S k) (appendHex x +:+ "::" +:+ s) ip None =
  let ip' := ip ++ unhex x in
  if str_empty s then Some (ip', Some (length ip'), "")
  else parseIPv6_loop k s ip' (Some (length ip')).
Proof.
  intros Hx. cbn [parseIPv6_loop String.append].
  destruct (scanHex_group x (String ":" (String ":" s)) Hx eq_refl) as (n & Hn & ->).
  rewrite (proj2 (Z.eqb_neq n 0)) by lia.
  rewrite decide_False, decide_True by done. by rewrite decide_True by done.
Qed.

Lemma Join_groups_head g gs : group_ok g →
  ∃ d s, 0 <= d < 16 ∧ Join (appendHex <$> g :: gs) ":" = String (hex_digit d) s.
Proof.
  intros Hg. destruct (appendHex_head g Hg) as (d & s & Hd & Hs).
  destruct gs as [|g' gs]; cbn [fmap list_fmap Join]; rewrite Hs; eexists _, _;
    (split; [exact Hd|]); reflexivity.
Qed.

(** Groups joined by colons up to the end of the text. *)
Lemma parseIPv6_groups gs : ∀ k ip ell,
  gs ≠ [] → Forall group_ok gs → (length gs <= k)%nat →
  parseIPv6_loop k (Join (appendHex <$> gs) ":") ip ell =
  Some (ip ++ mjoin (unhex <$> gs), ell, "").
Proof.
  induction gs as [|g gs IH]; [done|]. intros k ip ell _ [Hg Hgs]%Forall_cons Hk.
  destruct k as [|k]; [cbn in Hk; lia|]. destruct gs as [|g' gs].
  - cbn [fmap list_fmap Join]. cbn [parseIPv6_loop].
    destruct (scanHex_group g "" Hg I) as (n & Hn & E). rewrite str_app_nil_r in E.
    rewrite E, (proj2 (Z.eqb_neq n 0)) by lia. done.
  - cbn [fmap list_fmap]. rewrite Join_cons by done. cbn [String.append].
    apply Forall_cons in Hgs as Hgs'. destruct Hgs' as [Hg' _].
    destruct (Join_groups_head g' gs Hg') as (d & s & Hd & Hs). cbn [fmap list_fmap] in Hs, IH.
    rewrite parseIPv6_loop_colon, IH; try done.
    + cbn. by rewrite <- app_assoc.
    + cbn in *. lia.
    + by rewrite Hs.
    + intros s'. rewrite Hs. intros [= ? ?].
      by apply (hex_digit_plain d ":" Hd); [set_solver|].
Qed.

(** Groups, an ellipsis, and what follows it. *)
Lemma parseIPv6_groups_ellipsis gs : ∀ k ip s,
  gs ≠ [] → Forall group_ok gs → (length gs <= k)%nat →
  parseIPv6_loop k (Join (appendHex <$> gs) ":" +:+ "::" +:+ s) ip None =
  let ip' := ip ++ mjoin (unhex <$> gs) in
  if str_empty s then Some (ip', Some (length ip'), "")
  else parseIPv6_loop (k - length gs) s ip' (Some (length ip')).
Proof.
  induction gs as [|g gs IH]; [done|]. intros k ip s _ [Hg Hgs]%Forall_cons Hk.
  destruct k as [|k]; [cbn in Hk; lia|]. destruct gs as [|g' gs].
  - cbn [fmap list_fmap Join]. rewrite parseIPv6_loop_ellipsis by done.
    cbn. by rewrite Nat.sub_0_r.
  - cbn [fmap list_fmap]. rewrite Join_cons by done. cbn [String.append].
    rewrite str_app_assoc. cbn [String.append].
    apply Forall_cons in Hgs as Hgs'. destruct Hgs' as [Hg' _].
    destruct (Join_groups_head g' gs Hg') as (d & s' & Hd & Hs). cbn [fmap list_fmap] in Hs, IH.
    rewrite parseIPv6_loop_colon; try done.
    + change (String ":" (String ":" s)) with ("::" +:+ s).
      rewrite IH by (done || (cbn in *; lia)). cbn. by rewrite <- app_assoc.
    + by rewrite Hs.
    + rewrite Hs. intros s'' [= ? ?]. by apply (hex_digit_plain d ":" Hd); [set_solver|].
Qed.
End roundtrip.

Section roundtrip6.
(** What [best_run] returns: no run, or a run of zero groups. *)
Definition run_ok (hs : list Z) (r : nat * nat) : Prop :=
  r = (255, 255)%nat ∨
  (r.1 < r.2 <= length hs)%nat ∧ ∀ j, (r.1 <= j < r.2)%nat → hs !! j = Some 0.

Lemma zero_run_lookup hs j : (j < zero_run hs)%nat → hs !! j = Some 0.
Proof.
  revert j. induction hs as [|h hs IH]; intros j Hj; cbn in Hj; [lia|].
  destruct (h =? 0) eqn:E; [|lia]. bool_to_prop. subst.
  destruct j; [done|]. cbn. apply IH. lia.
Qed.

Lemma zero_run_length hs : (zero_run hs <= length hs)%nat.
Proof. induction hs as [|h hs IH]; cbn; [lia|]. destruct (h =? 0); lia. Qed.

Lemma best_run_ok pre hs best :
  run_ok (pre ++ hs) best → run_ok (pre ++ hs) (best_run hs (length pre) best).
Proof.
  revert pre best. induction hs as [|h hs IH]; intros pre best Hb; cbn [best_run]; [done|].
  replace (S (length pre)) with (length (pre ++ [h])) by (rewrite length_app; cbn; lia).
  replace (pre ++ h :: hs) with ((pre ++ [h]) ++ hs) in * by (by rewrite <- app_assoc).
  apply IH. destruct (_ && _) eqn:E; [|done]. bool_to_prop. right. cbn [fst snd].
  rewrite <- app_assoc. cbn [app]. pose proof (zero_run_length (h :: hs)).
  split; [rewrite length_app; lia|]. intros j Hj.
  rewrite lookup_app_r by lia. apply zero_run_lookup. lia.
Qed.

Lemma bytes16 (b : list Z) : length b = 16%nat →
  ∃ b0 b1 b2 b3 b4 b5 b6 b7 b8 b9 b10 b11 b12 b13 b14 b15,
    b = [b0; b1; b2; b3; b4; b5; b6; b7; b8; b9; b10; b11; b12; b13; b14; b15].
Proof.
  intros Hl. do 16 (destruct b as [|? b]; [done|]). destruct b; [|done].
  repeat eexists.
Qed.

Lemma bytes4 (b : list Z) : length b = 4%nat → ∃ b0 b1 b2 b3, b = [b0; b1; b2; b3].
Proof.
  intros Hl. do 4 (destruct b as [|? b]; [done|]). destruct b; [|done]. repeat eexists.
Qed.

Lemma groups8 (hs : list Z) : length hs = 8%nat →
  ∃ h0 h1 h2 h3 h4 h5 h6 h7, hs = [h0; h1; h2; h3; h4; h5; h6; h7].
Proof.
  intros Hl. do 8 (destruct hs as [|? hs]; [done|]). destruct hs; [|done].
  repeat eexists.
Qed.

Lemma length_hextets b : length b = 16%nat → length (hextets b) = 8%nat.
Proof. intros Hb. destruct (bytes16 b Hb) as (?&?&?&?&?&?&?&?&?&?&?&?&?&?&?&?&->). done. Qed.

Lemma hextets_ok n : ∀ b, length b = (2 * n)%nat → bytes_ok b →
  Forall group_ok (hextets b) ∧ mjoin (unhex <$> hextets b) = b.
Proof.
  induction n as [|n IH]; intros b Hl Hb.
  - by destruct b.
  - destruct b as [|x [|y b]]; [done|cbn in Hl; lia|].
    apply Forall_cons in Hb as [Hx Hb]. apply Forall_cons in Hb as [Hy Hb].
    destruct (IH b) as [Hg Hj]; [cbn in Hl; lia|done|].
    unfold is_byte in *. cbn [hextets fmap list_fmap]. split.
    + constructor; [unfold group_ok; lia|done].
    + change (unhex (x * 256 + y) ++ mjoin (unhex <$> hextets b) = x :: y :: b).
      rewrite Hj. unfold unhex. rewrite Z.div_add_l, (Z.div_small y), Z.add_0_r by lia.
      by rewrite Z.add_comm, Z_mod_plus_full, Z.mod_small by lia.
Qed.

(** The printed form: all groups, or two sides of the ellipsis. *)
Lemma appendTo6_plain hs : length hs = 8%nat →
  appendTo6_loop 8 hs 0 255 255 = Join (appendHex <$> hs) ":".
Proof.
  intros Hl. destruct (groups8 hs Hl) as (?&?&?&?&?&?&?&?&->). cbn -[appendHex].
  by rewrite ?str_app_nil_r.
Qed.

Lemma appendTo6_run hs zs ze : length hs = 8%nat → (zs < ze <= 8)%nat →
  appendTo6_loop 8 hs 0 zs ze =
  Join (appendHex <$> take zs hs) ":" +:+ "::" +:+ Join (appendHex <$> drop ze hs) ":".
Proof.
  intros Hl Hz. destruct (groups8 hs Hl) as (?&?&?&?&?&?&?&?&->).
  do 8 (destruct zs as [|zs]; [
    do 9 (destruct ze as [|ze]; [try lia; cbn -[appendHex];
      rewrite ?str_app_nil_r; repeat (rewrite ?str_app_assoc; cbn -[appendHex]); done |]); lia|]); lia.
Qed.

Lemma take_drop_run hs zs ze : length hs = 8%nat → (zs < ze <= 8)%nat →
  (∀ j, (zs <= j < ze)%nat → hs !! j = Some 0) →
  hs = take zs hs ++ replicate (ze - zs) 0 ++ drop ze hs.
Proof.
  intros Hl Hz Hzero. rewrite <- (take_drop zs hs) at 1. f_equal.
  rewrite <- (take_drop (ze - zs) (drop zs hs)) at 1. rewrite drop_drop.
  replace (zs + (ze - zs))%nat with ze by lia. f_equal.
  apply list_eq_same_length with (n := (ze - zs)%nat).
  - by rewrite length_replicate.
  - rewrite length_take, length_drop. lia.
  - intros i x y Hi Hx Hy. rewrite lookup_take_lt in Hx by lia.
    rewrite lookup_drop, Hzero in Hx by lia.
    apply lookup_replicate in Hy as [-> _]. by simplify_eq.
Qed.
End roundtrip6.

Section roundtrip_main.
Lemma length_mjoin_unhex gs : length (mjoin (unhex <$> gs)) = (2 * length gs)%nat.
Proof.
  induction gs as [|g gs IH]; [done|].
  change (length (unhex g ++ mjoin (unhex <$> gs)) = (2 * S (length gs))%nat).
  rewrite length_app, IH. cbn. lia.
Qed.

Lemma mjoin_unhex_app gs gs' :
  mjoin (unhex <$> gs ++ gs') = mjoin (unhex <$> gs) ++ mjoin (unhex <$> gs').
Proof. by rewrite fmap_app, join_app. Qed.

Lemma mjoin_unhex_zeros n : mjoin (unhex <$> replicate n 0) = replicate (2 * n) 0.
Proof.
  induction n as [|n IH]; [done|]. replace (2 * S n)%nat with (S (S (2 * n))) by lia.
  cbn [replicate]. rewrite <- IH. done.
Qed.

Lemma parseIPv6_nozone_plain g gs : group_ok g →
  parseIPv6_nozone (Join (appendHex <$> g :: gs) ":") =
  parseIPv6_finish (parseIPv6_loop 8 (Join (appendHex <$> g :: gs) ":") [] None).
Proof.
  intros Hg. destruct (Join_groups_head g gs Hg) as (d & s & Hd & ->).
  revert d Hd. refine (Z_range_cases _ 16 _); repeat constructor.
Qed.

Lemma parseIPv6_nozone_left g gs s : group_ok g →
  parseIPv6_nozone (Join (appendHex <$> g :: gs) ":" +:+ s) =
  parseIPv6_finish (parseIPv6_loop 8 (Join (appendHex <$> g :: gs) ":" +:+ s) [] None).
Proof.
  intros Hg. destruct (Join_groups_head g gs Hg) as (d & s' & Hd & ->).
  revert d Hd. refine (Z_range_cases _ 16 _); repeat constructor.
Qed.

(** The two sides of the ellipsis are read back around the zero groups. *)
Lemma parse_ellipsis l n r : (0 < n)%nat → (length l + n + length r = 8)%nat →
  Forall group_ok l → Forall group_ok r →
  parseIPv6_nozone (Join (appendHex <$> l) ":" +:+ "::" +:+ Join (appendHex <$> r) ":") =
  Some (mjoin (unhex <$> l ++ replicate n 0 ++ r)).
Proof.
  intros Hn Hlen Hl Hr. rewrite !mjoin_unhex_app, mjoin_unhex_zeros.
  assert (str_empty (Join (appendHex <$> r) ":") = bool_decide (r = [])) as Hemp.
  { destruct r as [|g r]; [done|]. apply Forall_cons in Hr as [Hg _].
    by destruct (Join_groups_head g r Hg) as (d & s & Hd & ->). }
  assert (∀ e ip, (length ip + length r * 2 < 16)%nat → e = length ip →
    parseIPv6_finish (Some (ip ++ mjoin (unhex <$> r), Some e, "")) =
    Some (ip ++ replicate (16 - (length ip + 2 * length r)) 0 ++ mjoin (unhex <$> r))) as Hfin.
  { intros e ip Hlt ->. cbn -[Nat.ltb Nat.sub Nat.mul]. rewrite length_app, length_mjoin_unhex.
    rewrite (proj2 (Nat.ltb_lt _ _)) by lia. by rewrite take_app_length, drop_app_length. }
  destruct l as [|g l].
  - change (Join (appendHex <$> []) ":") with "".
    cbn [String.append parseIPv6_nozone]. rewrite Hemp.
    case_bool_decide as Hr0.
    + subst. cbn in Hlen. replace (2 * n)%nat with 16%nat by lia. done.
    + rewrite parseIPv6_groups by (done || lia). rewrite (Hfin 0%nat []); cbn [length] in *; [|lia|done].
      change (mjoin (unhex <$> [])) with (@nil Z). cbn [app].
      replace (16 - (0 + 2 * length r))%nat with (2 * n)%nat by lia. done.
  - apply Forall_cons in Hl as Hl'. destruct Hl' as [Hg _].
    rewrite parseIPv6_nozone_left by done.
    rewrite parseIPv6_groups_ellipsis by (done || (cbn in *; lia)). cbn zeta. rewrite Hemp.
    cbn [app]. case_bool_decide as Hr0.
    + subst. specialize (Hfin (length (mjoin (unhex <$> g :: l))) (mjoin (unhex <$> g :: l))).
      change (mjoin (unhex <$> [])) with (@nil Z) in *. rewrite app_nil_r in *.
      rewrite Hfin by (try done; rewrite length_mjoin_unhex; cbn in *; lia).
      rewrite length_mjoin_unhex. cbn [length] in *.
      match goal with |- context [replicate (16 - ?m)] =>
        replace (16 - m)%nat with (2 * n)%nat by lia end. by rewrite ?app_nil_r.
    + rewrite parseIPv6_groups by (done || (cbn in *; lia)).
      rewrite Hfin by (try done; rewrite length_mjoin_unhex; cbn in *; lia).
      rewrite length_mjoin_unhex. cbn [length] in *.
      match goal with |- context [replicate (16 - ?m)] =>
        replace (16 - m)%nat with (2 * n)%nat by lia end. by rewrite ?app_nil_r.
Qed.

Lemma string6_parse b : length b = 16%nat → bytes_ok b →
  parseIPv6_nozone (string6 b) = Some b.
Proof.
  intros Hl Hb. destruct (hextets_ok 8 b Hl Hb) as [Hg Hj].
  pose proof (length_hextets b Hl) as H8. unfold string6.
  pose proof (best_run_ok [] (hextets b) (255, 255)%nat (or_introl eq_refl)) as Hrun.
  cbn [app length] in Hrun. destruct (best_run (hextets b) 0 (255, 255)%nat) as [zs ze].
  destruct Hrun as [[= -> ->]|[Hz Hzero]]; cbn [fst snd] in *.
  - rewrite appendTo6_plain by done. destruct (hextets b) as [|g gs] eqn:E; [done|].
    apply Forall_cons in Hg as Hg'. destruct Hg' as [Hg' _].
    rewrite parseIPv6_nozone_plain by done.
    rewrite parseIPv6_groups by (done || lia). rewrite Hj. cbn [app parseIPv6_finish].
    by rewrite Hl.
  - rewrite appendTo6_run by (done || lia).
    rewrite (parse_ellipsis _ (ze - zs)).
    + rewrite <- take_drop_run by (done || lia). by rewrite Hj.
    + lia.
    + rewrite length_take, length_drop. lia.
    + by apply Forall_take.
    + by apply Forall_drop.
Qed.
End roundtrip_main.

(** ** The characters of a printed address *)
Section chars.
Definition specials : list ascii := ["."; ":"; "%"; "/"; ";"; "-"]%char.

Fixpoint digits_string (ds : list Z) : string :=
  match ds with [] => "" | d :: ds' => String (hex_digit d) (digits_string ds') end.

Definition hexs (s : string) : Prop :=
  ∃ ds, Forall (λ d, 0 <= d < 16) ds ∧ s = digits_string ds.

Lemma hexs_nil : hexs "".
Proof. by exists []. Qed.

Lemma hexs_cons d s : 0 <= d < 16 → hexs s → hexs (String (hex_digit d) s).
Proof. intros Hd (ds & Hds & ->). exists (d :: ds). by split; [constructor|]. Qed.

Lemma appendDecimal_hexs x : is_byte x → hexs (appendDecimal x).
Proof.
  unfold appendDecimal, is_byte. intros Hx.
  pose proof (Z.mod_pos_bound x 10 ltac:(lia)). pose proof (Z.mod_pos_bound (x / 10) 10 ltac:(lia)).
  assert (0 <= x / 100 < 3) by (split; [apply Z.div_pos; lia|apply Z.div_lt_upper_bound; lia]).
  destruct (100 <=? x), (10 <=? x); cbn [String.append];
    repeat (apply hexs_cons; [lia|]); apply hexs_nil.
Qed.

Lemma appendHex_hexs x : group_ok x → hexs (appendHex x).
Proof.
  unfold appendHex, group_ok. intros Hx.
  pose proof (Z.mod_pos_bound x 16 ltac:(lia)). pose proof (Z.mod_pos_bound (x / 16) 16 ltac:(lia)).
  pose proof (Z.mod_pos_bound (x / 256) 16 ltac:(lia)).
  assert (0 <= x / 4096 < 16) by (split; [apply Z.div_pos; lia|apply Z.div_lt_upper_bound; lia]).
  destruct (4096 <=? x), (256 <=? x), (16 <=? x); cbn [String.append];
    repeat (apply hexs_cons; [lia|]); apply hexs_nil.
Qed.

Lemma hexs_elem c s : c ∈ specials → hexs s → str_elem c s = false.
Proof.
  intros Hc (ds & Hds & ->). induction Hds as [|d ds Hd _ IH]; [done|].
  cbn. rewrite decide_False; [done|]. intros ->. by apply (hex_digit_plain d (hex_digit d)).
Qed.

Lemma addr_kind_hexs s t : hexs s → addr_kind (s +:+ t) = addr_kind t.
Proof.
  intros (ds & Hds & ->). induction Hds as [|d ds Hd _ IH]; [done|].
  cbn. rewrite !decide_False; [done|..]; apply hex_digit_plain; (done || set_solver).
Qed.

Lemma str_elem_Join c ws sep : str_elem c sep = false →
  Forall (λ w, str_elem c w = false) ws → str_elem c (Join ws sep) = false.
Proof.
  intros Hsep. induction 1 as [|w ws Hw Hws IH]; [done|].
  destruct ws as [|w' ws]; [done|]. rewrite Join_cons by done.
  by rewrite !str_elem_app, Hw, Hsep.
Qed.

Lemma Join_hex_elem c gs : c ∈ specials → c ≠ ":"%char → Forall group_ok gs →
  str_elem c (Join (appendHex <$> gs) ":") = false.
Proof.
  intros Hc Hcol Hgs. apply str_elem_Join; [cbn; by rewrite decide_False|].
  rewrite Forall_fmap. eapply Forall_impl; [exact Hgs|]. intros g Hg. cbn.
  by apply hexs_elem, appendHex_hexs.
Qed.

Lemma addr_kind_Join gs s : Forall group_ok gs →
  addr_kind (Join (appendHex <$> gs) ":" +:+ String ":" s) = Some ":"%char.
Proof.
  intros Hgs. destruct gs as [|g [|g' gs]]; [done|..];
    apply Forall_cons in Hgs as [Hg _]; cbn [fmap list_fmap Join];
    rewrite ?str_app_assoc, addr_kind_hexs by (by apply appendHex_hexs); done.
Qed.

(** The text of an IPv6 address starts an IPv6 parse and has no zone, mask
    or list separator. *)
Lemma string6_chars b : length b = 16%nat → bytes_ok b →
  addr_kind (string6 b) = Some ":"%char ∧
  ∀ c, c ∈ specials → c ≠ ":"%char → str_elem c (string6 b) = false.
Proof.
  intros Hl Hb. destruct (hextets_ok 8 b Hl Hb) as [Hg Hj].
  pose proof (length_hextets b Hl) as H8. unfold string6.
  pose proof (best_run_ok [] (hextets b) (255, 255)%nat (or_introl eq_refl)) as Hrun.
  cbn [app length] in Hrun. destruct (best_run (hextets b) 0 (255, 255)%nat) as [zs ze].
  destruct Hrun as [[= -> ->]|[Hz Hzero]]; cbn [fst snd] in *.
  - rewrite appendTo6_plain by done. split; [|intros; by apply Join_hex_elem].
    destruct (hextets b) as [|g [|g' gs]]; [done..|].
    apply Forall_cons in Hg as [Hg _]. cbn [fmap list_fmap]. rewrite Join_cons by done.
    by rewrite addr_kind_hexs by (by apply appendHex_hexs).
  - rewrite appendTo6_run by (done || lia). split.
    + apply (addr_kind_Join _ (":" +:+ _)). by apply Forall_take.
    + intros c Hc Hne. rewrite !str_elem_app, !Join_hex_elem
        by (done || (by apply Forall_take) || (by apply Forall_drop)).
      cbn. by rewrite !decide_False by done.
Qed.

Lemma string4_chars b : length b = 4%nat → bytes_ok b →
  addr_kind (string4 b) = Some "."%char ∧
  ∀ c, c ∈ specials → c ≠ "."%char → str_elem c (string4 b) = false.
Proof.
  intros Hl Hb. destruct (bytes4 b Hl) as (b0 & b1 & b2 & b3 & ->). unfold string4. split.
  - apply Forall_cons in Hb as [Hb0 _]. cbn [fmap list_fmap]. rewrite Join_cons by done.
    by rewrite addr_kind_hexs by (by apply appendDecimal_hexs).
  - intros c Hc Hne. apply str_elem_Join; [cbn; by rewrite decide_False|].
    rewrite Forall_fmap. eapply Forall_impl; [exact Hb|]. intros g Hg. cbn.
    by apply hexs_elem, appendDecimal_hexs.
Qed.
End chars.

(** ** The round trip of addresses *)
Lemma To4_cases ip : ip_ok ip →
  (To4 ip = [] ∧ length ip = 16%nat ∧ To16 ip = ip) ∨
  (length (To4 ip) = 4%nat ∧ bytes_ok (To4 ip) ∧ To16 ip = v4InV6Prefix ++ To4 ip).
Proof.
  intros [Hb [Hl|Hl]]; unfold To4, To16; rewrite Hl; cbn [Nat.eqb andb].
  - by right.
  - case_bool_decide as Hp; [|by left]. right. rewrite length_drop, Hl.
    split_and!; [done|by apply Forall_drop|]. by rewrite <- Hp, take_drop.
Qed.

Lemma IP_String_cases ip : ip_ok ip →
  (To4 ip = [] ∧ length ip = 16%nat ∧ IP_String ip = string6 ip) ∨
  (length (To4 ip) = 4%nat ∧ IP_String ip = string4 (To4 ip)).
Proof.
  intros Hok. unfold IP_String.
  destruct (To4_cases ip Hok) as [(H4 & Hl & _)|(H4 & _ & _)].
  - left. rewrite H4, Hl. by destruct ip.
  - right. split; [done|]. destruct ip as [|x ip]; [done|]. by destruct (To4 (x :: ip)).
Qed.

Theorem ParseIP_String ip : ip_ok ip → ParseIP (IP_String ip) = To16 ip.
Proof.
  intros Hok. unfold ParseIP, ParseAddr.
  destruct (IP_String_cases ip Hok) as [(H4 & Hl & ->)|(H4 & ->)].
  - destruct Hok as [Hb _]. destruct (string6_chars ip Hl Hb) as [-> Hc].
    unfold parseIPv6. rewrite CutByte_none by (apply Hc; [set_solver|done]).
    rewrite string6_parse by done. cbn. unfold To16. by rewrite Hl.
  - destruct (To4_cases ip Hok) as [(E & _)|(_ & Hb & ->)]; [by rewrite E in H4|].
    destruct (string4_chars _ H4 Hb) as [-> _]. unfold parseIPv4.
    destruct (bytes4 _ H4) as (b0 & b1 & b2 & b3 & E). rewrite E in *.
    repeat (apply Forall_cons in Hb as [? Hb]).
    by rewrite string4_parse by done.
Qed.

(** Distinct addresses have distinct texts. *)
Lemma IP_String_inj a b : ip_ok a → ip_ok b →
  IP_String a = IP_String b → To16 a = To16 b.
Proof. intros Ha Hb He. by rewrite <- (ParseIP_String a), <- (ParseIP_String b), He. Qed.

Lemma IP_String_plain ip c : ip_ok ip → c ∈ ["%"; "/"; ";"; "-"]%char →
  str_elem c (IP_String ip) = false.
Proof.
  intros Hok Hc. assert (c ∈ specials ∧ c ≠ "."%char ∧ c ≠ ":"%char) as (Hs & Hd & Hcol).
  { unfold specials. set_solver. }
  destruct (IP_String_cases ip Hok) as [(H4 & Hl & ->)|(H4 & ->)].
  - destruct Hok as [Hb _]. by apply string6_chars.
  - apply string4_chars; try done.
    destruct (To4_cases ip Hok) as [(E & _)|(_ & Hb & _)]; [by rewrite E in H4|done].
Qed.

(** ** What parsing returns *)
Section parse_ok.
Lemma parseIPv4Fields_ok s : ∀ f v k r,
  bytes_ok f → (length f <= 3)%nat → is_byte v →
  parseIPv4Fields s f v k = Some r → bytes_ok r ∧ length r = 4%nat.
Proof.
  unfold is_byte. induction s as [|c s IH]; intros f v k r Hf Hl Hv; cbn [parseIPv4Fields].
  - destruct (Nat.ltb_spec (length f) 3); [done|]. intros [= <-].
    rewrite length_app. cbn. split; [|lia]. apply Forall_app; split; [done|].
    by apply Forall_singleton.
  - unfold is_digit. destruct (_ && _) eqn:Ed; bool_to_prop.
    + destruct (_ && _); [done|]. destruct (255 <? _) eqn:E; [done|]. bool_to_prop.
      apply IH; (done || lia).
    + case_decide; [|done]. destruct (_ || _); [done|].
      destruct (Nat.eqb_spec (length f) 3); [done|]. apply IH; [|rewrite length_app; cbn; lia|lia].
      apply Forall_app; split; [done|]. by apply Forall_singleton.
Qed.

Lemma scanHex_ok s : ∀ off acc a o r, 0 <= acc < 65536 →
  scanHex s off acc = Some (a, o, r) → group_ok a.
Proof.
  unfold group_ok. induction s as [|c s IH]; intros off acc a o r Hacc; cbn [scanHex].
  - by intros [= <- <- <-].
  - destruct (hex_val c) as [d|] eqn:Hd; [|by intros [= <- <- <-]].
    destruct (3 <? off); [done|]. destruct (65535 <? _) eqn:E; [done|]. bool_to_prop.
    apply IH. assert (0 <= d); [|lia]. unfold hex_val in Hd.
    repeat (destruct (_ && _) eqn:? in Hd; bool_to_prop; simplify_eq; try lia).
Qed.

Lemma unhex_ok a : group_ok a → bytes_ok (unhex a).
Proof.
  intros Ha. unfold group_ok in Ha. unfold bytes_ok, unhex, is_byte.
  rewrite !Forall_cons. pose proof (Z.mod_pos_bound a 256 ltac:(lia)).
  assert (0 <= a / 256 < 256) by (split; [apply Z.div_pos|apply Z.div_lt_upper_bound]; lia).
  rewrite Forall_nil. done.
Qed.

Definition loop_ok (r : list Z * option nat * string) : Prop :=
  bytes_ok r.1.1 ∧ (length r.1.1 <= 16)%nat ∧
  (∀ e, r.1.2 = Some e → (e <= length r.1.1)%nat).

Lemma parseIPv6_loop_ok k : ∀ s ip ell r,
  loop_ok (ip, ell, s) → (length ip + 2 * k = 16)%nat →
  parseIPv6_loop k s ip ell = Some r → loop_ok r.
Proof.
  induction k as [|k IH]; intros s ip ell r Hok Hlen; cbn [parseIPv6_loop].
  { by intros [= <-]. }
  destruct (scanHex s 0 0) as [[[a o] rest]|] eqn:Hscan; [|done].
  apply scanHex_ok in Hscan; [|lia]. destruct Hok as (Hb & Hl & He); cbn [fst snd] in *.
  assert (bytes_ok (ip ++ unhex a)) as Hb' by (apply Forall_app; split; [done|by apply unhex_ok]).
  assert (length (ip ++ unhex a) = (length ip + 2)%nat) as Hl' by (rewrite length_app; done).
  assert (∀ s', loop_ok (ip ++ unhex a, ell, s')) as Hnext.
  { intros s'. split_and!; cbn; [done|lia|]. intros e Hell. specialize (He e Hell). lia. }
  assert (∀ s', loop_ok (ip ++ unhex a, Some (length (ip ++ unhex a)), s')) as Hell.
  { intros s'. split_and!; cbn; [done|lia|]. intros e [= <-]. done. }
  change [a / 256; a mod 256] with (unhex a).
  destruct (o =? 0); [done|]. destruct rest as [|c rest]; [by intros [= <-]|].
  case_decide.
  - destruct (_ && _); [done|]. destruct (Nat.ltb_spec 16 (length ip + 4)); [done|].
    destruct (parseIPv4Fields s [] 0 0) as [f|] eqn:Hf; [|done]. intros [= <-].
    apply parseIPv4Fields_ok in Hf as [Hfb Hfl]; [|constructor|cbn; lia|unfold is_byte; lia].
    split_and!; cbn [fst snd]; [by apply Forall_app_2|rewrite length_app; lia|].
    intros e ->. specialize (He e eq_refl). rewrite length_app. lia.
  - case_decide; [|done]. destruct rest as [|c2 rest]; [done|]. case_decide.
    + destruct ell; [done|]. destruct (str_empty rest); [by intros [= <-]|].
      apply IH; [done|lia].
    + apply IH; [done|lia].
Qed.

Lemma parseIPv6_finish_ok r b : (∀ x, r = Some x → loop_ok x) →
  parseIPv6_finish r = Some b → bytes_ok b ∧ length b = 16%nat.
Proof.
  destruct r as [[[ip ell] s]|]; [|done]. intros Hok. specialize (Hok _ eq_refl).
  destruct Hok as (Hb & Hl & He). cbn [fst snd parseIPv6_finish] in *.
  destruct (negb _); [done|]. destruct (Nat.ltb_spec (length ip) 16); destruct ell as [e|]; try done.
  - intros [= <-]. specialize (He e eq_refl). rewrite !length_app, length_replicate, length_take, length_drop.
    split; [|lia]. repeat apply Forall_app_2; [by apply Forall_take| |by apply Forall_drop].
    apply Forall_replicate. unfold is_byte. lia.
  - intros [= <-]. split; [done|lia].
Qed.

Lemma parseIPv6_nozone_ok s b : parseIPv6_nozone s = Some b → bytes_ok b ∧ length b = 16%nat.
Proof.
  assert (loop_ok ([], Some 0%nat, s) ∧ loop_ok ([], None, s)) as [H0 H1].
  { split; split_and!; cbn; try done; try lia; [constructor|..|constructor]. by intros e [= <-]. }
  assert (∀ s' e, (e = Some 0%nat ∨ e = None) →
    parseIPv6_finish (parseIPv6_loop 8 s' [] e) = Some b → bytes_ok b ∧ length b = 16%nat) as Hgen.
  { intros s' e He. apply parseIPv6_finish_ok. intros x. apply parseIPv6_loop_ok; [|done].
    by destruct He as [-> | ->]. }
  unfold parseIPv6_nozone.
  repeat (case_match; try (apply Hgen; by auto)); intros [= <-].
  split; [|done]. apply (Forall_replicate _ 16 0). unfold is_byte. lia.
Qed.

Definition Addr_ok (a : Addr) : Prop :=
  match a with
  | Addr4 b => bytes_ok b ∧ length b = 4%nat
  | Addr6 b _ => bytes_ok b ∧ length b = 16%nat
  end.

Lemma ParseAddr_ok s a : ParseAddr s = Some a → Addr_ok a.
Proof.
  unfold ParseAddr, parseIPv4, parseIPv6.
  repeat (case_match; try done); intros [= <-]; cbn;
    eauto using parseIPv6_nozone_ok.
  eapply parseIPv4Fields_ok; [..|eassumption]; [constructor|cbn; lia|unfold is_byte; lia].
Qed.

Lemma As16_ok a : Addr_ok a → bytes_ok (As16 a) ∧ length (As16 a) = 16%nat.
Proof.
  destruct a as [b|b z]; cbn -[app]; [|done]. intros [Hb Hl]. rewrite length_app, Hl.
  split; [|done]. apply Forall_app; split; [|done]. unfold v4InV6Prefix, is_byte.
  rewrite !Forall_cons, Forall_nil. lia.
Qed.
End parse_ok.

(** [net.ParseIP] gives nil or a 16-byte address. *)
Lemma ParseIP_ok s : ParseIP s = [] ∨ (ip_ok (ParseIP s) ∧ length (ParseIP s) = 16%nat).
Proof.
  unfold ParseIP. destruct (ParseAddr s) as [a|] eqn:Ha; [|by left].
  destruct (str_empty _); [|by left]. right.
  apply ParseAddr_ok, As16_ok in Ha as [Hb Hl]. by repeat split; [|right|].
Qed.

(** ** Networks *)
Section cidr.
Lemma testbit_cat x b i : is_byte b → 0 <= i →
  Z.testbit (x * 256 + b) i = if i <? 8 then Z.testbit b i else Z.testbit x (i - 8).
Proof.
  unfold is_byte. intros Hb Hi. change 256 with (2 ^ 8) in *. destruct (i <? 8) eqn:E; bool_to_prop.
  - rewrite <- (Z.mod_pow2_bits_low _ 8) by lia.
    rewrite Z.add_comm, Z_mod_plus_full. by rewrite Z.mod_pow2_bits_low by lia.
  - replace i with ((i - 8) + 8) at 1 by lia. rewrite <- Z.div_pow2_bits by lia.
    rewrite Z.div_add_l, (Z.div_small b), Z.add_0_r by lia. done.
Qed.

Lemma land_byte b c : is_byte b → is_byte c → is_byte (Z.land b c).
Proof.
  unfold is_byte. intros Hb Hc. split; [apply Z.land_nonneg; lia|].
  destruct (decide (Z.land b c = 0)) as [->|]; [lia|]. change 256 with (2 ^ 8).
  apply Z.log2_lt_pow2; [pose proof (Z.land_nonneg b c); lia|].
  pose proof (Z.log2_land b c ltac:(lia) ltac:(lia)).
  assert (Z.log2 b < 8); [|lia].
  destruct (decide (b = 0)) as [->|]; [cbn; lia|]. apply Z.log2_lt_pow2; lia.
Qed.

Lemma land_cat x y b c : is_byte b → is_byte c →
  Z.land (x * 256 + b) (y * 256 + c) = Z.land x y * 256 + Z.land b c.
Proof.
  intros Hb Hc. apply Z.bits_inj'. intros i Hi.
  rewrite Z.land_spec, !testbit_cat by auto using land_byte.
  destruct (i <? 8); by rewrite Z.land_spec.
Qed.

Lemma SetBytes_and a b : bytes_ok a → bytes_ok b → length a = length b →
  SetBytes (and_bytes a b) = Z.land (SetBytes a) (SetBytes b).
Proof.
  revert b. induction a as [|x a IH] using rev_ind; intros b Ha Hb Hl.
  - by destruct b.
  - destruct b as [|y b _] using rev_ind; [rewrite length_app in Hl; cbn in Hl; lia|].
    rewrite !length_app in Hl. cbn in Hl.
    apply Forall_app in Ha as [Ha Hx], Hb as [Hb Hy].
    apply Forall_cons in Hx as [Hx _], Hy as [Hy _]. unfold and_bytes.
    rewrite zip_with_app by lia. cbn [zip_with]. rewrite !SetBytes_snoc.
    rewrite land_cat by done. f_equal. f_equal. apply IH; (done || lia).
Qed.

Lemma and_bytes_ok a b : bytes_ok a → bytes_ok b → bytes_ok (and_bytes a b).
Proof.
  intros Ha. revert b. induction Ha as [|x a Hx Ha IH]; intros b Hb; [apply Forall_nil_2|].
  destruct Hb as [|y b Hy Hb]; [apply Forall_nil_2|]. cbn. apply Forall_cons.
  split; [by apply land_byte|by apply IH].
Qed.

(** The number of a prefix mask, and masking clears the host bits. *)
Lemma SetBytes_CIDRMask n len : 0 <= n <= 8 * Z.of_nat len →
  SetBytes (CIDRMask n len) = 2 ^ (8 * Z.of_nat len) - 2 ^ (8 * Z.of_nat len - n).
Proof.
  intros Hn. unfold CIDRMask.
  assert (256 ^ Z.of_nat len = 2 ^ (8 * Z.of_nat len)) as E.
  { change 256 with (2 ^ 8). rewrite <- Z.pow_mul_r by lia. done. }
  rewrite SetBytes_be_bytes; [by rewrite E|]. rewrite E.
  pose proof (Z.pow_le_mono_r 2 (8 * Z.of_nat len - n) (8 * Z.of_nat len)).
  pose proof (Z.pow_pos_nonneg 2 (8 * Z.of_nat len - n)). lia.
Qed.

Lemma land_prefix a w k : 0 <= k <= w → 0 <= a < 2 ^ w →
  Z.land a (2 ^ w - 2 ^ k) = a / 2 ^ k * 2 ^ k.
Proof.
  intros Hk Ha. replace (2 ^ w - 2 ^ k) with (Z.ones (w - k) * 2 ^ k).
  - rewrite <- !Z.shiftl_mul_pow2, <- Z.shiftr_div_pow2 by lia.
    apply Z.bits_inj'. intros i Hi. rewrite Z.land_spec.
    destruct (decide (i < k)) as [Hlt|Hge].
    { rewrite !(Z.shiftl_spec_low _ k i Hlt). by rewrite andb_false_r. }
    rewrite !Z.shiftl_spec, Z.shiftr_spec by lia. replace (i - k + k) with i by lia.
    destruct (decide (i - k < w - k)).
    + rewrite Z.ones_spec_low by lia. by rewrite andb_true_r.
    + rewrite Z.ones_spec_high, andb_false_r by lia. symmetry.
      destruct (decide (a = 0)) as [->|]; [apply Z.bits_0|].
      apply Z.bits_above_log2; [lia|]. enough (Z.log2 a < w) by lia.
      apply Z.log2_lt_pow2; lia.
  - rewrite Z.ones_equiv, <- Z.sub_1_r, Z.mul_sub_distr_r, <- Z.pow_add_r by lia.
    f_equal; [f_equal; lia|lia].
Qed.

Lemma length_CIDRMask n len : length (CIDRMask n len) = len.
Proof. apply length_be_bytes. Qed.

Lemma Mask_Size_CIDRMask4 n : 0 <= n <= 32 → Mask_Size (CIDRMask n 4) = (n, 32).
Proof.
  intros Hn. assert (0 <= n < Z.of_nat 33) as H by lia. clear Hn. revert n H.
  apply Z_range_cases. apply Forall_forall. intros x Hx.
  assert (forallb (λ n, bool_decide (Mask_Size (CIDRMask n 4) = (n, 32))) (seqZ 0 33) = true) as Hall
    by (vm_compute; done).
  rewrite List.forallb_forall in Hall. apply list_elem_of_In in Hx.
  specialize (Hall x Hx). by apply bool_decide_eq_true in Hall.
Qed.

Lemma Mask_Size_CIDRMask6 n : 0 <= n <= 128 → Mask_Size (CIDRMask n 16) = (n, 128).
Proof.
  intros Hn. assert (0 <= n < Z.of_nat 129) as H by lia. clear Hn. revert n H.
  apply Z_range_cases. apply Forall_forall. intros x Hx.
  assert (forallb (λ n, bool_decide (Mask_Size (CIDRMask n 16) = (n, 128))) (seqZ 0 129) = true) as Hall
    by (vm_compute; done).
  rewrite List.forallb_forall in Hall. apply list_elem_of_In in Hx.
  specialize (Hall x Hx). by apply bool_decide_eq_true in Hall.
Qed.

Lemma dtoi_nonneg s : ∀ n i r j t, 0 <= n → dtoi s n i = Some (r, j, t) → 0 <= r.
Proof.
  induction s as [|c s IH]; intros n i r j t Hn; cbn [dtoi]; [by intros [= <- <- <-]|].
  unfold is_digit. destruct (_ && _) eqn:E; [|by intros [= <- <- <-]].
  destruct (16777215 <=? _); [done|]. apply IH. bool_to_prop. lia.
Qed.

Lemma IP_Mask_v4 b m : length b = 4%nat → length m = 4%nat →
  IP_Mask (v4InV6Prefix ++ b) m = and_bytes b m.
Proof.
  intros Hb Hm. unfold IP_Mask. rewrite Hm. cbn [Nat.eqb andb].
  rewrite Hm, length_app, Hb. cbn [Nat.eqb andb length v4InV6Prefix Nat.add].
  rewrite bool_decide_true by done. change (drop 12 _) with b. by rewrite Hb.
Qed.

Lemma IP_Mask_v6 b m : length b = 16%nat → length m = 16%nat →
  IP_Mask b m = and_bytes b m.
Proof.
  intros Hb Hm. unfold IP_Mask. rewrite Hm, Hb. cbn [Nat.eqb andb].
  rewrite Hm. cbn [Nat.eqb andb]. by rewrite Hb.
Qed.

(** What a parsed network is: [len] bytes, a prefix mask, and the address
    with the host bits cleared. *)
Lemma ParseCIDR_ok s ip n : ParseCIDR s = Ok (ip, n) →
  ∃ len ones, (len = 4%nat ∨ len = 16%nat) ∧ 0 <= ones <= 8 * Z.of_nat len ∧
    IPNet_Mask n = CIDRMask ones len ∧ length (IPNet_IP n) = len ∧ bytes_ok (IPNet_IP n) ∧
    Mask_Size (IPNet_Mask n) = (ones, 8 * Z.of_nat len) ∧
    SetBytes (IPNet_IP n) mod 2 ^ (8 * Z.of_nat len - ones) = 0.
Proof.
  unfold ParseCIDR. destruct (CutByte "/" s) as [[addr mask]|]; [|done].
  destruct (ParseAddr addr) as [a|] eqn:Ha; [|done]. destruct (negb _); [done|].
  destruct (dtoi mask 0 0) as [[[k j] [|? ?]]|] eqn:Hd; [|done..].
  destruct (_ || _) eqn:E; [done|]. bool_to_prop. apply dtoi_nonneg in Hd; [|done].
  intros [= <- <-]. cbn [IPNet_IP IPNet_Mask]. apply ParseAddr_ok in Ha.
  set (len := Z.to_nat (BitLen a / 8)).
  assert (BitLen a = 8 * Z.of_nat len ∧ (len = 4%nat ∨ len = 16%nat)) as [Hbl Hlen]
    by (destruct a; cbn; split; [done|by left|done|by right]).
  assert (∃ b, IP_Mask (As16 a) (CIDRMask k len) = and_bytes b (CIDRMask k len) ∧
    length b = len ∧ bytes_ok b) as (b & -> & Hbl' & Hbok).
  { pose proof (length_CIDRMask k len).
    destruct a as [b|b z]; exists b; destruct Ha as [Hb Hl]; (split; [|done]);
      [by apply IP_Mask_v4|by apply IP_Mask_v6]. }
  exists len, k. assert (0 <= k <= 8 * Z.of_nat len) by lia.
  assert (bytes_ok (CIDRMask k len)) as Hmok by apply be_bytes_ok.
  split_and!; try done; try lia.
  - unfold and_bytes. rewrite length_zip_with, length_CIDRMask. lia.
  - by apply and_bytes_ok.
  - destruct Hlen as [Hlen|Hlen]; rewrite Hlen in *;
      [by apply Mask_Size_CIDRMask4; lia|by apply Mask_Size_CIDRMask6; lia].
  - rewrite SetBytes_and by (try done; by rewrite length_CIDRMask).
    rewrite SetBytes_CIDRMask by done. rewrite land_prefix; [apply Z.mod_mul| |].
    + pose proof (Z.pow_pos_nonneg 2 (8 * Z.of_nat len - k)). lia.
    + lia.
    + pose proof (SetBytes_bound b Hbok) as Hbb. rewrite Hbl' in Hbb.
      replace (2 ^ (8 * Z.of_nat len)) with (256 ^ Z.of_nat len); [done|].
      change 256 with (2 ^ 8). by rewrite <- Z.pow_mul_r by lia.
Qed.
End cidr.

(** An aligned network ends inside its address space. *)
Lemma network_last x w k : 0 <= k <= w → 0 <= x < 2 ^ w → x mod 2 ^ k = 0 → x + 2 ^ k <= 2 ^ w.
Proof.
  intros Hk Hx Hm. assert (0 < 2 ^ k) by (apply Z.pow_pos_nonneg; lia).
  pose proof (Z.div_mod x (2 ^ k) ltac:(lia)) as Hd. rewrite Hm in Hd.
  assert (2 ^ w = 2 ^ (w - k) * 2 ^ k) as Hw by (rewrite <- Z.pow_add_r by lia; f_equal; lia).
  assert (x / 2 ^ k < 2 ^ (w - k)) by (apply Z.div_lt_upper_bound; lia). nia.
Qed.

Lemma pow256 len : 256 ^ Z.of_nat len = 2 ^ (8 * Z.of_nat len).
Proof. change 256 with (2 ^ 8). by rewrite <- Z.pow_mul_r by lia. Qed.

(** Concrete addresses are checked by evaluation. *)
Lemma bytes_ok_eval bs : forallb (λ b, (0 <=? b) && (b <? 256)) bs = true → bytes_ok bs.
Proof.
  intros H. apply Forall_forall. intros b Hb. rewrite List.forallb_forall in H.
  specialize (H b (proj1 (list_elem_of_In _ _) Hb)). unfold is_byte. bool_to_prop. lia.
Qed.
