(* ===== verification/Cnet.v ===== *)
(** * [pkg/util/net]: addresses as big integers

    [ip.go] and [ipnet.go]: the wrappers [cnet.IP] and [cnet.IPNet], their
    JSON forms, and the arithmetic ([IPToBigInt], [BigIntToIP],
    [IncrementIP]) with which the address pools are enumerated.  A
    [cnet.IP] is its embedded [net.IP]; a [*cnet.IP] is an option. *)
From S2P Require Import Prelude GoNet.
Local Open Scope Z_scope.

(** The 4-byte form when there is one: [if ip4 := ip.To4(); ip4 != nil { ip = ip4 }]. *)
Definition canon (ip : IP) : IP := if ip_nil (To4 ip) then ip else To4 ip.

(** ** [ip.go] *)
Definition cnet_ParseIP (s : string) : option IP :=
  let addr := ParseIP s in
  if ip_nil addr then None else Some (canon addr).

(** A JSON document as the sources see it: only strings and null matter. *)
Inductive json := JNull | JString (s : string) | JOther.

(** [net.IP]'s text form. *)
Definition MarshalText (ip : IP) : Result string :=
  match ip with
  | [] => Ok ""
  | _ => if Nat.eqb (length ip) 4 || Nat.eqb (length ip) 16 then Ok (IP_String ip)
         else Err (Errorf "invalid IP address")
  end.

Definition UnmarshalText (s : string) : Result IP :=
  if str_empty s then Ok []
  else let x := ParseIP s in
       if ip_nil x then Err (Errorf "invalid IP address") else Ok x.

(** [json.Unmarshal] into a string variable: null leaves it empty. *)
Definition json_string (b : json) : Result string :=
  match b with
  | JNull => Ok ""
  | JString s => Ok s
  | JOther => Err (Errorf "json: cannot unmarshal into Go value of type string")
  end.

Definition IP_MarshalJSON (i : IP) : Result json := s ← MarshalText i; Ok (JString s).

Definition IP_UnmarshalJSON (b : json) : Result IP :=
  s ← json_string b; ip ← UnmarshalText s; Ok (canon ip).

Definition IP_Version (i : IP) : Z :=
  if negb (ip_nil (To4 i)) then 4
  else if Nat.eqb (length i) 16 then 6 else 0.

Definition IP_Network (i : IP) : IPNet :=
  let ip4 := To4 i in
  if negb (ip_nil ip4) then {| IPNet_IP := ip4; IPNet_Mask := CIDRMask 32 4 |}
  else {| IPNet_IP := i; IPNet_Mask := CIDRMask 128 16 |}.

Definition MustParseIP (i : string) : Result IP :=
  match UnmarshalText i with
  | Ok ip => Ok (canon ip)
  | Err _ => Panic
  | Panic => Panic
  end.

Definition IPToBigInt (ip : IP) : Z :=
  if negb (ip_nil (To4 ip)) then SetBytes (To4 ip) else SetBytes (To16 ip).

Definition BigIntToIP (ipInt : Z) (v6 : bool) : Result IP :=
  FillBytes ipInt (if v6 then 16%nat else 4%nat).

Definition IncrementIP (ip : IP) (increment : Z) : Result IP :=
  let expectingV6 := ip_nil (To4 ip) in
  let sum := IPToBigInt ip + increment in
  BigIntToIP sum expectingV6.

(** ** [ipnet.go] *)
Definition cnet_ParseCIDR (c : string) : Result (IP * IPNet) :=
  match ParseCIDR c with
  | Ok (netIP, netIPNet) => Ok (canon netIP, netIPNet)
  | Err e => Err e
  | Panic => Panic
  end.

Definition ParseCIDROrIP (c : string) : Result (IP * IPNet) :=
  match cnet_ParseCIDR c with
  | Ok r => Ok r
  | Panic => Panic
  | Err err =>
      match UnmarshalText c with
      | Ok ip => let ip := canon ip in Ok (ip, IP_Network ip)
      | _ => Err err
      end
  end.

Definition IPNet_MarshalJSON (i : IPNet) : json := JString (IPNet_String i).

Definition IPNet_UnmarshalJSON (b : json) : Result IPNet :=
  s ← json_string b; r ← ParseCIDROrIP s;
  Ok {| IPNet_IP := r.1; IPNet_Mask := IPNet_Mask r.2 |}.

Definition IPNet_Version (i : IPNet) : Z := IP_Version (IPNet_IP i).

Definition IsNetOverlap (i n : IPNet) : bool :=
  IPNet_Contains n (IPNet_IP i) || IPNet_Contains i (IPNet_IP n).

Definition Covers (i n : IPNet) : bool :=
  if negb (IPNet_Contains i (IPNet_IP n)) then false
  else (Mask_Size (IPNet_Mask i)).1 <=? (Mask_Size (IPNet_Mask n)).1.

Definition NthIP (i : IPNet) (n : Z) : Result IP := IncrementIP (IPNet_IP i) n.

(** [Network] drops the error of [ParseCIDR]: a nil result is [None]. *)
Definition IPNet_Network (i : IPNet) : option IPNet :=
  match cnet_ParseCIDR (IPNet_String i) with Ok (_, n) => Some n | _ => None end.

Definition NumAddrs (i : IPNet) : Z :=
  let '(ones, bits) := Mask_Size (IPNet_Mask i) in Z.shiftl 1 (bits - ones).

Definition MustParseNetwork (c : string) : Result IPNet :=
  match cnet_ParseCIDR c with Ok (_, cidr) => Ok cidr | _ => Panic end.

Definition MustParseCIDR (c : string) : Result IPNet :=
  match cnet_ParseCIDR c with
  | Ok (ip, cidr) => Ok {| IPNet_IP := ip; IPNet_Mask := IPNet_Mask cidr |}
  | _ => Panic
  end.

(** ** Lemmas *)

(** An address as the pools hold it: 4 bytes, or 16 bytes that are not an
    IPv4-mapped address. *)
Definition canonical (ip : IP) : Prop :=
  bytes_ok ip ∧ (length ip = 4%nat ∨ (length ip = 16%nat ∧ To4 ip = [])).

Lemma canonical_ip_ok ip : canonical ip → ip_ok ip.
Proof. intros [Hb [H|[H _]]]; split; auto. Qed.
#[export] Hint Resolve canonical_ip_ok : openelb.

Lemma canonical_To4 ip : canonical ip →
  (length ip = 4%nat ∧ To4 ip = ip) ∨ (length ip = 16%nat ∧ To4 ip = [] ∧ To16 ip = ip).
Proof.
  intros [Hb [H|[H H4]]].
  - left. unfold To4. by rewrite H.
  - right. unfold To16. by rewrite H.
Qed.

Lemma canon_canonical ip : ip_ok ip → canonical (canon ip).
Proof.
  intros Hok. unfold canon.
  destruct (To4_cases ip Hok) as [(H4 & Hl & _)|(H4 & Hb & _)].
  - rewrite H4. cbn. destruct Hok as [Hb _]. split; auto.
  - destruct (To4 ip); [done|]. split; [done|by left].
Qed.

Lemma canon_id ip : canonical ip → canon ip = ip.
Proof.
  intros [(Hl & H4)|(Hl & H4 & _)]%canonical_To4; unfold canon; rewrite H4; [|done].
  by destruct ip.
Qed.

Lemma canon_To16 ip : ip_ok ip → canon (To16 ip) = canon ip.
Proof.
  intros Hok. destruct (To4_cases ip Hok) as [(H4 & Hl & ->)|(H4 & Hb & ->)]; [done|].
  unfold canon. assert (To4 (v4InV6Prefix ++ To4 ip) = To4 ip) as ->; [|by destruct (To4 ip)].
  unfold To4 at 1. rewrite length_app, H4. cbn [Nat.eqb length v4InV6Prefix Nat.add andb].
  by rewrite bool_decide_true by done.
Qed.

(** Printing and [cnet.ParseIP] are inverse on pool addresses. *)
Lemma cnet_ParseIP_String ip : canonical ip → cnet_ParseIP (IP_String ip) = Some ip.
Proof.
  intros Hc. pose proof (canonical_ip_ok ip Hc) as Hok. unfold cnet_ParseIP.
  rewrite ParseIP_String by done. rewrite canon_To16, canon_id by done.
  assert (ip_nil (To16 ip) = false) as ->; [|done].
  unfold To16. destruct Hok as [_ [-> | ->]]; cbn; [done|].
  destruct Hc as [_ [H|[H _]]]; by destruct ip.
Qed.

Lemma cnet_ParseIP_canonical s ip : cnet_ParseIP s = Some ip → canonical ip.
Proof.
  unfold cnet_ParseIP. destruct (ip_nil (ParseIP s)) eqn:E; [done|]. intros [= <-].
  apply canon_canonical. destruct (ParseIP_ok s) as [H|[H _]]; [by rewrite H in E|done].
Qed.

Lemma IPToBigInt_canonical ip : canonical ip → IPToBigInt ip = SetBytes ip.
Proof.
  intros [(Hl & H4)|(Hl & H4 & H16)]%canonical_To4; unfold IPToBigInt; rewrite H4.
  - by destruct ip.
  - cbn. by rewrite H16.
Qed.

Lemma IPToBigInt_bound ip : canonical ip →
  0 <= IPToBigInt ip < 256 ^ Z.of_nat (length ip).
Proof. intros Hc. rewrite IPToBigInt_canonical by done. by apply SetBytes_bound, Hc. Qed.

Lemma IPToBigInt_nil : IPToBigInt [] = 0.
Proof. done. Qed.

Lemma canon_IPToBigInt ip : IPToBigInt (canon ip) = IPToBigInt ip.
Proof.
  unfold canon. destruct (ip_nil (To4 ip)) eqn:E; [done|].
  unfold IPToBigInt. rewrite E. cbn [negb].
  assert (To4 (To4 ip) = To4 ip) as ->; [|by rewrite E].
  unfold To4. destruct (Nat.eqb_spec (length ip) 4) as [Hl|Hl]; [by rewrite Hl|].
  destruct (Nat.eqb_spec (length ip) 16) as [Hl'|Hl']; cbn [andb]; [|done].
  case_bool_decide; [|done]. by rewrite length_drop, Hl'.
Qed.

(** [IncrementIP] adds in the address's own width. *)
Lemma IncrementIP_spec ip n : canonical ip →
  0 <= IPToBigInt ip + n < 256 ^ Z.of_nat (length ip) →
  IncrementIP ip n = Ok (be_bytes (length ip) (IPToBigInt ip + n)).
Proof.
  intros Hc Hn. unfold IncrementIP, BigIntToIP.
  destruct (canonical_To4 ip Hc) as [(Hl & H4)|(Hl & H4 & H16)].
  - rewrite H4. replace (ip_nil ip) with false by (by destruct ip).
    rewrite Hl in *. by rewrite FillBytes_Ok.
  - rewrite H4. cbn [ip_nil]. rewrite Hl in *. by rewrite FillBytes_Ok.
Qed.

(** ... and panics when the sum leaves it. *)
Lemma IncrementIP_overflow ip n : canonical ip →
  256 ^ Z.of_nat (length ip) <= IPToBigInt ip + n → IncrementIP ip n = Panic.
Proof.
  intros Hc Hn. unfold IncrementIP, BigIntToIP, FillBytes.
  pose proof (IPToBigInt_bound ip Hc).
  destruct (canonical_To4 ip Hc) as [(Hl & H4)|(Hl & H4 & H16)]; rewrite H4.
  - replace (ip_nil ip) with false by (by destruct ip). rewrite Hl in *.
    rewrite Z.abs_eq by lia. by rewrite (proj2 (Z.ltb_ge _ _)) by lia.
  - cbn [ip_nil]. rewrite Hl in *. rewrite Z.abs_eq by lia.
    by rewrite (proj2 (Z.ltb_ge _ _)) by lia.
Qed.

(** The texts of two addresses of one pool differ when their offsets do. *)
Lemma IncrementIP_String_inj ip i j a b : canonical ip →
  0 <= IPToBigInt ip + i < 256 ^ Z.of_nat (length ip) →
  0 <= IPToBigInt ip + j < 256 ^ Z.of_nat (length ip) →
  IncrementIP ip i = Ok a → IncrementIP ip j = Ok b →
  IP_String a = IP_String b → i = j.
Proof.
  intros Hc Hi Hj. rewrite !IncrementIP_spec by done. intros [= <-] [= <-] Hs.
  set (x := be_bytes _ (_ + i)) in *. set (y := be_bytes _ (_ + j)) in *.
  assert (length x = length ip ∧ length y = length ip) as [Hx Hy]
    by (split; apply length_be_bytes).
  assert (ip_ok x ∧ ip_ok y) as [Hox Hoy].
  { destruct (canonical_ip_ok ip Hc) as [_ Hl]. unfold ip_ok. rewrite Hx, Hy.
    split; (split; [apply be_bytes_ok|done]). }
  apply IP_String_inj in Hs; [|done..].
  assert (x = y) as Hxy.
  { unfold To16 in Hs. rewrite Hx, Hy in Hs.
    destruct (canonical_ip_ok ip Hc) as [_ [Hl|Hl]]; rewrite Hl in Hs; cbn [Nat.eqb] in Hs;
      [by simplify_list_eq|done]. }
  apply (f_equal SetBytes) in Hxy. unfold x, y in Hxy.
  rewrite !SetBytes_be_bytes in Hxy by done. lia.
Qed.
