(* ===== verification/Iprange.v ===== *)
(** * [pkg/util/iprange]: address ranges

    [range.go], [parse.go] and [pool.go]: the two implementations of the
    interface [Range], the parser for single addresses, ranges, CIDR
    networks and subnet masks, and pools.  [cidr.AddressRange] belongs to a
    third-party package: it is the operation of the class [CidrLib], with
    its documented result as the law [CidrLibOk]. *)
From S2P Require Import Prelude GoNet Cnet.
Local Open Scope Z_scope.

Inductive Family := V4Family | V6Family.

#[export] Instance Family_eq_dec : EqDecision Family.
Proof. solve_decision. Defined.

(** The interface [Range] with its two struct implementations; a nil
    interface value is [None]. *)
Inductive Range :=
| v4Range (start end_ : IP)
| v6Range (start end_ : IP).

#[export] Instance Range_eq_dec : EqDecision Range.
Proof. solve_decision. Defined.

Definition isV4IP (ip : IP) : bool := negb (ip_nil (To4 ip)).
Definition isV6IP (ip : IP) : bool := negb (isV4IP ip) && negb (ip_nil (To16 ip)).

(** [bytes.Compare(a, b) >= 0] *)
Definition bytes_geb (a b : IP) : bool :=
  match bytes_compare a b with Lt => false | _ => true end.

Definition isV4RangeValid (start end_ : IP) : bool :=
  isV4IP start && isV4IP end_ && bytes_geb end_ start.
Definition isV6RangeValid (start end_ : IP) : bool :=
  isV6IP start && isV6IP end_ && bytes_geb end_ start.

(** [New] *)
Definition New (start end_ : IP) : option Range :=
  if isV4RangeValid start end_ then Some (v4Range start end_)
  else if isV6RangeValid start end_ then Some (v6Range start end_)
  else None.

Definition Start (r : Range) : IP := match r with v4Range s _ => s | v6Range s _ => s end.
Definition End (r : Range) : IP := match r with v4Range _ e => e | v6Range _ e => e end.
Definition Range_Family (r : Range) : Family :=
  match r with v4Range _ _ => V4Family | v6Range _ _ => V6Family end.
Definition Range_String (r : Range) : string :=
  IP_String (Start r) +:+ "-" +:+ IP_String (End r).
Definition Range_Contains (r : Range) (ip : IP) : bool :=
  bytes_geb ip (Start r) && bytes_geb (End r) ip.

(** [v4ToInt] indexes the 4-byte form, which panics on anything else. *)
Definition v4ToInt (ip : IP) : Result Z :=
  match To4 ip with
  | [a; b; c; d] =>
      Ok (Z.lor (Z.lor (Z.lor (Z.shiftl a 24) (Z.shiftl b 16)) (Z.shiftl c 8)) d)
  | _ => Panic
  end.

Definition Range_Size (r : Range) : Result Z :=
  match r with
  | v4Range s e => hi ← v4ToInt e; lo ← v4ToInt s; Ok (hi - lo + 1)
  | v6Range s e => Ok (0 + SetBytes e - SetBytes s + 1)
  end.

(** ** [parse.go]: the three shapes of text, as the regular expressions have them *)
Definition is_lhex (c : ascii) : bool :=
  is_digit c || ((97 <=? ord c) && (ord c <=? 102)).

Fixpoint str_forallb (f : ascii → bool) (s : string) : bool :=
  match s with EmptyString => true | String c s' => f c && str_forallb f s' end.

(** ["^[0-9a-f.:-]+$"] *)
Definition reRange (s : string) : bool :=
  negb (str_empty s) &&
  str_forallb (λ c, is_lhex c || bool_decide (c ∈ ["."; ":"; "-"]%char)) s.

(** ["^[0-9a-f.:]+/[0-9]{1,3}$"] *)
Definition reCIDR (s : string) : bool :=
  match CutByte "/" s with
  | None => false
  | Some (a, m) =>
      negb (str_empty a) && str_forallb (λ c, is_lhex c || bool_decide (c ∈ ["."; ":"]%char)) a &&
      str_forallb is_digit m && Nat.leb 1 (String.length m) && Nat.leb (String.length m) 3
  end.

(** ["^[0-9.]+/[0-9.]{7,}$"] *)
Definition reSubnetMask (s : string) : bool :=
  let f c := is_digit c || bool_decide (c = "."%char) in
  match CutByte "/" s with
  | None => false
  | Some (a, m) =>
      negb (str_empty a) && str_forallb f a && str_forallb f m && Nat.leb 7 (String.length m)
  end.

Definition parseRange (s : string) : option Range :=
  match CutByte "-" s with
  | Some (a, b) => New (ParseIP a) (ParseIP b)
  | None => New (ParseIP s) (ParseIP s)
  end.

(** Third-party: github.com/apparentlymart/go-cidr. *)
Class CidrLib := { AddressRange : IPNet → IP * IP }.

Section parse.
Context {L : CidrLib}.

Definition parseCIDR (s : string) : option Range :=
  match ParseCIDR s with
  | Ok (_, network) =>
      let '(start, end_) := AddressRange network in
      parseRange (IP_String start +:+ "-" +:+ IP_String end_)
  | _ => None
  end.

Definition parseSubnetMask (s : string) : option Range :=
  match LastCutByte "/" s with
  | None => None
  | Some (address, mask) =>
      match To4 (ParseIP mask) with
      | [a; b; c; d] =>
          let '(prefixLen, bits) := Mask_Size [a; b; c; d] in
          if prefixLen + bits =? 0 then None
          else parseCIDR (address +:+ "/" +:+ Itoa prefixLen)
      | _ => None
      end
  end.

(** [ParseRange]: the empty text is the nil range without error. *)
Definition ParseRange (s : string) : Result (option Range) :=
  let s := ToLower s in
  if str_empty s then Ok None
  else
    let r := if reRange s then parseRange s
             else if reCIDR s then parseCIDR s
             else if reSubnetMask s then parseSubnetMask s
             else None in
    match r with
    | None => Err (Errorf ("ip range (" +:+ s +:+ ") invalid syntax"))
    | Some r => Ok (Some r)
    end.

Definition is_space (c : ascii) : bool :=
  bool_decide (nat_of_ascii c ∈ [9; 10; 11; 12; 13; 32]%nat).

(** [strings.Fields] on ASCII text. *)
Fixpoint Fields_acc (s acc : string) : list string :=
  match s with
  | EmptyString => if str_empty acc then [] else [acc]
  | String c s' =>
      if is_space c then
        (if str_empty acc then Fields_acc s' "" else acc :: Fields_acc s' "")
      else Fields_acc s' (acc +:+ String c "")
  end.
Definition Fields (s : string) : list string := Fields_acc s "".

Fixpoint parse_parts (parts : list string) (ranges : list Range) : Result (list Range) :=
  match parts with
  | [] => Ok ranges
  | v :: vs =>
      match ParseRange v with
      | Ok (Some r) => parse_parts vs (ranges ++ [r])
      | Ok None => parse_parts vs ranges
      | Err e => Err e
      | Panic => Panic
      end
  end.

Definition ParseRanges (s : string) : Result (list Range) := parse_parts (Fields s) [].
End parse.

(** ** [pool.go] *)
Module Pool.
Definition is_trim_space (c : ascii) : bool := is_space c.

Fixpoint trim_left (s : string) : string :=
  match s with
  | String c s' => if is_trim_space c then trim_left s' else s
  | EmptyString => EmptyString
  end.

Fixpoint trim_right (s : string) : string :=
  match s with
  | EmptyString => EmptyString
  | String c s' =>
      let t := trim_right s' in
      if str_empty t && is_trim_space c then EmptyString else String c t
  end.

Definition TrimSpace (s : string) : string := trim_right (trim_left s).

Definition String_ (p : list Range) : string :=
  TrimSpace (foldl (λ b r, b +:+ Range_String r +:+ " ") "" p).

Fixpoint Size_loop (p : list Range) (size : Z) : Result Z :=
  match p with
  | [] => Ok size
  | r :: p' => n ← Range_Size r; Size_loop p' (size + n)
  end.
Definition Size (p : list Range) : Result Z := Size_loop p 0.

Fixpoint Contains (p : list Range) (ip : IP) : bool :=
  match p with
  | [] => false
  | r :: p' => if Range_Contains r ip then true else Contains p' ip
  end.
End Pool.

(** ** Well-formed ranges *)

Definition is_v4_family (f : Family) : bool :=
  match f with V4Family => true | V6Family => false end.

(** Both ends 16-byte addresses of the range's family, in order. *)
Definition range_ok (r : Range) : Prop :=
  ip_ok (Start r) ∧ ip_ok (End r) ∧
  length (Start r) = 16%nat ∧ length (End r) = 16%nat ∧
  isV4IP (Start r) = is_v4_family (Range_Family r) ∧
  isV4IP (End r) = is_v4_family (Range_Family r) ∧
  SetBytes (Start r) <= SetBytes (End r).

Lemma bytes_geb_spec a b : bytes_ok a → bytes_ok b → length a = length b →
  bytes_geb a b = true ↔ SetBytes b <= SetBytes a.
Proof.
  intros Ha Hb Hl. unfold bytes_geb. rewrite bytes_compare_SetBytes by done.
  destruct (Z.compare_spec (SetBytes a) (SetBytes b)); split; (done || lia).
Qed.

Lemma bytes_geb_nil b : b ≠ [] → bytes_geb [] b = false.
Proof. by destruct b. Qed.

Definition addr16 (ip : IP) : Prop := ip_ok ip ∧ length ip = 16%nat.

(** [New] accepts exactly two addresses of one family in order. *)
Lemma New_spec s e r : addr16 s → addr16 e →
  New s e = Some r ↔
  range_ok r ∧ Start r = s ∧ End r = e.
Proof.
  intros [Hs Hls] [He Hle]. unfold New, isV4RangeValid, isV6RangeValid, isV6IP.
  assert (ip_nil (To16 s) = false) as -> by (unfold To16; rewrite Hls; by destruct s).
  assert (ip_nil (To16 e) = false) as -> by (unfold To16; rewrite Hle; by destruct e).
  pose proof (bytes_geb_spec e s (proj1 He) (proj1 Hs) ltac:(congruence)) as Hge.
  rewrite !andb_true_r.
  split.
  - destruct (isV4IP s) eqn:E1, (isV4IP e) eqn:E2, (bytes_geb e s) eqn:E3; cbn [andb negb];
      try done; intros [= <-]; (split; [|done]); unfold range_ok; cbn [Start End Range_Family];
      rewrite E1, E2; split_and!; try done; by apply Hge.
  - intros ((_ & _ & _ & _ & H1 & H2 & H3) & <- & <-). apply Hge in H3. rewrite H1, H2, H3.
    by destruct r.
Qed.

(** [Contains] is membership in the closed interval. *)
Lemma Range_Contains_spec r ip : range_ok r → addr16 ip →
  Range_Contains r ip = true ↔ SetBytes (Start r) <= SetBytes ip <= SetBytes (End r).
Proof.
  intros (Hs & He & Hls & Hle & _) [Hip Hl]. unfold Range_Contains.
  rewrite andb_true_iff, !bytes_geb_spec by
    (apply Hs || apply He || apply Hip || congruence). lia.
Qed.

(** An address that did not parse is in no range. *)
Lemma Range_Contains_nil r : range_ok r → Range_Contains r [] = false.
Proof.
  intros (_ & _ & Hls & _). unfold Range_Contains. rewrite bytes_geb_nil; [done|].
  by destruct (Start r).
Qed.

(** ** The size of a range is the number of its addresses *)
Lemma lor_shift8 x b : is_byte b → Z.lor (Z.shiftl x 8) b = x * 256 + b.
Proof.
  intros Hb. apply Z.bits_inj'. intros i Hi. rewrite Z.lor_spec, testbit_cat by done.
  destruct (i <? 8) eqn:E; bool_to_prop.
  - by rewrite Z.shiftl_spec_low by lia.
  - rewrite Z.shiftl_spec by lia. rewrite (Z.bits_above_log2 b i), orb_false_r; [done| |];
      unfold is_byte in Hb; [lia|].
    destruct (decide (b = 0)) as [->|]; [cbn; lia|].
    enough (Z.log2 b < 8) by lia. apply Z.log2_lt_pow2; lia.
Qed.

Lemma v4ToInt_spec ip : ip_ok ip → isV4IP ip = true → v4ToInt ip = Ok (SetBytes (To4 ip)).
Proof.
  intros Hok H4. unfold v4ToInt.
  destruct (To4_cases ip Hok) as [(E & _)|(Hl & Hb & _)].
  { unfold isV4IP in H4. by rewrite E in H4. }
  destruct (bytes4 _ Hl) as (a & b & c & d & E). rewrite E in *.
  unfold bytes_ok in Hb. rewrite !Forall_cons in Hb. destruct Hb as (Ha & Hb & Hc & Hd & _).
  f_equal. replace (Z.shiftl a 24) with (Z.shiftl (Z.shiftl (Z.shiftl a 8) 8) 8)
    by (by rewrite !Z.shiftl_shiftl by lia).
  replace (Z.shiftl b 16) with (Z.shiftl (Z.shiftl b 8) 8) by (by rewrite Z.shiftl_shiftl by lia).
  rewrite <- !Z.shiftl_lor, !lor_shift8 by done. cbn. lia.
Qed.

Lemma SetBytes_mapped ip : addr16 ip → isV4IP ip = true →
  SetBytes ip = SetBytes v4InV6Prefix * 2 ^ 32 + SetBytes (To4 ip).
Proof.
  intros [Hok Hl] H4. unfold isV4IP in H4.
  destruct (To4_cases ip Hok) as [(E & _)|(Hl4 & Hb & E)]; [by rewrite E in H4|].
  unfold To16 in E. rewrite Hl in E. cbn [Nat.eqb] in E. rewrite E at 1.
  destruct (bytes4 _ Hl4) as (a & b & c & d & ->). cbn. lia.
Qed.

Theorem Range_Size_spec r : range_ok r →
  Range_Size r = Ok (SetBytes (End r) - SetBytes (Start r) + 1).
Proof.
  intros (Hs & He & Hls & Hle & H1 & H2 & _). destruct r as [s e|s e];
    cbn [Start End Range_Family is_v4_family Range_Size] in *; [|done].
  rewrite !v4ToInt_spec by done.
  change (Ok (SetBytes (To4 e) - SetBytes (To4 s) + 1) = Ok (SetBytes e - SetBytes s + 1)).
  rewrite (SetBytes_mapped e), (SetBytes_mapped s) by done. f_equal. lia.
Qed.

(** ** Parsing only builds well-formed ranges *)
Lemma New_nil_l e : New [] e = None.
Proof. done. Qed.
Lemma New_nil_r s : New s [] = None.
Proof.
  unfold New, isV4RangeValid, isV6RangeValid. by rewrite !andb_false_r.
Qed.

Lemma New_ParseIP_ok a b r : New (ParseIP a) (ParseIP b) = Some r →
  range_ok r ∧ Start r = ParseIP a ∧ End r = ParseIP b.
Proof.
  destruct (ParseIP_ok a) as [->|Ha]; [by rewrite New_nil_l|].
  destruct (ParseIP_ok b) as [->|Hb]; [by rewrite New_nil_r|].
  by apply New_spec.
Qed.

Lemma parseRange_ok s r : parseRange s = Some r → range_ok r.
Proof.
  unfold parseRange. destruct (CutByte "-" s) as [[a b]|]; intros Hr;
    by apply New_ParseIP_ok in Hr as [? _].
Qed.

Lemma ParseRange_ok `{L : CidrLib} s r : ParseRange s = Ok (Some r) → range_ok r.
Proof.
  unfold ParseRange. destruct (str_empty _); [done|].
  assert (∀ t x, parseCIDR t = Some x → range_ok x) as Hcidr.
  { intros t x. unfold parseCIDR. destruct (ParseCIDR t) as [[ip n]| |]; [|done..].
    destruct (AddressRange n). apply parseRange_ok. }
  destruct (if reRange _ then _ else _) eqn:E; [|done]. intros [= <-].
  destruct (reRange _); [by eapply parseRange_ok|]. destruct (reCIDR _); [by eapply Hcidr|].
  destruct (reSubnetMask _); [|done]. unfold parseSubnetMask in E.
  repeat (case_match; try done); by eapply Hcidr.
Qed.

(** ** The text of a range parses back to it *)
Section text.
Definition addr_char (c : ascii) : bool :=
  is_lhex c || bool_decide (c ∈ ["."; ":"]%char).

Lemma str_forallb_app f s t : str_forallb f (s +:+ t) = str_forallb f s && str_forallb f t.
Proof. induction s as [|c s IH]; cbn; [done|]. by rewrite IH, andb_assoc. Qed.

Lemma str_forallb_impl (f g : ascii → bool) s : (∀ c, f c = true → g c = true) →
  str_forallb f s = true → str_forallb g s = true.
Proof.
  intros Hfg. induction s as [|c s IH]; cbn; [done|].
  intros [? ?]%andb_prop. by rewrite Hfg, IH.
Qed.

Lemma str_forallb_Join f ws sep : str_forallb f sep = true →
  Forall (λ w, str_forallb f w = true) ws → str_forallb f (Join ws sep) = true.
Proof.
  intros Hsep. induction 1 as [|w ws Hw Hws IH]; [done|].
  destruct ws as [|w' ws]; [done|]. rewrite Join_cons by done.
  by rewrite !str_forallb_app, Hw, Hsep, IH.
Qed.

Lemma hexs_addr_char s : hexs s → str_forallb addr_char s = true.
Proof.
  intros (ds & Hds & ->). induction Hds as [|d ds Hd _ IH]; [done|].
  cbn. rewrite IH, andb_true_r. revert d Hd. refine (Z_range_cases _ 16 _); repeat constructor.
Qed.

Lemma Join_hex_chars gs : Forall group_ok gs →
  str_forallb addr_char (Join (appendHex <$> gs) ":") = true.
Proof.
  intros Hgs. apply str_forallb_Join; [done|]. rewrite Forall_fmap.
  eapply Forall_impl; [exact Hgs|]. intros g Hg. by apply hexs_addr_char, appendHex_hexs.
Qed.

Lemma string6_addr_chars b : length b = 16%nat → bytes_ok b →
  str_forallb addr_char (string6 b) = true.
Proof.
  intros Hl Hb. destruct (hextets_ok 8 b Hl Hb) as [Hg _].
  pose proof (length_hextets b Hl) as H8. unfold string6.
  pose proof (best_run_ok [] (hextets b) (255, 255)%nat (or_introl eq_refl)) as Hrun.
  cbn [app length] in Hrun. destruct (best_run (hextets b) 0 (255, 255)%nat) as [zs ze].
  destruct Hrun as [[= -> ->]|[Hz _]]; cbn [fst snd] in *.
  - rewrite appendTo6_plain by done. by apply Join_hex_chars.
  - rewrite appendTo6_run by (done || lia). rewrite !str_forallb_app.
    by rewrite !Join_hex_chars by ((by apply Forall_take) || (by apply Forall_drop)).
Qed.

Lemma IP_String_addr_chars ip : ip_ok ip → str_forallb addr_char (IP_String ip) = true.
Proof.
  intros Hok. destruct (IP_String_cases ip Hok) as [(H4 & Hl & ->)|(H4 & ->)].
  - apply string6_addr_chars; [done|apply Hok].
  - destruct (To4_cases ip Hok) as [(E & _)|(_ & Hb & _)]; [by rewrite E in H4|].
    apply str_forallb_Join; [done|]. rewrite Forall_fmap.
    eapply Forall_impl; [exact Hb|]. intros g Hg. by apply hexs_addr_char, appendDecimal_hexs.
Qed.

Lemma IP_String_not_empty ip : ip_ok ip → str_empty (IP_String ip) = false.
Proof.
  intros Hok. destruct (str_empty (IP_String ip)) eqn:E; [|done].
  apply str_empty_spec in E. pose proof (ParseIP_String ip Hok) as Hp. rewrite E in Hp.
  change (ParseIP "") with (@nil Z) in Hp. unfold To16 in Hp.
  destruct Hok as [_ [Hl|Hl]]; rewrite Hl in Hp; [done|]. cbn in Hp. by rewrite <- Hp in Hl.
Qed.

Lemma lower_addr_char c : addr_char c || bool_decide (c = "-"%char) = true → lower_ascii c = c.
Proof.
  destruct c as [b0 b1 b2 b3 b4 b5 b6 b7].
  destruct b0, b1, b2, b3, b4, b5, b6, b7; vm_compute; try done.
Qed.

Lemma ToLower_id s : str_forallb (λ c, addr_char c || bool_decide (c = "-"%char)) s = true →
  ToLower s = s.
Proof.
  induction s as [|c s IH]; cbn; [done|]. intros [Hc Hs]%andb_prop.
  by rewrite lower_addr_char, IH.
Qed.

Lemma range_text_chars a b : ip_ok a → ip_ok b →
  let s := IP_String a +:+ "-" +:+ IP_String b in
  ToLower s = s ∧ str_empty s = false ∧ reRange s = true ∧
  parseRange s = New (To16 a) (To16 b).
Proof.
  intros Ha Hb. cbn zeta. set (s := IP_String a +:+ "-" +:+ IP_String b).
  assert (str_forallb (λ c, addr_char c || bool_decide (c = "-"%char)) s = true) as Hs.
  { unfold s. rewrite !str_forallb_app.
    assert (∀ x, ip_ok x → str_forallb (λ c, addr_char c || bool_decide (c = "-"%char))
      (IP_String x) = true) as Hx.
    { intros x Hx. eapply str_forallb_impl; [|by apply IP_String_addr_chars].
      intros c Hc. by rewrite Hc. }
    by rewrite !Hx. }
  assert (str_empty s = false) as Hne.
  { pose proof (IP_String_not_empty a Ha) as H. unfold s. by destruct (IP_String a). }
  split_and!; [by apply ToLower_id|done| |].
  - unfold reRange. rewrite Hne. cbn [negb andb]. eapply str_forallb_impl; [|exact Hs].
    unfold addr_char. intros c [[-> | H]%orb_prop|H]%orb_prop; [done|..];
      apply bool_decide_eq_true in H; apply orb_true_iff; right; apply bool_decide_eq_true; set_solver.
  - unfold parseRange, s. cbn [String.append].
    rewrite CutByte_app by (apply IP_String_plain; [done|set_solver]).
    by rewrite !ParseIP_String.
Qed.
End text.

(** ** Properties *)
Lemma To16_addr16 ip : addr16 ip → To16 ip = ip.
Proof. intros [_ Hl]. unfold To16. by rewrite Hl. Qed.

(** C20: the text of a well-formed range, [start-end] as [String] prints it, is
    parsed by [ParseRange] to the same range, for both families. *)
Theorem range_text_roundtrip `{L : CidrLib} (r : Range) (Hr : range_ok r) :
  ParseRange (Range_String r) = Ok (Some r).
Proof.
  assert (addr16 (Start r) ∧ addr16 (End r)) as [H1 H2].
  { destruct Hr as (Hs & He & Hls & Hle & _). done. }
  destruct (range_text_chars (Start r) (End r) (proj1 H1) (proj1 H2)) as (Hlow & Hne & Hre & Hp).
  unfold ParseRange, Range_String. rewrite Hlow, Hne, Hre, Hp, !To16_addr16 by done.
  by rewrite (proj2 (New_spec _ _ r H1 H2)).
Qed.

(** Whatever text [ParseRange] accepts, the range it returns contains
    exactly [Size] addresses: [Size] is positive and [Contains] is membership
    in the interval of that many addresses that begins at [Start]; the two
    ends have the range's family. *)
Theorem ParseRange_interval `{L : CidrLib} (s : string) (r : Range)
    (Hr : ParseRange s = Ok (Some r)) :
  ∃ n, Range_Size r = Ok n ∧ 0 < n ∧
       isV4IP (Start r) = is_v4_family (Range_Family r) ∧
       isV4IP (End r) = is_v4_family (Range_Family r) ∧
       ∀ ip, addr16 ip →
         Range_Contains r ip = true ↔
         SetBytes (Start r) <= SetBytes ip < SetBytes (Start r) + n.
Proof.
  apply ParseRange_ok in Hr. exists (SetBytes (End r) - SetBytes (Start r) + 1).
  rewrite Range_Size_spec by done. pose proof Hr as (_ & _ & _ & _ & H1 & H2 & Hle).
  split_and!; [done|lia|done|done|]. intros ip Hip. rewrite Range_Contains_spec by done. lia.
Qed.

(** The documented result of [cidr.AddressRange]: the first and the last
    address of a network. *)
Class CidrLibOk (L : CidrLib) : Prop := addressRange_doc : ∀ s ip n ones bits,
  ParseCIDR s = Ok (ip, n) → Mask_Size (IPNet_Mask n) = (ones, bits) →
  ∃ last, AddressRange n = (IPNet_IP n, last) ∧
          length last = length (IPNet_IP n) ∧ bytes_ok last ∧
          SetBytes last = SetBytes (IPNet_IP n) + 2 ^ (bits - ones) - 1.

(** A concrete library with that behaviour. *)
Definition go_cidr : CidrLib := {| AddressRange n :=
  let '(ones, bits) := Mask_Size (IPNet_Mask n) in
  (IPNet_IP n, be_bytes (length (IPNet_IP n)) (SetBytes (IPNet_IP n) + 2 ^ (bits - ones) - 1)) |}.

#[export] Instance go_cidr_ok : CidrLibOk go_cidr.
Proof.
  intros s ip n ones bits Hp Hm. cbn. rewrite Hm. eexists. split; [done|].
  apply ParseCIDR_ok in Hp as (len & o & Hlen & Ho & Hmask & Hl & Hb & Hsz & Hal).
  rewrite Hsz in Hm. injection Hm as <- <-.
  split; [apply length_be_bytes|]. split; [apply be_bytes_ok|]. rewrite SetBytes_be_bytes; [done|].
  pose proof (SetBytes_bound _ Hb) as Hbound. rewrite Hl, pow256 in Hbound |- *.
  assert (0 < 2 ^ (8 * Z.of_nat len - o)) by (apply Z.pow_pos_nonneg; lia).
  assert (SetBytes (IPNet_IP n) + 2 ^ (8 * Z.of_nat len - o) <= 2 ^ (8 * Z.of_nat len))
    by (apply network_last; [lia|done|done]). lia.
Qed.

(** Parsing a CIDR network (IPv4, or IPv6 away from the IPv4-mapped block)
    gives the range of all its [2 ^ (bits - ones)] addresses, from the network
    address itself to the last (broadcast) address, both included. *)
Theorem parseCIDR_whole_network `{L : CidrLib} `{LO : !CidrLibOk L} (s : string) (ip : IP) (n : IPNet)
    (ones bits : Z)
    (Hp : ParseCIDR s = Ok (ip, n)) (Hsz : Mask_Size (IPNet_Mask n) = (ones, bits))
    (Hfam : isV4IP (IPNet_IP n) = isV4IP (AddressRange n).2) :
  ∃ r, parseCIDR s = Some r ∧ Start r = To16 (IPNet_IP n) ∧
       Range_Size r = Ok (2 ^ (bits - ones)) ∧
       Range_Contains r (To16 (IPNet_IP n)) = true ∧
       Range_Contains r (To16 (AddressRange n).2) = true.
Proof.
  destruct (LO s ip n ones bits Hp Hsz) as (last & Ha & Hll & Hlb & Hls).
  unfold parseCIDR. rewrite Hp, Ha. rewrite Ha in Hfam. cbn [snd] in Hfam.
  apply ParseCIDR_ok in Hp as (len & o & Hlen & Ho & Hmask & Hl & Hb & Hsz' & Hal).
  rewrite Hsz' in Hsz. injection Hsz as <- <-.
  assert (ip_ok (IPNet_IP n) ∧ ip_ok last) as [H1 H2].
  { unfold ip_ok. rewrite Hll, Hl. done. }
  destruct (range_text_chars (IPNet_IP n) last H1 H2) as (_ & _ & _ & ->).
  assert (∀ x, ip_ok x → addr16 (To16 x) ∧ isV4IP (To16 x) = isV4IP x) as H16.
  { intros x Hx. destruct (To4_cases x Hx) as [(E & Hlx & E')|(Hlx & Hbx & E')]; rewrite E'.
    - done.
    - unfold addr16, ip_ok, isV4IP. rewrite length_app, Hlx. split.
      + split; [split; [|by right]|done]. apply Forall_app; split; [|done].
        unfold v4InV6Prefix, is_byte. rewrite !Forall_cons, Forall_nil. lia.
      + assert (To4 (v4InV6Prefix ++ To4 x) = To4 x) as ->; [|done].
        unfold To4 at 1. rewrite length_app, Hlx. cbn [Nat.eqb length v4InV6Prefix Nat.add andb].
        by rewrite bool_decide_true by done. }
  assert (SetBytes (To16 last) = SetBytes (To16 (IPNet_IP n)) + 2 ^ (8 * Z.of_nat len - o) - 1) as Hv.
  { unfold To16. rewrite Hll, Hl. destruct Hlen as [-> | ->]; cbn [Nat.eqb]; [|done].
    rewrite Hl in Hll. destruct (bytes4 _ Hl) as (a0 & a1 & a2 & a3 & Ea).
    destruct (bytes4 _ Hll) as (c0 & c1 & c2 & c3 & Ec). rewrite Ea, Ec in *. cbn in *. lia. }
  destruct (H16 _ H1) as [HA HA4], (H16 _ H2) as [HB HB4].
  assert (0 < 2 ^ (8 * Z.of_nat len - o)) by (apply Z.pow_pos_nonneg; lia).
  set (r := if isV4IP (IPNet_IP n) then v4Range (To16 (IPNet_IP n)) (To16 last)
            else v6Range (To16 (IPNet_IP n)) (To16 last)).
  assert (Start r = To16 (IPNet_IP n) ∧ End r = To16 last) as [Hst Hen]
    by (unfold r; by destruct (isV4IP _)).
  assert (range_ok r) as Hrok.
  { unfold range_ok. rewrite Hst, Hen, HA4, HB4, <- Hfam.
    destruct HA, HB. split_and!; try done; try lia; unfold r; by destruct (isV4IP (IPNet_IP n)). }
  exists r. rewrite Range_Size_spec, !Range_Contains_spec by done. rewrite Hst, Hen.
  split_and!; try done; try lia.
  - by apply New_spec.
  - f_equal. lia.
  - cbn [snd]. lia.
Qed.

(** A pool contains an address exactly when one of its ranges does, and
    its size is the sum of the sizes (an address in two ranges counts twice). *)
Theorem Pool_spec (p : list Range) (Hp : Forall range_ok p) :
  (∀ ip, Pool.Contains p ip = true ↔ ∃ r, r ∈ p ∧ Range_Contains r ip = true) ∧
  Pool.Size p = Ok (foldr (λ r n, SetBytes (End r) - SetBytes (Start r) + 1 + n) 0 p).
Proof.
  split.
  - intros ip. induction p as [|r p IH]; cbn.
    + split; [done|]. intros (r & Hr & _). by apply not_elem_of_nil in Hr.
    + apply Forall_cons in Hp as [_ Hp]. setoid_rewrite elem_of_cons.
      destruct (Range_Contains r ip) eqn:E; [split; [eauto|done]|]. rewrite IH by done.
      split; [intros (x & ? & ?); eauto|intros (x & [->|?] & ?); [congruence|eauto]].
  - unfold Pool.Size.
    assert (∀ z, Pool.Size_loop p z =
      Ok (z + foldr (λ r n, SetBytes (End r) - SetBytes (Start r) + 1 + n) 0 p)) as H.
    { induction Hp as [|r p Hr Hp IH]; intros z; [cbn; f_equal; lia|].
      cbn [Pool.Size_loop foldr]. rewrite Range_Size_spec by done.
      cbn [mbind Result_bind]. rewrite IH. f_equal. lia. }
    by rewrite H.
Qed.

(** ** Witnesses *)
Lemma range_ok_example : range_ok (v6Range (ParseIP "2001:db8::") (ParseIP "2001:db8::ff")).
Proof.
  assert (New (ParseIP "2001:db8::") (ParseIP "2001:db8::ff") =
          Some (v6Range (ParseIP "2001:db8::") (ParseIP "2001:db8::ff"))) as H by (vm_compute; reflexivity).
  by apply New_ParseIP_ok in H as [H _].
Qed.

Lemma range_text_roundtrip_witness :
  @ParseRange go_cidr (Range_String (v6Range (ParseIP "2001:db8::") (ParseIP "2001:db8::ff"))) =
  Ok (Some (v6Range (ParseIP "2001:db8::") (ParseIP "2001:db8::ff"))).
Proof. apply (@range_text_roundtrip go_cidr _ range_ok_example). Defined.

Lemma ParseRange_interval_witness :
  ∃ n, Range_Size (v4Range (ParseIP "192.168.0.8") (ParseIP "192.168.0.15")) = Ok n ∧ 0 < n.
Proof.
  destruct (@ParseRange_interval go_cidr "192.168.0.10/29"
    (v4Range (ParseIP "192.168.0.8") (ParseIP "192.168.0.15")) ltac:(vm_compute; reflexivity))
    as (n & H1 & H2 & _). by exists n.
Defined.

Lemma parseCIDR_whole_network_witness :
  ∃ r, @parseCIDR go_cidr "192.0.2.7/24" = Some r ∧ Range_Size r = Ok 256 ∧
       Range_Contains r (ParseIP "192.0.2.0") = true ∧ Range_Contains r (ParseIP "192.0.2.255") = true.
Proof.
  destruct (@parseCIDR_whole_network go_cidr go_cidr_ok "192.0.2.7/24" (ParseIP "192.0.2.7")
    {| IPNet_IP := [192; 0; 2; 0]; IPNet_Mask := [255; 255; 255; 0] |} 24 32
    ltac:(vm_compute; reflexivity) ltac:(vm_compute; reflexivity) ltac:(vm_compute; reflexivity))
    as (r & H1 & _ & H2 & H3 & H4). exists r. by split_and!.
Defined.

Lemma Pool_spec_witness :
  Pool.Contains [v6Range (ParseIP "2001:db8::") (ParseIP "2001:db8::ff")] (ParseIP "2001:db8::7") = true.
Proof.
  apply (proj1 (Pool_spec [v6Range (ParseIP "2001:db8::") (ParseIP "2001:db8::ff")]
    (proj2 (Forall_singleton _ _) range_ok_example))).
  exists (v6Range (ParseIP "2001:db8::") (ParseIP "2001:db8::ff")).
  split; [apply list_elem_of_singleton; reflexivity|vm_compute; reflexivity].
Defined.
