(* ===== verification/Idalloc.v ===== *)
(** * [pkg/util/idalloc]: the bitmap ID allocator

    [idalloc.go]: IDs are bits of a growing list of 64-bit words.  The
    refinement theorems relate the bitmap to the set of allocated IDs:
    [Allocate] takes the least free ID, [AllocateWithHash] the first free ID
    in cyclic order from the hash, both fail exactly when all are taken, and
    [Free] gives one ID back. *)
From S2P Require Import Prelude.
Local Open Scope Z_scope.

Record IDAllocator := { bits : list Z; maxBlocks : Z }.

Definition IDMaxLimit : Z := 4294967295.
Definition ErrIDsExhausted : error := Errorf "no more IDs available".
Definition UintSize : Z := 64.
Definition initialSize : Z := 64.
Definition maxUint : Z := 18446744073709551615.

(** [New]: ID 0 is allocated from the start. *)
Definition New (numIDs : Z) : Result IDAllocator :=
  if (numIDs =? 0) || negb (numIDs mod initialSize =? 0) then Panic
  else
    let numBlocks := (initialSize + UintSize - 1) / UintSize in
    let bs := replicate (Z.to_nat numBlocks) 0 in
    Ok {| bits := alter (λ w, Z.lor w 1) 0%nat bs;
          maxBlocks := wrapU32 (numIDs + UintSize - 1) / UintSize |}.

(** [grow] doubles the words, up to the maximum. *)
Definition grow (a : IDAllocator) : IDAllocator * bool :=
  let n := Z.of_nat (length (bits a)) in
  let m := maxBlocks a in
  if m <=? n then (a, false)
  else
    let n := if m <? wrapU32 (2 * n) then m - n else n in
    ({| bits := bits a ++ replicate (Z.to_nat n) 0; maxBlocks := m |}, true).

(** [bits.TrailingZeros] of a 64-bit word. *)
Fixpoint trailing_zeros (n : nat) (i x : Z) : Z :=
  match n with
  | O => i
  | S n' => if Z.testbit x i then i else trailing_zeros n' (i + 1) x
  end.
Definition TrailingZeros (x : Z) : Z := trailing_zeros 64 0 x.

(** The outcome of an allocation: the new state, the ID and the error.
    [None] stands for a loop that has not ended within its fuel. *)
Definition outcome := option (IDAllocator * Z * option error).

(** [Allocate]: the loop over the words. *)
Fixpoint Allocate_loop (fuel : nat) (a : IDAllocator) (i : nat) : outcome :=
  match fuel with
  | O => None
  | S f =>
      match bits a !! i with
      | None => None
      | Some curBlock =>
          if negb (curBlock =? maxUint) then
            let bb := TrailingZeros (Z.lxor maxUint curBlock) in
            Some ({| bits := <[i := Z.lor curBlock (Z.shiftl 1 bb)]> (bits a);
                     maxBlocks := maxBlocks a |},
                  wrapU32 (Z.of_nat i * UintSize + bb), None)
          else
            let i := S i in
            if Nat.eqb i (length (bits a)) then
              match grow a with
              | (a', true) => Allocate_loop f a' i
              | (a', false) => Some (a', IDMaxLimit, Some ErrIDsExhausted)
              end
            else Allocate_loop f a i
      end
  end.

Definition Allocate (a : IDAllocator) : outcome :=
  Allocate_loop (S (Z.to_nat (maxBlocks a))) a 0.

(** The inner loop of [AllocateWithHash]: grow until word [i] exists. *)
Fixpoint grow_to (fuel : nat) (a : IDAllocator) (i : Z) : option (IDAllocator * bool) :=
  match fuel with
  | O => None
  | S f =>
      if Z.of_nat (length (bits a)) <=? i then
        match grow a with
        | (a', true) => grow_to f a' i
        | (a', false) => Some (a', false)
        end
      else Some (a, true)
  end.

(** [AllocateWithHash], for the 32-bit prefix [h] of the hash: the outer loop. *)
Fixpoint AllocateWithHash_loop (fuel : nat) (a : IDAllocator) (initialID i : Z) : outcome :=
  match fuel with
  | O => Some (a, IDMaxLimit, Some ErrIDsExhausted)
  | S f =>
      let n := wrapU32 (maxBlocks a * UintSize) in
      let id := wrapU32 (initialID + i) mod n in
      let b := id / UintSize in
      let mask := Z.shiftl 1 (id mod UintSize) in
      match grow_to (S (Z.to_nat (maxBlocks a))) a b with
      | None => None
      | Some (a, false) => Some (a, IDMaxLimit, Some ErrIDsExhausted)
      | Some (a, true) =>
          match bits a !! Z.to_nat b with
          | None => None
          | Some w =>
              if Z.land w mask =? 0 then
                Some ({| bits := <[Z.to_nat b := Z.lor w mask]> (bits a);
                         maxBlocks := maxBlocks a |}, id, None)
              else AllocateWithHash_loop f a initialID (i + 1)
          end
      end
  end.

Definition AllocateWithHash (a : IDAllocator) (h : Z) : outcome :=
  let n := wrapU32 (maxBlocks a * UintSize) in
  AllocateWithHash_loop (Z.to_nat n) a (h mod n) 0.

(** [Free]: an ID beyond the words is an index panic. *)
Definition Free (a : IDAllocator) (id : Z) : Result IDAllocator :=
  let i := Z.to_nat (id / UintSize) in
  let mask := Z.shiftl 1 (id mod UintSize) in
  match bits a !! i with
  | None => Panic
  | Some w => Ok {| bits := <[i := Z.land w (Z.lxor maxUint mask)]> (bits a);
                    maxBlocks := maxBlocks a |}
  end.

(** ** The set behind the bitmap *)
Definition word (a : IDAllocator) (i : nat) : Z := default 0 (bits a !! i).

Definition allocated (a : IDAllocator) (id : Z) : bool :=
  Z.testbit (word a (Z.to_nat (id / 64))) (id mod 64).

Definition capacity (a : IDAllocator) : Z := maxBlocks a * 64.

(** 64-bit words, between one and [maxBlocks] of them, and no more IDs than a
    [uint32] can name. *)
Definition alloc_ok (a : IDAllocator) : Prop :=
  Forall (λ w, 0 <= w < two64) (bits a) ∧
  1 <= Z.of_nat (length (bits a)) <= maxBlocks a ∧ capacity a < two32.

Lemma word_range a i : alloc_ok a → 0 <= word a i < two64.
Proof.
  intros [HF _]. unfold word. destruct (bits a !! i) as [w|] eqn:E; cbn.
  - rewrite Forall_forall in HF. apply HF. by eapply list_elem_of_lookup_2.
  - unfold two64. lia.
Qed.

Lemma maxUint_ones : maxUint = Z.ones 64.
Proof. reflexivity. Qed.

Lemma testbit_high w i : 0 <= w < two64 → 64 <= i → Z.testbit w i = false.
Proof.
  intros Hw Hi. destruct (decide (w = 0)) as [->|]; [apply Z.bits_0|].
  apply Z.bits_above_log2; [lia|]. enough (Z.log2 w < 64) by lia.
  apply Z.log2_lt_pow2; [lia|]. change (2 ^ 64) with two64. lia.
Qed.

(** A full word: every bit set. *)
Lemma maxUint_testbit w : 0 <= w < two64 →
  w = maxUint ↔ ∀ i, 0 <= i < 64 → Z.testbit w i = true.
Proof.
  intros Hw. split.
  - intros -> i Hi. rewrite maxUint_ones. by apply Z.ones_spec_low.
  - intros Hall. rewrite maxUint_ones. apply Z.bits_inj'. intros i Hi.
    destruct (decide (i < 64)).
    + rewrite Z.ones_spec_low by lia. apply Hall. lia.
    + rewrite Z.ones_spec_high by lia. apply testbit_high; lia.
Qed.

Lemma lxor_maxUint_testbit w i : 0 <= i < 64 →
  Z.testbit (Z.lxor maxUint w) i = negb (Z.testbit w i).
Proof. intros Hi. by rewrite Z.lxor_spec, maxUint_ones, Z.ones_spec_low by lia. Qed.

Lemma trailing_zeros_spec n : ∀ i x k,
  0 <= i → i <= k < i + Z.of_nat n → Z.testbit x k = true →
  (∀ j, i <= j < trailing_zeros n i x → Z.testbit x j = false) ∧
  Z.testbit x (trailing_zeros n i x) = true ∧ i <= trailing_zeros n i x <= k.
Proof.
  induction n as [|n IH]; intros i x k Hi Hk Hx; [lia|]. cbn [trailing_zeros].
  destruct (Z.testbit x i) eqn:E; [split_and!; try done; lia|].
  destruct (decide (i = k)) as [->|]; [congruence|].
  destruct (IH (i + 1) x k) as (H1 & H2 & H3); [lia|lia|done|].
  split_and!; try done; try lia. intros j Hj.
  destruct (decide (j = i)) as [->|]; [done|]. apply H1. lia.
Qed.

(** The least free bit of a word that is not full. *)
Lemma free_bit w : 0 <= w < two64 → w ≠ maxUint →
  let bb := TrailingZeros (Z.lxor maxUint w) in
  0 <= bb < 64 ∧ Z.testbit w bb = false ∧ ∀ j, 0 <= j < bb → Z.testbit w j = true.
Proof.
  intros Hw Hne. cbn zeta.
  assert (∃ k, 0 <= k < 64 ∧ Z.testbit w k = false) as (k & Hk & Hbit).
  { destruct (decide (Exists (λ k, Z.testbit w k = false) (seqZ 0 64))) as [He|Hn].
    - apply Exists_exists in He as (k & Hin & Hb). apply elem_of_seqZ in Hin. exists k. split; [lia|done].
    - exfalso. apply Hne, maxUint_testbit; [done|]. intros i Hi.
      destruct (Z.testbit w i) eqn:E; [done|]. exfalso. apply Hn, Exists_exists. exists i.
      split; [apply elem_of_seqZ; lia|done]. }
  assert (Z.testbit (Z.lxor maxUint w) k = true) as Hx
    by (by rewrite lxor_maxUint_testbit, Hbit by lia).
  destruct (trailing_zeros_spec 64 0 (Z.lxor maxUint w) k) as (H1 & H2 & H3); [lia|lia|done|].
  fold (TrailingZeros (Z.lxor maxUint w)) in *.
  split_and!; [lia|lia| |].
  - rewrite lxor_maxUint_testbit in H2 by lia. by apply negb_true_iff.
  - intros j Hj. specialize (H1 j ltac:(lia)). rewrite lxor_maxUint_testbit in H1 by lia.
    by apply negb_false_iff.
Qed.

(** ** Single-bit updates and growth *)
Section updates.
Lemma testbit_shiftl1 k j : 0 <= k → 0 <= j → Z.testbit (Z.shiftl 1 k) j = (j =? k).
Proof.
  intros Hk Hj. rewrite Z.shiftl_mul_pow2, Z.mul_1_l by lia.
  destruct (j =? k) eqn:E; bool_to_prop.
  - subst. by apply Z.pow2_bits_true.
  - apply Z.pow2_bits_false. lia.
Qed.

Lemma testbit_bound w : 0 <= w → (∀ j, 64 <= j → Z.testbit w j = false) → 0 <= w < two64.
Proof.
  intros Hw Hb. split; [done|]. destruct (decide (w = 0)) as [->|]; [done|].
  change two64 with (2 ^ 64). apply Z.log2_lt_pow2; [lia|].
  destruct (decide (Z.log2 w < 64)); [done|].
  specialize (Hb (Z.log2 w) ltac:(lia)). rewrite Z.bit_log2 in Hb by lia. done.
Qed.

Lemma set_bit_range w k : 0 <= w < two64 → 0 <= k < 64 → 0 <= Z.lor w (Z.shiftl 1 k) < two64.
Proof.
  intros Hw Hk. apply testbit_bound.
  - apply Z.lor_nonneg. split; [lia|]. apply Z.shiftl_nonneg. lia.
  - intros j Hj. rewrite Z.lor_spec, testbit_high, testbit_shiftl1 by lia.
    by apply Z.eqb_neq; lia.
Qed.

Lemma clear_bit_range w m : 0 <= w < two64 → 0 <= m → 0 <= Z.land w (Z.lxor maxUint m) < two64.
Proof.
  intros Hw Hm. apply testbit_bound; [apply Z.land_nonneg; lia|].
  intros j Hj. by rewrite Z.land_spec, testbit_high by lia.
Qed.

Lemma word_insert a i w id : (i < length (bits a))%nat →
  word {| bits := <[i := w]> (bits a); maxBlocks := maxBlocks a |} id =
  if decide (i = id) then w else word a id.
Proof.
  intros Hi. unfold word. cbn. case_decide; subst.
  - by rewrite list_lookup_insert_eq.
  - by rewrite list_lookup_insert_ne.
Qed.

Lemma insert_ok a i w : alloc_ok a → 0 <= w < two64 →
  alloc_ok {| bits := <[i := w]> (bits a); maxBlocks := maxBlocks a |}.
Proof.
  intros (HF & Hl & Hc) Hw. split_and!; cbn; try rewrite length_insert; try lia; [|done].
  by apply Forall_insert.
Qed.

(** The ID of bit [k] of word [i]. *)
Lemma id_split id i k : 0 <= id → 0 <= k < 64 →
  (Z.to_nat (id / 64) = i ∧ id mod 64 = k) ↔ id = Z.of_nat i * 64 + k.
Proof.
  intros Hid Hk. pose proof (Z.div_mod id 64 ltac:(lia)). pose proof (Z.div_pos id 64 ltac:(lia) ltac:(lia)).
  split.
  - intros [<- <-]. rewrite Z2Nat.id by lia. lia.
  - intros ->. rewrite Z.div_add_l, (Z.div_small k), Z.add_0_r, Nat2Z.id by lia.
    split; [done|]. by rewrite Z.add_comm, Z_mod_plus_full, Z.mod_small by lia.
Qed.

Lemma allocated_update (f : bool → bool) a i k w w' id :
  bits a !! i = Some w → 0 <= k < 64 → 0 <= id →
  (∀ j, 0 <= j < 64 → Z.testbit w' j = if j =? k then f (Z.testbit w j) else Z.testbit w j) →
  allocated {| bits := <[i := w']> (bits a); maxBlocks := maxBlocks a |} id =
  if id =? Z.of_nat i * 64 + k then f (allocated a id) else allocated a id.
Proof.
  intros Hw Hk Hid Hw'. unfold allocated. pose proof (Z.mod_pos_bound id 64 ltac:(lia)).
  rewrite word_insert by (by eapply lookup_lt_Some).
  pose proof (id_split id i k Hid Hk) as Hsplit. case_decide as Hi.
  - rewrite Hw' by done. assert (word a (Z.to_nat (id / 64)) = w) as ->
      by (unfold word; rewrite <- Hi, Hw; done).
    destruct (id =? Z.of_nat i * 64 + k) eqn:E; bool_to_prop.
    + apply Hsplit in E as [_ ->]. by rewrite Z.eqb_refl.
    + destruct (id mod 64 =? k) eqn:E'; [|done]. bool_to_prop. exfalso. apply E, Hsplit. done.
  - destruct (id =? Z.of_nat i * 64 + k) eqn:E; [|done]. bool_to_prop.
    apply Hsplit in E as [? _]. congruence.
Qed.

Lemma allocated_set a i k w id : bits a !! i = Some w → 0 <= k < 64 → 0 <= id →
  allocated {| bits := <[i := Z.lor w (Z.shiftl 1 k)]> (bits a); maxBlocks := maxBlocks a |} id =
  (id =? Z.of_nat i * 64 + k) || allocated a id.
Proof.
  intros Hw Hk Hid. rewrite (allocated_update (λ _, true) a i k w) by
    (try done; intros j Hj; rewrite Z.lor_spec, testbit_shiftl1 by lia;
     destruct (j =? k); by rewrite ?orb_true_r, ?orb_false_r).
  by destruct (id =? _).
Qed.

Lemma allocated_clear a i k w id : bits a !! i = Some w → 0 <= k < 64 → 0 <= id →
  allocated {| bits := <[i := Z.land w (Z.lxor maxUint (Z.shiftl 1 k))]> (bits a);
               maxBlocks := maxBlocks a |} id =
  negb (id =? Z.of_nat i * 64 + k) && allocated a id.
Proof.
  intros Hw Hk Hid. rewrite (allocated_update (λ _, false) a i k w) by
    (try done; intros j Hj; rewrite Z.land_spec, lxor_maxUint_testbit, testbit_shiftl1 by lia;
     destruct (j =? k); by rewrite ?andb_false_r, ?andb_true_r).
  by destruct (id =? _).
Qed.

Lemma allocated_beyond a id : 0 <= id → Z.of_nat (length (bits a)) * 64 <= id → allocated a id = false.
Proof.
  intros Hid Hl. unfold allocated, word. rewrite lookup_ge_None_2; [apply Z.bits_0|].
  enough (Z.of_nat (length (bits a)) <= id / 64) by lia. apply Z.div_le_lower_bound; lia.
Qed.

(** [grow] adds free IDs only, and fails exactly at the maximum. *)
Lemma grow_spec a : alloc_ok a →
  match grow a with
  | (a', true) => alloc_ok a' ∧ maxBlocks a' = maxBlocks a ∧
                  (length (bits a) < length (bits a'))%nat ∧
                  (∀ id, 0 <= id → allocated a' id = allocated a id) ∧
                  (∀ i, (i < length (bits a))%nat → bits a' !! i = bits a !! i)
  | (a', false) => a' = a ∧ Z.of_nat (length (bits a)) = maxBlocks a
  end.
Proof.
  intros (HF & Hl & Hc). unfold grow. destruct (_ <=? _) eqn:E; bool_to_prop; [split; [done|lia]|].
  unfold capacity, two32 in Hc. rewrite wrapU32_small by (unfold two32; lia).
  set (n := if _ <? _ then _ else _).
  assert (1 <= n ∧ Z.of_nat (length (bits a)) + n <= maxBlocks a) as [Hn Hn'].
  { unfold n. destruct (_ <? _) eqn:E'; bool_to_prop; lia. }
  cbn [bits maxBlocks]. rewrite length_app, length_replicate. split_and!.
  - split_and!; cbn; [|rewrite length_app, length_replicate; lia..|done].
    apply Forall_app; split; [done|]. apply Forall_replicate. unfold two64. lia.
  - done.
  - lia.
  - intros id Hid. unfold allocated, word. cbn [bits]. f_equal.
    destruct (decide (Z.to_nat (id / 64) < length (bits a))%nat).
    + by rewrite lookup_app_l by done.
    + rewrite (lookup_ge_None_2 (bits a)) by lia. rewrite lookup_app_r by lia.
      destruct (replicate _ _ !! _) as [w|] eqn:Ew; [|done].
      by apply lookup_replicate in Ew as [-> _].
  - intros i Hi. by rewrite lookup_app_l.
Qed.
End updates.

(** ** Refinement: the allocator against the set of allocated IDs *)

(** A successful allocation of [id]: it was free, and only it is added. *)
Definition took (a a' : IDAllocator) (id : Z) : Prop :=
  0 <= id < capacity a ∧ allocated a id = false ∧
  ∀ j, 0 <= j → allocated a' j = (j =? id) || allocated a j.

(** A failed one: every ID is taken, and the set is unchanged. *)
Definition exhausted (a a' : IDAllocator) : Prop :=
  (∀ j, 0 <= j < capacity a → allocated a j = true) ∧
  ∀ j, 0 <= j → allocated a' j = allocated a j.

Definition same_set (a a' : IDAllocator) : Prop :=
  maxBlocks a' = maxBlocks a ∧ ∀ j, 0 <= j → allocated a' j = allocated a j.

Lemma took_mono a b c id : same_set a b → took b c id → took a c id.
Proof.
  intros [Hm Hs] (H1 & H2 & H3). unfold took, capacity in *. rewrite Hm, Hs in * by lia.
  split_and!; try done; try lia. intros j Hj. by rewrite H3, Hs.
Qed.

Lemma exhausted_mono a b c : same_set a b → exhausted b c → exhausted a c.
Proof.
  intros [Hm Hs] (H1 & H2). unfold exhausted, capacity in *. rewrite Hm in *. split.
  - intros j Hj. rewrite <- Hs by lia. by apply H1.
  - intros j Hj. by rewrite H2, Hs.
Qed.

Definition alloc_outcome (a : IDAllocator) (first : Z → Prop) (o : outcome) : Prop :=
  ∃ a' id e, o = Some (a', id, e) ∧ alloc_ok a' ∧ maxBlocks a' = maxBlocks a ∧
    ((e = None ∧ took a a' id ∧ first id) ∨
     (e = Some ErrIDsExhausted ∧ id = IDMaxLimit ∧ exhausted a a')).

Lemma full_words a i : alloc_ok a → (∀ j, (j < i)%nat → word a j = maxUint) →
  ∀ id, 0 <= id < Z.of_nat i * 64 → allocated a id = true.
Proof.
  intros Hok Hfull id Hid. unfold allocated.
  assert (id / 64 < Z.of_nat i) by (apply Z.div_lt_upper_bound; lia).
  pose proof (Z.div_pos id 64 ltac:(lia) ltac:(lia)).
  rewrite Hfull by lia. rewrite maxUint_ones, Z.ones_spec_low; [done|].
  apply Z.mod_pos_bound. lia.
Qed.

Lemma Allocate_loop_spec fuel : ∀ a i, alloc_ok a → (i < length (bits a))%nat →
  (∀ j, (j < i)%nat → word a j = maxUint) →
  (Z.to_nat (maxBlocks a) < fuel + i)%nat →
  alloc_outcome a (λ id, ∀ j, 0 <= j < id → allocated a j = true) (Allocate_loop fuel a i).
Proof.
  induction fuel as [|fuel IH]; intros a i Hok Hi Hfull Hfuel.
  { destruct Hok as (_ & ? & _). lia. }
  cbn [Allocate_loop]. destruct (lookup_lt_is_Some_2 _ _ Hi) as [w Hw]. rewrite Hw.
  pose proof (word_range a i Hok) as Hwr. unfold word in Hwr. rewrite Hw in Hwr. cbn in Hwr.
  pose proof Hok as (HF & Hl & Hc). unfold capacity, two32 in Hc.
  destruct (w =? maxUint) eqn:E; bool_to_prop; cbn [negb].
  - assert (∀ j, (j < S i)%nat → word a j = maxUint) as Hfull'.
    { intros j Hj. destruct (decide (j = i)) as [->|]; [unfold word; by rewrite Hw|].
      apply Hfull. lia. }
    destruct (Nat.eqb_spec (S i) (length (bits a))) as [Hend|Hend]; [|apply IH; (done || lia)].
    pose proof (grow_spec a Hok) as Hg. destruct (grow a) as [a' [|]].
    + destruct Hg as (Hok' & Hm & Hlen & Hsame & Hbits).
      destruct (IH a' (S i)) as (a'' & id & e & H1 & H2 & H3 & H4); [done|lia| |lia|].
      { intros j Hj. unfold word. rewrite Hbits by lia. by apply Hfull'. }
      exists a'', id, e. split_and!; try done; [congruence|].
      destruct H4 as [(-> & Ht & Hf)|(-> & -> & Hx)]; [left|right].
      * split_and!; [done|by eapply took_mono|]. intros j Hj. rewrite <- Hsame by lia. by apply Hf.
      * split_and!; [done..|by eapply exhausted_mono].
    + destruct Hg as [-> Hlen]. exists a, IDMaxLimit, (Some ErrIDsExhausted).
      split_and!; try done. right. split_and!; [done..|]. split; [|done].
      unfold capacity. rewrite <- Hlen, <- Hend. by apply full_words.
  - destruct (free_bit w Hwr E) as (Hbb & Hfree & Hlow).
    set (bb := TrailingZeros _) in *. rewrite wrapU32_small by (unfold UintSize, two32; lia).
    eexists _, _, None. split_and!; [reflexivity|by apply insert_ok, set_bit_range|done|].
    left. unfold UintSize. split_and!; [done| |].
    + split_and!; [lia|..].
      * unfold capacity. lia.
      * unfold allocated. destruct (proj2 (id_split (Z.of_nat i * 64 + bb) i bb ltac:(lia) ltac:(lia)) eq_refl) as [-> ->].
        unfold word. by rewrite Hw.
      * intros j Hj. by apply allocated_set.
    + intros j Hj. destruct (decide (j < Z.of_nat i * 64)); [apply (full_words a i); (done || lia)|].
      unfold allocated.
      destruct (proj2 (id_split j i (j - Z.of_nat i * 64) ltac:(lia) ltac:(lia)) ltac:(lia)) as [-> ->].
      unfold word. rewrite Hw. apply Hlow. lia.
Qed.

Lemma Allocate_refines a : alloc_ok a →
  alloc_outcome a (λ id, ∀ j, 0 <= j < id → allocated a j = true) (Allocate a).
Proof.
  intros Hok. apply Allocate_loop_spec; [done| |lia|lia]. destruct Hok as (_ & ? & _). lia.
Qed.

Lemma grow_to_spec fuel : ∀ a b, alloc_ok a → 0 <= b < maxBlocks a →
  (Z.to_nat (maxBlocks a) < fuel + length (bits a))%nat →
  ∃ a', grow_to fuel a b = Some (a', true) ∧ alloc_ok a' ∧ same_set a a' ∧
        b < Z.of_nat (length (bits a')).
Proof.
  induction fuel as [|fuel IH]; intros a b Hok Hb Hfuel.
  { destruct Hok as (_ & ? & _). lia. }
  cbn [grow_to]. destruct (_ <=? b) eqn:E; bool_to_prop.
  - pose proof (grow_spec a Hok) as Hg. destruct (grow a) as [a' [|]]; [|lia].
    destruct Hg as (Hok' & Hm & Hlen & Hsame & _).
    destruct (IH a' b Hok' ltac:(lia) ltac:(lia)) as (a'' & H1 & H2 & [Hm' Hs'] & H3).
    exists a''. split_and!; try done. split; [congruence|]. intros j Hj. by rewrite Hs', Hsame.
  - exists a. by split_and!.
Qed.

(** The ID tried in round [i]. *)
Definition nth_try (a : IDAllocator) (h i : Z) : Z := (h mod capacity a + i) mod capacity a.

Lemma land_bit_zero w k : 0 <= w → 0 <= k → (Z.land w (Z.shiftl 1 k) =? 0) = negb (Z.testbit w k).
Proof.
  intros Hw Hk. destruct (Z.testbit w k) eqn:E; cbn.
  - apply Z.eqb_neq. intros H. apply (f_equal (λ z, Z.testbit z k)) in H.
    rewrite Z.land_spec, testbit_shiftl1, Z.eqb_refl, E, Z.bits_0 in H by lia. done.
  - apply Z.eqb_eq, Z.bits_inj'. intros j Hj. rewrite Z.land_spec, testbit_shiftl1, Z.bits_0 by lia.
    destruct (j =? k) eqn:Ej; bool_to_prop; [subst; by rewrite E|by rewrite andb_false_r].
Qed.

Lemma nth_try_cover a h : 0 < capacity a → ∀ j, 0 <= j < capacity a →
  ∃ i, 0 <= i < capacity a ∧ nth_try a h i = j.
Proof.
  intros Hc j Hj. set (n := capacity a) in *. set (s := h mod n).
  pose proof (Z.mod_pos_bound h n Hc). exists ((j - s) mod n). unfold nth_try. fold n s.
  split; [by apply Z.mod_pos_bound|]. rewrite Zplus_mod_idemp_r.
  replace (s + (j - s)) with j by lia. by apply Z.mod_small.
Qed.

Lemma AllocateWithHash_loop_spec fuel : ∀ a h i, alloc_ok a → 0 <= h →
  2 * capacity a <= two32 →
  0 <= i → i + Z.of_nat fuel = capacity a →
  (∀ k, 0 <= k < i → allocated a (nth_try a h k) = true) →
  alloc_outcome a
    (λ id, ∃ k, 0 <= k < capacity a ∧ id = nth_try a h k ∧
                ∀ k', 0 <= k' < k → allocated a (nth_try a h k') = true)
    (AllocateWithHash_loop fuel a (h mod capacity a) i).
Proof.
  induction fuel as [|fuel IH]; intros a h i Hok Hh Hcap Hi Hfuel Htried.
  - exists a, IDMaxLimit, (Some ErrIDsExhausted). split_and!; try done. right.
    split_and!; [done..|]. split; [|done]. intros j Hj.
    destruct (nth_try_cover a h ltac:(lia) j Hj) as (k & Hk & <-). apply Htried. lia.
  - cbn [AllocateWithHash_loop]. pose proof Hok as (HF & Hl & Hc).
    set (n := capacity a) in *. pose proof (Z.mod_pos_bound h n ltac:(lia)) as Hs.
    assert (wrapU32 (maxBlocks a * UintSize) = n) as -> by (rewrite wrapU32_small; unfold n, capacity, UintSize, two32 in *; lia).
    rewrite (wrapU32_small (h mod n + i)) by lia.
    change ((h mod n + i) mod n) with (nth_try a h i). set (id := nth_try a h i).
    assert (0 <= id < n) as Hid by (apply Z.mod_pos_bound; lia). unfold UintSize.
    assert (0 <= id / 64 < maxBlocks a) as Hb.
    { split; [apply Z.div_pos; lia|]. apply Z.div_lt_upper_bound; unfold n, capacity in *; lia. }
    destruct (grow_to_spec (S (Z.to_nat (maxBlocks a))) a (id / 64) Hok Hb ltac:(lia))
      as (a1 & -> & Hok1 & [Hm1 Hs1] & Hlen1).
    destruct (lookup_lt_is_Some_2 (bits a1) (Z.to_nat (id / 64)) ltac:(lia)) as [w Hw]. rewrite Hw.
    pose proof (Z.mod_pos_bound id 64 ltac:(lia)) as Hmod.
    assert (Z.testbit w (id mod 64) = allocated a id) as Hbit.
    { rewrite <- Hs1 by lia. unfold allocated, word. by rewrite Hw. }
    pose proof (word_range a1 (Z.to_nat (id / 64)) Hok1) as Hwr. unfold word in Hwr. rewrite Hw in Hwr. cbn in Hwr.
    rewrite land_bit_zero, Hbit by lia. destruct (allocated a id) eqn:Ea; cbn [negb].
    + assert (capacity a1 = n) as Hn1 by (unfold n, capacity; congruence).
      assert (∀ k, nth_try a1 h k = nth_try a h k) as Hnt by (intros; unfold nth_try; by rewrite Hn1).
      destruct (IH a1 h (i + 1)) as (a2 & id2 & e & E1 & E2 & E3 & E4); try done; try lia.
      { intros k Hk. rewrite Hnt, Hs1 by (apply Z.mod_pos_bound; lia).
        destruct (decide (k = i)) as [->|]; [done|]. apply Htried. lia. }
      rewrite Hn1 in E1. exists a2, id2, e. split_and!; try done; [congruence|].
      assert (same_set a a1) as Hss by (split; [done|]; intros; by apply Hs1).
      destruct E4 as [(-> & Ht & k & Hk & -> & Hk')|(-> & -> & Hx)]; [left|right].
      * split_and!; [done|by eapply took_mono|]. exists k. rewrite Hn1 in Hk. split_and!; try done; try lia.
        intros k' Hk''. rewrite <- Hs1 by (apply Z.mod_pos_bound; lia). rewrite <- Hnt. by apply Hk'.
      * split_and!; [done..|by eapply exhausted_mono].
    + eexists _, _, None. split_and!; [reflexivity|by apply insert_ok, set_bit_range|done|]. left.
      split_and!; [done| |exists i; by split_and!; try lia].
      split_and!; [lia|unfold n in *; lia|done|]. intros j Hj.
      rewrite (allocated_set a1 _ _ w) by done. rewrite Hs1 by done.
      replace (Z.of_nat (Z.to_nat (id / 64)) * 64 + id mod 64) with id; [done|].
      rewrite Z2Nat.id by lia. pose proof (Z.div_mod id 64). lia.
Qed.

Lemma AllocateWithHash_refines a h : alloc_ok a → 0 <= h → 2 * capacity a <= two32 →
  alloc_outcome a
    (λ id, ∃ k, 0 <= k < capacity a ∧ id = nth_try a h k ∧
                ∀ k', 0 <= k' < k → allocated a (nth_try a h k') = true)
    (AllocateWithHash a h).
Proof.
  intros Hok Hh Hcap. unfold AllocateWithHash. pose proof Hok as (_ & Hl & Hc).
  assert (wrapU32 (maxBlocks a * UintSize) = capacity a) as ->
    by (rewrite wrapU32_small; unfold capacity, UintSize, two32 in *; lia).
  apply AllocateWithHash_loop_spec; try done; unfold capacity in *; lia.
Qed.

Lemma Free_refines a id : alloc_ok a → 0 <= id < Z.of_nat (length (bits a)) * 64 →
  ∃ a', Free a id = Ok a' ∧ alloc_ok a' ∧ maxBlocks a' = maxBlocks a ∧
        length (bits a') = length (bits a) ∧
        ∀ j, 0 <= j → allocated a' j = negb (j =? id) && allocated a j.
Proof.
  intros Hok Hid. unfold Free, UintSize. pose proof (Z.mod_pos_bound id 64 ltac:(lia)) as Hmod.
  assert (0 <= id / 64 < Z.of_nat (length (bits a))) as Hb.
  { split; [apply Z.div_pos; lia|]. apply Z.div_lt_upper_bound; lia. }
  destruct (lookup_lt_is_Some_2 (bits a) (Z.to_nat (id / 64)) ltac:(lia)) as [w Hw]. rewrite Hw.
  pose proof (word_range a (Z.to_nat (id / 64)) Hok) as Hwr. unfold word in Hwr. rewrite Hw in Hwr. cbn in Hwr.
  eexists. split; [reflexivity|]. split_and!.
  - apply insert_ok; [done|]. apply clear_bit_range; [done|]. apply Z.shiftl_nonneg. lia.
  - done.
  - cbn. apply length_insert.
  - intros j Hj. rewrite (allocated_clear a _ _ w) by done.
    replace (Z.of_nat (Z.to_nat (id / 64)) * 64 + id mod 64) with id; [done|].
    rewrite Z2Nat.id by lia. pose proof (Z.div_mod id 64). lia.
Qed.

Lemma New_ok n a : 0 < n < two32 → New n = Ok a →
  alloc_ok a ∧ capacity a = n ∧ ∀ j, 0 <= j → allocated a j = (j =? 0).
Proof.
  intros Hn. unfold New, initialSize, UintSize. destruct (_ || _) eqn:E; [done|]. bool_to_prop.
  intros [= <-]. unfold two32 in Hn.
  assert (∃ m, n = 64 * m ∧ 1 <= m) as (m & -> & Hm).
  { exists (n / 64). pose proof (Z.div_mod n 64 ltac:(lia)). lia. }
  assert (wrapU32 (64 * m + 64 - 1) / 64 = m) as Hdiv.
  { rewrite wrapU32_small by (unfold two32; lia).
    replace (64 * m + 64 - 1) with (m * 64 + 63) by lia.
    rewrite Z.div_add_l, (Z.div_small 63) by lia. lia. }
  rewrite Hdiv. change (alter _ _ _) with [1]. unfold alloc_ok, capacity. cbn [bits maxBlocks length].
  split_and!; try (unfold two32; lia).
  - rewrite Forall_singleton. change (Z.lor 0 1) with 1. unfold two64. lia.
  - intros j Hj. unfold allocated, word. cbn [bits]. pose proof (Z.mod_pos_bound j 64 ltac:(lia)).
    pose proof (Z.div_mod j 64 ltac:(lia)). pose proof (Z.div_pos j 64 ltac:(lia) ltac:(lia)).
    destruct (Z.to_nat (j / 64)) as [|k] eqn:Ek; cbn.
    + change (Z.lor 0 1) with (Z.shiftl 1 0). rewrite testbit_shiftl1 by lia.
      assert (j / 64 = 0) by lia. destruct (j =? 0) eqn:Ej; bool_to_prop;
        [subst; done|apply Z.eqb_neq; lia].
    + rewrite Z.bits_0. symmetry. apply Z.eqb_neq. lia.
Qed.

(** ** Runs of the allocator *)
Inductive op := OpAllocate | OpHash (h : Z) | OpFree (id : Z).

(** One call, as the client [keepalived] makes it: IDs freed were allocated. *)
Inductive step (a : IDAllocator) : op → IDAllocator → Prop :=
| step_alloc a' id e : Allocate a = Some (a', id, e) → step a OpAllocate a'
| step_hash h a' id e : 0 <= h → AllocateWithHash a h = Some (a', id, e) → step a (OpHash h) a'
| step_free id a' : 0 <= id → allocated a id = true → Free a id = Ok a' → step a (OpFree id) a'.

Inductive run (a : IDAllocator) : list op → IDAllocator → Prop :=
| run_nil : run a [] a
| run_cons o os b c : step a o b → run b os c → run a (o :: os) c.

(** ** Properties *)

(** From [New n] on, every sequence of [Allocate], [AllocateWithHash] and
    [Free] calls (freeing allocated IDs) keeps the bitmap well-formed: 64-bit
    words, never more than the [n] IDs asked for, and the capacity stays [n]. *)
Theorem idalloc_invariant (n : Z) (a b : IDAllocator) (os : list op)
    (Hn : 0 < n /\ 2 * n <= two32) (Ha : New n = Ok a) (Hrun : run a os b) :
  alloc_ok b ∧ capacity b = n ∧ Z.of_nat (length (bits b)) * 64 <= n.
Proof.
  destruct (New_ok n a) as (Hok & Hc & _); [unfold two32 in *; lia|done|]. clear Ha.
  induction Hrun as [a|a o os b c Hs _ IH].
  - split_and!; try done. unfold alloc_ok, capacity in *. lia.
  - assert (alloc_ok b ∧ maxBlocks b = maxBlocks a) as [Hb Hm].
    { destruct Hs as [b id e H|h b id e Hh H|id b Hid Hal H].
      - destruct (Allocate_refines a Hok) as (x & ? & ? & E & ? & ? & _). simplify_eq; by split.
      - destruct (AllocateWithHash_refines a h) as (x & ? & ? & E & ? & ? & _); [done|done|lia|].
        simplify_eq; by split.
      - destruct (decide (id < Z.of_nat (length (bits a)) * 64)) as [Hlt|].
        + destruct (Free_refines a id Hok) as (x & E & ? & ? & _); [lia|].
          rewrite E in H. simplify_eq; by split.
        + by rewrite allocated_beyond in Hal by lia. }
    apply IH; [done|]. unfold capacity in *. by rewrite Hm.
Qed.

(** C17: [Allocate] terminates; it returns the least free ID and marks exactly
    that one, or [ErrIDsExhausted] with [IDMaxLimit], and this only when every
    ID is taken. *)
Theorem Allocate_least_free (a : IDAllocator) (Hok : alloc_ok a) :
  ∃ a' id e, Allocate a = Some (a', id, e) ∧ alloc_ok a' ∧
    ((e = None ∧ 0 <= id < capacity a ∧ allocated a id = false ∧
      (∀ j, 0 <= j < id → allocated a j = true) ∧
      (∀ j, 0 <= j → allocated a' j = (j =? id) || allocated a j)) ∨
     (e = Some ErrIDsExhausted ∧ id = IDMaxLimit ∧
      (∀ j, 0 <= j < capacity a → allocated a j = true) ∧
      (∀ j, 0 <= j → allocated a' j = allocated a j))).
Proof.
  destruct (Allocate_refines a Hok) as (a' & id & e & H1 & H2 & _ & H3).
  exists a', id, e. split_and!; try done.
  destruct H3 as [(-> & (? & ? & ?) & ?)|(-> & -> & ? & ?)]; auto 10.
Qed.

(** [AllocateWithHash] terminates; with [n] IDs it returns the first free ID
    in the order [h, h+1, ...] modulo [n] and marks exactly that one, or
    [ErrIDsExhausted], and this only when every ID is taken: a hash always
    gets its own slot when that slot is free. *)
Theorem AllocateWithHash_first_free (a : IDAllocator) (h : Z)
    (Hok : alloc_ok a) (Hh : 0 <= h) (Hcap : 2 * capacity a <= two32) :
  ∃ a' id e, AllocateWithHash a h = Some (a', id, e) ∧ alloc_ok a' ∧
    ((e = None ∧ 0 <= id < capacity a ∧ allocated a id = false ∧
      (∃ k, 0 <= k < capacity a ∧ id = (h mod capacity a + k) mod capacity a ∧
            ∀ k', 0 <= k' < k → allocated a ((h mod capacity a + k') mod capacity a) = true) ∧
      (∀ j, 0 <= j → allocated a' j = (j =? id) || allocated a j)) ∨
     (e = Some ErrIDsExhausted ∧ (∀ j, 0 <= j < capacity a → allocated a j = true) ∧
      (∀ j, 0 <= j → allocated a' j = allocated a j))).
Proof.
  destruct (AllocateWithHash_refines a h Hok Hh Hcap) as (a' & id & e & H1 & H2 & _ & H3).
  exists a', id, e. split_and!; try done.
  destruct H3 as [(-> & (? & ? & ?) & ?)|(-> & -> & ? & ?)]; auto 10.
Qed.

(** Freeing an ID that an allocation returned makes exactly that ID free
    again: the allocator is back at the set it had before the allocation. *)
Theorem Free_undoes_allocation (a a' : IDAllocator) (h id : Z)
    (Hok : alloc_ok a) (Hh : 0 <= h) (Hcap : 2 * capacity a <= two32)
    (Ha : AllocateWithHash a h = Some (a', id, None)) :
  ∃ a'', Free a' id = Ok a'' ∧ alloc_ok a'' ∧
         ∀ j, 0 <= j → allocated a'' j = allocated a j.
Proof.
  destruct (AllocateWithHash_refines a h Hok Hh Hcap) as (b & i & e & H1 & H2 & _ & H3).
  rewrite Ha in H1. injection H1 as <- <- <-.
  destruct H3 as [(_ & (Hid & Hfree & Hset) & _)|(He & _)]; [|done].
  assert (id < Z.of_nat (length (bits a')) * 64) as Hlt.
  { destruct (decide (Z.of_nat (length (bits a')) * 64 <= id)) as [Hge|]; [|lia].
    pose proof (allocated_beyond a' id ltac:(lia) Hge) as Hb. by rewrite Hset, Z.eqb_refl in Hb by lia. }
  destruct (Free_refines a' id H2 ltac:(lia)) as (a'' & E & Hok'' & _ & _ & Hclr).
  exists a''. split_and!; try done. intros j Hj. rewrite Hclr, Hset by done.
  destruct (j =? id) eqn:Ej; [|done]. bool_to_prop. subst. by rewrite Hfree.
Qed.

(** ** Witnesses *)
Definition alloc256 : IDAllocator := {| bits := [1]; maxBlocks := 4 |}.

Lemma alloc256_ok : alloc_ok alloc256.
Proof. destruct (New_ok 256 alloc256) as [H _]; [unfold two32; lia|reflexivity|done]. Qed.

Lemma idalloc_invariant_witness :
  capacity {| bits := [1; 1]; maxBlocks := 4 |} = 256.
Proof.
  apply (idalloc_invariant 256 alloc256 _ [OpHash 64]).
  - unfold two32; lia.
  - reflexivity.
  - eapply run_cons; [|apply run_nil]. apply (step_hash _ 64 _ 64 None); [lia|vm_compute; reflexivity].
Defined.

Lemma Allocate_least_free_witness :
  ∃ a' id e, Allocate alloc256 = Some (a', id, e) ∧ alloc_ok a'.
Proof.
  destruct (Allocate_least_free alloc256 alloc256_ok) as (a' & id & e & H & Hok & _). by exists a', id, e.
Defined.

Lemma AllocateWithHash_first_free_witness :
  ∃ a' id e, AllocateWithHash alloc256 512 = Some (a', id, e) ∧ alloc_ok a'.
Proof.
  destruct (AllocateWithHash_first_free alloc256 512 alloc256_ok) as (a' & id & e & H & Hok & _);
    [lia|unfold capacity, two32; cbn; lia|]. by exists a', id, e.
Defined.

Lemma Free_undoes_allocation_witness :
  ∃ a'', Free {| bits := [3]; maxBlocks := 4 |} 1 = Ok a'' ∧ allocated a'' 1 = allocated alloc256 1.
Proof.
  destruct (Free_undoes_allocation alloc256 {| bits := [3]; maxBlocks := 4 |} 512 1 alloc256_ok)
    as (a'' & H & _ & Hs); [lia|unfold capacity, two32; cbn; lia|vm_compute; reflexivity|].
  exists a''. split; [done|]. apply Hs. lia.
Defined.
