(* ===== verification/K8s.v ===== *)
(** * Kubernetes objects, constants and helpers

    The fields of the Kubernetes API objects that the sources read or write
    (k8s.io/api is third-party: plain records), the constants of
    [pkg/constant], the helpers of [pkg/util/util.go] and the predicates of
    [pkg/validate/validate.go].

    A Go map is an [option (gmap ...)]: [None] is the nil map, which reads as
    empty, is a panic to write, and is not [DeepEqual] to an empty one. *)
From S2P Require Import Prelude GoNet.
Local Open Scope Z_scope.

Abbreviation smap := (gmap string string).
Abbreviation gomap := (option (gmap string string)).

Definition mget (m : gomap) (k : string) : option string := m ≫= (λ m', m' !! k).
(** [m[k]] with the zero value for a missing key. *)
Definition mget0 (m : gomap) (k : string) : string := default "" (mget m k).
Definition mhas (m : gomap) (k : string) : bool := bool_decide (is_Some (mget m k)).
(** [delete(m, k)]: a no-op on a nil map. *)
Definition mdel (m : gomap) (k : string) : gomap := delete k <$> m.
(** [m[k] = v]: a panic on a nil map. *)
Definition mset (m : gomap) (k v : string) : Result gomap :=
  match m with None => Panic | Some m' => Ok (Some (<[k := v]> m')) end.

(** ** [metav1.ObjectMeta] *)
Record ObjectMeta := {
  Name : string;
  Namespace : string;
  Labels : gomap;
  Annotations : gomap;
  Finalizers : list string;
  DeletionTimestamp : option Z;
}.

#[export] Instance ObjectMeta_eq_dec : EqDecision ObjectMeta.
Proof. solve_decision. Defined.

Definition IsZero (t : option Z) : bool :=
  match t with None => true | Some z => z =? 0 end.

Definition set_Labels (m : ObjectMeta) (l : gomap) : ObjectMeta :=
  {| Name := Name m; Namespace := Namespace m; Labels := l; Annotations := Annotations m;
     Finalizers := Finalizers m; DeletionTimestamp := DeletionTimestamp m |}.
Definition set_Annotations (m : ObjectMeta) (l : gomap) : ObjectMeta :=
  {| Name := Name m; Namespace := Namespace m; Labels := Labels m; Annotations := l;
     Finalizers := Finalizers m; DeletionTimestamp := DeletionTimestamp m |}.
Definition set_Finalizers (m : ObjectMeta) (f : list string) : ObjectMeta :=
  {| Name := Name m; Namespace := Namespace m; Labels := Labels m; Annotations := Annotations m;
     Finalizers := f; DeletionTimestamp := DeletionTimestamp m |}.

(** ** [corev1.Service] *)
Inductive IPFamily := IPv4Protocol | IPv6Protocol.
#[export] Instance IPFamily_eq_dec : EqDecision IPFamily.
Proof. solve_decision. Defined.

Inductive ServiceType := ClusterIPType | NodePortType | LoadBalancerType | ExternalNameType.
#[export] Instance ServiceType_eq_dec : EqDecision ServiceType.
Proof. solve_decision. Defined.

Inductive TrafficPolicy := PolicyCluster | PolicyLocal.
#[export] Instance TrafficPolicy_eq_dec : EqDecision TrafficPolicy.
Proof. solve_decision. Defined.

Record ServicePort := { Port_Name : string; Port_Port : Z; Port_Protocol : string }.
#[export] Instance ServicePort_eq_dec : EqDecision ServicePort.
Proof. solve_decision. Defined.

Record ServiceSpec := {
  Spec_Type : ServiceType;
  Spec_LoadBalancerIP : string;
  Spec_IPFamilies : list IPFamily;
  Spec_ExternalTrafficPolicy : TrafficPolicy;
  Spec_ClusterIP : string;
  Spec_Ports : list ServicePort;
}.
#[export] Instance ServiceSpec_eq_dec : EqDecision ServiceSpec.
Proof. solve_decision. Defined.

(** One [LoadBalancerIngress]; a nil slice of them is [None]. *)
Record Ingress := { Ingress_IP : string; Ingress_Hostname : string }.
#[export] Instance Ingress_eq_dec : EqDecision Ingress.
Proof. solve_decision. Defined.

Record Service := {
  Svc_Meta : ObjectMeta;
  Svc_Spec : ServiceSpec;
  Svc_Ingress : option (list Ingress);
}.
#[export] Instance Service_eq_dec : EqDecision Service.
Proof. solve_decision. Defined.

(** ** [corev1.Node] *)
Inductive NodeAddressType := NodeHostName | NodeInternalIP | NodeExternalIP.
#[export] Instance NodeAddressType_eq_dec : EqDecision NodeAddressType.
Proof. solve_decision. Defined.

Inductive NodeConditionType := NodeReadyCond | NodeNetworkUnavailable | NodeOtherCond.
#[export] Instance NodeConditionType_eq_dec : EqDecision NodeConditionType.
Proof. solve_decision. Defined.
Inductive ConditionStatus := ConditionTrue | ConditionFalse | ConditionUnknown.
#[export] Instance ConditionStatus_eq_dec : EqDecision ConditionStatus.
Proof. solve_decision. Defined.

Record Node := {
  Node_Meta : ObjectMeta;
  Node_Addresses : list (NodeAddressType * string);
  Node_Conditions : list (NodeConditionType * ConditionStatus);
}.
#[export] Instance Node_eq_dec : EqDecision Node.
Proof. solve_decision. Defined.

(** ** [pkg/constant/constant.go] *)
Module constant.
Definition FinalizerName : string := "finalizer.lb.kubesphere.io/v1alpha1".
Definition IPAMFinalizerName : string := "finalizer.ipam.kubesphere.io/v1alpha1".
Definition OpenELBAnnotationKey : string := "lb.kubesphere.io/v1alpha1".
Definition OpenELBAnnotationValue : string := "openelb".
Definition OpenELBLayer2Annotation : string := "layer2.openelb.kubesphere.io/v1alpha1".
Definition NodeProxyTypeAnnotationKey : string := "node-proxy.openelb.kubesphere.io/type".
Definition NodeProxyTypeDeployment : string := "deployment".
Definition NodeProxyTypeDaemonSet : string := "daemonset".
Definition LabelNodeProxyExternalIPPreffered : string := "node-proxy.openelb.kubesphere.io/external-ip-preffered".
Definition LabelNodeProxyExcludeNode : string := "node-proxy.openelb.kubesphere.io/exclude-node".
Definition NodeProxyExternalIPAnnotationKey : string := "node-proxy.openelb.kubesphere.io/external-ip".
Definition NodeProxyInternalIPAnnotationKey : string := "node-proxy.openelb.kubesphere.io/internal-ip".
Definition IPSeparator : string := ",".
Definition EnvArgSplitter : string := " ".
Definition NodeProxyFinalizerName : string := "node-proxy.openelb.kubesphere.io/finalizer".
Definition KubernetesMasterLabel : string := "node-role.kubernetes.io/master".
Definition OpenELBImagesConfigMap : string := "openelb-images".
Definition NodeProxyConfigMapForwardImage : string := "forward-image".
Definition NodeProxyConfigMapProxyImage : string := "proxy-image".
Definition NodeProxyDefaultForwardImage : string := "kubesphere/openelb-forward:master".
Definition NodeProxyDefaultProxyImage : string := "kubesphere/openelb-proxy:master".
Definition NameSeparator : string := "-".
Definition NodeProxyWorkloadPrefix : string := "node-proxy-".
Definition OpenELBEIPAnnotationKey : string := "eip.openelb.kubesphere.io/v1alpha1".
Definition OpenELBEIPAnnotationKeyV1Alpha2 : string := "eip.openelb.kubesphere.io/v1alpha2".
Definition OpenELBEIPAnnotationDefaultPool : string := "eip.openelb.kubesphere.io/is-default-eip".
Definition OpenELBProtocolAnnotationKey : string := "protocol.openelb.kubesphere.io/v1alpha1".
Definition OpenELBNodeRack : string := "openelb.kubesphere.io/rack".
Definition OpenELBCNI : string := "openelb.kubesphere.io/cni".
Definition OpenELBProtocolBGP : string := "bgp".
Definition OpenELBProtocolLayer2 : string := "layer2".
Definition OpenELBProtocolDummy : string := "dummy".
Definition OpenELBProtocolVip : string := "vip".
Definition EipRangeSeparator : ascii := "-"%char.
Definition OpenELBSpeakerName : string := "openelb-speaker".
Definition OpenELBNamespace : string := "openelb-system".
Definition Layer2ReloadEIPName : string := "reload".
Definition Layer2ReloadEIPNamespace : string := "openelb-layer2-eip-reload".
End constant.

(** ** [pkg/util/util.go] *)
Fixpoint ContainsString (slice : list string) (s : string) : bool :=
  match slice with
  | [] => false
  | item :: rest => if decide (item = s) then true else ContainsString rest s
  end.

Fixpoint RemoveString (slice : list string) (s : string) : list string :=
  match slice with
  | [] => []
  | item :: rest => if decide (item = s) then RemoveString rest s else item :: RemoveString rest s
  end.

Definition IsDeletionCandidate (obj : ObjectMeta) (finalizer : string) : bool :=
  negb (IsZero (DeletionTimestamp obj)) && ContainsString (Finalizers obj) finalizer.

Definition NeedToAddFinalizer (obj : ObjectMeta) (finalizer : string) : bool :=
  IsZero (DeletionTimestamp obj) && negb (ContainsString (Finalizers obj) finalizer).

Fixpoint node_internal_ip (addrs : list (NodeAddressType * string)) : IP :=
  match addrs with
  | [] => []
  | (t, a) :: rest => if decide (t = NodeInternalIP) then ParseIP a else node_internal_ip rest
  end.
Definition GetNodeIP (node : Node) : IP := node_internal_ip (Node_Addresses node).

(** [DutyOfCNI]: a nil old object is [None]. *)
Definition DutyOfCNI (metaOld : option ObjectMeta) (metaNew : ObjectMeta) : bool :=
  let okNew := mhas (Labels metaNew) constant.OpenELBCNI in
  match metaOld with
  | None => okNew
  | Some old =>
      let okOld := mhas (Labels old) constant.OpenELBCNI in
      if Bool.eqb okOld okNew && okOld then true else false
  end.

(** The environment variables are arguments. *)
Definition EnvNamespace (env : string) : string :=
  if str_empty env then constant.OpenELBNamespace else env.

Definition EnvDaemonsetName (env : string) : string :=
  if str_empty env then constant.OpenELBSpeakerName
  else let strs := Split "-" env in Join (take (length strs - 1) strs) "-".

Fixpoint conditions_ready (cs : list (NodeConditionType * ConditionStatus)) : bool :=
  match cs with
  | [] => true
  | (t, s) :: rest =>
      if bool_decide (t = NodeReadyCond) && negb (bool_decide (s = ConditionTrue)) then false
      else if bool_decide (t = NodeNetworkUnavailable) && negb (bool_decide (s = ConditionFalse)) then false
      else conditions_ready rest
  end.
Definition NodeReady (node : Node) : bool := conditions_ready (Node_Conditions node).

(** [DiffMaps old new]: the entries whose key is only in [new], and only in [old]. *)
Definition DiffMaps `{R : GoRange} (old new : smap) : smap * smap :=
  (foldl (λ add kv, match old !! kv.1 with None => <[kv.1 := kv.2]> add | Some _ => add end) ∅ (range_map new),
   foldl (λ del kv, match new !! kv.1 with None => <[kv.1 := kv.2]> del | Some _ => del end) ∅ (range_map old)).

(** ** [pkg/validate/validate.go] *)
Definition HasOpenELBAnnotation (annotation : gomap) : bool :=
  match mget annotation constant.OpenELBAnnotationKey with
  | Some value => bool_decide (value = constant.OpenELBAnnotationValue)
  | None => false
  end.

Definition HasOpenELBNPAnnotation (annotation : gomap) : bool :=
  match mget annotation constant.NodeProxyTypeAnnotationKey with
  | Some value => bool_decide (value = constant.NodeProxyTypeDeployment) ||
                  bool_decide (value = constant.NodeProxyTypeDaemonSet)
  | None => false
  end.

Definition IsTypeLoadBalancer (svc : Service) : bool :=
  bool_decide (Spec_Type (Svc_Spec svc) = LoadBalancerType).

Definition HasOpenELBDefaultEipAnnotation (annotation : gomap) : bool :=
  match mget annotation constant.OpenELBEIPAnnotationDefaultPool with
  | Some value => bool_decide (ToLower value = "true")
  | None => false
  end.

(** [controllerutil.AddFinalizer] and [RemoveFinalizer] (third-party, their
    documented effect on the slice). *)
Definition AddFinalizer (m : ObjectMeta) (f : string) : ObjectMeta :=
  if ContainsString (Finalizers m) f then m else set_Finalizers m (Finalizers m ++ [f]).
Definition RemoveFinalizer (m : ObjectMeta) (f : string) : ObjectMeta :=
  set_Finalizers m (RemoveString (Finalizers m) f).

(** ** Lemmas *)
Lemma ContainsString_elem l s : ContainsString l s = true ↔ s ∈ l.
Proof.
  induction l as [|x l IH]; cbn; [split; [done|by intros ?%not_elem_of_nil]|].
  rewrite elem_of_cons. case_decide; [subst; tauto|]. rewrite IH.
  split; [tauto|]. intros [->|?]; [done|tauto].
Qed.

Lemma elem_of_RemoveString l s x : x ∈ RemoveString l s ↔ x ∈ l ∧ x ≠ s.
Proof.
  induction l as [|y l IH]; cbn; [set_solver|].
  case_decide; subst; rewrite ?elem_of_cons, ?IH; split; intuition congruence.
Qed.

Lemma RemoveString_notin l s : s ∉ l → RemoveString l s = l.
Proof.
  induction l as [|y l IH]; cbn; [done|]. rewrite not_elem_of_cons. intros [Hy Hl].
  rewrite decide_False by congruence. by rewrite IH.
Qed.

Lemma RemoveString_app l k s : RemoveString (l ++ k) s = RemoveString l s ++ RemoveString k s.
Proof. induction l as [|y l IH]; cbn; [done|]. case_decide; by rewrite IH. Qed.

Lemma RemoveString_NoDup l s : NoDup l → NoDup (RemoveString l s).
Proof.
  induction 1 as [|x l Hx Hl IH]; cbn; [constructor|]. case_decide; [done|].
  constructor; [|done]. rewrite elem_of_RemoveString. tauto.
Qed.

(** Filtering a map through a loop over its entries. *)
Lemma foldl_filter_lookup (P : string → bool) (l : list (string * string)) (acc : smap) k :
  NoDup l.*1 → (∀ k v, (k, v) ∈ l → acc !! k = None) →
  foldl (λ m kv, if P kv.1 then <[kv.1 := kv.2]> m else m) acc l !! k =
  match list_to_map (M := smap) l !! k with
  | Some v => if P k then Some v else acc !! k
  | None => acc !! k
  end.
Proof.
  revert acc. induction l as [|[k0 v0] l IH]; intros acc Hnd Hacc; [done|].
  cbn [foldl fst snd fmap list_fmap] in *. apply NoDup_cons in Hnd as [Hk0 Hnd].
  rewrite IH; [|done|].
  - cbn. destruct (decide (k0 = k)) as [->|Hne].
    + rewrite lookup_insert_eq. assert (list_to_map (M := smap) l !! k = None) as ->
        by (by apply not_elem_of_list_to_map_1).
      destruct (P k) eqn:EP; [by rewrite lookup_insert_eq|done].
    + rewrite lookup_insert_ne by done. destruct (P k0); by rewrite ?lookup_insert_ne by done.
  - intros k1 v1 Hin. assert (k0 ≠ k1).
    { intros ->. apply Hk0. apply list_elem_of_fmap. by exists (k1, v1). }
    destruct (P k0); [rewrite lookup_insert_ne by done|]; apply (Hacc k1 v1); set_solver.
Qed.

Lemma DiffMaps_half `{R : GoRange} (a b : smap) k :
  foldl (λ (add : smap) (kv : string * string), match a !! kv.1 with
    None => <[kv.1 := kv.2]> add | Some _ => add end) ∅ (range_map b) !! k =
  match a !! k with None => b !! k | Some _ => None end.
Proof.
  set (P := λ x : string, match a !! x with None => true | Some _ => false end).
  transitivity (foldl (λ (m : smap) kv, if P kv.1 then <[kv.1 := kv.2]> m else m) ∅ (range_map b) !! k).
  { f_equal. generalize (∅ : smap).
    induction (range_map b) as [|[k' v'] l IH]; intros acc; [done|].
    cbn. rewrite IH. unfold P. destruct (a !! k'); done. }
  rewrite foldl_filter_lookup by (apply NoDup_range_map_fst || (intros; apply lookup_empty)).
  rewrite list_to_map_range, lookup_empty. unfold P. by repeat case_match.
Qed.

Lemma DiffMaps_lookup `{R : GoRange} (old new : smap) k :
  (DiffMaps old new).1 !! k = match old !! k with None => new !! k | Some _ => None end ∧
  (DiffMaps old new).2 !! k = match new !! k with None => old !! k | Some _ => None end.
Proof. split; apply DiffMaps_half. Qed.
