(* ===== verification/EipTypes.v ===== *)
(** * [api/v1alpha2/eip_types.go]: the Eip resource and its admission webhook

    An [Eip] is a pool of addresses written as one address, a CIDR network or
    a range [first-last].  The file models the resource, the size and
    ordinal arithmetic ([int64] and [int] at their width), and the
    validating webhook; [Eip.IsOverlap] and [Eip.Contains] drop the error of
    [GetSize] and go on with the zero values, and so do the definitions.

    The webhook lists the existing pools from the API server; the result of
    that call is an argument.  [Cluster] is the set of admitted pools as it
    evolves under admitted requests. *)
From S2P Require Import Prelude GoNet Cnet K8s.
Local Open Scope Z_scope.

(** ** The resource *)
Record EipSpec := {
  Address : string;
  Protocol : string;
  Interface : string;
  Disable : bool;
  UsingKnownIPs : bool;
  Priority : Z;
  Namespaces : list string;
  NamespaceSelector : gomap;
}.
#[export] Instance EipSpec_eq_dec : EqDecision EipSpec.
Proof. solve_decision. Defined.

Record EipStatus := {
  Occupied : bool;
  Usage : Z;
  PoolSize : Z;
  Used : gomap;
  FirstIP : string;
  LastIP : string;
  Ready : bool;
  V4 : bool;
}.
#[export] Instance EipStatus_eq_dec : EqDecision EipStatus.
Proof. solve_decision. Defined.

Record Eip := {
  Eip_Meta : ObjectMeta;
  Eip_Spec : EipSpec;
  Eip_Status : EipStatus;
}.
#[export] Instance Eip_eq_dec : EqDecision Eip.
Proof. solve_decision. Defined.

Definition Eip_Name (e : Eip) : string := Name (Eip_Meta e).

(** The zero value [&Eip{}]. *)
Definition zero_Meta : ObjectMeta :=
  {| Name := ""; Namespace := ""; Labels := None; Annotations := None;
     Finalizers := []; DeletionTimestamp := None |}.
Definition zero_Eip : Eip :=
  {| Eip_Meta := zero_Meta;
     Eip_Spec := {| Address := ""; Protocol := ""; Interface := ""; Disable := false;
                    UsingKnownIPs := false; Priority := 0; Namespaces := [];
                    NamespaceSelector := None |};
     Eip_Status := {| Occupied := false; Usage := 0; PoolSize := 0; Used := None;
                      FirstIP := ""; LastIP := ""; Ready := false; V4 := false |} |}.

(** ** Methods *)

(** [GetSize]: the first address and the [int64] number of addresses. *)
Definition GetSize (e : Eip) : Result (IP * Z) :=
  let ip := ParseIP (Address (Eip_Spec e)) in
  if negb (ip_nil ip) then Ok (ip, 1)
  else
    match ParseCIDR (Address (Eip_Spec e)) with
    | Ok (_, cidr) =>
        let '(ones, size) := Mask_Size (IPNet_Mask cidr) in
        let num := wrap64 (Z.shiftl 1 (size - ones)) in
        Ok (IPNet_IP cidr, num)
    | _ =>
        match SplitN2 constant.EipRangeSeparator (Address (Eip_Spec e)) with
        | [s0; s1] =>
            match cnet_ParseIP s0, cnet_ParseIP s1 with
            | Some base, Some last =>
                let ord := big_Int64 (IPToBigInt last - IPToBigInt base) in
                if ord <? 0 then Err (Errorf "invalid eip address format")
                else Ok (base, wrap64 (ord + 1))
            | _, _ => Err (Errorf "invalid eip address format")
            end
        | _ => Err (Errorf "invalid eip address format")
        end
    end.

(** [base, size, _ := e.GetSize()] *)
Definition GetSize_ignore (e : Eip) : IP * Z :=
  match GetSize e with Ok r => r | _ => ([], 0) end.

Definition IPToOrdinal (e : Eip) (ip : IP) : Z :=
  match GetSize e with
  | Ok (base, size) =>
      let ipAsInt := IPToBigInt ip in
      let baseInt := IPToBigInt base in
      let ord := big_Int64 (ipAsInt - baseInt) in
      if (ord <? 0) || (ord >=? size) then -1 else ord
  | _ => -1
  end.

Definition GetProtocol (e : Eip) : string :=
  if decide (Protocol (Eip_Spec e) = constant.OpenELBProtocolLayer2)
  then constant.OpenELBProtocolLayer2
  else if decide (Protocol (Eip_Spec e) = constant.OpenELBProtocolVip)
  then constant.OpenELBProtocolVip
  else constant.OpenELBProtocolBGP.

Definition GetSpeakerName (e : Eip) : string :=
  if DutyOfCNI None (Eip_Meta e) then constant.OpenELBProtocolDummy else GetProtocol e.

Definition IsOverlap (e eip : Eip) : bool :=
  let '(base, size) := GetSize_ignore e in
  let '(tBase, tSize) := GetSize_ignore eip in
  if (IPToBigInt base >? IPToBigInt tBase + wrap64 (tSize - 1))
     || (IPToBigInt tBase >? IPToBigInt base + wrap64 (size - 1))
  then false else true.

Definition Contains (e : Eip) (ip : IP) : bool :=
  let '(base, size) := GetSize_ignore e in
  (IPToBigInt ip >=? IPToBigInt base)
  && (IPToBigInt ip <=? IPToBigInt base + wrap64 (size - 1)).

Definition IsDefault (e : Eip) : bool :=
  bool_decide (mget0 (Annotations (Eip_Meta e)) constant.OpenELBEIPAnnotationDefaultPool = "true").

(** ** The webhook *)
Fixpoint default_loop (e : Eip) (items : list Eip) : Result () :=
  match items with
  | [] => Ok ()
  | eip :: rest =>
      if decide (Eip_Name eip = Eip_Name e) then default_loop e rest
      else if HasOpenELBDefaultEipAnnotation (Annotations (Eip_Meta eip))
      then Err (Errorf "already exists a default EIP")
      else default_loop e rest
  end.
Definition validateDefault (e : Eip) (eips : option (list Eip)) : Result () :=
  match eips with
  | None => Ok ()
  | Some items =>
      if negb (HasOpenELBDefaultEipAnnotation (Annotations (Eip_Meta e))) then Ok ()
      else default_loop e items
  end.

Fixpoint overlap_loop (e : Eip) (items : list Eip) : Result () :=
  match items with
  | [] => Ok ()
  | eip :: rest =>
      if decide (Eip_Name eip = Eip_Name e) then overlap_loop e rest
      else if IsOverlap e eip
      then Err (Errorf ("eip address overlap with " +:+ Eip_Name eip))
      else overlap_loop e rest
  end.
Definition validateOverlap (e : Eip) (eips : option (list Eip)) : Result () :=
  match eips with None => Ok () | Some items => overlap_loop e items end.

(** [validate]: [listed] is what [client.Client.List] returned. *)
Definition validate (listed : Result (list Eip)) (e : Eip) (overlap : bool) : Result () :=
  eips ← listed;
  _ ← (if overlap then validateOverlap e (Some eips) else Ok ());
  validateDefault e (Some eips).

Definition needs_interface (e : Eip) : bool :=
  (bool_decide (Protocol (Eip_Spec e) = constant.OpenELBProtocolLayer2)
   || bool_decide (Protocol (Eip_Spec e) = constant.OpenELBProtocolVip))
  && str_empty (Interface (Eip_Spec e)).

Definition ValidateCreate (listed : Result (list Eip)) (e : Eip) : Result () :=
  match GetSize e with
  | Ok _ =>
      if needs_interface e
      then Err (Errorf "if protocol is layer2 or vip, interface should not be empty")
      else validate listed e true
  | Err err => Err err
  | Panic => Panic
  end.

Definition ValidateUpdate (listed : Result (list Eip)) (e oldE : Eip) : Result () :=
  _ ← (if decide (Annotations (Eip_Meta e) = Annotations (Eip_Meta oldE)) then Ok ()
       else validate listed e false);
  _ ← (if decide (Eip_Spec e = Eip_Spec oldE) then Ok ()
       else if decide (Address (Eip_Spec e) = Address (Eip_Spec oldE)) then Ok ()
       else Err (Errorf "the address field is not allowed to be modified"));
  if needs_interface e
  then Err (Errorf "if protocol is layer2 or vip, interface should not be empty")
  else Ok ().

Definition ValidateDelete (e : Eip) : Result () := Ok ().

(** ** Pools as intervals *)

(** The pool lies inside its address space and has addresses. *)
Definition pool_ok (base : IP) (size : Z) : Prop :=
  ip_ok base ∧ 1 <= size < two63 ∧
  IPToBigInt base + size <= 256 ^ Z.of_nat (length (canon base)).

Lemma size_pred size : 1 <= size < two63 → wrap64 (size - 1) = size - 1.
Proof. intros. apply wrap64_small. unfold two63 in *. lia. Qed.

Lemma Contains_spec e base size ip : GetSize e = Ok (base, size) → 1 <= size < two63 →
  Contains e ip = true ↔ IPToBigInt base <= IPToBigInt ip < IPToBigInt base + size.
Proof.
  intros Hg Hs. unfold Contains, GetSize_ignore. rewrite Hg, size_pred by done.
  rewrite Z.geb_leb. bool_to_prop. lia.
Qed.

Lemma IPToBigInt_ip_bound ip : ip_ok ip →
  0 <= IPToBigInt ip < 256 ^ Z.of_nat (length (canon ip)).
Proof.
  intros Hok. rewrite <- canon_IPToBigInt. by apply IPToBigInt_bound, canon_canonical.
Qed.

(** A network parsed from a CIDR. *)
Lemma network_fits s ip n ones bits : ParseCIDR s = Ok (ip, n) →
  Mask_Size (IPNet_Mask n) = (ones, bits) →
  ip_ok (IPNet_IP n) ∧ 0 <= ones <= bits ∧
  (canonical (IPNet_IP n) →
   IPToBigInt (IPNet_IP n) + 2 ^ (bits - ones) <= 256 ^ Z.of_nat (length (IPNet_IP n))).
Proof.
  intros Hp Hm. apply ParseCIDR_ok in Hp as (len & o & Hlen & Ho & Hmask & Hl & Hb & Hsz & Hal).
  rewrite Hsz in Hm. injection Hm as <- <-. split; [split; [done|by rewrite Hl]|].
  split; [done|]. intros Hc. rewrite IPToBigInt_canonical, Hl, pow256 by done.
  pose proof (SetBytes_bound _ Hb) as Hbound. rewrite Hl, pow256 in Hbound.
  apply network_last; [lia|done|done].
Qed.

(** Bitwise containment in an aligned network is an interval. *)
Lemma network_interval b x k : 0 <= k → b mod 2 ^ k = 0 →
  x / 2 ^ k * 2 ^ k = b ↔ b <= x < b + 2 ^ k.
Proof.
  intros Hk Hb. assert (0 < 2 ^ k) by (apply Z.pow_pos_nonneg; lia).
  pose proof (Z.div_mod x (2 ^ k)) as Hx. pose proof (Z.div_mod b (2 ^ k)) as Hb'.
  pose proof (Z.mod_pos_bound x (2 ^ k)). split; [intros <-; lia|]. intros Hr.
  assert (x / 2 ^ k = b / 2 ^ k); [|lia].
  symmetry. apply (Z.div_unique_pos _ _ _ (x - b)); lia.
Qed.

Lemma IPNet_Contains_interval s ip n ones bits x : ParseCIDR s = Ok (ip, n) →
  Mask_Size (IPNet_Mask n) = (ones, bits) → canonical (IPNet_IP n) → canonical x →
  IPNet_Contains n x = true ↔
  length x = length (IPNet_IP n) ∧
  IPToBigInt (IPNet_IP n) <= IPToBigInt x < IPToBigInt (IPNet_IP n) + 2 ^ (bits - ones).
Proof.
  intros Hp Hm Hcn Hcx.
  apply ParseCIDR_ok in Hp as (len & o & Hlen & Ho & Hmask & Hl & Hb & Hsz & Hal).
  rewrite Hsz in Hm. injection Hm as <- <-. rewrite !IPToBigInt_canonical by done.
  unfold IPNet_Contains. assert (networkNumberAndMask n = (IPNet_IP n, IPNet_Mask n)) as ->.
  { unfold networkNumberAndMask. rewrite Hmask, length_CIDRMask.
    destruct (canonical_To4 _ Hcn) as [(E & E4)|(E & E4 & _)]; rewrite E4;
      rewrite Hl in E.
    - replace (ip_nil (IPNet_IP n)) with false by (destruct (IPNet_IP n); [cbn in Hl; lia|done]).
      cbn [andb]. by rewrite E, Hl, E.
    - cbn [ip_nil andb]. by rewrite !Hl, !E. }
  assert ((if ip_nil (To4 x) then x else To4 x) = x) as ->
    by (destruct (canonical_To4 _ Hcx) as [(_ & ->)|(_ & -> & _)]; by destruct x).
  destruct (Nat.eqb_spec (length x) (length (IPNet_IP n))) as [E|E]; cbn [negb];
    [|split; [done|tauto]].
  rewrite bool_decide_eq_true. destruct Hcx as [Hbx _].
  assert (bytes_ok (IPNet_Mask n)) by (rewrite Hmask; apply be_bytes_ok).
  assert (length (IPNet_Mask n) = len) as Hlm by (rewrite Hmask; apply length_CIDRMask).
  assert (∀ y, bytes_ok y → length y = len → SetBytes (and_bytes y (IPNet_Mask n)) =
    SetBytes y / 2 ^ (8 * Z.of_nat len - o) * 2 ^ (8 * Z.of_nat len - o)) as Hand.
  { intros y Hy Hly. rewrite SetBytes_and by (done || congruence).
    rewrite Hmask, SetBytes_CIDRMask by done. apply land_prefix; [lia|].
    rewrite <- pow256, <- Hly. by apply SetBytes_bound. }
  rewrite <- (network_interval _ _ (8 * Z.of_nat len - o)) by (done || lia).
  assert (∀ y, length y = len → length (and_bytes y (IPNet_Mask n)) = len) as Hlen_and.
  { intros y Hy. unfold and_bytes. rewrite length_zip_with. lia. }
  transitivity (SetBytes (and_bytes (IPNet_IP n) (IPNet_Mask n)) = SetBytes (and_bytes x (IPNet_Mask n))).
  { split; [by intros ->|]. intros Heq. apply SetBytes_inj in Heq; auto using and_bytes_ok.
    rewrite !Hlen_and; congruence. }
  rewrite !Hand by congruence.
  pose proof (Z.div_mod (SetBytes (IPNet_IP n)) (2 ^ (8 * Z.of_nat len - o))).
  assert (0 < 2 ^ (8 * Z.of_nat len - o)) by (apply Z.pow_pos_nonneg; lia). lia.
Qed.

Lemma GetSize_cidr e ip n ones bits : ParseIP (Address (Eip_Spec e)) = [] →
  ParseCIDR (Address (Eip_Spec e)) = Ok (ip, n) → Mask_Size (IPNet_Mask n) = (ones, bits) →
  GetSize e = Ok (IPNet_IP n, wrap64 (2 ^ (bits - ones))).
Proof.
  intros H0 Hp Hm. unfold GetSize. rewrite H0, Hp, Hm. cbn [ip_nil negb].
  assert (0 <= bits - ones) by (apply (network_fits _ _ _ _ _ Hp) in Hm; lia).
  by rewrite Z.shiftl_1_l.
Qed.

Lemma wrap64_pow_high k : 64 <= k → wrap64 (2 ^ k) = 0.
Proof.
  intros Hk. replace k with (64 + (k - 64)) by lia. rewrite Z.pow_add_r by lia.
  change (2 ^ 64) with two64. unfold wrap64.
  rewrite Z.add_comm, (Z.mul_comm two64), Z_mod_plus_full. done.
Qed.

Lemma pow_small k : 0 <= k <= 62 → 1 <= 2 ^ k < two63.
Proof.
  intros Hk. pose proof (Z.pow_pos_nonneg 2 k ltac:(lia) ltac:(lia)).
  pose proof (Z.pow_le_mono_r 2 k 62 ltac:(lia) ltac:(lia)).
  change (2 ^ 62) with 4611686018427387904 in *. unfold two63. lia.
Qed.

(** The offset of an address of the pool, as the [int64] the code computes. *)
Lemma IPToOrdinal_exact e base size ip : GetSize e = Ok (base, size) →
  - two63 <= IPToBigInt ip - IPToBigInt base < two63 →
  IPToOrdinal e ip =
  (if (IPToBigInt ip - IPToBigInt base <? 0) || (IPToBigInt ip - IPToBigInt base >=? size)
   then -1 else IPToBigInt ip - IPToBigInt base).
Proof.
  intros Hg Hd. unfold IPToOrdinal. rewrite Hg. by rewrite big_Int64_small.
Qed.

(** [canon] and [IncrementIP] on pool addresses. *)
Lemma IncrementIP_canon base ip k : ip_ok base → ip_ok ip →
  length (canon ip) = length (canon base) → IPToBigInt ip = IPToBigInt base + k →
  IncrementIP (canon base) k = Ok (canon ip).
Proof.
  intros Hb Hi Hl Hk. pose proof (IPToBigInt_ip_bound ip Hi) as Hbd.
  pose proof (canon_canonical _ Hi) as Hci. pose proof (canon_canonical _ Hb) as Hcb.
  rewrite IncrementIP_spec; [|done|]; rewrite canon_IPToBigInt, <- Hk, <- Hl; [|done].
  rewrite <- canon_IPToBigInt, IPToBigInt_canonical by done.
  by rewrite be_bytes_SetBytes by apply Hci.
Qed.

(** ** The admitted pools as they evolve *)
Abbreviation Cluster := (gmap string Eip).

(** What a list call may return: the pools in any order. *)
Definition listing (c : Cluster) (items : list Eip) : Prop := items ≡ₚ (map_to_list c).*2.

Inductive cluster_step (c : Cluster) : Cluster → Prop :=
| step_create e items :
    c !! Eip_Name e = None → listing c items → ValidateCreate (Ok items) e = Ok () →
    cluster_step c (<[Eip_Name e := e]> c)
| step_update e old items :
    c !! Eip_Name e = Some old → listing c items → ValidateUpdate (Ok items) e old = Ok () →
    cluster_step c (<[Eip_Name e := e]> c)
| step_status e st :
    c !! Eip_Name e = Some e →
    cluster_step c (<[Eip_Name e := {| Eip_Meta := Eip_Meta e; Eip_Spec := Eip_Spec e;
                                       Eip_Status := st |}]> c)
| step_delete e :
    c !! Eip_Name e = Some e → ValidateDelete e = Ok () → cluster_step c (delete (Eip_Name e) c).

(** The text alone decides the addresses. *)
Lemma Contains_address e1 e2 ip : Address (Eip_Spec e1) = Address (Eip_Spec e2) →
  Contains e1 ip = Contains e2 ip.
Proof. intros H. unfold Contains, GetSize_ignore, GetSize. by rewrite H. Qed.

Lemma GetSize_address e1 e2 : Address (Eip_Spec e1) = Address (Eip_Spec e2) →
  GetSize e1 = GetSize e2.
Proof. intros H. unfold GetSize. by rewrite H. Qed.

Lemma overlap_loop_ok e items : overlap_loop e items = Ok () →
  ∀ eip, eip ∈ items → Eip_Name eip ≠ Eip_Name e → IsOverlap e eip = false.
Proof.
  induction items as [|x items IH]; cbn; [by intros _ ? ?%not_elem_of_nil|].
  intros H eip [->|Hin]%elem_of_cons Hne.
  - rewrite decide_False in H by done. by destruct (IsOverlap e x).
  - case_decide; [by apply IH|]. destruct (IsOverlap e x); [done|by apply IH].
Qed.

Lemma default_loop_ok e items : default_loop e items = Ok () →
  ∀ eip, eip ∈ items → Eip_Name eip ≠ Eip_Name e →
    HasOpenELBDefaultEipAnnotation (Annotations (Eip_Meta eip)) = false.
Proof.
  induction items as [|x items IH]; cbn; [by intros _ ? ?%not_elem_of_nil|].
  intros H eip [->|Hin]%elem_of_cons Hne.
  - rewrite decide_False in H by done. by destruct (HasOpenELBDefaultEipAnnotation _).
  - case_decide; [by apply IH|]. destruct (HasOpenELBDefaultEipAnnotation _); [done|by apply IH].
Qed.

Lemma not_overlap_disjoint e1 e2 : IsOverlap e1 e2 = false →
  ∀ ip, Contains e1 ip = true → Contains e2 ip = true → False.
Proof.
  unfold IsOverlap, Contains. intros H ip.
  destruct (GetSize_ignore e1) as [b1 s1], (GetSize_ignore e2) as [b2 s2].
  rewrite !Z.geb_leb. destruct (_ || _) eqn:E; [|done].
  rewrite !Z.gtb_ltb in E. bool_to_prop. intros. bool_to_prop. lia.
Qed.

Definition is_default_pool (e : Eip) : Prop :=
  HasOpenELBDefaultEipAnnotation (Annotations (Eip_Meta e)) = true.

(** What the webhook keeps.  The addresses of a pool are those that [Contains]
    accepts; a pool whose size is computed as 0 has none, see [IsOverlap_blind]
    for what the check makes of it. *)
Record cluster_ok (c : Cluster) : Prop := {
  ok_name : ∀ n e, c !! n = Some e → Eip_Name e = n;
  ok_size : ∀ n e, c !! n = Some e → is_ok (GetSize e) = true;
  ok_interface : ∀ n e, c !! n = Some e → needs_interface e = false;
  ok_disjoint : ∀ n1 n2 e1 e2 ip, c !! n1 = Some e1 → c !! n2 = Some e2 → n1 ≠ n2 →
    Contains e1 ip = true → Contains e2 ip = true → False;
  ok_default : ∀ n1 n2 e1 e2, c !! n1 = Some e1 → c !! n2 = Some e2 →
    is_default_pool e1 → is_default_pool e2 → n1 = n2;
}.

Lemma listing_elem c items n e : listing c items → c !! n = Some e → e ∈ items.
Proof.
  intros -> Hn. apply list_elem_of_fmap. exists (n, e). split; [done|].
  by apply elem_of_map_to_list.
Qed.

(** Replacing one entry keeps [cluster_ok] when the new entry is good
    against all the others. *)
Lemma cluster_ok_insert c e : cluster_ok c →
  is_ok (GetSize e) = true → needs_interface e = false →
  (∀ n eip ip, c !! n = Some eip → n ≠ Eip_Name e →
     Contains e ip = true → Contains eip ip = true → False) →
  (is_default_pool e → ∀ n eip, c !! n = Some eip → n ≠ Eip_Name e → ¬ is_default_pool eip) →
  cluster_ok (<[Eip_Name e := e]> c).
Proof.
  intros Hc Hg Hi Hdj Hdf. constructor.
  - intros n x [[<- <-]|[_ Hx]]%lookup_insert_Some; [done|by apply (ok_name c Hc)].
  - intros n x [[<- <-]|[_ Hx]]%lookup_insert_Some; [done|by apply (ok_size c Hc n)].
  - intros n x [[<- <-]|[_ Hx]]%lookup_insert_Some; [done|by apply (ok_interface c Hc n)].
  - intros n1 n2 e1 e2 ip [[<- <-]|[H1 Hx]]%lookup_insert_Some
      [[<- <-]|[H2 Hy]]%lookup_insert_Some Hne C1 C2; [done|eauto..|].
    by apply (ok_disjoint c Hc n1 n2 e1 e2 ip).
  - intros n1 n2 e1 e2 [[<- <-]|[H1 Hx]]%lookup_insert_Some
      [[<- <-]|[H2 Hy]]%lookup_insert_Some D1 D2; [done| | |].
    + by destruct (Hdf D1 n2 e2 Hy).
    + by destruct (Hdf D2 n1 e1 Hx).
    + by apply (ok_default c Hc n1 n2 e1 e2).
Qed.

Lemma validate_ok items e b : validate (Ok items) e b = Ok () →
  (b = true → overlap_loop e items = Ok ()) ∧ (is_default_pool e → default_loop e items = Ok ()).
Proof.
  unfold validate, is_default_pool. cbn. intros H.
  destruct b; [destruct (overlap_loop e items) as [[]| |] eqn:Eo; try done|]; cbn in H;
    (split; [done|]); intros Hd; by rewrite Hd in H.
Qed.

Lemma cluster_step_ok c c' : cluster_ok c → cluster_step c c' → cluster_ok c'.
Proof.
  intros Hc [e items Hn Hl Hv|e old items Hn Hl Hv|e st He|e He _].
  - unfold ValidateCreate in Hv. destruct (GetSize e) eqn:Eg; [|done..].
    destruct (needs_interface e) eqn:Ei; [done|].
    apply validate_ok in Hv as [Ho Hd]. specialize (Ho eq_refl).
    assert (∀ n eip, c !! n = Some eip → n ≠ Eip_Name e → eip ∈ items ∧ Eip_Name eip ≠ Eip_Name e) as Hin.
    { intros n eip Hx Hne. split; [by eapply listing_elem|]. by rewrite (ok_name c Hc n eip Hx). }
    apply cluster_ok_insert; [done|by rewrite Eg|done| |].
    + intros n eip ip Hx Hne. destruct (Hin n eip Hx Hne).
      apply not_overlap_disjoint. by eapply overlap_loop_ok.
    + intros Hde n eip Hx Hne. destruct (Hin n eip Hx Hne). unfold is_default_pool.
      by rewrite (default_loop_ok e items (Hd Hde) eip).
  - assert (Address (Eip_Spec e) = Address (Eip_Spec old) ∧ needs_interface e = false ∧
      (is_default_pool e → is_default_pool old ∨ default_loop e items = Ok ())) as (Ha & Hi & Hd).
    { unfold ValidateUpdate in Hv.
      destruct (decide (Annotations _ = _)) as [Ean|Ean];
        [|destruct (validate (Ok items) e false) as [[]| |] eqn:Ev; [apply validate_ok in Ev as [_ Ev]|done..]];
        cbn in Hv; (destruct (decide (Eip_Spec e = _)) as [Esp|Esp];
          [|destruct (decide (Address _ = _)); [|done]]); cbn in Hv;
        destruct (needs_interface e) eqn:Ei; try done;
        unfold is_default_pool; rewrite ?Ean, ?Esp; auto. }
    apply cluster_ok_insert; [done| |done| |].
    + rewrite (GetSize_address _ old) by done. by eapply (ok_size c Hc).
    + intros n eip ip Hx Hne Ce Cx. rewrite (Contains_address _ old) in Ce by done.
      by apply (ok_disjoint c Hc _ _ _ _ ip Hn Hx).
    + intros Hde n eip Hx Hne Hdx. destruct (Hd Hde) as [Ho|Ho].
      * by apply Hne, (ok_default c Hc _ _ _ _ Hx Hn).
      * unfold is_default_pool in Hdx. rewrite (default_loop_ok e items Ho eip) in Hdx; [done| |].
        -- by eapply listing_elem.
        -- by rewrite (ok_name c Hc n eip Hx).
  - set (e' := {| Eip_Meta := Eip_Meta e; Eip_Spec := Eip_Spec e; Eip_Status := st |}).
    change (Eip_Name e) with (Eip_Name e'). apply cluster_ok_insert; [done| | | |].
    + by apply (ok_size c Hc _ _ He).
    + by apply (ok_interface c Hc _ _ He).
    + intros n eip ip Hx Hne Ce Cx. by apply (ok_disjoint c Hc _ _ _ _ ip He Hx).
    + intros Hde n eip Hx Hne Hdx. by apply Hne, (ok_default c Hc _ _ _ _ Hx He).
  - constructor; intros *; rewrite !lookup_delete_Some; intros [? ?]; eauto using ok_name, ok_size, ok_interface.
    + intros [? ?]. eauto using ok_disjoint.
    + intros [? ?]. eauto using ok_default.
Qed.

(** ** Properties *)

(** C8: in every cluster that the webhook's admitted creations, updates and
    deletions (and any status updates) can produce from the empty one, every
    pool has a readable address range, a layer2 or vip pool names an
    interface, no address belongs to two pools, and at most one pool is
    marked as the default. *)
Theorem webhook_invariant (c : Cluster) (H : rtc cluster_step ∅ c) : cluster_ok c.
Proof.
  revert H. apply (rtc_ind_r (λ c, cluster_ok c)).
  - constructor; intros *; rewrite ?lookup_empty; done.
  - intros c1 c2 _ Hs Hc. by eapply cluster_step_ok.
Qed.

(** The address [x] belongs to the pool of [size] addresses from [base]: it is
    of the family of [base], and its number is in the range. *)
Definition pool_address (base : IP) (size : Z) (x : IP) : Prop :=
  canonical x ∧ length x = length (canon base) ∧ IPToBigInt base <= IPToBigInt x < IPToBigInt base + size.

(** The check compares numbers. *)
Lemma IsOverlap_numbers (e1 e2 : Eip) (b1 b2 : IP) (s1 s2 : Z) :
  GetSize e1 = Ok (b1, s1) → GetSize e2 = Ok (b2, s2) → 1 <= s1 < two63 → 1 <= s2 < two63 →
  IsOverlap e1 e2 = true ↔ IPToBigInt b1 < IPToBigInt b2 + s2 ∧ IPToBigInt b2 < IPToBigInt b1 + s1.
Proof.
  intros H1 H2 Hs1 Hs2. unfold IsOverlap, GetSize_ignore. rewrite H1, H2, !size_pred by done.
  rewrite !Z.gtb_ltb. destruct (_ || _) eqn:E; bool_to_prop; (split; [try done; lia|try done; lia]).
Qed.

(** C19: two pools of one family, each with a size, are reported as overlapping
    exactly when some address belongs to both: the check the webhook makes is
    sound and complete for them.  Pools of different families share no address;
    the check compares the numbers of their addresses nevertheless, so that an
    IPv4 pool and an IPv6 pool of small numbers are refused together. *)
Theorem IsOverlap_common_address (e1 e2 : Eip) (b1 b2 : IP) (s1 s2 : Z)
    (H1 : GetSize e1 = Ok (b1, s1)) (H2 : GetSize e2 = Ok (b2, s2)) (Hp1 : pool_ok b1 s1) (Hp2 : pool_ok b2 s2) :
  (length (canon b1) = length (canon b2) →
     IsOverlap e1 e2 = true ↔ ∃ x, pool_address b1 s1 x ∧ pool_address b2 s2 x) ∧
  (length (canon b1) ≠ length (canon b2) →
     (¬ ∃ x, pool_address b1 s1 x ∧ pool_address b2 s2 x) ∧
     (IsOverlap e1 e2 = true ↔ ∃ n, IPToBigInt b1 <= n < IPToBigInt b1 + s1 ∧ IPToBigInt b2 <= n < IPToBigInt b2 + s2)).
Proof.
  destruct Hp1 as (Hb1 & Hs1 & _), Hp2 as (Hb2 & Hs2 & _). rewrite (IsOverlap_numbers e1 e2 b1 b2 s1 s2) by done. split.
  - intros Hf. split; [|by intros (x & (_ & _ & ?) & (_ & _ & ?)); lia]. intros [? ?]. unfold pool_address.
    destruct (Z.le_ge_cases (IPToBigInt b1) (IPToBigInt b2)); [exists (canon b2)|exists (canon b1)];
      rewrite canon_IPToBigInt; (split_and!; [by apply canon_canonical|done|lia|lia|by apply canon_canonical|done|lia|lia]).
  - intros Hf. split; [intros (x & (_ & Hx1 & _) & (_ & Hx2 & _)); congruence|]. split.
    + intros [? ?]. exists (Z.max (IPToBigInt b1) (IPToBigInt b2)). lia.
    + intros (n & ? & ?). lia.
Qed.

(** A pool whose size is computed as 0 (an IPv6 network of 64 or more host
    bits) does not even overlap with itself: the webhook accepts such a network
    any number of times. *)
Theorem IsOverlap_blind (e : Eip) (b : IP) (H : GetSize e = Ok (b, 0)) : IsOverlap e e = false.
Proof.
  unfold IsOverlap, GetSize_ignore. rewrite H. change (wrap64 (0 - 1)) with (-1). rewrite Z.gtb_ltb.
  destruct (_ || _) eqn:E; [done|]. bool_to_prop. lia.
Qed.

(** A pool written as a CIDR network with at most 62 host bits contains
    exactly the addresses that Go's bitwise [IPNet.Contains] accepts (and that
    have the network's family), and its size is [2 ^ host bits]. *)
Theorem Contains_is_network (e : Eip) (ip : IP) (n : IPNet) (ones bits : Z)
    (H0 : ParseIP (Address (Eip_Spec e)) = [])
    (Hp : ParseCIDR (Address (Eip_Spec e)) = Ok (ip, n))
    (Hm : Mask_Size (IPNet_Mask n) = (ones, bits))
    (Hc : canonical (IPNet_IP n)) (Hh : bits - ones <= 62) :
  GetSize e = Ok (IPNet_IP n, 2 ^ (bits - ones)) ∧
  pool_ok (IPNet_IP n) (2 ^ (bits - ones)) ∧
  ∀ x, canonical x → length x = length (IPNet_IP n) → Contains e x = IPNet_Contains n x.
Proof.
  destruct (network_fits _ _ _ _ _ Hp Hm) as (Hok & Ho & Hfit).
  pose proof (pow_small (bits - ones) ltac:(lia)) as Hpow.
  assert (GetSize e = Ok (IPNet_IP n, 2 ^ (bits - ones))) as Hg.
  { rewrite (GetSize_cidr e ip n ones bits) by done. rewrite wrap64_small; [done|].
    unfold two63 in *. lia. }
  split; [done|]. split; [by unfold pool_ok; rewrite canon_id by done; auto|].
  intros x Hx Hlx. apply eq_true_iff_eq. rewrite (Contains_spec e _ _ x Hg Hpow).
  rewrite (IPNet_Contains_interval _ _ _ _ _ _ Hp Hm Hc Hx). tauto.
Qed.

(** The shift that computes the size of a CIDR pool overflows for 64 and
    more host bits (IPv6 prefixes of length at most 64): such a pool is
    accepted with size 0, contains no address and gives every address the
    ordinal -1. *)
Theorem GetSize_overflow (e : Eip) (ip : IP) (n : IPNet) (ones bits : Z)
    (H0 : ParseIP (Address (Eip_Spec e)) = [])
    (Hp : ParseCIDR (Address (Eip_Spec e)) = Ok (ip, n))
    (Hm : Mask_Size (IPNet_Mask n) = (ones, bits)) (Hh : 64 <= bits - ones) :
  GetSize e = Ok (IPNet_IP n, 0) ∧ (∀ x, Contains e x = false) ∧ (∀ x, IPToOrdinal e x = -1).
Proof.
  assert (GetSize e = Ok (IPNet_IP n, 0)) as Hg.
  { rewrite (GetSize_cidr e ip n ones bits) by done. by rewrite wrap64_pow_high. }
  split; [done|]. split; intros x.
  - unfold Contains, GetSize_ignore. rewrite Hg. change (wrap64 (0 - 1)) with (-1).
    rewrite Z.geb_leb. destruct (_ && _) eqn:E; [|done]. bool_to_prop. lia.
  - unfold IPToOrdinal. rewrite Hg, Z.geb_leb. set (o := big_Int64 _).
    destruct (o <? 0) eqn:E; [done|]. bool_to_prop. by rewrite (proj2 (Z.leb_le _ _)).
Qed.

(** C18: for an address of the pool's family whose distance from the first
    address fits an [int64], [IPToOrdinal] is its index in the pool:
    non-negative exactly when the pool contains it, below the size, and
    [IncrementIP] of the first address by it gives the address back. *)
Theorem IPToOrdinal_index (e : Eip) (base : IP) (size : Z) (ip : IP)
    (Hg : GetSize e = Ok (base, size)) (Hp : pool_ok base size)
    (Hip : ip_ok ip) (Hfam : length (canon ip) = length (canon base))
    (Hd : - two63 <= IPToBigInt ip - IPToBigInt base < two63) :
  (0 <= IPToOrdinal e ip ↔ Contains e ip = true) ∧
  (0 <= IPToOrdinal e ip →
     IPToOrdinal e ip < size ∧ IncrementIP (canon base) (IPToOrdinal e ip) = Ok (canon ip)).
Proof.
  destruct Hp as (Hb & Hs & Hfit).
  rewrite (Contains_spec e base size ip Hg Hs), (IPToOrdinal_exact e base size ip Hg Hd).
  rewrite Z.geb_leb. destruct (_ || _) eqn:E; bool_to_prop; [split; [lia|lia]|].
  split; [lia|]. intros Hn. split; [lia|]. apply IncrementIP_canon; [done..|lia].
Qed.

(** [IPToOrdinal] keeps only the low 64 bits of the distance: an address
    [2 ^ 64] above a member of the pool is not in the pool, and still gets
    that member's ordinal. *)
Theorem IPToOrdinal_truncates (e : Eip) (base : IP) (size k : Z) (ip : IP)
    (Hg : GetSize e = Ok (base, size)) (Hs : 1 <= size < two63) (Hk : 0 <= k < size)
    (Hip : IPToBigInt ip = IPToBigInt base + k + two64) :
  IPToOrdinal e ip = k ∧ Contains e ip = false.
Proof.
  split.
  - unfold IPToOrdinal. rewrite Hg, Hip.
    replace (IPToBigInt base + k + two64 - IPToBigInt base) with (k + two64) by lia.
    assert (big_Int64 (k + two64) = k) as ->.
    { unfold big_Int64. rewrite Z.abs_eq, Z.sgn_pos by (unfold two64; lia).
      replace (k + two64) with (k + 1 * two64) by lia. rewrite Z_mod_plus_full.
      rewrite Z.mod_small, Z.mul_1_l by (unfold two63, two64 in *; lia).
      apply wrap64_small. unfold two63 in *. lia. }
    rewrite Z.geb_leb. destruct (_ || _) eqn:E; bool_to_prop; lia.
  - apply not_true_is_false. rewrite (Contains_spec e base size ip Hg Hs), Hip.
    unfold two63, two64 in *. lia.
Qed.

(** ** Witnesses *)
Definition mk_eip (name addr : string) : Eip :=
  {| Eip_Meta := {| Name := name; Namespace := ""; Labels := None; Annotations := None;
                    Finalizers := []; DeletionTimestamp := None |};
     Eip_Spec := {| Address := addr; Protocol := "layer2"; Interface := "eth0"; Disable := false;
                    UsingKnownIPs := false; Priority := 0; Namespaces := [];
                    NamespaceSelector := None |};
     Eip_Status := Eip_Status zero_Eip |}.

Lemma webhook_invariant_witness :
  cluster_ok (<["b" := mk_eip "b" "10.0.1.0-10.0.1.9"]> (<["a" := mk_eip "a" "10.0.0.0/24"]> ∅)).
Proof.
  apply webhook_invariant. eapply rtc_l; [|apply rtc_once].
  - apply (step_create ∅ (mk_eip "a" "10.0.0.0/24") []); [done|unfold listing; vm_compute; reflexivity|by vm_compute].
  - apply (step_create _ (mk_eip "b" "10.0.1.0-10.0.1.9") [mk_eip "a" "10.0.0.0/24"]);
      [done|unfold listing; vm_compute; reflexivity|by vm_compute].
Defined.

Lemma IsOverlap_common_address_witness :
  (IsOverlap (mk_eip "a" "10.0.0.0/24") (mk_eip "b" "10.0.0.200-10.0.1.9") = true ↔
   ∃ x, pool_address [10;0;0;0] 256 x ∧ pool_address [10;0;0;200] 66 x) ∧
  ¬ ∃ x, pool_address [10;0;0;0] 256 x ∧ pool_address (ParseIP "::a00:0") 256 x.
Proof.
  assert (pool_ok [10;0;0;0] 256) as Ha by (split_and!; [by split; [apply bytes_ok_eval|left]|done|done|by vm_compute]).
  split.
  - apply (IsOverlap_common_address (mk_eip "a" "10.0.0.0/24") (mk_eip "b" "10.0.0.200-10.0.1.9")
      [10;0;0;0] [10;0;0;200] 256 66); [by vm_compute|by vm_compute|done| |done].
    split_and!; [by split; [apply bytes_ok_eval|left]|done|done|by vm_compute].
  - apply (IsOverlap_common_address (mk_eip "a" "10.0.0.0/24") (mk_eip "c" "::a00:0/120")
      [10;0;0;0] (ParseIP "::a00:0") 256 256); [by vm_compute|by vm_compute|done| |by vm_compute].
    split_and!; [by split; [apply bytes_ok_eval|right]|done|done|by vm_compute].
Defined.

(** An IPv4 and an IPv6 pool that share no address are reported. *)
Example IsOverlap_across_families : IsOverlap (mk_eip "a" "10.0.0.0/24") (mk_eip "c" "::a00:0/120") = true.
Proof. vm_compute. reflexivity. Qed.

Lemma IsOverlap_blind_witness : IsOverlap (mk_eip "a" "2001:db8::/64") (mk_eip "a" "2001:db8::/64") = false.
Proof. apply (IsOverlap_blind _ (ParseIP "2001:db8::")). by vm_compute. Defined.

Lemma Contains_is_network_witness :
  Contains (mk_eip "a" "10.0.0.0/24") [10;0;0;77] = true.
Proof.
  destruct (Contains_is_network (mk_eip "a" "10.0.0.0/24") (ParseIP "10.0.0.0")
    {| IPNet_IP := [10;0;0;0]; IPNet_Mask := [255;255;255;0] |} 24 32) as (_ & _ & H);
    [by vm_compute|by vm_compute|by vm_compute| |lia|].
  - split; [by apply bytes_ok_eval|by left].
  - rewrite H; [by vm_compute| |done]. split; [by apply bytes_ok_eval|by left].
Defined.

Lemma GetSize_overflow_witness :
  GetSize (mk_eip "a" "2001:db8::/64") = Ok (ParseIP "2001:db8::", 0) ∧
  (∀ x, Contains (mk_eip "a" "2001:db8::/64") x = false) ∧
  (∀ x, IPToOrdinal (mk_eip "a" "2001:db8::/64") x = -1).
Proof.
  apply (GetSize_overflow (mk_eip "a" "2001:db8::/64") (ParseIP "2001:db8::")
    {| IPNet_IP := ParseIP "2001:db8::"; IPNet_Mask := CIDRMask 64 16 |} 64 128);
    [by vm_compute|by vm_compute|by vm_compute|lia].
Defined.

Lemma IPToOrdinal_index_witness :
  IncrementIP [10;0;0;200] 56 = Ok [10;0;1;0].
Proof.
  destruct (IPToOrdinal_index (mk_eip "b" "10.0.0.200-10.0.1.9") [10;0;0;200] 66 (ParseIP "10.0.1.0"))
    as [_ H]; [by vm_compute| | |by vm_compute| |].
  - split_and!; [by split; [apply bytes_ok_eval|left]|done|done|by vm_compute].
  - by split; [apply bytes_ok_eval|right].
  - by vm_compute.
  - apply H. by vm_compute.
Defined.

Lemma IPToOrdinal_truncates_witness :
  IPToOrdinal (mk_eip "a" "2001:db8::/112") (ParseIP "2001:db8:0:1::5") = 5 ∧
  Contains (mk_eip "a" "2001:db8::/112") (ParseIP "2001:db8:0:1::5") = false.
Proof.
  apply (IPToOrdinal_truncates (mk_eip "a" "2001:db8::/112") (ParseIP "2001:db8::") 65536 5);
    [by vm_compute|done|done|by vm_compute].
Defined.
