(* ===== verification/Kube.v ===== *)
(** * The API server as the controllers see it

    The controllers reach the cluster through controller-runtime's
    [client.Client], which is third-party code: the calls the sources make are
    the operations of the class [KubeClient] over an abstract world [S], and
    what the code relies on is [KubeClientOk]: there is a view of the world as
    a store of objects ([Server]) such that a read that succeeds returns the
    stored object, and a write that succeeds has the effect the Kubernetes API
    documents (an update of the main resource keeps the stored status and the
    deletion timestamp, removes an object whose last finalizer goes while it
    is being deleted, and returns the stored object; an update of the status
    subresource changes only the status).  Any call may fail; a write that
    fails has either happened or not.  The store itself is an instance of the
    two classes. *)
From S2P Require Import Prelude GoNet K8s EipTypes.
Local Open Scope Z_scope.

Record Server := {
  srv_eips : gmap string Eip;
  srv_svcs : gmap (string * string) Service;
  srv_nss : gmap string gomap;  (* the labels of each namespace *)
}.

Definition Svc_Key (s : Service) : string * string :=
  (Namespace (Svc_Meta s), Name (Svc_Meta s)).

(** ** The documented effect of the writes *)
Definition set_DeletionTimestamp (m : ObjectMeta) (t : option Z) : ObjectMeta :=
  {| Name := Name m; Namespace := Namespace m; Labels := Labels m; Annotations := Annotations m;
     Finalizers := Finalizers m; DeletionTimestamp := t |}.

(** An object being deleted goes away with its last finalizer. *)
Definition is_gone (m : ObjectMeta) : bool :=
  negb (IsZero (DeletionTimestamp m)) && bool_decide (Finalizers m = []).

Definition with_eips (v : Server) (m : gmap string Eip) : Server :=
  {| srv_eips := m; srv_svcs := srv_svcs v; srv_nss := srv_nss v |}.
Definition with_svcs (v : Server) (m : gmap (string * string) Service) : Server :=
  {| srv_eips := srv_eips v; srv_svcs := m; srv_nss := srv_nss v |}.

Definition srv_status_eip (v : Server) (e : Eip) : option (Server * Eip) :=
  old ← srv_eips v !! Eip_Name e;
  let e' := {| Eip_Meta := Eip_Meta old; Eip_Spec := Eip_Spec old; Eip_Status := Eip_Status e |} in
  Some (with_eips v (<[Eip_Name e := e']> (srv_eips v)), e').

Definition srv_update_eip (v : Server) (e : Eip) : option (Server * Eip) :=
  old ← srv_eips v !! Eip_Name e;
  let e' := {| Eip_Meta := set_DeletionTimestamp (Eip_Meta e) (DeletionTimestamp (Eip_Meta old));
               Eip_Spec := Eip_Spec e; Eip_Status := Eip_Status old |} in
  Some (with_eips v (if is_gone (Eip_Meta e') then delete (Eip_Name e) (srv_eips v)
                     else <[Eip_Name e := e']> (srv_eips v)), e').

Definition srv_status_svc (v : Server) (s : Service) : option (Server * Service) :=
  old ← srv_svcs v !! Svc_Key s;
  let s' := {| Svc_Meta := Svc_Meta old; Svc_Spec := Svc_Spec old; Svc_Ingress := Svc_Ingress s |} in
  Some (with_svcs v (<[Svc_Key s := s']> (srv_svcs v)), s').

Definition srv_update_svc (v : Server) (s : Service) : option (Server * Service) :=
  old ← srv_svcs v !! Svc_Key s;
  let s' := {| Svc_Meta := set_DeletionTimestamp (Svc_Meta s) (DeletionTimestamp (Svc_Meta old));
               Svc_Spec := Svc_Spec s; Svc_Ingress := Svc_Ingress old |} in
  Some (with_svcs v (if is_gone (Svc_Meta s') then delete (Svc_Key s) (srv_svcs v)
                     else <[Svc_Key s := s']> (srv_svcs v)), s').

(** ** The interface *)
Class KubeClient (S : Type) := {
  GetEip : S → string → Result Eip;
  ListEips : S → Result (list Eip);
  UpdateEip : S → Eip → S * Result Eip;
  StatusUpdateEip : S → Eip → S * Result Eip;
  GetNamespaceLabels : S → string → Result gomap;
  GetService : S → string * string → Result Service;
  ListServices : S → option (string * string) → Result (list Service);
  UpdateService : S → Service → S * Result Service;
  StatusUpdateService : S → Service → S * Result Service;
}.

(** The services a list call with a label requirement returns. *)
Definition svc_selected (sel : option (string * string)) (s : Service) : bool :=
  match sel with
  | None => true
  | Some (k, v) => bool_decide (mget (Labels (Svc_Meta s)) k = Some v)
  end.

Definition read_law {A} (r : Result A) (stored : option A) : Prop :=
  match r with
  | Ok a => stored = Some a
  | Err e => IsNotFound e = true → stored = None
  | Panic => False
  end.

Definition write_law {S T A} (view : S → T) (f : T → A → option (T * A))
    (op : S → A → S * Result A) : Prop :=
  ∀ s a s' r, op s a = (s', r) →
    match r with
    | Ok a' => f (view s) a = Some (view s', a')
    | Err _ => view s' = view s ∨ ∃ a', f (view s) a = Some (view s', a')
    | Panic => False
    end.

(** What the reconcilers rely on when nothing runs in between: a read sees the
    current state.  The client of the manager reads through a cache; theorems
    with this class are about reconciliations whose cache is up to date, and
    late reads are the subject of [Interleave] and [Fleet]. *)
Class KubeClientOk (S : Type) `{K : KubeClient S} (view : S → Server) : Prop := {
  GetEip_law s n : read_law (GetEip s n) (srv_eips (view s) !! n);
  ListEips_law s : match ListEips s with
    | Ok l => listing (srv_eips (view s)) l | Err _ => True | Panic => False end;
  GetNamespaceLabels_law s n : read_law (GetNamespaceLabels s n) (srv_nss (view s) !! n);
  GetService_law s k : read_law (GetService s k) (srv_svcs (view s) !! k);
  ListServices_law s sel : match ListServices s sel with
    | Ok l => l ≡ₚ List.filter (svc_selected sel) (map_to_list (srv_svcs (view s))).*2
    | Err _ => True | Panic => False end;
  UpdateEip_law : write_law view srv_update_eip UpdateEip;
  StatusUpdateEip_law : write_law view srv_status_eip StatusUpdateEip;
  UpdateService_law : write_law view srv_update_svc UpdateService;
  StatusUpdateService_law : write_law view srv_status_svc StatusUpdateService;
}.

(** The objects are stored under their names. *)
Definition server_ok (v : Server) : Prop :=
  (∀ n e, srv_eips v !! n = Some e → Eip_Name e = n) ∧
  (∀ k s, srv_svcs v !! k = Some s → Svc_Key s = k).

(** ** The store as a client *)
Definition store_get {K A} `{Countable K} (m : gmap K A) (k : K) : Result A :=
  match m !! k with Some a => Ok a | None => Err (ErrNotFound "not found") end.

Definition store_write {T A} (f : T → A → option (T * A)) (v : T) (a : A)
    : T * Result A :=
  match f v a with Some (v', a') => (v', Ok a') | None => (v, Err (ErrNotFound "not found")) end.

#[export] Instance store_client : KubeClient Server := {|
  GetEip v n := store_get (srv_eips v) n;
  ListEips v := Ok (map_to_list (srv_eips v)).*2;
  UpdateEip := store_write srv_update_eip;
  StatusUpdateEip := store_write srv_status_eip;
  GetNamespaceLabels v n := store_get (srv_nss v) n;
  GetService v k := store_get (srv_svcs v) k;
  ListServices v sel := Ok (List.filter (svc_selected sel) (map_to_list (srv_svcs v)).*2);
  UpdateService := store_write srv_update_svc;
  StatusUpdateService := store_write srv_status_svc;
|}.

Lemma store_get_law {K A} `{Countable K} (m : gmap K A) k :
  read_law (store_get m k) (m !! k).
Proof. unfold store_get. by destruct (m !! k). Qed.

Lemma store_write_law {T A} (f : T → A → option (T * A)) :
  write_law (λ v, v) f (store_write f).
Proof.
  intros v a v' r. unfold store_write. destruct (f v a) as [[v1 a1]|] eqn:E;
    intros [= <- <-]; [done|by left].
Qed.

#[export] Instance store_client_ok : KubeClientOk Server (λ v, v).
Proof.
  constructor; intros; try apply store_get_law; try apply store_write_law; cbn; unfold listing; reflexivity.
Qed.

(** ** Lemmas on the store *)
Lemma srv_status_eip_spec v e v' e' : srv_status_eip v e = Some (v', e') →
  ∃ old, srv_eips v !! Eip_Name e = Some old ∧
    e' = {| Eip_Meta := Eip_Meta old; Eip_Spec := Eip_Spec old; Eip_Status := Eip_Status e |} ∧
    v' = with_eips v (<[Eip_Name e := e']> (srv_eips v)).
Proof.
  unfold srv_status_eip. destruct (srv_eips v !! Eip_Name e) as [old|] eqn:E; [|done].
  cbn. intros [= <- <-]. eauto.
Qed.
