(* ===== verification/Ipam.v ===== *)
(** * [pkg/controllers/ipam/ipam.go]: allocation of addresses from pools

    An Eip's status records which services hold which address: [Used] maps
    the text of an address to the keys of the services that share it, joined
    by [";"].  [assignIPFromEip] and [releaseIPFromEip] update one pool;
    [ConstructRequest] decides what a service needs; [AssignIP] and
    [ReleaseIP] run the updates against the API server ([Kube]).

    Loops over Go maps are folds over [range_map] (any order), [sort.Slice]
    is [sort_Slice] (any order of equal elements).  Events and log lines are
    not modelled. *)
From S2P Require Import Prelude GoNet Cnet Iprange K8s EipTypes Kube.
Local Open Scope Z_scope.

Record svcRecord := { Key : string; Rec_IP : string; Rec_Eip : string }.
#[export] Instance svcRecord_eq_dec : EqDecision svcRecord.
Proof. solve_decision. Defined.

Record Request := { Req_Allocate : option svcRecord; Req_Release : option svcRecord }.
#[export] Instance Request_eq_dec : EqDecision Request.
Proof. solve_decision. Defined.

Definition EipNotContainIP : string := "no available eip was found containing the ip".

(** ** The status of one pool *)
Definition set_Status (e : Eip) (st : EipStatus) : Eip :=
  {| Eip_Meta := Eip_Meta e; Eip_Spec := Eip_Spec e; Eip_Status := st |}.
Definition set_Used (st : EipStatus) (u : gomap) : EipStatus :=
  {| Occupied := Occupied st; Usage := Usage st; PoolSize := PoolSize st; Used := u;
     FirstIP := FirstIP st; LastIP := LastIP st; Ready := Ready st; V4 := V4 st |}.
Definition set_Usage (st : EipStatus) (n : Z) : EipStatus :=
  {| Occupied := Occupied st; Usage := n; PoolSize := PoolSize st; Used := Used st;
     FirstIP := FirstIP st; LastIP := LastIP st; Ready := Ready st; V4 := V4 st |}.
Definition set_Occupied (st : EipStatus) (b : bool) : EipStatus :=
  {| Occupied := b; Usage := Usage st; PoolSize := PoolSize st; Used := Used st;
     FirstIP := FirstIP st; LastIP := LastIP st; Ready := Ready st; V4 := V4 st |}.

(** The map behind a possibly nil [Used], and [len]. *)
Definition used_map (st : EipStatus) : smap := default ∅ (Used st).
Definition go_len (m : smap) : Z := Z.of_nat (size m).

Section pool.
Context {R : GoRange}.

(** [assignIPFromEip]'s first loop: does the service already hold the address
    it asks for? *)
Definition already_assigned (allocate : svcRecord) (st : EipStatus) : option string :=
  foldr (λ '(addr, svcs) found,
    if existsb (λ svc, bool_decide (svc = Key allocate) && bool_decide (Rec_IP allocate = addr))
         (Split ";" svcs)
    then Some addr else found) None (range_map (used_map st)).

(** The text of the address [offset] places after [FirstIP]: a nil
    dereference when [FirstIP] is no address. *)
Definition offset_addr (st : EipStatus) (offset : Z) : Result string :=
  match cnet_ParseIP (FirstIP st) with
  | None => Panic
  | Some first => ip ← IncrementIP first offset; Ok (IP_String ip)
  end.

(** The allocation loop from [offset]; [n] is the number of iterations left,
    [PoolSize - offset]. *)
Fixpoint assign_loop (n : nat) (offset : Z) (specified : bool) (key : string) (e : Eip)
    : Result (string * Eip) :=
  match n with
  | O => Err (Errorf "no suitable ip to allocate")
  | S n' =>
      let st := Eip_Status e in
      addr ← offset_addr st offset;
      match used_map st !! addr with
      | None =>
          let used := <[addr := key]> (used_map st) in
          let st := set_Usage (set_Used st (Some used)) (go_len used) in
          let st := if Usage st =? PoolSize st then set_Occupied st true else st in
          Ok (addr, set_Status e st)
      | Some tmp =>
          if specified
          then Ok (addr, set_Status e (set_Used st (Some (<[addr := tmp +:+ ";" +:+ key]> (used_map st)))))
          else assign_loop n' (offset + 1) specified key e
      end
  end.

Definition assignIPFromEip (allocate : option svcRecord) (e : Eip) : Result (string * Eip) :=
  match allocate with
  | None => Err (Errorf "allocate is nil")
  | Some allocate =>
      if negb (IsZero (DeletionTimestamp (Eip_Meta e)))
      then Err (Errorf ("eip:" +:+ Eip_Name e +:+ " is deleting"))
      else if Disable (Eip_Spec e)
      then Err (Errorf ("eip:" +:+ Eip_Name e +:+ " is disabled"))
      else
        match already_assigned allocate (Eip_Status e) with
        | Some addr => Ok (addr, e)
        | None =>
            let ip := ParseIP (Rec_IP allocate) in
            let offset := if ip_nil ip then 0 else IPToOrdinal e ip in
            if negb (ip_nil ip) && (offset <? 0)
            then Err (Errorf ("the specified ip:" +:+ Rec_IP allocate +:+ " is beyond the range of eip["
                              +:+ Eip_Name e +:+ ":" +:+ Address (Eip_Spec e) +:+ "]"))
            else assign_loop (Z.to_nat (PoolSize (Eip_Status e) - offset)) offset
                   (negb (ip_nil ip)) (Key allocate) e
        end
  end.

(** One entry of [releaseIPFromEip]'s loop: [svcs] is the entry's value when
    it is visited; only this entry is written. *)
Definition release_entry (svcInfo : string) (st : EipStatus) (entry : string * string) : EipStatus :=
  let '(addr, svcs) := entry in
  let tmp := Split ";" svcs in
  foldl (λ st svc,
    if decide (svc = svcInfo) then
      if Nat.eqb (length tmp) 1 then
        let used := delete addr (used_map st) in
        let st := set_Usage (set_Used st (Some used)) (go_len used) in
        if negb (Usage st =? PoolSize st) then set_Occupied st false else st
      else set_Used st (Some (<[addr := Join (RemoveString tmp svcInfo) ";"]> (used_map st)))
    else st) st tmp.

Definition releaseIPFromEip (svcInfo : string) (e : Eip) : Eip :=
  if negb (IsZero (DeletionTimestamp (Eip_Meta e))) then e
  else set_Status e (foldl (release_entry svcInfo) (Eip_Status e) (range_map (used_map (Eip_Status e)))).

(** [updateMetrics]'s counts: total, used, services. *)
Definition updateMetrics (e : Eip) : string * Z * Z * Z :=
  (Eip_Name e, PoolSize (Eip_Status e), Usage (Eip_Status e),
   foldl (λ n kv, n + Z.of_nat (length (Split ";" kv.2))) 0 (range_map (used_map (Eip_Status e)))).
End pool.

(** ** What a service asks for *)
Record info := {
  svcName : string;
  svcSpecifyEIP : string;
  svcSpecifyLBIP : string;
  svcStatusLBIP : string;
  allocatedEip : string;
  allocatedIP : string;
}.

Definition needUpdate (i : info) : bool :=
  if str_empty (svcSpecifyEIP i) && str_empty (svcSpecifyLBIP i)
     && bool_decide (svcStatusLBIP i = allocatedIP i) then false
  else if bool_decide (svcSpecifyEIP i = allocatedEip i)
          && ((bool_decide (svcSpecifyLBIP i = allocatedIP i) && negb (str_empty (svcStatusLBIP i)))
              || (str_empty (svcSpecifyLBIP i) && bool_decide (svcStatusLBIP i = allocatedIP i)))
  then false
  else true.

Definition needRelease (svc : option Service) : bool :=
  match svc with
  | None => true
  | Some svc =>
      match Annotations (Svc_Meta svc) with
      | None => true
      | Some annotations =>
          if negb (IsZero (DeletionTimestamp (Svc_Meta svc))) then true
          else if negb (bool_decide (Spec_Type (Svc_Spec svc) = LoadBalancerType)) then true
          else match annotations !! constant.OpenELBAnnotationKey with
               | None => true
               | Some value => negb (bool_decide (value = constant.OpenELBAnnotationValue))
               end
      end
  end.

Definition constructRelease (i : info) : option svcRecord :=
  if str_empty (allocatedEip i) && str_empty (allocatedIP i) then
    if str_empty (svcStatusLBIP i) then None
    else Some {| Key := svcName i; Rec_Eip := allocatedEip i; Rec_IP := svcStatusLBIP i |}
  else Some {| Key := svcName i; Rec_Eip := allocatedEip i; Rec_IP := allocatedIP i |}.

Fixpoint IsSameFamily (eipFamily : Family) (ipFamilies : list IPFamily) : bool :=
  match ipFamilies with
  | [] => false
  | ipFamily :: rest =>
      if bool_decide (ipFamily = IPv4Protocol) && bool_decide (eipFamily = V4Family) then true
      else if bool_decide (ipFamily = IPv6Protocol) && bool_decide (eipFamily = V6Family) then true
      else IsSameFamily eipFamily rest
  end.

(** Third-party: [metav1.LabelSelectorAsSelector] of a set of pairs and its
    [Matches]; [None] when the selector is malformed. *)
Class LabelLib := { SelectorMatches : smap → smap → option bool }.
Definition subset_labels : LabelLib :=
  {| SelectorMatches sel labels := Some (bool_decide (sel ⊆ labels)) |}.

(** [types.NamespacedName.String] *)
Definition NamespacedName (ns name : string) : string := ns +:+ "/" +:+ name.

(** ** Against the API server *)
Section manager.
Context {R : GoRange} {GS : GoSort} {L : CidrLib} {LL : LabelLib}.
Context {W : Type} {K : KubeClient W}.

(** The first entry, in iteration order, that names the service. *)
Definition find_holder (svcInfo : string) (used : smap) : option string :=
  foldr (λ '(addr, v) found,
    if existsb (λ svc, bool_decide (svc = svcInfo)) (Split ";" v) then Some addr else found)
    None (range_map used).

Fixpoint find_eip (svcInfo : string) (items : list Eip) : string * string :=
  match items with
  | [] => ("", "")
  | eip :: rest =>
      if negb (IsZero (DeletionTimestamp (Eip_Meta eip))) then find_eip svcInfo rest
      else match find_holder svcInfo (used_map (Eip_Status eip)) with
           | Some addr => (Eip_Name eip, addr)
           | None => find_eip svcInfo rest
           end
  end.

Definition getAllocatedEIPInfo (w : W) (svcInfo : string) : Result (string * string) :=
  eips ← ListEips w; Ok (find_eip svcInfo eips).

Fixpoint eip_based_on_ip (items : list Eip) (ip : string) : Result Eip :=
  match items with
  | [] => Err (Errorf (EipNotContainIP +:+ ":[" +:+ ip +:+ "]"))
  | e :: rest =>
      if Contains e (ParseIP ip) then
        if negb (IsZero (DeletionTimestamp (Eip_Meta e)))
        then Err (Errorf ("eip:" +:+ Eip_Name e +:+ " is deleting"))
        else if Disable (Eip_Spec e)
        then Err (Errorf ("eip:" +:+ Eip_Name e +:+ " is disabled"))
        else Ok e
      else eip_based_on_ip rest ip
  end.

Definition getEIPBasedOnIP (w : W) (ip : string) : Result Eip :=
  eips ← ListEips w; eip_based_on_ip eips ip.

(** [getDefaultEIP]'s loop: the pools bound to the namespace, by name and by
    selector (a pool bound both ways comes twice), and the first default. *)
Fixpoint default_candidates (name : string) (nsLabels : gomap) (items : list Eip)
    (nseips : list Eip) (defaultEip : option Eip) : Result (list Eip * option Eip) :=
  match items with
  | [] => Ok (nseips, defaultEip)
  | e :: rest =>
      if negb (IsZero (DeletionTimestamp (Eip_Meta e))) || Disable (Eip_Spec e)
      then default_candidates name nsLabels rest nseips defaultEip
      else
        let nseips := if existsb (λ n, bool_decide (n = name)) (Namespaces (Eip_Spec e))
                      then nseips ++ [e] else nseips in
        nseips ← match nsLabels, NamespaceSelector (Eip_Spec e) with
                 | Some labels, Some sel =>
                     match SelectorMatches sel labels with
                     | None => Err (Errorf ("eip:[" +:+ Eip_Name e +:+ "] invalid namespace label selector"))
                     | Some true => Ok (nseips ++ [e])
                     | Some false => Ok nseips
                     end
                 | _, _ => Ok nseips
                 end;
        default_candidates name nsLabels rest nseips
          (match defaultEip with
           | None => if IsDefault e then Some e else None
           | Some d => Some d
           end)
  end.

Definition eip_less (a b : Eip) : bool :=
  if negb (Bool.eqb (Occupied (Eip_Status a)) (Occupied (Eip_Status b)))
  then negb (Occupied (Eip_Status a))
  else Priority (Eip_Spec a) <? Priority (Eip_Spec b).

Definition getDefaultEIP (w : W) (name : string) : Result Eip :=
  nsLabels ← GetNamespaceLabels w name;
  eips ← ListEips w;
  '(nseips, defaultEip) ← default_candidates name nsLabels eips [] None;
  match sort_Slice eip_less nseips with
  | e :: _ => Ok e
  | [] => match defaultEip with
          | Some e => Ok e
          | None => Err (Errorf "no available default eip found")
          end
  end.

Definition getEIP (w : W) (ns svcip specifyEip : string) : Result Eip :=
  if str_empty specifyEip then
    if negb (str_empty svcip) then getEIPBasedOnIP w svcip else getDefaultEIP w ns
  else
    eip ← GetEip w specifyEip;
    if negb (IsZero (DeletionTimestamp (Eip_Meta eip)))
    then Err (Errorf ("eip:" +:+ Eip_Name eip +:+ " is deleting"))
    else if Disable (Eip_Spec eip)
    then Err (Errorf ("eip:" +:+ Eip_Name eip +:+ " is disabled"))
    else if negb (str_empty svcip) && negb (Contains eip (ParseIP svcip))
    then Err (Errorf (EipNotContainIP +:+ ":[" +:+ svcip +:+ "]"))
    else Ok eip.

(** The addresses of the service's status, joined. *)
Definition status_lbip (svc : Service) : string :=
  match default [] (Svc_Ingress svc) with
  | [] => ""
  | ingress => Join (Ingress_IP <$> ingress) ";"
  end.

Definition ConstructRequest (w : W) (svc : option Service) : Result Request :=
  let none := {| Req_Allocate := None; Req_Release := None |} in
  match svc with
  | None => Ok none
  | Some s =>
      match Annotations (Svc_Meta s) with
      | None => Ok none
      | Some annotations =>
          let name := NamespacedName (Namespace (Svc_Meta s)) (Name (Svc_Meta s)) in
          '(aEip, aIP) ← getAllocatedEIPInfo w name;
          let release := constructRelease
            {| svcName := name; svcSpecifyEIP := ""; svcSpecifyLBIP := "";
               svcStatusLBIP := status_lbip s; allocatedEip := aEip; allocatedIP := aIP |} in
          let only_release := {| Req_Allocate := None; Req_Release := release |} in
          if needRelease svc then Ok only_release
          else
            let lbip := default (Spec_LoadBalancerIP (Svc_Spec s))
                          (annotations !! constant.OpenELBEIPAnnotationKey) in
            let specified := default "" (annotations !! constant.OpenELBEIPAnnotationKeyV1Alpha2) in
            let chosen := if str_empty specified
                          then match getEIP w (Namespace (Svc_Meta s)) lbip specified with
                               | Ok eip => Ok (Some (Eip_Name eip))
                               | Err _ => Ok None
                               | Panic => Panic
                               end
                          else Ok (Some specified) in
            match chosen with
            | Err e => Err e
            | Panic => Panic
            | Ok None => Ok only_release
            | Ok (Some eipName) =>
                let i := {| svcName := name; svcSpecifyEIP := eipName; svcSpecifyLBIP := lbip;
                            svcStatusLBIP := status_lbip s; allocatedEip := aEip; allocatedIP := aIP |} in
                if negb (needUpdate i)
                   && mhas (Labels (Svc_Meta s)) constant.OpenELBEIPAnnotationKeyV1Alpha2
                then Ok none
                else Ok {| Req_Allocate := Some {| Key := name; Rec_Eip := eipName; Rec_IP := lbip |};
                           Req_Release := release |}
            end
      end
  end.

(** [AssignIP] writes the address into the record it is given. *)
Definition AssignIP (w : W) (ipFamilies : list IPFamily) (allocate : option svcRecord)
    : W * Result (option svcRecord) :=
  match allocate with
  | None => (w, Ok None)
  | Some a =>
      match GetEip w (Rec_Eip a) with
      | Err e => (w, Err e)
      | Panic => (w, Panic)
      | Ok eip =>
          match ParseRange (Address (Eip_Spec eip)) with
          | Err e => (w, Err e)
          | Panic => (w, Panic)
          | Ok None => (w, Panic)
          | Ok (Some parseRange) =>
              if negb (IsSameFamily (Range_Family parseRange) ipFamilies)
              then (w, Err (Errorf "service can't use different family eip"))
              else
                match assignIPFromEip allocate eip with
                | Err e => (w, Err (Errorf ("no avliable eip, err:" +:+ err_text e)))
                | Panic => (w, Panic)
                | Ok (addr, clone) =>
                    let a' := Some {| Key := Key a; Rec_IP := addr; Rec_Eip := Rec_Eip a |} in
                    if decide (clone = eip) then (w, Ok a')
                    else match StatusUpdateEip w clone with
                         | (w', Ok _) => (w', Ok a')
                         | (w', Err e) => (w', Err e)
                         | (w', Panic) => (w', Panic)
                         end
                end
          end
      end
  end.

Definition ReleaseIP (w : W) (release : option svcRecord) : W * Result () :=
  match release with
  | None => (w, Ok ())
  | Some r =>
      let got := match GetEip w (Rec_Eip r) with
                 | Ok eip => Ok eip
                 | Err e => if IsNotFound e then Ok zero_Eip else Err e
                 | Panic => Panic
                 end in
      match got with
      | Err e => (w, Err e)
      | Panic => (w, Panic)
      | Ok eip =>
          let clone := releaseIPFromEip (Key r) eip in
          if decide (clone = eip) then (w, Ok ())
          else match StatusUpdateEip w clone with
               | (w', Ok _) => (w', Ok ())
               | (w', Err e) => (w', Err e)
               | (w', Panic) => (w', Panic)
               end
      end
  end.
End manager.

(** ** The addresses of a pool *)

(** The text of the address [k] places after [first]. *)
Definition addr_at (first : IP) (k : Z) : string :=
  IP_String (be_bytes (length first) (IPToBigInt first + k)).

(** The services that hold an address: none when it is not in [Used]. *)
Definition holders (st : EipStatus) (addr : string) : list string :=
  match used_map st !! addr with Some v => Split ";" v | None => [] end.

(** [n] addresses from [first], inside the address space. *)
Definition fits (first : IP) (n : Z) : Prop :=
  canonical first ∧ 1 <= n < two63 ∧ IPToBigInt first + n <= 256 ^ Z.of_nat (length first).

(** The record-keeping of a pool of [n] addresses from [first]. *)
Record status_ok (first : IP) (n : Z) (st : EipStatus) : Prop := {
  so_first : cnet_ParseIP (FirstIP st) = Some first;
  so_pool : PoolSize st = n;
  so_keys : ∀ a v, used_map st !! a = Some v → ∃ k, 0 <= k < n ∧ a = addr_at first k;
  so_usage : Usage st = go_len (used_map st);
  so_occupied : Occupied st = bool_decide (Usage st = n);
}.

(** No service is recorded twice for one address. *)
Definition no_dups (st : EipStatus) : Prop :=
  ∀ a v, used_map st !! a = Some v → NoDup (Split ";" v).

Section pool_lemmas.
Context (first : IP) (n : Z) (Hfit : fits first n).

Lemma first_bound k : 0 <= k < n →
  0 <= IPToBigInt first + k < 256 ^ Z.of_nat (length first).
Proof.
  destruct Hfit as (Hc & Hn & Hle). pose proof (IPToBigInt_bound first Hc). lia.
Qed.

Lemma IncrementIP_first k : 0 <= k < n →
  IncrementIP first k = Ok (be_bytes (length first) (IPToBigInt first + k)).
Proof. intros Hk. apply IncrementIP_spec; [apply Hfit|by apply first_bound]. Qed.

Lemma offset_addr_ok st k : cnet_ParseIP (FirstIP st) = Some first → 0 <= k < n →
  offset_addr st k = Ok (addr_at first k).
Proof. intros Hf Hk. unfold offset_addr. rewrite Hf. by rewrite IncrementIP_first. Qed.

Lemma addr_at_inj i j : 0 <= i < n → 0 <= j < n → addr_at first i = addr_at first j → i = j.
Proof.
  intros Hi Hj. apply (IncrementIP_String_inj first); auto using first_bound, IncrementIP_first.
  apply Hfit.
Qed.

(** The text of a pool address parses, so it is not the empty request. *)
Lemma addr_at_parses k : 0 <= k < n → ParseIP (addr_at first k) ≠ [].
Proof.
  intros Hk. set (x := be_bytes (length first) (IPToBigInt first + k)).
  assert (length x = length first) as Hl by apply length_be_bytes.
  assert (ip_ok x) as Hok.
  { split; [apply be_bytes_ok|]. rewrite Hl. apply canonical_ip_ok, Hfit. }
  unfold addr_at. fold x. rewrite ParseIP_String by done.
  unfold To16. destruct Hok as [_ [-> | H]]; cbn; [done|]. rewrite H. cbn. by destruct x.
Qed.

(** The set of all addresses of the pool. *)
Definition all_addrs : gset string := list_to_set (addr_at first <$> seqZ 0 n).

Lemma NoDup_addrs : NoDup (addr_at first <$> seqZ 0 n).
Proof.
  apply NoDup_fmap_2_strong; [|apply NoDup_seqZ].
  intros i j Hi%elem_of_seqZ Hj%elem_of_seqZ. apply addr_at_inj; lia.
Qed.

Lemma size_all_addrs : Z.of_nat (size all_addrs) = n.
Proof.
  unfold all_addrs. rewrite size_list_to_set by apply NoDup_addrs.
  rewrite length_fmap, length_seqZ. destruct Hfit as (_ & ? & _). lia.
Qed.

Lemma elem_of_all_addrs a : a ∈ all_addrs ↔ ∃ k, 0 <= k < n ∧ a = addr_at first k.
Proof.
  unfold all_addrs. rewrite elem_of_list_to_set, list_elem_of_fmap.
  split; intros (k & H1 & H2); exists k; rewrite elem_of_seqZ in *; split; done || lia.
Qed.

Definition keys_ok (used : smap) : Prop :=
  ∀ a v, used !! a = Some v → ∃ k, 0 <= k < n ∧ a = addr_at first k.

Lemma keys_ok_dom used : keys_ok used ↔ dom used ⊆ all_addrs.
Proof.
  split.
  - intros H a [v Hv]%elem_of_dom. apply elem_of_all_addrs. by eapply H.
  - intros H a v Hv. apply elem_of_all_addrs, H, elem_of_dom. eauto.
Qed.

Lemma keys_ok_size used : keys_ok used → go_len used <= n.
Proof.
  intros H%keys_ok_dom. unfold go_len. rewrite <- size_dom, <- size_all_addrs.
  apply subseteq_size in H. lia.
Qed.

(** Full means every address is taken. *)
Lemma keys_ok_full used : keys_ok used → go_len used = n →
  ∀ k, 0 <= k < n → is_Some (used !! addr_at first k).
Proof.
  intros H%keys_ok_dom Hn k Hk. apply elem_of_dom.
  assert (dom used ≡ all_addrs) as ->.
  { apply set_subseteq_size_equiv; [done|].
    pose proof size_all_addrs. unfold go_len in Hn. rewrite size_dom. lia. }
  apply elem_of_all_addrs. eauto.
Qed.

Lemma keys_ok_all used : keys_ok used →
  (∀ k, 0 <= k < n → is_Some (used !! addr_at first k)) → go_len used = n.
Proof.
  intros H%keys_ok_dom Hall. unfold go_len. rewrite <- size_dom, <- size_all_addrs.
  f_equal. apply set_size_proper. apply set_equiv_subseteq. split; [done|].
  intros a (k & Hk & ->)%elem_of_all_addrs. by apply elem_of_dom, Hall.
Qed.
End pool_lemmas.

(** ** Release *)

(** What is left of an entry when the service goes. *)
Definition released (key v : string) : option string :=
  if ContainsString (Split ";" v) key then
    if Nat.eqb (length (Split ";" v)) 1 then None
    else Some (Join (RemoveString (Split ";" v) key) ";")
  else Some v.

(** The status after a release has dealt with one address. *)
Definition release_at (key : string) (st : EipStatus) (addr v : string) : EipStatus :=
  if ContainsString (Split ";" v) key then
    if Nat.eqb (length (Split ";" v)) 1 then
      let used := delete addr (used_map st) in
      let st := set_Usage (set_Used st (Some used)) (go_len used) in
      if negb (Usage st =? PoolSize st) then set_Occupied st false else st
    else set_Used st (Some (<[addr := Join (RemoveString (Split ";" v) key) ";"]> (used_map st)))
  else st.

(** Writing an entry again with the same value changes nothing. *)
Lemma foldl_same {A B} (P : B → bool) (l : list B) (x : A) (g : A → A) :
  (∀ y, g (g y) = g y) →
  foldl (λ a b, if P b then g a else a) x l = if existsb P l then g x else x.
Proof.
  intros Hg. revert x. induction l as [|b l IH]; intros x; cbn; [done|].
  rewrite IH. destruct (P b); cbn; [|done]. by destruct (existsb P l); rewrite ?Hg.
Qed.

Lemma existsb_Contains l key :
  existsb (λ s : string, bool_decide (s = key)) l = ContainsString l key.
Proof.
  induction l as [|x l IH]; cbn; [done|]. rewrite IH.
  case_bool_decide as H; [by rewrite decide_True|by rewrite decide_False].
Qed.

Lemma release_entry_at key st addr v : release_entry key st (addr, v) = release_at key st addr v.
Proof.
  unfold release_entry, release_at.
  set (g := λ st : EipStatus, if Nat.eqb (length (Split ";" v)) 1 then
        let used := delete addr (used_map st) in
        let st := set_Usage (set_Used st (Some used)) (go_len used) in
        if negb (Usage st =? PoolSize st) then set_Occupied st false else st
      else set_Used st (Some (<[addr := Join (RemoveString (Split ";" v) key) ";"]> (used_map st)))).
  transitivity (foldl (λ a b, if (λ s : string, bool_decide (s = key)) b then g a else a) st (Split ";" v)).
  { apply foldl_pointwise. intros y b. unfold g.
    case_bool_decide as E; [by rewrite decide_True|by rewrite decide_False]. }
  rewrite foldl_same; [by rewrite existsb_Contains|].
  intros y. unfold g. destruct (Nat.eqb _ 1); cbn.
  - destruct (go_len _ =? PoolSize y) eqn:E; cbn; rewrite delete_delete_eq, E; cbn; done.
  - by rewrite insert_insert_eq.
Qed.

Lemma release_at_used key st a v : used_map st !! a = Some v →
  used_map (release_at key st a v) =
  match released key v with None => delete a (used_map st) | Some v' => <[a := v']> (used_map st) end.
Proof.
  intros Ha. unfold release_at, released. destruct (ContainsString _ _).
  - destruct (Nat.eqb _ 1); [|done]. cbn. by destruct (negb _).
  - by rewrite insert_id.
Qed.

Lemma release_at_ok first n key st a v : fits first n → status_ok first n st →
  used_map st !! a = Some v → status_ok first n (release_at key st a v).
Proof.
  intros Hfit [Hf Hp Hk Hu Ho] Ha. pose proof (keys_ok_size first n Hfit _ Hk) as Hsz.
  unfold release_at. destruct (ContainsString _ _); [|done]. destruct (Nat.eqb _ 1).
  - assert (go_len (delete a (used_map st)) = go_len (used_map st) - 1) as Hd.
    { unfold go_len. rewrite (size_delete_Some (used_map st) a v Ha). lia. }
    cbn [Usage set_Usage set_Used PoolSize]. rewrite Hd, Hp.
    rewrite (proj2 (Z.eqb_neq _ _)) by lia. cbn [negb]. constructor; cbn; [done|done| |by rewrite Hd|].
    + intros b w [_ Hb]%lookup_delete_Some. by eapply Hk.
    + by rewrite bool_decide_false by lia.
  - constructor; cbn; [done|done| | |done].
    + intros b w [[<- <-]|[_ Hb]]%lookup_insert_Some; [by eapply Hk|by eapply Hk].
    + rewrite Hu. unfold go_len, used_map at 2. cbn. f_equal.
      by rewrite map_size_insert_Some.
Qed.

(** The loop over the entries visits each with its original value. *)
Lemma release_fold first n key l : fits first n → NoDup l.*1 → ∀ st, status_ok first n st →
  (∀ a v, (a, v) ∈ l → used_map st !! a = Some v) →
  let st' := foldl (release_entry key) st l in
  status_ok first n st' ∧
  ∀ a, used_map st' !! a =
    if decide (a ∈ l.*1) then used_map st !! a ≫= released key else used_map st !! a.
Proof.
  intros Hfit. induction l as [|[a0 v0] l IH]; intros Hnd st Hst Hl;
    cbv zeta; cbn [foldl fmap list_fmap fst] in *.
  { split; [done|]. intros a. rewrite decide_False; [done|]. apply not_elem_of_nil. }
  apply NoDup_cons in Hnd as [Ha0 Hnd]. rewrite release_entry_at.
  assert (used_map st !! a0 = Some v0) as H0 by (apply Hl; left).
  pose proof (release_at_used key st a0 v0 H0) as Hu.
  destruct (IH Hnd (release_at key st a0 v0)) as [Hok Hlook].
  { by apply release_at_ok. }
  { intros a v Hin. assert (a0 ≠ a).
    { intros ->. apply Ha0, list_elem_of_fmap. by exists (a, v). }
    rewrite Hu. destruct (released key v0); rewrite ?lookup_insert_ne, ?lookup_delete_ne by done;
      apply Hl; by right. }
  split; [done|]. intros a. rewrite Hlook, Hu.
  destruct (decide (a = a0)) as [->|Hne].
  - rewrite decide_False by done. rewrite decide_True by (apply elem_of_cons; by left).
    rewrite H0. cbn. destruct (released key v0); [apply lookup_insert_eq|apply lookup_delete_eq].
  - destruct (decide (a ∈ l.*1)) as [Hin|Hin].
    + rewrite decide_True by (apply elem_of_cons; by right).
      destruct (released key v0); by rewrite ?lookup_insert_ne, ?lookup_delete_ne by done.
    + rewrite decide_False by (rewrite elem_of_cons; tauto).
      destruct (released key v0); by rewrite ?lookup_insert_ne, ?lookup_delete_ne by done.
Qed.

Lemma release_used `{R : GoRange} first n key e : fits first n →
  status_ok first n (Eip_Status e) → IsZero (DeletionTimestamp (Eip_Meta e)) = true →
  let st' := Eip_Status (releaseIPFromEip key e) in
  status_ok first n st' ∧
  ∀ a, used_map st' !! a = used_map (Eip_Status e) !! a ≫= released key.
Proof.
  intros Hfit Hst Hz. unfold releaseIPFromEip. rewrite Hz. cbn [negb Eip_Status set_Status].
  destruct (release_fold first n key (range_map (used_map (Eip_Status e))) Hfit
    (NoDup_range_map_fst _) (Eip_Status e) Hst) as [Hok Hl].
  { intros a v. by rewrite elem_of_range_map. }
  split; [done|]. intros a. rewrite Hl. case_decide as Hin; [done|].
  destruct (used_map (Eip_Status e) !! a) as [v|] eqn:E; [|done].
  destruct Hin. apply list_elem_of_fmap. exists (a, v). split; [done|].
  by apply elem_of_range_map.
Qed.

Lemma Split_released key v : NoDup (Split ";" v) →
  match released key v with Some v' => Split ";" v' | None => [] end =
  RemoveString (Split ";" v) key.
Proof.
  intros Hnd. unfold released. destruct (ContainsString (Split ";" v) key) eqn:E.
  - apply ContainsString_elem in E. destruct (Nat.eqb (length (Split ";" v)) 1) eqn:El; bool_to_prop.
    + destruct (Split ";" v) as [|x [|y l]]; [done| |done].
      apply list_elem_of_singleton in E as ->. cbn. by rewrite decide_True.
    + apply Split_Join.
      * intros Hnil. destruct (Split ";" v) as [|x [|y l]] eqn:Ev; [by apply not_elem_of_nil in E|done|].
        assert (x ≠ y) as Hxy by (apply NoDup_cons in Hnd as [Hx _]; set_solver).
        destruct (decide (x = key)) as [->|Hx].
        -- assert (y ∈ RemoveString (key :: y :: l) key) as Hy.
           { apply elem_of_RemoveString. split; [set_solver|done]. }
           rewrite Hnil in Hy. by apply not_elem_of_nil in Hy.
        -- assert (x ∈ RemoveString (x :: y :: l) key) as Hy.
           { apply elem_of_RemoveString. split; [set_solver|done]. }
           rewrite Hnil in Hy. by apply not_elem_of_nil in Hy.
      * apply Forall_forall. intros w [Hw _]%elem_of_RemoveString.
        by apply (proj1 (Forall_forall _ _) (Split_elems_no_sep ";" v)).
  - assert (key ∉ Split ";" v) by (intros H%ContainsString_elem; congruence).
    by rewrite RemoveString_notin.
Qed.

(** ** Assignment *)

(** [e] and [e'] are one pool whose records differ at [addr] only. *)
Definition assigned_at (e e' : Eip) (addr : string) (l : list string) : Prop :=
  Eip_Meta e' = Eip_Meta e ∧ Eip_Spec e' = Eip_Spec e ∧
  holders (Eip_Status e') addr = l ∧
  ∀ a, a ≠ addr → holders (Eip_Status e') a = holders (Eip_Status e) a.

Section assign.
Context {R : GoRange} (first : IP) (n : Z) (Hfit : fits first n).

Lemma take_ok st k key : status_ok first n st → 0 <= k < n →
  used_map st !! addr_at first k = None →
  let used := <[addr_at first k := key]> (used_map st) in
  let st1 := set_Usage (set_Used st (Some used)) (go_len used) in
  status_ok first n (if Usage st1 =? PoolSize st1 then set_Occupied st1 true else st1).
Proof.
  intros [Hf Hp Hk Hu Ho] Hkn Hfree used st1.
  assert (keys_ok first n used) as Hk'.
  { intros a v [[<- <-]|[_ Ha]]%lookup_insert_Some; [eauto|by eapply Hk]. }
  assert (go_len used = go_len (used_map st) + 1) as Hsz.
  { unfold go_len, used. rewrite map_size_insert_None by done. lia. }
  pose proof (keys_ok_size first n Hfit _ Hk') as Hle.
  subst st1. cbn [Usage PoolSize set_Usage set_Used]. rewrite Hp.
  destruct (go_len used =? n) eqn:E; bool_to_prop; constructor; cbn; try done.
  - by rewrite bool_decide_true.
  - rewrite Ho, Hu. rewrite !bool_decide_false by lia. done.
Qed.

Lemma share_ok st k tmp key : status_ok first n st → 0 <= k < n →
  used_map st !! addr_at first k = Some tmp →
  status_ok first n (set_Used st (Some (<[addr_at first k := tmp +:+ ";" +:+ key]> (used_map st)))).
Proof.
  intros [Hf Hp Hk Hu Ho] Hkn Htmp. constructor; cbn; [done|done| | |done].
  - intros a v [[<- <-]|[_ Ha]]%lookup_insert_Some; [eauto|by eapply Hk].
  - rewrite Hu. unfold go_len, used_map at 2. cbn. by rewrite map_size_insert_Some.
Qed.

Lemma assigned_at_insert e st a v : used_map st = <[a := v]> (used_map (Eip_Status e)) →
  assigned_at e (set_Status e st) a (Split ";" v).
Proof.
  intros Hu. unfold assigned_at, holders. cbn [Eip_Meta Eip_Spec Eip_Status set_Status].
  rewrite Hu. split_and!; [done|done|by rewrite lookup_insert_eq|].
  intros b Hb. by rewrite lookup_insert_ne.
Qed.

(** With an address asked for, the first round decides. *)
Lemma assign_loop_specified e k key : status_ok first n (Eip_Status e) → 0 <= k < n →
  str_elem ";" key = false →
  ∃ e', assign_loop (Z.to_nat (n - k)) k true key e = Ok (addr_at first k, e') ∧
    status_ok first n (Eip_Status e') ∧
    assigned_at e e' (addr_at first k) (holders (Eip_Status e) (addr_at first k) ++ [key]).
Proof.
  intros Hst Hk Hkey. replace (Z.to_nat (n - k)) with (S (Z.to_nat (n - k - 1))) by lia.
  cbn [assign_loop]. rewrite (offset_addr_ok first n Hfit) by (done || apply Hst).
  cbn [mbind Result_bind]. unfold holders at 1.
  destruct (used_map (Eip_Status e) !! addr_at first k) as [tmp|] eqn:E.
  - eexists. split; [done|]. split; [by apply share_ok|].
    rewrite <- (Split_no_sep ";" key) by done. rewrite <- Split_concat.
    by apply assigned_at_insert.
  - eexists. split; [done|]. split; [by apply take_ok|]. cbn [app].
    rewrite <- (Split_no_sep ";" key) by done. apply assigned_at_insert.
    by destruct (_ =? _).
Qed.

(** With none asked for, the loop stops at the first free address. *)
Lemma assign_loop_auto e key m : status_ok first n (Eip_Status e) → str_elem ";" key = false →
  ∀ off, 0 <= off → Z.of_nat m = n - off →
  (∃ k e', off <= k < n ∧
     assign_loop m off false key e = Ok (addr_at first k, e') ∧
     holders (Eip_Status e) (addr_at first k) = [] ∧
     (∀ j, off <= j < k → holders (Eip_Status e) (addr_at first j) ≠ []) ∧
     status_ok first n (Eip_Status e') ∧ assigned_at e e' (addr_at first k) [key]) ∨
  ((∀ j, off <= j < n → is_Some (used_map (Eip_Status e) !! addr_at first j)) ∧
   assign_loop m off false key e = Err (Errorf "no suitable ip to allocate")).
Proof.
  intros Hst Hkey. induction m as [|m IH]; intros off Hoff Hm.
  { right. split; [intros j Hj; lia|done]. }
  cbn [assign_loop]. rewrite (offset_addr_ok first n Hfit) by (apply Hst || lia).
  cbn [mbind Result_bind]. destruct (used_map (Eip_Status e) !! addr_at first off) as [tmp|] eqn:E.
  - destruct (IH (off + 1)) as [(k & e' & Hk & Heq & Hfree & Htaken & Hok & Has)|[Hall Heq]]; [lia|lia| |].
    + left. exists k, e'. split_and!; auto; [lia|lia|]. intros j Hj.
      destruct (decide (j = off)) as [->|]; [|apply Htaken; lia].
      unfold holders. rewrite E. apply Split_not_nil.
    + right. split; [|done]. intros j Hj. destruct (decide (j = off)) as [->|]; [eauto|].
      apply Hall. lia.
  - left. exists off. eexists. split; [lia|]. split; [done|].
    split; [unfold holders; by rewrite E|]. split; [intros; lia|].
    split; [apply take_ok; [done|lia|done]|].
    rewrite <- (Split_no_sep ";" key) by done. apply assigned_at_insert. by destruct (_ =? _).
Qed.

Lemma already_assigned_spec a st :
  match already_assigned a st with
  | Some addr => addr = Rec_IP a ∧ Key a ∈ holders st (Rec_IP a)
  | None => Key a ∉ holders st (Rec_IP a)
  end.
Proof.
  unfold already_assigned, holders.
  assert (∀ l, (∀ x y, (x, y) ∈ l → used_map st !! x = Some y) →
    match foldr (λ '(addr, svcs) found,
      if existsb (λ svc, bool_decide (svc = Key a) && bool_decide (Rec_IP a = addr)) (Split ";" svcs)
      then Some addr else found) None l with
    | Some addr => addr = Rec_IP a ∧ ∃ v, used_map st !! Rec_IP a = Some v ∧ Key a ∈ Split ";" v
    | None => ∀ v, (Rec_IP a, v) ∈ l → Key a ∉ Split ";" v
    end) as Hl.
  { induction l as [|[x y] l IH]; intros Hin; cbn [foldr]; [by intros v ?%not_elem_of_nil|].
    destruct (existsb _ _) eqn:E.
    - apply existsb_elem in E as (s & Hs & Hb). bool_to_prop. subst x s.
      split; [done|]. exists y. split; [|done]. apply Hin. left.
    - specialize (IH (λ x y H, Hin x y (list_elem_of_further _ _ _ H))).
      destruct (foldr _ _ l); [done|]. intros v [[= <- <-]|Hv]%elem_of_cons; [|by apply IH].
      intros HK. apply (existsb_false_elem _ _ _ E) in HK.
      by rewrite !bool_decide_true in HK. }
  specialize (Hl (range_map (used_map st)) (λ x y H, proj1 (elem_of_range_map _ x y) H)).
  destruct (foldr _ _ _).
  - destruct Hl as [-> (v & -> & Hv)]. done.
  - destruct (used_map st !! Rec_IP a) as [v|] eqn:E; [|apply not_elem_of_nil].
    apply Hl. by apply elem_of_range_map.
Qed.
End assign.

(** ** A pool and its records *)
Record eip_ok (first : IP) (n : Z) (e : Eip) : Prop := {
  eo_fits : fits first n;
  eo_status : status_ok first n (Eip_Status e);
  eo_size : ∃ base, GetSize e = Ok (base, n) ∧ ip_ok base ∧ canon base = first;
}.

Definition available (e : Eip) : Prop :=
  IsZero (DeletionTimestamp (Eip_Meta e)) = true ∧ Disable (Eip_Spec e) = false.

Lemma eip_ok_status first n e st : eip_ok first n e → status_ok first n st →
  eip_ok first n (set_Status e st).
Proof. intros [Hf Hs Hg] Hst. by constructor. Qed.

Lemma eip_ok_same first n e e' : eip_ok first n e → Eip_Spec e' = Eip_Spec e →
  status_ok first n (Eip_Status e') → eip_ok first n e'.
Proof.
  intros [Hf Hs Hg] Hsp Hst. constructor; [done|done|].
  rewrite (GetSize_address e' e) by (by rewrite Hsp). done.
Qed.

Lemma IPToOrdinal_range first n e ip : eip_ok first n e →
  IPToOrdinal e ip < 0 ∨ 0 <= IPToOrdinal e ip < n.
Proof.
  intros [_ _ (base & Hg & _)]. unfold IPToOrdinal. rewrite Hg, Z.geb_leb.
  destruct (_ || _) eqn:E; bool_to_prop; lia.
Qed.

Section theorems.
Context {R : GoRange}.

(** What assignment can do, whatever the request says. *)
Lemma assign_cases first n e a : eip_ok first n e → available e → str_elem ";" (Key a) = false →
  (Key a ∈ holders (Eip_Status e) (Rec_IP a) ∧ assignIPFromEip (Some a) e = Ok (Rec_IP a, e)) ∨
  ((Key a ∉ holders (Eip_Status e) (Rec_IP a)) ∧
   ((ParseIP (Rec_IP a) ≠ [] ∧ IPToOrdinal e (ParseIP (Rec_IP a)) < 0 ∧
     ∃ msg, assignIPFromEip (Some a) e = Err (Errorf msg)) ∨
    (ParseIP (Rec_IP a) ≠ [] ∧ ∃ k e', k = IPToOrdinal e (ParseIP (Rec_IP a)) ∧ 0 <= k < n ∧
       assignIPFromEip (Some a) e = Ok (addr_at first k, e') ∧ eip_ok first n e' ∧
       assigned_at e e' (addr_at first k) (holders (Eip_Status e) (addr_at first k) ++ [Key a])) ∨
    (ParseIP (Rec_IP a) = [] ∧
     assignIPFromEip (Some a) e = assign_loop (Z.to_nat n) 0 false (Key a) e))).
Proof.
  intros Hok [Hz Hd] Hkey. pose proof Hok as [Hfit Hst _]. unfold assignIPFromEip.
  rewrite Hz, Hd. cbn [negb]. pose proof (already_assigned_spec a (Eip_Status e)) as Ha.
  destruct (already_assigned a (Eip_Status e)) as [addr|]; [destruct Ha as [-> Ha]; by left|].
  right. split; [done|]. rewrite (so_pool _ _ _ Hst).
  destruct (ParseIP (Rec_IP a)) as [|b bs] eqn:Ep.
  - right; right. split; [done|]. cbn [ip_nil negb andb]. by rewrite Z.sub_0_r.
  - rewrite <- Ep. assert (ip_nil (ParseIP (Rec_IP a)) = false) as -> by (by rewrite Ep).
    cbn [negb andb]. destruct (IPToOrdinal_range first n e (ParseIP (Rec_IP a)) Hok) as [Hneg|Hk].
    + left. split; [by rewrite Ep|]. split; [done|]. rewrite (proj2 (Z.ltb_lt _ _)) by done. eauto.
    + right; left. split; [by rewrite Ep|]. rewrite (proj2 (Z.ltb_ge _ _)) by lia.
      destruct (assign_loop_specified first n Hfit e _ (Key a) Hst Hk Hkey) as (e' & -> & Hst' & Has).
      do 2 eexists. split; [done|]. split; [done|]. split; [done|]. split; [|done].
      eapply eip_ok_same; [done|apply Has|done].
Qed.

(** A request that is no address is never already assigned. *)
Lemma no_holder_unparsed first n e ip : eip_ok first n e → ParseIP ip = [] →
  holders (Eip_Status e) ip = [].
Proof.
  intros [Hfit Hst _] Hp. unfold holders.
  destruct (used_map (Eip_Status e) !! ip) as [v|] eqn:E; [|done].
  apply (so_keys _ _ _ Hst) in E as (k & Hk & ->). by destruct (addr_at_parses first n Hfit k Hk).
Qed.

(** The outcome of a successful assignment, for any request. *)
Lemma assign_ok first n e a addr e' : eip_ok first n e → available e →
  str_elem ";" (Key a) = false → assignIPFromEip (Some a) e = Ok (addr, e') →
  eip_ok first n e' ∧
  ((addr = Rec_IP a ∧ e' = e ∧ Key a ∈ holders (Eip_Status e) addr) ∨
   (∃ k, 0 <= k < n ∧ addr = addr_at first k ∧
      assigned_at e e' addr (holders (Eip_Status e) addr ++ [Key a]))).
Proof.
  intros Hok Hav Hkey Ha.
  destruct (assign_cases first n e a Hok Hav Hkey)
    as [[Hh Heq]|(Hh & [(_ & _ & msg & Heq)|[(_ & k & e1 & _ & Hk & Heq & Hok' & Has)|(_ & Heq)]])];
    rewrite Heq in Ha; simplify_eq.
  - split; [done|]. left. done.
  - split; [done|]. right. eauto.
  - pose proof Hok as [Hfit Hst _].
    destruct (assign_loop_auto first n Hfit e (Key a) (Z.to_nat n) Hst Hkey 0)
      as [(k & e1 & Hk & Heq1 & Hfree & _ & Hst' & Has)|[_ Heq1]];
      [lia|destruct Hfit as (_ & ? & _); lia| |]; rewrite Heq1 in Ha; simplify_eq.
    split; [eapply eip_ok_same; [done|apply Has|done]|]. right. exists k. rewrite Hfree. done.
Qed.
End theorems.

(** ** Properties of one pool *)

(** C5: a service that asks for no particular address gets the first free
    address of the pool: every lower address was taken, nobody held this one
    before, the service alone holds it afterwards, no other record changes and
    the pool's counters stay exact.  The request fails exactly when every
    address is taken, which is when the pool is marked occupied. *)
Theorem assign_first_free `{R : GoRange} (first : IP) (n : Z) (e : Eip) (a : svcRecord)
    (Hok : eip_ok first n e) (Hav : available e) (Hkey : str_elem ";" (Key a) = false)
    (Hany : ParseIP (Rec_IP a) = []) :
  (Occupied (Eip_Status e) = false ∧
   ∃ k e', 0 <= k < n ∧ assignIPFromEip (Some a) e = Ok (addr_at first k, e') ∧
     holders (Eip_Status e) (addr_at first k) = [] ∧
     (∀ j, 0 <= j < k → holders (Eip_Status e) (addr_at first j) ≠ []) ∧
     assigned_at e e' (addr_at first k) [Key a] ∧ eip_ok first n e') ∨
  (Occupied (Eip_Status e) = true ∧
   (∀ j, 0 <= j < n → holders (Eip_Status e) (addr_at first j) ≠ []) ∧
   assignIPFromEip (Some a) e = Err (Errorf "no suitable ip to allocate")).
Proof.
  pose proof Hok as [Hfit Hst _]. pose proof (no_holder_unparsed first n e _ Hok Hany) as Hnone.
  destruct (assign_cases first n e a Hok Hav Hkey)
    as [[Hh _]|(_ & [(Hp & _)|[(Hp & _)|(_ & ->)]])]; [|done|done|].
  { rewrite Hnone in Hh. by apply not_elem_of_nil in Hh. }
  pose proof Hst as [_ _ Hk Hu Ho].
  destruct (assign_loop_auto first n Hfit e (Key a) (Z.to_nat n) Hst Hkey 0)
    as [(k & e1 & Hkn & -> & Hfree & Hlow & Hst' & Has)|[Hall ->]];
    [lia|destruct Hfit as (_ & ? & _); lia| |].
  - left. split.
    + rewrite Ho, Hu. apply bool_decide_false. intros Hfull.
      destruct (keys_ok_full first n Hfit _ Hk Hfull k Hkn) as [v Hv].
      unfold holders in Hfree. rewrite Hv in Hfree. by apply Split_not_nil in Hfree.
    + exists k, e1. split_and!; try done; try lia. eapply eip_ok_same; [done|apply Has|done].
  - right. split; [rewrite Ho, Hu; apply bool_decide_true; by apply (keys_ok_all first n Hfit)|].
    split; [|done]. intros j Hj. destruct (Hall j Hj) as [v Hv]. unfold holders. rewrite Hv.
    apply Split_not_nil.
Qed.

(** A service that asks for an address of the pool's family gets exactly
    that address (shared with the services that already hold it, recorded
    after them), unless it holds it already, in which case nothing changes;
    an address outside the pool is refused. *)
Theorem assign_requested `{R : GoRange} (first : IP) (n : Z) (e : Eip) (a : svcRecord)
    (Hok : eip_ok first n e) (Hav : available e) (Hkey : str_elem ";" (Key a) = false)
    (Hip : ParseIP (Rec_IP a) ≠ [])
    (Hfam : length (canon (ParseIP (Rec_IP a))) = length first)
    (Hd : - two63 <= IPToBigInt (ParseIP (Rec_IP a)) - IPToBigInt first < two63) :
  let addr := IP_String (canon (ParseIP (Rec_IP a))) in
  (Key a ∈ holders (Eip_Status e) (Rec_IP a) ∧ assignIPFromEip (Some a) e = Ok (Rec_IP a, e)) ∨
  (Contains e (ParseIP (Rec_IP a)) = true ∧
   ∃ e', assignIPFromEip (Some a) e = Ok (addr, e') ∧ eip_ok first n e' ∧
         assigned_at e e' addr (holders (Eip_Status e) addr ++ [Key a])) ∨
  (Contains e (ParseIP (Rec_IP a)) = false ∧ ∃ msg, assignIPFromEip (Some a) e = Err (Errorf msg)).
Proof.
  intros addr. pose proof Hok as [Hfit Hst (base & Hg & Hb & Hc)].
  set (ip := ParseIP (Rec_IP a)) in *.
  assert (ip_ok ip) as Hipok by (destruct (ParseIP_ok (Rec_IP a)) as [?|[? _]]; done).
  assert (IPToBigInt base = IPToBigInt first) as Hbf by (by rewrite <- Hc, canon_IPToBigInt).
  assert (1 <= n < two63) as Hn by apply Hfit.
  pose proof (Contains_spec e base n ip Hg Hn) as Hcs. rewrite Hbf in Hcs.
  assert (IPToOrdinal e ip = if (IPToBigInt ip - IPToBigInt first <? 0)
      || (IPToBigInt ip - IPToBigInt first >=? n) then -1 else IPToBigInt ip - IPToBigInt first) as Hord
    by (rewrite <- Hbf; apply IPToOrdinal_exact; [done|by rewrite Hbf]).
  rewrite Z.geb_leb in Hord.
  assert (∀ k, 0 <= k < n → IPToBigInt ip = IPToBigInt first + k → addr_at first k = addr) as Haddr.
  { intros k Hk Heq. unfold addr, addr_at. f_equal.
    pose proof (IncrementIP_canon base ip k Hb Hipok) as Hinc. rewrite Hc, Hbf in Hinc.
    specialize (Hinc Hfam Heq). rewrite (IncrementIP_first first n Hfit k Hk) in Hinc. congruence. }
  destruct (assign_cases first n e a Hok Hav Hkey)
    as [[Hh Heq]|(Hh & [(_ & Ho & msg & Heq)|[(_ & k & e1 & Ek & Hk & Heq & Hok' & Has)|(Hnil & _)]])];
    [| | |done].
  - by left.
  - right; right. split; [|eauto]. apply not_true_is_false. rewrite Hcs. fold ip in Ho. rewrite Hord in Ho.
    destruct (_ || _) eqn:E in Ho; bool_to_prop; [|lia].
    apply orb_true_iff in E as [E|E]; bool_to_prop; lia.
  - right; left. fold ip in Ek. rewrite Hord in Ek. destruct (_ || _) eqn:E in Ek; bool_to_prop; [lia|].
    split; [apply Hcs; lia|]. exists e1. rewrite (Haddr k) in Heq, Has by lia. done.
Qed.

(** The records determine the map. *)
Lemma holders_inj st st' : (∀ a, holders st a = holders st' a) → used_map st = used_map st'.
Proof.
  intros H. apply map_eq. intros a. specialize (H a). unfold holders in H.
  destruct (used_map st !! a) as [v|], (used_map st' !! a) as [w|]; [| | |done].
  - rewrite <- (Join_Split ";" v), <- (Join_Split ";" w). by rewrite H.
  - by apply Split_not_nil in H.
  - by symmetry in H; apply Split_not_nil in H.
Qed.

Lemma no_dups_holders st : no_dups st ↔ ∀ a, NoDup (holders st a).
Proof.
  unfold no_dups, holders. split; intros H a.
  - destruct (used_map st !! a) as [v|] eqn:E; [by eapply H|constructor].
  - intros v Hv. specialize (H a). by rewrite Hv in H.
Qed.

Lemma release_holders `{R : GoRange} first n key e : eip_ok first n e →
  no_dups (Eip_Status e) → IsZero (DeletionTimestamp (Eip_Meta e)) = true →
  let e' := releaseIPFromEip key e in
  eip_ok first n e' ∧ no_dups (Eip_Status e') ∧
  ∀ a, holders (Eip_Status e') a = RemoveString (holders (Eip_Status e) a) key.
Proof.
  intros Hok Hnd Hz. destruct (release_used first n key e (eo_fits _ _ _ Hok) (eo_status _ _ _ Hok) Hz)
    as [Hst Hl].
  assert (∀ a, holders (Eip_Status (releaseIPFromEip key e)) a =
               RemoveString (holders (Eip_Status e) a) key) as Hh.
  { intros a. unfold holders. rewrite Hl.
    destruct (used_map (Eip_Status e) !! a) as [v|] eqn:E; [|done]. cbn [mbind option_bind].
    apply Split_released. by eapply Hnd. }
  split; [|split; [|done]].
  - eapply eip_ok_same; [done| |done]. unfold releaseIPFromEip. by destruct (negb _).
  - apply no_dups_holders. intros a. rewrite Hh. apply RemoveString_NoDup. by apply no_dups_holders.
Qed.

(** C7: releasing a service removes it from every address of the pool and
    changes nothing else: the other holders of each address stay, in order, an
    address nobody holds any more is free, and the counters and the occupied
    mark follow. *)
Theorem release_forgets_service `{R : GoRange} (first : IP) (n : Z) (e : Eip) (key : string)
    (Hok : eip_ok first n e) (Hnd : no_dups (Eip_Status e))
    (Hz : IsZero (DeletionTimestamp (Eip_Meta e)) = true) :
  let e' := releaseIPFromEip key e in
  eip_ok first n e' ∧ no_dups (Eip_Status e') ∧
  (∀ a, holders (Eip_Status e') a = RemoveString (holders (Eip_Status e) a) key) ∧
  (∀ a, key ∉ holders (Eip_Status e') a) ∧
  Usage (Eip_Status e') <= Usage (Eip_Status e).
Proof.
  destruct (release_holders first n key e Hok Hnd Hz) as (Hok' & Hnd' & Hh).
  split_and!; try done.
  - intros a. rewrite Hh, elem_of_RemoveString. tauto.
  - rewrite (so_usage _ _ _ (eo_status _ _ _ Hok)), (so_usage _ _ _ (eo_status _ _ _ Hok')).
    unfold go_len. rewrite <- !size_dom. apply inj_le, subseteq_size.
    intros a [v Hv]%elem_of_dom. apply elem_of_dom. specialize (Hh a). unfold holders in Hh.
    rewrite Hv in Hh. destruct (used_map (Eip_Status e) !! a); [eauto|].
    by apply Split_not_nil in Hh.
Qed.

Lemma assigned_no_dups e e' addr key : no_dups (Eip_Status e) →
  assigned_at e e' addr (holders (Eip_Status e) addr ++ [key]) →
  (key ∉ holders (Eip_Status e) addr) → no_dups (Eip_Status e').
Proof.
  intros Hnd (_ & _ & Ha & Hrest) Hk. apply no_dups_holders. intros a.
  rewrite no_dups_holders in Hnd. destruct (decide (a = addr)) as [->|Hne].
  - rewrite Ha. apply NoDup_app. split_and!; [done|set_solver|apply NoDup_singleton].
  - by rewrite Hrest.
Qed.

(** An assignment to a service that held nothing, followed by the release
    of that service, leaves the pool as it was: the same records, count and
    occupied mark. *)
Theorem assign_release_roundtrip `{R : GoRange} (first : IP) (n : Z) (e : Eip) (a : svcRecord)
    (addr : string) (e1 : Eip)
    (Hok : eip_ok first n e) (Hav : available e) (Hnd : no_dups (Eip_Status e))
    (Hkey : str_elem ";" (Key a) = false)
    (Hnew : ∀ x, Key a ∉ holders (Eip_Status e) x)
    (Ha : assignIPFromEip (Some a) e = Ok (addr, e1)) :
  let e2 := releaseIPFromEip (Key a) e1 in
  used_map (Eip_Status e2) = used_map (Eip_Status e) ∧
  Usage (Eip_Status e2) = Usage (Eip_Status e) ∧
  Occupied (Eip_Status e2) = Occupied (Eip_Status e).
Proof.
  destruct (assign_ok first n e a addr e1 Hok Hav Hkey Ha)
    as [Hok1 [(-> & -> & Hh)|(k & Hk & -> & Has)]]; [by destruct (Hnew (Rec_IP a))|].
  pose proof Has as (Hm & Hs & Hat & Hrest).
  destruct (release_holders first n (Key a) e1 Hok1) as (Hok2 & _ & Hh2).
  { by eapply assigned_no_dups. }
  { rewrite Hm. apply Hav. }
  assert (used_map (Eip_Status (releaseIPFromEip (Key a) e1)) = used_map (Eip_Status e)) as Hu.
  { apply holders_inj. intros x. rewrite Hh2. destruct (decide (x = addr_at first k)) as [->|Hne].
    - rewrite Hat. rewrite RemoveString_app. cbn. rewrite decide_True by done.
      rewrite RemoveString_notin by done. by rewrite app_nil_r.
    - rewrite Hrest by done. by apply RemoveString_notin. }
  destruct Hok as [_ [_ _ _ Hu1 Ho1] _], Hok2 as [_ [_ _ _ Hu2 Ho2] _].
  cbv zeta. rewrite Ho2, Ho1, Hu2, Hu1, Hu. done.
Qed.

(** ** Against the API server: lemmas *)
Section manager_lemmas.
Context {R : GoRange} {LL : LabelLib}.

Lemma find_holder_spec svc st :
  match find_holder svc (used_map st) with
  | Some a => svc ∈ holders st a
  | None => ∀ a, svc ∉ holders st a
  end.
Proof.
  unfold find_holder.
  assert (∀ l, (∀ x y, (x, y) ∈ l → used_map st !! x = Some y) →
    match foldr (λ '(addr, v) found,
      if existsb (λ s, bool_decide (s = svc)) (Split ";" v) then Some addr else found) None l with
    | Some a => svc ∈ holders st a
    | None => ∀ a v, (a, v) ∈ l → svc ∉ Split ";" v
    end) as Hl.
  { induction l as [|[x y] l IH]; intros Hin; cbn [foldr]; [by intros a v ?%not_elem_of_nil|].
    rewrite existsb_Contains. destruct (ContainsString (Split ";" y) svc) eqn:E.
    - apply ContainsString_elem in E. unfold holders. by rewrite (Hin x y) by left.
    - specialize (IH (λ x y H, Hin x y (list_elem_of_further _ _ _ H))).
      destruct (foldr _ _ l); [done|]. intros a v [[= -> ->]|Hv]%elem_of_cons; [|by eapply IH].
      intros Hs%ContainsString_elem. congruence. }
  specialize (Hl (range_map (used_map st)) (λ x y H, proj1 (elem_of_range_map _ x y) H)).
  destruct (foldr _ _ _); [done|]. intros a Ha. unfold holders in Ha.
  destruct (used_map st !! a) as [v|] eqn:E; [|by apply not_elem_of_nil in Ha].
  by apply (Hl a v); [apply elem_of_range_map|].
Qed.

(** The pool and address found for a service. *)
Definition allocation_found (svc : string) (items : list Eip) (r : string * string) : Prop :=
  (∃ e, e ∈ items ∧ IsZero (DeletionTimestamp (Eip_Meta e)) = true ∧
        r.1 = Eip_Name e ∧ svc ∈ holders (Eip_Status e) r.2) ∨
  (r = ("", "") ∧ ∀ e a, e ∈ items → IsZero (DeletionTimestamp (Eip_Meta e)) = true →
     svc ∉ holders (Eip_Status e) a).

Lemma find_eip_spec svc items : allocation_found svc items (find_eip svc items).
Proof.
  induction items as [|e items IH]; cbn [find_eip].
  { right. split; [done|]. by intros e a ?%not_elem_of_nil. }
  assert (∀ r, allocation_found svc items r →
    (IsZero (DeletionTimestamp (Eip_Meta e)) = true → ∀ a, svc ∉ holders (Eip_Status e) a) →
    allocation_found svc (e :: items) r) as Hstep.
  { intros r [(x & Hx & H)|(-> & Hn)] He; [left; exists x; split; [by right|done]|].
    right. split; [done|]. intros x a [->|Hx]%elem_of_cons Hz; eauto. }
  destruct (IsZero (DeletionTimestamp (Eip_Meta e))) eqn:Ez; cbn [negb]; [|by apply Hstep].
  pose proof (find_holder_spec svc (Eip_Status e)) as Hf.
  destruct (find_holder svc (used_map (Eip_Status e))) as [a|]; [|by apply Hstep].
  left. exists e. split; [by left|]. done.
Qed.

Lemma eip_less_weak : strict_weak eip_less.
Proof.
  unfold eip_less. split.
  - intros x y. destruct (Occupied (Eip_Status x)), (Occupied (Eip_Status y)); cbn; try done;
      rewrite Z.ltb_lt, Z.ltb_ge; lia.
  - intros x y z. destruct (Occupied (Eip_Status x)), (Occupied (Eip_Status y)),
      (Occupied (Eip_Status z)); cbn; try tauto; rewrite ?Z.ltb_lt; lia.
Qed.

(** A pool the namespace may use. *)
Definition bound_to (name : string) (nsLabels : gomap) (e : Eip) : Prop :=
  name ∈ Namespaces (Eip_Spec e) ∨
  (∃ labels sel, nsLabels = Some labels ∧ NamespaceSelector (Eip_Spec e) = Some sel ∧
     SelectorMatches sel labels = Some true).

Lemma default_candidates_spec name nsLabels items : ∀ acc d l d',
  default_candidates name nsLabels items acc d = Ok (l, d') →
  (∀ e, e ∈ l ↔ e ∈ acc ∨ (e ∈ items ∧ available e ∧ bound_to name nsLabels e)) ∧
  (∀ e, d' = Some e → d = Some e ∨ (e ∈ items ∧ available e ∧ IsDefault e = true)) ∧
  (d' = None → d = None ∧ ∀ e, e ∈ items → available e → IsDefault e = false).
Proof.
  induction items as [|x items IH]; intros acc d l d'; cbn [default_candidates].
  { intros [= <- <-]. split_and!; [set_solver|auto|].
    intros ->. split; [done|]. by intros e ?%not_elem_of_nil. }
  destruct (negb _ || _) eqn:Eav.
  { assert (¬ available x) as Hnav.
    { intros [Hz Hd]. by rewrite Hz, Hd in Eav. }
    intros H. apply IH in H as (H1 & H2 & H3). split_and!.
    - intros e. rewrite H1, elem_of_cons. intuition congruence.
    - intros e He. destruct (H2 e He) as [?|(? & ?)]; [by left|right]. rewrite elem_of_cons. tauto.
    - intros Hd. destruct (H3 Hd) as [-> H]. split; [done|].
      intros e [->|He]%elem_of_cons Hav; [done|by apply H]. }
  apply orb_false_elim in Eav as [Hz%negb_false_iff Hd].
  assert (available x) as Hav by done.
  set (acc1 := if existsb _ _ then acc ++ [x] else acc).
  intros H. apply Result_bind_Ok in H as (acc2 & Hsel & H).
  assert (∀ e, e ∈ acc2 ↔ e ∈ acc ∨ (e = x ∧ bound_to name nsLabels x)) as Hacc2.
  { assert (∀ e, e ∈ acc1 ↔ e ∈ acc ∨ (e = x ∧ name ∈ Namespaces (Eip_Spec x))) as Hacc1.
    { intros e. unfold acc1. rewrite existsb_Contains.
      destruct (ContainsString _ name) eqn:E.
      - apply ContainsString_elem in E. rewrite elem_of_app, list_elem_of_singleton. tauto.
      - assert (name ∉ Namespaces (Eip_Spec x)) by (rewrite <- ContainsString_elem; congruence). tauto. }
    unfold bound_to. set (P := ∃ labels sel, _).
    assert ((acc2 = acc1 ++ [x] ∧ P) ∨ (acc2 = acc1 ∧ ¬ P)) as [[-> HP]|[-> HP]].
    { unfold P. destruct nsLabels as [labels|]; [|right; simplify_eq; split; [done|by intros (? & ? & ? & _)]].
      destruct (NamespaceSelector (Eip_Spec x)) as [sel|];
        [|right; simplify_eq; split; [done|by intros (? & ? & _ & ? & _)]].
      destruct (SelectorMatches sel labels) as [[]|] eqn:Em; [left|right|done]; simplify_eq.
      - split; [done|]. eauto.
      - split; [done|]. intros (? & ? & ? & ? & ?). simplify_eq. }
    - intros e. rewrite elem_of_app, list_elem_of_singleton, Hacc1. tauto.
    - intros e. rewrite Hacc1. tauto. }
  apply IH in H as (H1 & H2 & H3). split_and!.
  - intros e. rewrite H1, Hacc2, elem_of_cons. intuition congruence.
  - intros e He. destruct (H2 e He) as [Hx|(? & ?)].
    + destruct d as [d0|]; [by left|]. destruct (IsDefault x) eqn:Ed; [|done]. simplify_eq.
      right. rewrite elem_of_cons. auto.
    + right. rewrite elem_of_cons. tauto.
  - intros Hn. destruct (H3 Hn) as [Hx Hrest]. destruct d as [d0|]; [done|]. split; [done|].
    intros e [->|He]%elem_of_cons Ha; [by destruct (IsDefault x)|by apply Hrest].
Qed.
End manager_lemmas.

Section server_lemmas.
Context {W : Type} {K : KubeClient W} (view : W → Server) {KO : KubeClientOk W view}.

Lemma GetEip_ok w n e : GetEip w n = Ok e → srv_eips (view w) !! n = Some e.
Proof. intros H. pose proof (GetEip_law w n) as Hl. by rewrite H in Hl. Qed.

(** A status update that succeeds replaces the status of the stored pool. *)
Lemma StatusUpdateEip_stored w e old w' e' : srv_eips (view w) !! Eip_Name e = Some old →
  Eip_Meta e = Eip_Meta old → Eip_Spec e = Eip_Spec old →
  StatusUpdateEip w e = (w', Ok e') →
  view w' = with_eips (view w) (<[Eip_Name e := e]> (srv_eips (view w))).
Proof.
  intros Hold Hm Hs Hu. apply StatusUpdateEip_law in Hu.
  apply srv_status_eip_spec in Hu as (old' & Hold' & -> & ->). rewrite Hold in Hold'.
  simplify_eq. f_equal. f_equal. rewrite <- Hm, <- Hs. by destruct e.
Qed.
End server_lemmas.

(** ** Properties of the manager *)
Lemma default_candidates_err `{LL : LabelLib} name nsLabels items : ∀ acc d,
  default_candidates name nsLabels items acc d ≠ Err (Errorf "no available default eip found").
Proof.
  induction items as [|x items IH]; intros acc d; cbn [default_candidates]; [done|].
  destruct (_ || _); [apply IH|].
  destruct nsLabels as [labels|]; [|apply IH].
  destruct (NamespaceSelector (Eip_Spec x)) as [sel|]; [|apply IH].
  destruct (SelectorMatches sel labels) as [[]|]; [apply IH|apply IH|]. cbn. by intros [= ].
Qed.

Lemma with_eips_same v n e : srv_eips v !! n = Some e →
  with_eips v (<[n := e]> (srv_eips v)) = v.
Proof. intros H. unfold with_eips. rewrite insert_id by done. by destruct v. Qed.

(** Assignment names the pool's own object. *)
Lemma assign_same_object `{R : GoRange} first n e a addr e' : eip_ok first n e → available e →
  str_elem ";" (Key a) = false → assignIPFromEip (Some a) e = Ok (addr, e') →
  Eip_Meta e' = Eip_Meta e ∧ Eip_Spec e' = Eip_Spec e ∧ eip_ok first n e' ∧
  Key a ∈ holders (Eip_Status e') addr ∧
  (∀ x, x ≠ addr → holders (Eip_Status e') x = holders (Eip_Status e) x) ∧
  (∀ s, s ∈ holders (Eip_Status e) addr → s ∈ holders (Eip_Status e') addr).
Proof.
  intros Hok Hav Hkey Ha. destruct (assign_ok first n e a addr e' Hok Hav Hkey Ha)
    as [Hok' [(-> & -> & Hh)|(k & Hk & -> & (Hm & Hs & Hat & Hrest))]]; [done|].
  split_and!; try done; rewrite Hat.
  - set_solver.
  - set_solver.
Qed.

Lemma assign_available `{R : GoRange} a e r : assignIPFromEip (Some a) e = Ok r → available e.
Proof.
  unfold assignIPFromEip, available. destruct (IsZero _); [|done]. by destruct (Disable _).
Qed.

Lemma AssignIP_ok `{R : GoRange} `{L : CidrLib} {W : Type} `{K : KubeClient W}
    (view : W → Server) `{KO : !KubeClientOk W view} (w w' : W) (fams : list IPFamily)
    (a : svcRecord) (a' : option svcRecord) (first : IP) (n : Z)
    (Hsrv : server_ok (view w))
    (Hpool : ∀ e, srv_eips (view w) !! Rec_Eip a = Some e → eip_ok first n e)
    (Hkey : str_elem ";" (Key a) = false)
    (Ha : AssignIP w fams (Some a) = (w', Ok a')) :
  ∃ e e' r addr, srv_eips (view w) !! Rec_Eip a = Some e ∧ available e ∧
    ParseRange (Address (Eip_Spec e)) = Ok (Some r) ∧ IsSameFamily (Range_Family r) fams = true ∧
    a' = Some {| Key := Key a; Rec_IP := addr; Rec_Eip := Rec_Eip a |} ∧
    view w' = with_eips (view w) (<[Rec_Eip a := e']> (srv_eips (view w))) ∧ eip_ok first n e' ∧
    Key a ∈ holders (Eip_Status e') addr ∧
    (∀ x, x ≠ addr → holders (Eip_Status e') x = holders (Eip_Status e) x) ∧
    (∀ s, s ∈ holders (Eip_Status e) addr → s ∈ holders (Eip_Status e') addr).
Proof.
  unfold AssignIP in Ha. destruct (GetEip w (Rec_Eip a)) as [e|?|] eqn:Eg; [|done..].
  apply (GetEip_ok view) in Eg. pose proof (Hpool e Eg) as Hok.
  destruct (ParseRange _) as [[r|]|?|] eqn:Er; [|done..].
  destruct (IsSameFamily _ _) eqn:Ef; [|done]. cbn [negb] in Ha.
  destruct (assignIPFromEip (Some a) e) as [[addr e']|?|] eqn:Ea; [|done..].
  pose proof (assign_available _ _ _ Ea) as Hav.
  destruct (assign_same_object first n e a addr e' Hok Hav Hkey Ea)
    as (Hm & Hs & Hok' & Hin & Hsame & Hkeep).
  assert (a' = Some {| Key := Key a; Rec_IP := addr; Rec_Eip := Rec_Eip a |} ∧
    view w' = with_eips (view w) (<[Rec_Eip a := e']> (srv_eips (view w)))) as [-> Hv].
  { destruct (decide (e' = e)) as [->|Hne]; [injection Ha as <- <-; by rewrite with_eips_same|].
    destruct (StatusUpdateEip w e') as [w1 [e1|?|]] eqn:Eu; simplify_eq.
    assert (Eip_Name e' = Rec_Eip a) as Hn by (unfold Eip_Name; rewrite Hm; by apply Hsrv).
    split; [done|]. rewrite <- Hn in Eg |- *. by eapply StatusUpdateEip_stored. }
  exists e, e', r, addr. auto 20.
Qed.

(** When [AssignIP] succeeds, the server's pool of that name records the
    service under the address returned, keeps every record it had, and has a
    family the service accepts; no other pool and no service has changed. *)
Theorem AssignIP_records `{R : GoRange} `{L : CidrLib} {W : Type} `{K : KubeClient W}
    (view : W → Server) `{KO : !KubeClientOk W view} (w w' : W) (fams : list IPFamily)
    (a : svcRecord) (a' : option svcRecord) (first : IP) (n : Z)
    (Hsrv : server_ok (view w))
    (Hpool : ∀ e, srv_eips (view w) !! Rec_Eip a = Some e → eip_ok first n e)
    (Hkey : str_elem ";" (Key a) = false)
    (Ha : AssignIP w fams (Some a) = (w', Ok a')) :
  ∃ e e' r addr, srv_eips (view w) !! Rec_Eip a = Some e ∧ available e ∧
    ParseRange (Address (Eip_Spec e)) = Ok (Some r) ∧ IsSameFamily (Range_Family r) fams = true ∧
    a' = Some {| Key := Key a; Rec_IP := addr; Rec_Eip := Rec_Eip a |} ∧
    view w' = with_eips (view w) (<[Rec_Eip a := e']> (srv_eips (view w))) ∧ eip_ok first n e' ∧
    Key a ∈ holders (Eip_Status e') addr ∧
    (∀ x, x ≠ addr → holders (Eip_Status e') x = holders (Eip_Status e) x) ∧
    (∀ s, s ∈ holders (Eip_Status e) addr → s ∈ holders (Eip_Status e') addr).
Proof. by eapply AssignIP_ok. Qed.

Lemma ReleaseIP_ok `{R : GoRange} {W : Type} `{K : KubeClient W}
    (view : W → Server) `{KO : !KubeClientOk W view} (w w' : W) (r : svcRecord)
    (Hsrv : server_ok (view w))
    (Hpool : ∀ e, srv_eips (view w) !! Rec_Eip r = Some e →
       no_dups (Eip_Status e) ∧ ∃ first n, eip_ok first n e)
    (Ha : ReleaseIP w (Some r) = (w', Ok ())) :
  match srv_eips (view w) !! Rec_Eip r with
  | None => view w' = view w
  | Some e =>
      if IsZero (DeletionTimestamp (Eip_Meta e)) then
        ∃ e', view w' = with_eips (view w) (<[Rec_Eip r := e']> (srv_eips (view w))) ∧
          Eip_Meta e' = Eip_Meta e ∧ Eip_Spec e' = Eip_Spec e ∧
          no_dups (Eip_Status e') ∧ (∃ first n, eip_ok first n e') ∧
          ∀ x, holders (Eip_Status e') x = RemoveString (holders (Eip_Status e) x) (Key r)
      else view w' = view w
  end.
Proof.
  unfold ReleaseIP in Ha. pose proof (GetEip_law w (Rec_Eip r)) as Hl.
  destruct (GetEip w (Rec_Eip r)) as [e|err|]; cbn in Hl; [|destruct (IsNotFound err)|done]; [| |done].
  - rewrite Hl. destruct (Hpool e Hl) as [Hnd (first & n & Hok)].
    destruct (IsZero (DeletionTimestamp (Eip_Meta e))) eqn:Ez.
    + destruct (release_holders first n (Key r) e Hok Hnd Ez) as (Hok' & Hnd' & Hh).
      assert (Eip_Meta (releaseIPFromEip (Key r) e) = Eip_Meta e ∧
              Eip_Spec (releaseIPFromEip (Key r) e) = Eip_Spec e) as [Hm Hs]
        by (unfold releaseIPFromEip; by rewrite Ez).
      exists (releaseIPFromEip (Key r) e). split; [|by eauto 10].
      destruct (decide (releaseIPFromEip (Key r) e = e)) as [Heq|Hne].
      * injection Ha as <-. rewrite Heq. by rewrite with_eips_same.
      * destruct (StatusUpdateEip w _) as [w1 [e1|?|]] eqn:Eu; simplify_eq.
        assert (Eip_Name (releaseIPFromEip (Key r) e) = Rec_Eip r) as Hn
          by (unfold Eip_Name; rewrite Hm; by apply Hsrv).
        rewrite <- Hn in Hl |- *. by eapply StatusUpdateEip_stored.
    + assert (releaseIPFromEip (Key r) e = e) as Heq by (unfold releaseIPFromEip; by rewrite Ez).
      rewrite Heq, decide_True in Ha by done. by injection Ha as <-.
  - rewrite Hl by done. assert (releaseIPFromEip (Key r) zero_Eip = zero_Eip) as Heq.
    { unfold releaseIPFromEip. cbn [zero_Eip Eip_Meta Eip_Status used_map Used].
      assert (range_map (∅ : smap) = []) as E.
      { apply Permutation_nil_r. rewrite range_map_perm. by rewrite map_to_list_empty. }
      cbn. unfold used_map. cbn. by rewrite E. }
    rewrite Heq, decide_True in Ha by done. by injection Ha as <-.
Qed.

(** When [ReleaseIP] succeeds, the service holds no address of the pool
    named in the record any more (a pool that is gone or going is left
    alone), every other holder stays, and nothing else on the server has
    changed. *)
Theorem ReleaseIP_forgets `{R : GoRange} {W : Type} `{K : KubeClient W}
    (view : W → Server) `{KO : !KubeClientOk W view} (w w' : W) (r : svcRecord)
    (Hsrv : server_ok (view w))
    (Hpool : ∀ e, srv_eips (view w) !! Rec_Eip r = Some e →
       no_dups (Eip_Status e) ∧ ∃ first n, eip_ok first n e)
    (Ha : ReleaseIP w (Some r) = (w', Ok ())) :
  match srv_eips (view w) !! Rec_Eip r with
  | None => view w' = view w
  | Some e =>
      if IsZero (DeletionTimestamp (Eip_Meta e)) then
        ∃ e', view w' = with_eips (view w) (<[Rec_Eip r := e']> (srv_eips (view w))) ∧
          Eip_Meta e' = Eip_Meta e ∧ Eip_Spec e' = Eip_Spec e ∧
          no_dups (Eip_Status e') ∧ (∃ first n, eip_ok first n e') ∧
          ∀ x, holders (Eip_Status e') x = RemoveString (holders (Eip_Status e) x) (Key r)
      else view w' = view w
  end.
Proof. by apply (ReleaseIP_ok view). Qed.

(** The pool [getDefaultEIP] chooses. *)
Lemma getDefaultEIP_spec `{GS : GoSort} `{LL : LabelLib} {W : Type} `{K : KubeClient W}
    (w : W) (name : string) (nsLabels : gomap) (items : list Eip)
    (Hns : GetNamespaceLabels w name = Ok nsLabels) (Hl : ListEips w = Ok items) :
  match getDefaultEIP w name with
  | Ok e =>
      e ∈ items ∧ available e ∧
      ((bound_to name nsLabels e ∧
        ∀ e', e' ∈ items → available e' → bound_to name nsLabels e' → eip_less e' e = false) ∨
       (IsDefault e = true ∧ ∀ e', e' ∈ items → available e' → ¬ bound_to name nsLabels e'))
  | Err err => err = Errorf "no available default eip found" →
      ∀ e, e ∈ items → available e → ¬ bound_to name nsLabels e ∧ IsDefault e = false
  | Panic => True
  end.
Proof.
  unfold getDefaultEIP. rewrite Hns, Hl. cbn [mbind Result_bind].
  destruct (default_candidates name nsLabels items [] None) as [[l d]|err|] eqn:Ec; cbn [mbind Result_bind].
  - apply default_candidates_spec in Ec as (H1 & H2 & H3).
    assert (∀ e, e ∈ l ↔ e ∈ items ∧ available e ∧ bound_to name nsLabels e) as Hin.
    { intros e. rewrite H1. set_solver. }
    pose proof (sort_Slice_perm eip_less l) as Hp.
    pose proof (sort_Slice_sorted eip_less l eip_less_weak) as Hs.
    destruct (sort_Slice eip_less l) as [|e rest].
    + apply Permutation_nil_l in Hp. subst l.
      assert (∀ e', e' ∈ items → available e' → ¬ bound_to name nsLabels e') as Hno.
      { intros e' He Hav Hb. apply (not_elem_of_nil e'). apply Hin. done. }
      destruct d as [e|].
      * destruct (H2 e eq_refl) as [?|(? & ? & ?)]; [done|]. auto 10.
      * intros _ e He Hav. split; [by apply Hno|by apply H3].
    + assert (∀ x, x ∈ e :: rest ↔ x ∈ l) as Hmem by (intros x; by rewrite Hp).
      assert (e ∈ l) as (He & Hav & Hb)%Hin by (apply Hmem; left).
      split; [done|]. split; [done|]. left. split; [done|].
      intros e' He' Hav' Hb'. inversion Hs as [|? ? _ Hall]; subst.
      assert (e' ∈ e :: rest) as [->|Hr]%elem_of_cons by (apply Hmem, Hin; done).
      * destruct (eip_less e e) eqn:E; [|done]. pose proof (proj1 eip_less_weak e e E). congruence.
      * by apply (proj1 (Forall_forall _ _) Hall).
  - intros ->. by apply default_candidates_err in Ec.
  - done.
Qed.

(** The pool chosen for a service that names neither a pool nor an
    address can be used; among the usable pools bound to its namespace it is
    one that no other precedes (not occupied first, then lower priority
    number); only when none is bound is it the default pool; and the search
    fails with its own error only when there is neither. *)
Theorem getDefaultEIP_best `{GS : GoSort} `{LL : LabelLib} {W : Type} `{K : KubeClient W}
    (w : W) (name : string) (nsLabels : gomap) (items : list Eip)
    (Hns : GetNamespaceLabels w name = Ok nsLabels) (Hl : ListEips w = Ok items) :
  match getDefaultEIP w name with
  | Ok e =>
      e ∈ items ∧ available e ∧
      ((bound_to name nsLabels e ∧
        ∀ e', e' ∈ items → available e' → bound_to name nsLabels e' → eip_less e' e = false) ∨
       (IsDefault e = true ∧ ∀ e', e' ∈ items → available e' → ¬ bound_to name nsLabels e'))
  | Err err => err = Errorf "no available default eip found" →
      ∀ e, e ∈ items → available e → ¬ bound_to name nsLabels e ∧ IsDefault e = false
  | Panic => True
  end.
Proof. by apply getDefaultEIP_spec. Qed.

(** What the annotations of a service ask for. *)
Definition asked_ip (s : Service) (annotations : smap) : string :=
  default (Spec_LoadBalancerIP (Svc_Spec s)) (annotations !! constant.OpenELBEIPAnnotationKey).
Definition asked_eip (annotations : smap) : string :=
  default "" (annotations !! constant.OpenELBEIPAnnotationKeyV1Alpha2).
Definition svc_key (s : Service) : string :=
  NamespacedName (Namespace (Svc_Meta s)) (Name (Svc_Meta s)).

(** When nothing has to be done. *)
Lemma ConstructRequest_none `{R : GoRange} `{GS : GoSort} `{LL : LabelLib} {W : Type}
    `{K : KubeClient W} (w : W) (s : Service) (annotations : smap) (eip ip : string)
    (Hann : Annotations (Svc_Meta s) = Some annotations)
    (Hneed : needRelease (Some s) = false)
    (Halloc : getAllocatedEIPInfo w (svc_key s) = Ok (eip, ip))
    (Hstatus : status_lbip s = ip) (Hip : ip ≠ "")
    (Hask : asked_ip s annotations = "" ∨ asked_ip s annotations = ip)
    (Heip : (asked_eip annotations = eip ∧ eip ≠ "") ∨
            (asked_eip annotations = "" ∧
             ∃ e, getEIP w (Namespace (Svc_Meta s)) (asked_ip s annotations) "" = Ok e ∧ Eip_Name e = eip))
    (Hlabel : mhas (Labels (Svc_Meta s)) constant.OpenELBEIPAnnotationKeyV1Alpha2 = true) :
  ConstructRequest w (Some s) = Ok {| Req_Allocate := None; Req_Release := None |}.
Proof.
  unfold ConstructRequest. rewrite Hann. fold (svc_key s). rewrite Halloc.
  cbn [mbind Result_bind]. rewrite Hneed. fold (asked_ip s annotations) (asked_eip annotations).
  assert (str_empty ip = false) as Hipe
    by (destruct (str_empty ip) eqn:E; [|done]; by apply str_empty_spec in E).
  assert (∀ name, needUpdate {| svcName := name; svcSpecifyEIP := eip;
    svcSpecifyLBIP := asked_ip s annotations; svcStatusLBIP := status_lbip s;
    allocatedEip := eip; allocatedIP := ip |} = false) as Hnu.
  { intros name. unfold needUpdate.
    cbn [svcSpecifyEIP svcSpecifyLBIP svcStatusLBIP allocatedEip allocatedIP]. rewrite Hstatus, Hipe.
    rewrite !(bool_decide_true (_ = _)) by done.
    destruct (_ && _ && _); [done|]. destruct Hask as [-> | ->]; [by rewrite orb_true_r|].
    by rewrite bool_decide_true. }
  destruct Heip as [[He Hne]|[He (e & Hge & Hn)]]; rewrite He.
  - assert (str_empty eip = false) as ->
      by (destruct (str_empty eip) eqn:E; [|done]; by apply str_empty_spec in E).
    by rewrite Hnu, Hlabel.
  - cbn [str_empty]. rewrite Hge, Hn. by rewrite Hnu, Hlabel.
Qed.

(** A service that is settled (its pool records the address its status
    shows, that is the address and the pool it asks for or would be given, and
    it carries the pool label) needs nothing: reconciling it again releases
    and allocates nothing. *)
Theorem ConstructRequest_settled `{R : GoRange} `{GS : GoSort} `{LL : LabelLib} {W : Type}
    `{K : KubeClient W} (w : W) (s : Service) (annotations : smap) (eip ip : string)
    (Hann : Annotations (Svc_Meta s) = Some annotations)
    (Hneed : needRelease (Some s) = false)
    (Halloc : getAllocatedEIPInfo w (svc_key s) = Ok (eip, ip))
    (Hstatus : status_lbip s = ip) (Hip : ip ≠ "")
    (Hask : asked_ip s annotations = "" ∨ asked_ip s annotations = ip)
    (Heip : (asked_eip annotations = eip ∧ eip ≠ "") ∨
            (asked_eip annotations = "" ∧
             ∃ e, getEIP w (Namespace (Svc_Meta s)) (asked_ip s annotations) "" = Ok e ∧ Eip_Name e = eip))
    (Hlabel : mhas (Labels (Svc_Meta s)) constant.OpenELBEIPAnnotationKeyV1Alpha2 = true) :
  ConstructRequest w (Some s) = Ok {| Req_Allocate := None; Req_Release := None |}.
Proof. by eapply ConstructRequest_none. Qed.

(** A service that some pool records never gets a new address while it
    keeps the old one: every request that allocates for it also releases it
    from a pool and address that record it. *)
Theorem ConstructRequest_releases_first `{R : GoRange} `{GS : GoSort} `{LL : LabelLib} {W : Type}
    `{K : KubeClient W} (w : W) (s : Service) (items : list Eip) (req : Request) (a : svcRecord)
    (e0 : Eip) (x0 : string)
    (Hl : ListEips w = Ok items) (Hnames : ∀ e, e ∈ items → Eip_Name e ≠ "")
    (He0 : e0 ∈ items) (Hz0 : IsZero (DeletionTimestamp (Eip_Meta e0)) = true)
    (Hx0 : svc_key s ∈ holders (Eip_Status e0) x0)
    (Hreq : ConstructRequest w (Some s) = Ok req) (Ha : Req_Allocate req = Some a) :
  Key a = svc_key s ∧
  ∃ r e, Req_Release req = Some r ∧ Key r = svc_key s ∧ e ∈ items ∧
    IsZero (DeletionTimestamp (Eip_Meta e)) = true ∧
    Rec_Eip r = Eip_Name e ∧ svc_key s ∈ holders (Eip_Status e) (Rec_IP r).
Proof.
  unfold ConstructRequest in Hreq. destruct (Annotations (Svc_Meta s)) as [annotations|];
    [|by simplify_eq]. unfold getAllocatedEIPInfo in Hreq. fold (svc_key s) in Hreq.
  rewrite Hl in Hreq. cbn [mbind Result_bind] in Hreq.
  pose proof (find_eip_spec (svc_key s) items) as Hf.
  destruct (find_eip (svc_key s) items) as [n ip].
  destruct Hf as [(e & He & Hz & Hn & Hh)|(_ & Hno)]; [|by destruct (Hno e0 x0 He0 Hz0)].
  cbn [fst snd] in Hn, Hh. assert (str_empty n = false) as Hne.
  { destruct (str_empty n) eqn:E; [|done]. apply str_empty_spec in E.
    destruct (Hnames e He). congruence. }
  unfold constructRelease in Hreq.
  cbn [svcName svcStatusLBIP allocatedEip allocatedIP] in Hreq. rewrite Hne in Hreq. cbn [andb] in Hreq.
  destruct (needRelease _); [by simplify_eq|].
  destruct (if str_empty _ then _ else _) as [[en|]|?|]; [| |done..]; [|by simplify_eq].
  destruct (_ && _); simplify_eq. cbn in Ha. simplify_eq. cbn [Req_Release Key].
  split; [done|]. eexists _, e. split; [done|]. cbn [Key Rec_Eip Rec_IP]. done.
Qed.

(** ** Witnesses: a pool of four addresses, the first one taken *)
Definition sample_status : EipStatus :=
  {| Occupied := false; Usage := 1; PoolSize := 4; Used := Some {["10.0.0.0" := "ns/s1"]};
     FirstIP := "10.0.0.0"; LastIP := "10.0.0.3"; Ready := false; V4 := true |}.
Definition sample : Eip := set_Status (mk_eip "a" "10.0.0.0/30") sample_status.
Definition sample_request (ip : string) : svcRecord :=
  {| Key := "ns/s2"; Rec_IP := ip; Rec_Eip := "a" |}.

Lemma sample_fits : fits [10;0;0;0] 4.
Proof.
  split; [split; [by apply bytes_ok_eval|by left]|]. split; [done|by vm_compute].
Qed.

Lemma sample_used a v : used_map sample_status !! a = Some v → a = "10.0.0.0" ∧ v = "ns/s1".
Proof.
  change (used_map sample_status) with ({["10.0.0.0" := "ns/s1"]} : smap).
  by intros [<- <-]%lookup_singleton_Some.
Qed.

Lemma sample_ok : eip_ok [10;0;0;0] 4 sample.
Proof.
  constructor; [apply sample_fits| |].
  - constructor; [by vm_compute|done| |by vm_compute|done].
    intros a v [-> ->]%sample_used. exists 0. split; [lia|by vm_compute].
  - exists [10;0;0;0]. split; [by vm_compute|]. split; [|done].
    split; [by apply bytes_ok_eval|by left].
Qed.

Lemma sample_no_dups : no_dups sample_status.
Proof.
  intros a v [-> ->]%sample_used.
  change (Split ";" "ns/s1") with ["ns/s1"]. apply NoDup_singleton.
Qed.

Lemma sample_new x : "ns/s2" ∉ holders sample_status x.
Proof.
  unfold holders. destruct (used_map sample_status !! x) as [v|] eqn:E; [|apply not_elem_of_nil].
  apply sample_used in E as [_ ->].
  change (Split ";" "ns/s1") with ["ns/s1"]. rewrite list_elem_of_singleton. done.
Qed.

Definition sample_server : Server :=
  {| srv_eips := {["a" := sample]}; srv_svcs := ∅; srv_nss := {["ns" := None]} |}.

Lemma sample_eips n e : srv_eips sample_server !! n = Some e → n = "a" ∧ e = sample.
Proof.
  change (srv_eips sample_server) with ({["a" := sample]} : gmap string Eip).
  by intros [<- <-]%lookup_singleton_Some.
Qed.

Lemma sample_server_ok : server_ok sample_server.
Proof.
  split.
  - by intros n e [-> ->]%sample_eips.
  - intros k s. cbn. by rewrite lookup_empty.
Qed.

Lemma assign_first_free_witness :
  ∃ k e', 0 <= k < 4 ∧ @assignIPFromEip canonical_range (Some (sample_request "")) sample =
    Ok (addr_at [10;0;0;0] k, e').
Proof.
  destruct (@assign_first_free canonical_range [10;0;0;0] 4 sample (sample_request ""))
    as [(_ & k & e' & Hk & He & _)|(H & _)].
  - apply sample_ok.
  - by vm_compute.
  - by vm_compute.
  - by vm_compute.
  - exists k, e'. split; [exact Hk|exact He].
  - discriminate H.
Defined.

Lemma assign_requested_witness :
  ∃ e', @assignIPFromEip canonical_range (Some (sample_request "10.0.0.2")) sample = Ok ("10.0.0.2", e').
Proof.
  destruct (@assign_requested canonical_range [10;0;0;0] 4 sample (sample_request "10.0.0.2"))
    as [[H _]|[(_ & e' & He & _)|[H _]]].
  - apply sample_ok.
  - by vm_compute.
  - by vm_compute.
  - by vm_compute.
  - by vm_compute.
  - by vm_compute.
  - by destruct (sample_new "10.0.0.2").
  - exists e'. exact He.
  - by vm_compute in H.
Defined.

Lemma release_forgets_service_witness :
  holders (Eip_Status (@releaseIPFromEip canonical_range "ns/s1" sample)) "10.0.0.0" = [].
Proof.
  destruct (@release_forgets_service canonical_range [10;0;0;0] 4 sample "ns/s1")
    as (_ & _ & H & _); [apply sample_ok|apply sample_no_dups|done|]. rewrite H. by vm_compute.
Defined.

Lemma assign_release_roundtrip_witness :
  ∃ addr e1, @assignIPFromEip canonical_range (Some (sample_request "")) sample = Ok (addr, e1) ∧
    used_map (Eip_Status (@releaseIPFromEip canonical_range "ns/s2" e1)) = used_map sample_status.
Proof.
  eexists _, _. split; [by vm_compute|].
  apply (@assign_release_roundtrip canonical_range [10;0;0;0] 4 sample (sample_request "") "10.0.0.1");
    [apply sample_ok|by vm_compute|apply sample_no_dups|by vm_compute|apply sample_new|by vm_compute].
Defined.

Lemma AssignIP_records_witness :
  ∃ e', srv_eips (@AssignIP canonical_range go_cidr Server store_client sample_server [IPv4Protocol]
      (Some (sample_request ""))).1 !! "a" = Some e' ∧ "ns/s2" ∈ holders (Eip_Status e') "10.0.0.1".
Proof.
  destruct (@AssignIP canonical_range go_cidr Server store_client sample_server [IPv4Protocol]
      (Some (sample_request ""))) as [w' r] eqn:E.
  assert (r = Ok (Some {| Key := "ns/s2"; Rec_IP := "10.0.0.1"; Rec_Eip := "a" |})) as ->
    by (vm_compute in E; congruence).
  assert (∀ e, srv_eips sample_server !! Rec_Eip (sample_request "") = Some e →
    eip_ok [10;0;0;0] 4 e) as Hpool by (intros e [_ ->]%sample_eips; apply sample_ok).
  destruct (@AssignIP_records canonical_range go_cidr Server store_client (λ v, v) store_client_ok
    sample_server w' [IPv4Protocol] (sample_request "") _ [10;0;0;0] 4 sample_server_ok Hpool eq_refl E)
    as (e & e' & r & addr & _ & _ & _ & _ & Ha & Hv & _ & Hin & _).
  injection Ha as <-. exists e'. split; [|exact Hin]. cbn. rewrite Hv. cbn. apply lookup_insert_eq.
Defined.

Lemma ReleaseIP_forgets_witness :
  ∃ e', srv_eips (@ReleaseIP canonical_range Server store_client sample_server
      (Some {| Key := "ns/s1"; Rec_IP := ""; Rec_Eip := "a" |})).1 !! "a" = Some e' ∧
    holders (Eip_Status e') "10.0.0.0" = [].
Proof.
  destruct (@ReleaseIP canonical_range Server store_client sample_server
      (Some {| Key := "ns/s1"; Rec_IP := ""; Rec_Eip := "a" |})) as [w' r] eqn:E.
  assert (r = Ok ()) as -> by (vm_compute in E; congruence).
  set (r := {| Key := "ns/s1"; Rec_IP := ""; Rec_Eip := "a" |}) in E.
  assert (∀ e, srv_eips sample_server !! Rec_Eip r = Some e →
    no_dups (Eip_Status e) ∧ ∃ first n, eip_ok first n e) as Hpool.
  { intros e [_ ->]%sample_eips. split; [apply sample_no_dups|].
    exists [10;0;0;0], 4. apply sample_ok. }
  destruct (@ReleaseIP_forgets canonical_range Server store_client (λ v, v) store_client_ok
    sample_server w' r sample_server_ok Hpool E) as (e' & Hv & _ & _ & _ & _ & Hh).
  exists e'. cbn [fst]. rewrite Hv. split; [apply lookup_insert_eq|]. rewrite Hh. by vm_compute.
Defined.

Definition bound_sample : Eip :=
  {| Eip_Meta := Eip_Meta sample;
     Eip_Spec := {| Address := "10.0.0.0/30"; Protocol := "layer2"; Interface := "eth0";
                    Disable := false; UsingKnownIPs := false; Priority := 0; Namespaces := ["ns"];
                    NamespaceSelector := None |};
     Eip_Status := sample_status |}.

Lemma getDefaultEIP_best_witness :
  ∃ e, @getDefaultEIP insertion_sort subset_labels Server store_client
      (with_eips sample_server {["a" := bound_sample]}) "ns" = Ok e ∧ available e.
Proof.
  pose proof (@getDefaultEIP_best insertion_sort subset_labels Server store_client
    (with_eips sample_server {["a" := bound_sample]}) "ns" None [bound_sample]) as H.
  destruct (@getDefaultEIP _ _ _ _ _ _) as [e|?|] eqn:E.
  - exists e. split; [done|]. by apply H.
  - by vm_compute in E.
  - by vm_compute in E.
Defined.

Definition sample_service (labels : gomap) (ip : string) : Service :=
  {| Svc_Meta := {| Name := "s1"; Namespace := "ns"; Labels := labels;
                    Annotations := Some {[constant.OpenELBAnnotationKey := "openelb";
                                          constant.OpenELBEIPAnnotationKeyV1Alpha2 := "a"]};
                    Finalizers := []; DeletionTimestamp := None |};
     Svc_Spec := {| Spec_Type := LoadBalancerType; Spec_LoadBalancerIP := ""; Spec_IPFamilies := [IPv4Protocol];
                    Spec_ExternalTrafficPolicy := PolicyCluster; Spec_ClusterIP := ""; Spec_Ports := [] |};
     Svc_Ingress := Some [{| Ingress_IP := ip; Ingress_Hostname := "" |}] |}.

Lemma ConstructRequest_settled_witness :
  @ConstructRequest canonical_range insertion_sort subset_labels Server store_client sample_server
    (Some (sample_service (Some {[constant.OpenELBEIPAnnotationKeyV1Alpha2 := "a"]}) "10.0.0.0")) =
  Ok {| Req_Allocate := None; Req_Release := None |}.
Proof.
  eapply (@ConstructRequest_settled canonical_range insertion_sort subset_labels Server store_client)
    with (eip := "a") (ip := "10.0.0.0");
    [done|by vm_compute|by vm_compute|done|done|by left; vm_compute|by left; vm_compute|by vm_compute].
Defined.

Lemma ConstructRequest_releases_first_witness :
  ∃ r, Req_Release {| Req_Allocate := Some {| Key := "ns/s1"; Rec_Eip := "a"; Rec_IP := "" |};
                      Req_Release := Some {| Key := "ns/s1"; Rec_Eip := "a"; Rec_IP := "10.0.0.0" |} |}
    = Some r ∧ "ns/s1" ∈ holders sample_status (Rec_IP r).
Proof.
  destruct (@ConstructRequest_releases_first canonical_range insertion_sort subset_labels Server
    store_client sample_server (sample_service None "10.0.0.9") [sample] {|
      Req_Allocate := Some {| Key := "ns/s1"; Rec_Eip := "a"; Rec_IP := "" |};
      Req_Release := Some {| Key := "ns/s1"; Rec_Eip := "a"; Rec_IP := "10.0.0.0" |} |}
    {| Key := "ns/s1"; Rec_Eip := "a"; Rec_IP := "" |} sample "10.0.0.0") as (_ & r & e & Hr & _ & He & _ & _ & Hh).
  - by vm_compute.
  - intros e ->%list_elem_of_singleton. done.
  - by left.
  - done.
  - vm_compute. left.
  - by vm_compute.
  - done.
  - apply list_elem_of_singleton in He as ->. by exists r.
Defined.
