(* ===== verification/IpamController.v ===== *)
(** * [pkg/controllers/ipam/controller.go]: the reconciler of Eip objects

    The reconciler initialises the status of a pool ([updateEip]), drops the
    records of services that no longer exist ([syncEip]), and on deletion
    takes the pool's label off the services that carry it ([removeEip]).
    Calls to the API server go through [KubeClient]; events are not
    modelled. *)
From S2P Require Import Prelude GoNet Cnet Iprange K8s EipTypes Kube Ipam.
Local Open Scope Z_scope.

Section controller.
Context {R : GoRange} {W : Type} {K : KubeClient W}.

(** One entry's services, in order, keeping those that exist. *)
Fixpoint sync_svcs (w : W) (svcs : list string) : Result (list string) :=
  match svcs with
  | [] => Ok []
  | svc :: rest =>
      match Split "/" svc with
      | s0 :: s1 :: _ =>
          match GetService w (s0, s1) with
          | Err e => if IsNotFound e then sync_svcs w rest else Err e
          | Panic => Panic
          | Ok _ => l ← sync_svcs w rest; Ok (svc :: l)
          end
      | _ => sync_svcs w rest
      end
  end.

Fixpoint sync_entries (w : W) (entries : list (string * string)) (used : smap) : Result smap :=
  match entries with
  | [] => Ok used
  | (k, v) :: rest =>
      syncSvcs ← sync_svcs w (Split ";" v);
      sync_entries w rest
        (if Nat.eqb (length syncSvcs) 0 then used else <[k := Join syncSvcs ";"]> used)
  end.

Definition syncEip (w : W) (e : Eip) : Result Eip :=
  used ← sync_entries w (range_map (used_map (Eip_Status e))) ∅;
  let st := set_Usage (set_Used (Eip_Status e) (Some used)) (go_len used) in
  Ok (set_Status e (set_Occupied st (PoolSize st <=? Usage st))).

(** [updateEip]'s first part, for a pool without a first address. *)
Definition init_status (e : Eip) : Result Eip :=
  let '(base, size) := GetSize_ignore e in
  last ← IncrementIP base (wrap64 (size - 1));
  let st := Eip_Status e in
  Ok (set_Status e
        {| Occupied := Occupied st; Usage := Usage st; PoolSize := size; Used := Used st;
           FirstIP := IP_String base; LastIP := IP_String last; Ready := Ready st;
           V4 := if negb (ip_nil (To4 base)) then true else V4 st |}).

Definition updateEip (w : W) (e : Eip) : Result Eip :=
  e ← (if str_empty (FirstIP (Eip_Status e)) then init_status e else Ok e);
  syncEip w e.

Definition set_SvcMeta (s : Service) (m : ObjectMeta) : Service :=
  {| Svc_Meta := m; Svc_Spec := Svc_Spec s; Svc_Ingress := Svc_Ingress s |}.

Fixpoint remove_labels (w : W) (svcs : list Service) : W * Result () :=
  match svcs with
  | [] => (w, Ok ())
  | svc :: rest =>
      let labels := mdel (Labels (Svc_Meta svc)) constant.OpenELBEIPAnnotationKeyV1Alpha2 in
      match UpdateService w (set_SvcMeta svc (set_Labels (Svc_Meta svc) labels)) with
      | (w', Ok _) => remove_labels w' rest
      | (w', Err e) => (w', Err e)
      | (w', Panic) => (w', Panic)
      end
  end.

Definition removeEip (w : W) (e : Eip) : W * Result () :=
  match ListServices w (Some (constant.OpenELBEIPAnnotationKeyV1Alpha2, Eip_Name e)) with
  | Ok svcs => remove_labels w svcs
  | Err err => (w, Err err)
  | Panic => (w, Panic)
  end.

Definition set_EipMeta (e : Eip) (m : ObjectMeta) : Eip :=
  {| Eip_Meta := m; Eip_Spec := Eip_Spec e; Eip_Status := Eip_Status e |}.

Definition forget {A} (r : W * Result A) : W * Result () :=
  (r.1, match r.2 with Ok _ => Ok () | Err e => Err e | Panic => Panic end).

Definition Reconcile (w : W) (name : string) : W * Result () :=
  match GetEip w name with
  | Err err => (w, if IsNotFound err then Ok () else Err err)
  | Panic => (w, Panic)
  | Ok eip =>
      if IsDeletionCandidate (Eip_Meta eip) constant.IPAMFinalizerName then
        match removeEip w eip with
        | (w', Ok _) =>
            forget (UpdateEip w' (set_EipMeta eip (RemoveFinalizer (Eip_Meta eip) constant.IPAMFinalizerName)))
        | r => r
        end
      else
        let '(w, got) :=
          if NeedToAddFinalizer (Eip_Meta eip) constant.IPAMFinalizerName
          then UpdateEip w (set_EipMeta eip (AddFinalizer (Eip_Meta eip) constant.IPAMFinalizerName))
          else (w, Ok eip) in
        match got with
        | Err err => (w, Err err)
        | Panic => (w, Panic)
        | Ok eip =>
            match updateEip w eip with
            | Err err => (w, Err err)
            | Panic => (w, Panic)
            | Ok clone =>
                if decide (Eip_Status clone = Eip_Status eip) then (w, Ok ())
                else forget (StatusUpdateEip w clone)
            end
        end
  end.
End controller.

(** The event filter: which updates of an Eip are reconciled. *)
Definition UpdateFunc (oldEip newEip : Eip) : bool :=
  if negb (bool_decide (DeletionTimestamp (Eip_Meta oldEip) = DeletionTimestamp (Eip_Meta newEip)))
  then true
  else if negb (bool_decide (Eip_Spec oldEip = Eip_Spec newEip)) then true
  else false.

(** ** Lemmas *)

Definition aliveb (v : Server) (svc : string) : bool :=
  match Split "/" svc with
  | s0 :: s1 :: _ => bool_decide (is_Some (srv_svcs v !! (s0, s1)))
  | _ => false
  end.

(** The records that a synchronisation keeps. *)
Definition kept (v : Server) (value : string) : list string :=
  List.filter (aliveb v) (Split ";" value).

Lemma range_map_empty `{R : GoRange} : range_map (∅ : smap) = [].
Proof. apply Permutation_nil_r. rewrite range_map_perm. by rewrite map_to_list_empty. Qed.

Section lemmas.
Context {R : GoRange} {W : Type} {K : KubeClient W} (view : W → Server) {KO : KubeClientOk W view}.

Lemma sync_svcs_spec w l l' : sync_svcs w l = Ok l' → l' = List.filter (aliveb (view w)) l.
Proof.
  revert l'. induction l as [|svc l IH]; intros l'; cbn [sync_svcs List.filter]; [by intros [= <-]|].
  unfold aliveb at 1. destruct (Split "/" svc) as [|s0 [|s1 rest]]; [by apply IH..|].
  pose proof (GetService_law w (s0, s1)) as Hl.
  destruct (GetService w (s0, s1)) as [s|err|]; cbn in Hl; [| |done].
  - intros (l1 & H1 & [= <-])%Result_bind_Ok. rewrite bool_decide_true by eauto. f_equal. by apply IH.
  - destruct (IsNotFound err) eqn:E; [|done]. rewrite bool_decide_false by (rewrite Hl by done; by intros [??]).
    by apply IH.
Qed.

Definition sync_value (w : W) (v : string) : option string :=
  if Nat.eqb (length (kept (view w) v)) 0 then None else Some (Join (kept (view w) v) ";").

Lemma sync_entries_spec w l : NoDup l.*1 → ∀ used used',
  (∀ a v, (a, v) ∈ l → used !! a = None) → sync_entries w l used = Ok used' →
  ∀ a, used' !! a =
    match list_to_map (M := smap) l !! a with Some v => sync_value w v | None => used !! a end.
Proof.
  induction l as [|[k v] l IH]; intros Hnd used used' Hnone; cbn [sync_entries].
  { intros [= <-] a. done. }
  apply NoDup_cons in Hnd as [Hk Hnd]. cbn in Hk.
  intros (svcs & Hs & H)%Result_bind_Ok a. apply sync_svcs_spec in Hs. fold (kept (view w) v) in Hs. subst svcs.
  assert (∀ b u, (b, u) ∈ l → k ≠ b) as Hkb.
  { intros b u Hin ->. apply Hk, list_elem_of_fmap. by exists (b, u). }
  rewrite (IH Hnd _ used') with (2 := H).
  - cbn [list_to_map foldr]. destruct (decide (k = a)) as [->|Hne].
    + cbn. rewrite lookup_insert_eq.
      rewrite (proj1 (not_elem_of_list_to_map l a)) by done. unfold sync_value.
      destruct (Nat.eqb _ 0); [apply (Hnone a v); by left|apply lookup_insert_eq].
    + cbn. rewrite lookup_insert_ne by done.
      destruct (Nat.eqb _ 0); by rewrite ?lookup_insert_ne by done.
  - intros b u Hin. specialize (Hkb b u Hin).
    destruct (Nat.eqb _ 0); rewrite ?lookup_insert_ne by done; apply (Hnone b u); by right.
Qed.

Lemma sync_used w e e' : syncEip w e = Ok e' →
  ∀ a, used_map (Eip_Status e') !! a = used_map (Eip_Status e) !! a ≫= sync_value w.
Proof.
  unfold syncEip. intros (used & Hu & [= <-])%Result_bind_Ok a. cbn [Eip_Status set_Status].
  change (used_map (set_Occupied _ _)) with used.
  apply sync_entries_spec with (a := a) in Hu; [|apply NoDup_range_map_fst|intros; apply lookup_empty].
  rewrite Hu, list_to_map_range, lookup_empty. by destruct (used_map (Eip_Status e) !! a).
Qed.

Lemma filter_empty_or (A : Type) (f : A → bool) l : Nat.eqb (length (List.filter f l)) 0 = true →
  List.filter f l = [].
Proof. intros H%Nat.eqb_eq. by apply nil_length_inv. Qed.

Lemma sync_holders w e e' a : syncEip w e = Ok e' →
  holders (Eip_Status e') a = List.filter (aliveb (view w)) (holders (Eip_Status e) a).
Proof.
  intros He. unfold holders. rewrite (sync_used w e e' He).
  destruct (used_map (Eip_Status e) !! a) as [v|]; [|done]. cbn. unfold sync_value, kept.
  destruct (Nat.eqb _ 0) eqn:E; [by rewrite filter_empty_or|]. apply Split_Join.
  - intros Hnil. by rewrite Hnil in E.
  - apply Forall_forall. intros s Hs. apply list_elem_of_In, List.filter_In in Hs as [Hs _].
    apply list_elem_of_In in Hs. by apply (proj1 (Forall_forall _ _) (Split_elems_no_sep ";" v)).
Qed.

(** Only the first address, the size and the set of keys matter. *)
Lemma sync_ok first n w e e' : fits first n →
  cnet_ParseIP (FirstIP (Eip_Status e)) = Some first → PoolSize (Eip_Status e) = n →
  keys_ok first n (used_map (Eip_Status e)) → syncEip w e = Ok e' →
  status_ok first n (Eip_Status e') ∧ Eip_Spec e' = Eip_Spec e ∧ Eip_Meta e' = Eip_Meta e.
Proof.
  intros Hfit Hf Hp Hk He. pose proof (sync_used w e e' He) as Hu.
  assert (keys_ok first n (used_map (Eip_Status e'))) as Hk'.
  { intros a v Hv. rewrite Hu in Hv. destruct (used_map (Eip_Status e) !! a) eqn:E; [|done]. by eapply Hk. }
  unfold syncEip in He. apply Result_bind_Ok in He as (used & _ & [= <-]). cbn in Hk'.
  pose proof (keys_ok_size first n Hfit _ Hk') as Hsz. split; [|done].
  constructor; cbn [Eip_Status set_Status FirstIP set_Occupied set_Usage set_Used PoolSize Usage Occupied];
    [done|done|done|done|].
  rewrite Hp. change (used_map _) with used in Hsz.
  destruct (n <=? go_len used) eqn:E; bool_to_prop; symmetry;
    [apply bool_decide_true|apply bool_decide_false]; lia.
Qed.
End lemmas.

Lemma pool_ok_fits base size : pool_ok base size → fits (canon base) size.
Proof.
  intros (Hb & Hs & Hle). split; [by apply canon_canonical|]. split; [done|].
  by rewrite canon_IPToBigInt.
Qed.

Lemma cnet_ParseIP_base base : ip_ok base → cnet_ParseIP (IP_String base) = Some (canon base).
Proof.
  intros Hok. unfold cnet_ParseIP. rewrite ParseIP_String by done. rewrite canon_To16 by done.
  assert (ip_nil (To16 base) = false) as ->; [|done].
  destruct (To4_cases base Hok) as [(_ & Hl & ->)|(_ & _ & ->)]; [by destruct base|done].
Qed.

(** [IncrementIP] does not see which form of an IPv4 address it is given. *)
Lemma IncrementIP_form base k : ip_ok base → IncrementIP base k = IncrementIP (canon base) k.
Proof.
  intros Hok. unfold IncrementIP. rewrite canon_IPToBigInt.
  assert (To4 (canon base) = To4 base) as ->; [|done]. unfold canon.
  destruct (To4_cases base Hok) as [(H4 & _)|(H4 & Hb & _)]; [by rewrite H4|].
  destruct (ip_nil (To4 base)) eqn:E; [done|]. unfold To4 at 1. by rewrite H4.
Qed.

Lemma init_status_ok e base size : GetSize e = Ok (base, size) → pool_ok base size →
  ∃ e1, init_status e = Ok e1 ∧ Eip_Spec e1 = Eip_Spec e ∧ Eip_Meta e1 = Eip_Meta e ∧
    cnet_ParseIP (FirstIP (Eip_Status e1)) = Some (canon base) ∧
    PoolSize (Eip_Status e1) = size ∧ Used (Eip_Status e1) = Used (Eip_Status e).
Proof.
  intros Hg Hp. pose proof (pool_ok_fits base size Hp) as Hfit. destruct Hp as (Hb & Hs & _).
  unfold init_status, GetSize_ignore. rewrite Hg, size_pred by done.
  rewrite IncrementIP_form, (IncrementIP_first _ size Hfit) by (done || lia). cbn [mbind Result_bind].
  eexists. split; [done|]. cbn. split_and!; try done. by apply cnet_ParseIP_base.
Qed.

(** A pool before its first reconciliation. *)
Definition fresh (e : Eip) : Prop := Eip_Status e = Eip_Status zero_Eip.

Section update.
Context {R : GoRange} {W : Type} {K : KubeClient W} (view : W → Server) {KO : KubeClientOk W view}.

Lemma updateEip_fresh w e base size : fresh e → GetSize e = Ok (base, size) → pool_ok base size →
  ∃ e', updateEip w e = Ok e' ∧ Eip_Spec e' = Eip_Spec e ∧ Eip_Meta e' = Eip_Meta e ∧
    eip_ok (canon base) size e' ∧ used_map (Eip_Status e') = ∅ ∧ Eip_Status e' ≠ Eip_Status e.
Proof.
  unfold fresh. intros Hf Hg Hp. destruct (init_status_ok e base size Hg Hp) as (e1 & He1 & Hs & Hm & Hfirst & Hn & Hu).
  assert (updateEip w e = syncEip w e1) as Hup.
  { unfold updateEip. rewrite Hf. cbn [FirstIP zero_Eip Eip_Status str_empty]. by rewrite He1. }
  rewrite Hup.
  assert (used_map (Eip_Status e1) = ∅) as Hu1 by (unfold used_map; rewrite Hu, Hf; done).
  destruct (syncEip w e1) as [e2| |] eqn:E2;
    [|unfold syncEip in E2; rewrite Hu1, range_map_empty in E2; done..].
  destruct (sync_ok view (canon base) size w e1 e2 (pool_ok_fits _ _ Hp) Hfirst Hn) as (Hst & Hs2 & Hm2); [|done|].
  { intros a v. by rewrite Hu1, lookup_empty. }
  exists e2. split; [done|]. split; [congruence|]. split; [congruence|]. split; [|split].
  - constructor; [by apply pool_ok_fits|done|]. exists base.
    rewrite (GetSize_address e2 e) by congruence. split; [done|]. split; [apply Hp|done].
  - apply map_eq. intros a. rewrite (sync_used view w e1 e2 E2), Hu1. by rewrite lookup_empty.
  - intros Heq. destruct Hst as [_ Hps _ _ _]. rewrite Heq, Hf in Hps. cbn in Hps.
    destruct Hp as (_ & ? & _). lia.
Qed.

Lemma updateEip_ok first n w e e' : eip_ok first n e → updateEip w e = Ok e' →
  eip_ok first n e' ∧ Eip_Spec e' = Eip_Spec e ∧ Eip_Meta e' = Eip_Meta e ∧
  ∀ a, holders (Eip_Status e') a = List.filter (aliveb (view w)) (holders (Eip_Status e) a).
Proof.
  intros [Hfit Hst Hg] Hu. unfold updateEip in Hu.
  assert (str_empty (FirstIP (Eip_Status e)) = false) as Hne.
  { destruct (str_empty _) eqn:E; [|done]. apply str_empty_spec in E.
    pose proof (so_first _ _ _ Hst) as Hf. by rewrite E in Hf. }
  rewrite Hne in Hu. cbn [mbind Result_bind] in Hu.
  destruct (sync_ok view first n w e e' Hfit (so_first _ _ _ Hst) (so_pool _ _ _ Hst)
    (so_keys _ _ _ Hst) Hu) as (Hst' & Hs & Hm).
  split_and!; [|done|done|intros a; by apply sync_holders].
  constructor; [done|done|]. rewrite (GetSize_address e' e) by congruence. done.
Qed.
End update.

(** ** The life of a pool *)
Inductive pool_step `{R : GoRange} {W : Type} `{K : KubeClient W} (e : Eip) : Eip → Prop :=
| ps_assign a addr e' :
    str_elem ";" (Key a) = false → (∀ x, Key a ∉ holders (Eip_Status e) x) →
    assignIPFromEip (Some a) e = Ok (addr, e') → pool_step e e'
| ps_release key : pool_step e (releaseIPFromEip key e)
| ps_update (w : W) e' : updateEip w e = Ok e' → pool_step e e'
| ps_object e' :
    Address (Eip_Spec e') = Address (Eip_Spec e) → Eip_Status e' = Eip_Status e → pool_step e e'.

Definition pool_inv (base : IP) (size : Z) (e : Eip) : Prop :=
  GetSize e = Ok (base, size) ∧
  (fresh e ∨ (eip_ok (canon base) size e ∧ no_dups (Eip_Status e))).

Lemma filter_NoDup_bool {A} (f : A → bool) l : NoDup l → NoDup (List.filter f l).
Proof.
  induction 1 as [|x l Hx Hl IH]; cbn; [constructor|]. destruct (f x); [|done].
  constructor; [|done]. intros Hin. apply list_elem_of_In, List.filter_In in Hin as [Hin _].
  by apply Hx, list_elem_of_In.
Qed.

Lemma assign_fresh `{R : GoRange} e a r : fresh e → assignIPFromEip (Some a) e ≠ Ok r.
Proof.
  unfold fresh. intros Hf. unfold assignIPFromEip. destruct (negb _); [done|]. destruct (Disable _); [done|].
  unfold already_assigned. rewrite Hf. change (used_map (Eip_Status zero_Eip)) with (∅ : smap).
  rewrite range_map_empty. cbn [foldr PoolSize Eip_Status zero_Eip].
  set (off := if ip_nil (ParseIP (Rec_IP a)) then 0 else IPToOrdinal e (ParseIP (Rec_IP a))).
  destruct (negb (ip_nil _) && (off <? 0)) eqn:E; [done|].
  assert (0 <= off).
  { unfold off in *. destruct (ip_nil _); [lia|]. cbn in E. by bool_to_prop. }
  replace (Z.to_nat (0 - off)) with 0%nat by lia. done.
Qed.

Lemma release_fresh `{R : GoRange} key e : fresh e → releaseIPFromEip key e = e.
Proof.
  unfold fresh. intros Hf. unfold releaseIPFromEip. destruct (negb _); [done|]. rewrite Hf.
  change (used_map (Eip_Status zero_Eip)) with (∅ : smap). rewrite range_map_empty. cbn [foldl].
  rewrite <- Hf. by destruct e.
Qed.

Lemma release_any `{R : GoRange} first n key e : eip_ok first n e → no_dups (Eip_Status e) →
  eip_ok first n (releaseIPFromEip key e) ∧ no_dups (Eip_Status (releaseIPFromEip key e)).
Proof.
  intros Hok Hnd. destruct (IsZero (DeletionTimestamp (Eip_Meta e))) eqn:Ez.
  - destruct (release_holders first n key e Hok Hnd Ez) as (? & ? & _). done.
  - unfold releaseIPFromEip. by rewrite Ez.
Qed.

Lemma pool_step_inv `{R : GoRange} {W : Type} `{K : KubeClient W} (view : W → Server)
    `{KO : !KubeClientOk W view} base size e e' : pool_ok base size →
  pool_step (W := W) e e' → pool_inv base size e → pool_inv base size e'.
Proof.
  intros Hp Hstep [Hg Hinv].
  destruct Hstep as [a addr e' Hkey Hnew Ha|key|w e' Hu|e' Had Hst].
  - destruct Hinv as [Hf|[Hok Hnd]]; [by destruct (assign_fresh e a (addr, e') Hf)|].
    pose proof (assign_available _ _ _ Ha) as Hav.
    destruct (assign_ok _ _ e a addr e' Hok Hav Hkey Ha) as [Hok' [(-> & -> & Hh)|(k & _ & -> & Has)]].
    { by destruct (Hnew (Rec_IP a)). }
    split; [rewrite (GetSize_address e' e); [done|f_equal; apply Has]|].
    right. split; [done|]. eapply assigned_no_dups; [done|done|apply Hnew].
  - assert (Eip_Spec (releaseIPFromEip key e) = Eip_Spec e) as Hs
      by (unfold releaseIPFromEip; by destruct (negb _)).
    split; [by rewrite (GetSize_address _ e) by congruence|].
    destruct Hinv as [Hf|[Hok Hnd]]; [left; by rewrite release_fresh|right; by apply release_any].
  - destruct Hinv as [Hf|[Hok Hnd]].
    + destruct (updateEip_fresh view w e base size Hf Hg Hp) as (e1 & He1 & Hs & _ & Hok & Hemp & _).
      rewrite Hu in He1. simplify_eq. split; [by rewrite (GetSize_address _ e) by congruence|].
      right. split; [done|]. intros a v. by rewrite Hemp, lookup_empty.
    + destruct (updateEip_ok view _ _ w e e' Hok Hu) as (Hok' & Hs & _ & Hh).
      split; [by rewrite (GetSize_address _ e) by congruence|]. right. split; [done|].
      apply no_dups_holders. intros a. rewrite Hh. apply filter_NoDup_bool. by apply no_dups_holders.
  - split; [by rewrite (GetSize_address e' e)|]. destruct Hinv as [Hf|[Hok Hnd]].
    + left. unfold fresh in *. congruence.
    + right. rewrite Hst. split; [|done]. destruct Hok as [Hfit Hs Hsz].
      constructor; [done|by rewrite Hst|by rewrite (GetSize_address e' e)].
Qed.

Lemma pool_run_inv `{R : GoRange} {W : Type} `{K : KubeClient W} (view : W → Server)
    `{KO : !KubeClientOk W view} base size e e' : pool_ok base size →
  rtc (pool_step (W := W)) e e' → pool_inv base size e → pool_inv base size e'.
Proof.
  intros Hp. induction 1 as [|x y z Hs _ IH]; [done|]. intros Hx. by eapply IH, pool_step_inv.
Qed.

(** ** Properties *)

(** C4: through any sequence of assignments (to services the pool does not
    record yet), releases, reconciliations and object updates that keep the
    address, starting from a newly created pool, the status stays exact:
    either the pool is not initialised yet, or its records name only its own
    addresses, no service twice per address, [Usage] is their number and never
    exceeds [PoolSize], and [Occupied] is set exactly when they are equal. *)
Theorem pool_invariant `{R : GoRange} {W : Type} `{K : KubeClient W} (view : W → Server)
    `{KO : !KubeClientOk W view} (e0 e : Eip) (base : IP) (size : Z)
    (Hfresh : fresh e0) (Hg : GetSize e0 = Ok (base, size)) (Hp : pool_ok base size)
    (Hrun : rtc (pool_step (W := W)) e0 e) :
  fresh e ∨
  (PoolSize (Eip_Status e) = size ∧
   (∀ a v, used_map (Eip_Status e) !! a = Some v →
      (∃ k, 0 <= k < size ∧ a = addr_at (canon base) k) ∧ NoDup (Split ";" v)) ∧
   Usage (Eip_Status e) = go_len (used_map (Eip_Status e)) ∧
   0 <= Usage (Eip_Status e) <= size ∧
   (Occupied (Eip_Status e) = true ↔ Usage (Eip_Status e) = size)).
Proof.
  assert (pool_inv base size e) as [_ [Hf|[[Hfit Hst _] Hnd]]]; [|by left|right].
  { apply (pool_run_inv view base size e0); [done|done|]. split; [done|by left]. }
  pose proof (keys_ok_size _ _ Hfit _ (so_keys _ _ _ Hst)). pose proof (so_usage _ _ _ Hst) as Hu.
  split_and!; [apply Hst| |done|unfold go_len in *; lia|lia|].
  - intros a v Hv. split; [by eapply (so_keys _ _ _ Hst)|by eapply Hnd].
  - rewrite (so_occupied _ _ _ Hst). apply bool_decide_eq_true.
Qed.

(** Synchronising a pool keeps, for every address and in order, exactly
    the services that still exist, and leaves a status with exact counters. *)
Theorem syncEip_keeps_live `{R : GoRange} {W : Type} `{K : KubeClient W} (view : W → Server)
    `{KO : !KubeClientOk W view} (w : W) (first : IP) (n : Z) (e e' : Eip)
    (Hok : eip_ok first n e) (Hs : syncEip w e = Ok e') :
  (∀ a, holders (Eip_Status e') a = List.filter (aliveb (view w)) (holders (Eip_Status e) a)) ∧
  eip_ok first n e'.
Proof.
  split; [intros a; by apply sync_holders|]. destruct Hok as [Hfit Hst Hsz].
  destruct (sync_ok view first n w e e' Hfit (so_first _ _ _ Hst) (so_pool _ _ _ Hst)
    (so_keys _ _ _ Hst) Hs) as (Hst' & Hsp & _).
  constructor; [done|done|]. by rewrite (GetSize_address e' e) by congruence.
Qed.

(** A range whose last address lies beyond the family of its first (an
    IPv4 address and an IPv6 one) makes the initialisation of the pool panic,
    although the webhook accepts it. *)
Theorem updateEip_panics_on_mixed_range `{R : GoRange} {W : Type} `{K : KubeClient W} (w : W)
    (e : Eip) (base : IP) (size : Z)
    (Hf : FirstIP (Eip_Status e) = "") (Hg : GetSize e = Ok (base, size))
    (Hb : canonical base) (Hs : 1 <= size < two63)
    (Hbeyond : 256 ^ Z.of_nat (length base) <= IPToBigInt base + (size - 1)) :
  updateEip w e = Panic ∧
  (needs_interface e = false → HasOpenELBDefaultEipAnnotation (Annotations (Eip_Meta e)) = false →
   ValidateCreate (Ok []) e = Ok ()).
Proof.
  split.
  - unfold updateEip. rewrite Hf. cbn [str_empty]. unfold init_status, GetSize_ignore.
    rewrite Hg, size_pred by done. by rewrite IncrementIP_overflow.
  - intros Hi Hd. unfold ValidateCreate. rewrite Hg, Hi. unfold validate. cbn. by rewrite Hd.
Qed.

(** ** Deletion and the whole reconciliation *)
Definition unlabelled (s : Service) : Service :=
  set_SvcMeta s (set_Labels (Svc_Meta s)
    (mdel (Labels (Svc_Meta s)) constant.OpenELBEIPAnnotationKeyV1Alpha2)).

Lemma unlabelled_label s : mget (Labels (Svc_Meta (unlabelled s)))
  constant.OpenELBEIPAnnotationKeyV1Alpha2 = None.
Proof.
  unfold unlabelled, mget, mdel. cbn. destruct (Labels (Svc_Meta s)); [|done].
  cbn. apply lookup_delete_eq.
Qed.

Lemma srv_update_unlabelled v s v' s' : srv_svcs v !! Svc_Key s = Some s →
  srv_update_svc v (unlabelled s) = Some (v', s') →
  srv_eips v' = srv_eips v ∧
  (∀ k, k ≠ Svc_Key s → srv_svcs v' !! k = srv_svcs v !! k) ∧
  (∀ x, srv_svcs v' !! Svc_Key s = Some x → x = unlabelled s).
Proof.
  intros Hs. unfold srv_update_svc. change (Svc_Key (unlabelled s)) with (Svc_Key s). rewrite Hs.
  cbn [mbind option_bind]. intros [= <- <-]. split; [done|]. cbn [srv_svcs with_svcs].
  destruct (is_gone _).
  - split; [intros k Hk; by rewrite lookup_delete_ne|]. intros x. by rewrite lookup_delete_eq.
  - split; [intros k Hk; by rewrite lookup_insert_ne|]. intros x. rewrite lookup_insert_eq.
    intros [= <-]. unfold unlabelled, set_SvcMeta. f_equal.
Qed.

Lemma NoDup_fmap_filter {A B} (f : A → B) (P : A → bool) l :
  NoDup (f <$> l) → NoDup (f <$> List.filter P l).
Proof.
  induction l as [|x l IH]; [done|]. cbn. intros [Hx Hnd]%NoDup_cons.
  destruct (P x); [|by apply IH]. cbn. apply NoDup_cons. split; [|by apply IH].
  intros (y & Hy & Hin)%list_elem_of_fmap. apply Hx. rewrite Hy. apply list_elem_of_fmap_2.
  by apply list_elem_of_In, List.filter_In in Hin as [Hin%list_elem_of_In _].
Qed.

Section deletion.
Context {R : GoRange} {W : Type} {K : KubeClient W} (view : W → Server) {KO : KubeClientOk W view}.

Lemma remove_labels_spec l : NoDup (Svc_Key <$> l) → ∀ w w',
  (∀ k s, srv_svcs (view w) !! k = Some s → Svc_Key s = k) →
  (∀ s, s ∈ l → srv_svcs (view w) !! Svc_Key s = Some s) → remove_labels w l = (w', Ok ()) →
  srv_eips (view w') = srv_eips (view w) ∧
  ∀ k x, srv_svcs (view w') !! k = Some x →
    ∃ s, srv_svcs (view w) !! k = Some s ∧ (x = s ∧ (s ∉ l) ∨ x = unlabelled s).
Proof.
  induction l as [|s l IH]; intros Hnd w w' Hkeys Hl; cbn [remove_labels].
  { intros [= <-]. split; [done|]. intros k x Hx. exists x. split; [done|]. left.
    split; [done|apply not_elem_of_nil]. }
  cbn in Hnd. apply NoDup_cons in Hnd as [Hs Hnd]. fold (unlabelled s).
  destruct (UpdateService w (unlabelled s)) as [w1 [s1|?|]] eqn:Eu; [|done..]. intros Hr.
  apply UpdateService_law in Eu. assert (srv_svcs (view w) !! Svc_Key s = Some s) as Hst by (apply Hl; left).
  destruct (srv_update_unlabelled _ _ _ _ Hst Eu) as (He & Hother & Hself).
  assert (∀ x, x ∈ l → Svc_Key x ≠ Svc_Key s) as Hne.
  { intros x Hx Heq. apply Hs. rewrite <- Heq. by apply list_elem_of_fmap_2. }
  destruct (IH Hnd w1 w') as [He' Hrest]; [| |done|].
  { intros k x Hx. destruct (decide (k = Svc_Key s)) as [->|Hk]; [by apply Hself in Hx as ->|].
    rewrite Hother in Hx by done. by apply Hkeys. }
  { intros x Hx. rewrite Hother by (by apply Hne). apply Hl. by right. }
  split; [congruence|]. intros k x Hx. destruct (Hrest k x Hx) as (y & Hy & Hcase).
  destruct (decide (k = Svc_Key s)) as [->|Hk].
  - apply Hself in Hy as ->. exists s. split; [done|]. right.
    destruct Hcase as [[-> _]| ->]; [done|]. unfold unlabelled. cbn.
    unfold set_SvcMeta. cbn. f_equal. unfold set_Labels. cbn. f_equal.
    destruct (Labels (Svc_Meta s)); [|done]. cbn. by rewrite delete_delete_eq.
  - rewrite Hother in Hy by done. exists y. split; [done|].
    destruct Hcase as [[-> Hn]| ->]; [left|by right]. split; [done|].
    rewrite not_elem_of_cons. split; [|done]. intros ->. by rewrite (Hkeys k s Hy) in Hk.
Qed.

Lemma ListServices_keys w sel l : server_ok (view w) → ListServices w sel = Ok l →
  NoDup (Svc_Key <$> l) ∧
  ∀ s, s ∈ l ↔ srv_svcs (view w) !! Svc_Key s = Some s ∧ svc_selected sel s = true.
Proof.
  intros [_ Hsrv] Hl. pose proof (ListServices_law w sel) as H. rewrite Hl in H.
  assert (∀ s, s ∈ (map_to_list (srv_svcs (view w))).*2 ↔ srv_svcs (view w) !! Svc_Key s = Some s) as Hm.
  { intros s. rewrite list_elem_of_fmap. split.
    - intros ([k x] & -> & Hx%elem_of_map_to_list). cbn. by rewrite (Hsrv k x Hx).
    - intros Hs. exists (Svc_Key s, s). split; [done|]. by apply elem_of_map_to_list. }
  split.
  - rewrite H. assert (NoDup (Svc_Key <$> (map_to_list (srv_svcs (view w))).*2)) as Hnd.
    { rewrite <- list_fmap_compose. rewrite (list_fmap_ext _ fst); [apply NoDup_fst_map_to_list|].
      intros i [k x] Hx%list_elem_of_lookup_2%elem_of_map_to_list. cbn. by apply Hsrv. }
    by apply NoDup_fmap_filter.
  - intros s. rewrite H, <- Hm. rewrite !list_elem_of_In. apply List.filter_In.
Qed.

Lemma removeEip_spec w w' e : server_ok (view w) → removeEip w e = (w', Ok ()) →
  srv_eips (view w') = srv_eips (view w) ∧
  ∀ k x, srv_svcs (view w') !! k = Some x →
    mget (Labels (Svc_Meta x)) constant.OpenELBEIPAnnotationKeyV1Alpha2 ≠ Some (Eip_Name e) ∧
    ∃ s, srv_svcs (view w) !! k = Some s ∧ (x = s ∨ x = unlabelled s).
Proof.
  intros Hsrv. unfold removeEip.
  destruct (ListServices _ _) as [l|?|] eqn:El; [|done..]. intros Hr.
  destruct (ListServices_keys _ _ _ Hsrv El) as [Hnd Hin].
  destruct (remove_labels_spec l Hnd w w') as [He Hrest]; [apply Hsrv| |done|].
  { intros s Hs. by apply Hin. }
  split; [done|]. intros k x Hx. destruct (Hrest k x Hx) as (s & Hs & [[-> Hn]| ->]).
  - split; [|eauto]. intros Hlab. apply Hn, Hin.
    assert (Svc_Key s = k) as Hk by (by apply Hsrv). rewrite Hk. split; [done|].
    cbn. by apply bool_decide_true.
  - split; [|eauto]. by rewrite unlabelled_label.
Qed.
End deletion.

Lemma srv_update_eip_spec v e v' e' : srv_update_eip v e = Some (v', e') →
  ∃ old, srv_eips v !! Eip_Name e = Some old ∧
    e' = {| Eip_Meta := set_DeletionTimestamp (Eip_Meta e) (DeletionTimestamp (Eip_Meta old));
            Eip_Spec := Eip_Spec e; Eip_Status := Eip_Status old |} ∧
    v' = with_eips v (if is_gone (Eip_Meta e') then delete (Eip_Name e) (srv_eips v)
                      else <[Eip_Name e := e']> (srv_eips v)).
Proof.
  unfold srv_update_eip. destruct (srv_eips v !! Eip_Name e) as [old|]; [|done].
  cbn [mbind option_bind]. intros [= <- <-]. eauto.
Qed.

Lemma AddFinalizer_in m f : f ∈ Finalizers (AddFinalizer m f).
Proof.
  unfold AddFinalizer. destruct (ContainsString _ _) eqn:E; [by apply ContainsString_elem|].
  cbn. set_solver.
Qed.

Lemma AddFinalizer_other m f : Name (AddFinalizer m f) = Name m ∧
  DeletionTimestamp (AddFinalizer m f) = DeletionTimestamp m.
Proof. unfold AddFinalizer. by destruct (ContainsString _ _). Qed.

(** A reconciliation that succeeds on a newly created pool leaves it on
    the server with the finalizer, with its specification unchanged and with a
    status that describes exactly its addresses, all of them free. *)
Theorem Reconcile_initialises `{R : GoRange} {W : Type} `{K : KubeClient W} (view : W → Server)
    `{KO : !KubeClientOk W view} (w w' : W) (name : string) (e : Eip) (base : IP) (size : Z)
    (Hsrv : server_ok (view w)) (Hst : srv_eips (view w) !! name = Some e)
    (Hz : IsZero (DeletionTimestamp (Eip_Meta e)) = true)
    (Hf : fresh e) (Hg : GetSize e = Ok (base, size)) (Hp : pool_ok base size)
    (Hr : Reconcile w name = (w', Ok ())) :
  ∃ e', srv_eips (view w') !! name = Some e' ∧ Eip_Spec e' = Eip_Spec e ∧
    constant.IPAMFinalizerName ∈ Finalizers (Eip_Meta e') ∧
    eip_ok (canon base) size e' ∧ used_map (Eip_Status e') = ∅ ∧
    srv_svcs (view w') = srv_svcs (view w).
Proof.
  assert (Eip_Name e = name) as Hn by (by apply Hsrv). unfold Reconcile in Hr.
  pose proof (GetEip_law w name) as Hl. destruct (GetEip w name) as [e0|err|]; cbn in Hl; [| |done].
  2: { destruct (IsNotFound err); [|done]. rewrite Hl in Hst by done. done. }
  rewrite Hst in Hl. injection Hl as <-.
  unfold IsDeletionCandidate in Hr. rewrite Hz in Hr. cbn [negb andb] in Hr.
  destruct (if NeedToAddFinalizer _ _ then _ else _) as [w1 got] eqn:Eg.
  assert (∃ e1, got = Ok e1 ∧ srv_eips (view w1) !! name = Some e1 ∧ Eip_Name e1 = name ∧
    Eip_Spec e1 = Eip_Spec e ∧ Eip_Status e1 = Eip_Status e ∧
    constant.IPAMFinalizerName ∈ Finalizers (Eip_Meta e1) ∧ srv_svcs (view w1) = srv_svcs (view w))
    as (e1 & -> & Hst1 & Hn1 & Hs1 & Hf1 & Hfin & Hsvc).
  { unfold NeedToAddFinalizer in Eg. rewrite Hz in Eg. cbn [andb] in Eg.
    destruct (ContainsString _ _) eqn:Ec; cbn [negb] in Eg.
    - injection Eg as <- <-. exists e. apply ContainsString_elem in Ec. done.
    - destruct got as [e1|?|]; [|done..]. apply UpdateEip_law in Eg.
      apply srv_update_eip_spec in Eg as (old & Hold & He1 & Hv1).
      destruct (AddFinalizer_other (Eip_Meta e) constant.IPAMFinalizerName) as [HN HD].
      assert (Eip_Name (set_EipMeta e (AddFinalizer (Eip_Meta e) constant.IPAMFinalizerName)) = name) as Hn'
        by (unfold Eip_Name; cbn [set_EipMeta Eip_Meta]; by rewrite HN).
      rewrite Hn' in Hold, Hv1. rewrite Hst in Hold. injection Hold as <-.
      assert (is_gone (Eip_Meta e1) = false) as Hgone.
      { rewrite He1. unfold is_gone. cbn [Eip_Meta set_DeletionTimestamp DeletionTimestamp]. by rewrite Hz. }
      rewrite Hgone in Hv1. exists e1. rewrite Hv1. cbn [srv_eips srv_svcs with_eips].
      split; [done|]. split; [apply lookup_insert_eq|]. rewrite He1.
      split; [exact Hn'|]. split; [done|]. split; [done|]. split; [apply AddFinalizer_in|done]. }
  assert (GetSize e1 = Ok (base, size)) as Hg1 by (rewrite (GetSize_address e1 e) by congruence; done).
  assert (fresh e1) as Hfr by (unfold fresh in *; congruence).
  destruct (updateEip_fresh view w1 e1 base size Hfr Hg1 Hp) as (e2 & Hu & Hs2 & Hm2 & Hok & Hemp & Hne).
  rewrite Hu in Hr. rewrite decide_False in Hr by done.
  destruct (StatusUpdateEip w1 e2) as [w2 [e3|?|]] eqn:Es; [|done..].
  unfold forget in Hr. cbn in Hr. injection Hr as <-.
  assert (Eip_Name e2 = name) as Hn2 by (unfold Eip_Name in *; by rewrite Hm2).
  rewrite <- Hn2 in Hst1. apply (StatusUpdateEip_stored view _ _ e1) in Es; [|done..].
  exists e2. rewrite Es, Hn2. cbn [srv_eips srv_svcs with_eips]. rewrite lookup_insert_eq, Hm2, Hs2. done.
Qed.

(** A reconciliation that succeeds on a pool being deleted removes the
    pool's finalizer (so the server drops it) after taking the pool's label
    off every service that carried it, and changes nothing else of any
    service. *)
Theorem Reconcile_deletes `{R : GoRange} {W : Type} `{K : KubeClient W} (view : W → Server)
    `{KO : !KubeClientOk W view} (w w' : W) (name : string) (e : Eip)
    (Hsrv : server_ok (view w)) (Hst : srv_eips (view w) !! name = Some e)
    (Hdel : IsDeletionCandidate (Eip_Meta e) constant.IPAMFinalizerName = true)
    (Hr : Reconcile w name = (w', Ok ())) :
  (∀ e', srv_eips (view w') !! name = Some e' →
     constant.IPAMFinalizerName ∉ Finalizers (Eip_Meta e')) ∧
  (∀ k x, srv_svcs (view w') !! k = Some x →
     mget (Labels (Svc_Meta x)) constant.OpenELBEIPAnnotationKeyV1Alpha2 ≠ Some name ∧
     ∃ s, srv_svcs (view w) !! k = Some s ∧ (x = s ∨ x = unlabelled s)) ∧
  (Finalizers (Eip_Meta e) = [constant.IPAMFinalizerName] → srv_eips (view w') !! name = None).
Proof.
  assert (Eip_Name e = name) as Hn by (by apply Hsrv). unfold Reconcile in Hr.
  pose proof (GetEip_law w name) as Hl. destruct (GetEip w name) as [e0|err|]; cbn in Hl; [| |done].
  2: { destruct (IsNotFound err); [|done]. rewrite Hl in Hst by done. done. }
  rewrite Hst in Hl. injection Hl as <-. rewrite Hdel in Hr.
  destruct (removeEip w e) as [w1 [[]|?|]] eqn:Er; [|done..].
  destruct (removeEip_spec view w w1 e Hsrv Er) as [He Hsvc].
  destruct (UpdateEip w1 _) as [w2 [e2|?|]] eqn:Eu; [|done..].
  unfold forget in Hr. cbn in Hr. injection Hr as <-.
  apply UpdateEip_law in Eu. apply srv_update_eip_spec in Eu as (old & Hold & -> & Hv).
  change (Eip_Name (set_EipMeta e _)) with (Eip_Name e) in Hold, Hv.
  rewrite Hn, He, Hst in Hold. injection Hold as <-. rewrite Hn in Hv, Hsvc.
  rewrite Hv. cbn [srv_eips srv_svcs with_eips]. split; [|split; [exact Hsvc|]].
  - intros e'. destruct (is_gone _); [by rewrite lookup_delete_eq|].
    rewrite lookup_insert_eq. intros [= <-]. cbn. rewrite elem_of_RemoveString. tauto.
  - intros Hfin. destruct (is_gone _) eqn:Eg; [apply lookup_delete_eq|].
    apply andb_prop in Hdel as [Hz _]. unfold is_gone in Eg. cbn in Eg. by rewrite Hz, Hfin in Eg.
Qed.

(** ** Witnesses *)
Definition fresh_pool : Eip := mk_eip "a" "10.0.0.0/30".
Definition fresh_server (e : Eip) : Server :=
  {| srv_eips := {["a" := e]}; srv_svcs := {[("ns", "s1") := sample_service
       (Some {[constant.OpenELBEIPAnnotationKeyV1Alpha2 := "a"]}) "10.0.0.0"]}; srv_nss := ∅ |}.

Lemma fresh_server_ok e : Eip_Name e = "a" → server_ok (fresh_server e).
Proof.
  intros He. split.
  - intros n x. change (srv_eips (fresh_server e)) with ({["a" := e]} : gmap string Eip).
    by intros [<- <-]%lookup_singleton_Some.
  - intros k x. cbn [srv_svcs fresh_server]. by intros [<- <-]%lookup_singleton_Some.
Qed.

Lemma fresh_pool_ok : pool_ok [10;0;0;0] 4.
Proof. split; [split; [by apply bytes_ok_eval|by left]|]. split; [done|by vm_compute]. Qed.

Lemma pool_invariant_witness :
  ∃ e, rtc (@pool_step canonical_range Server store_client) fresh_pool e ∧
    PoolSize (Eip_Status e) = 4 ∧ 0 <= Usage (Eip_Status e) <= 4.
Proof.
  assert (∃ e, rtc (@pool_step canonical_range Server store_client) fresh_pool e ∧
    PoolSize (Eip_Status e) = 4) as (e & Hrun & Hp).
  { eexists. split.
    - eapply rtc_l; [eapply (ps_update _ (fresh_server fresh_pool)); by vm_compute|].
      eapply rtc_l; [eapply (ps_assign _ (sample_request "")); [done| |by vm_compute]|apply rtc_refl].
      intros x. vm_compute. by intros ?%not_elem_of_nil.
    - done. }
  exists e. split; [done|]. split; [done|].
  destruct (@pool_invariant canonical_range Server store_client (λ v, v) store_client_ok
    fresh_pool e [10;0;0;0] 4) as [Hf|(_ & _ & _ & Hu & _)];
    [done|by vm_compute|apply fresh_pool_ok|done| |done].
  rewrite Hf in Hp. done.
Defined.

Lemma syncEip_keeps_live_witness :
  ∃ e', @syncEip canonical_range Server store_client (fresh_server sample) sample = Ok e' ∧
    holders (Eip_Status e') "10.0.0.0" = ["ns/s1"].
Proof.
  destruct (@syncEip canonical_range Server store_client (fresh_server sample) sample) as [e'|?|] eqn:E;
    [|by vm_compute in E..].
  exists e'. split; [done|].
  destruct (@syncEip_keeps_live canonical_range Server store_client (λ v, v) store_client_ok
    (fresh_server sample) [10;0;0;0] 4 sample e' sample_ok E) as [H _]. rewrite H. by vm_compute.
Defined.

Lemma updateEip_panics_on_mixed_range_witness :
  @updateEip canonical_range Server store_client (fresh_server sample) (mk_eip "m" "10.0.0.1-::1:0:0") = Panic ∧
  ValidateCreate (Ok []) (mk_eip "m" "10.0.0.1-::1:0:0") = Ok ().
Proof.
  destruct (@updateEip_panics_on_mixed_range canonical_range Server store_client (fresh_server sample)
    (mk_eip "m" "10.0.0.1-::1:0:0") [10;0;0;1] 4127195136) as [H1 H2];
    [done|by vm_compute|split; [by apply bytes_ok_eval|by left]|done|by vm_compute|].
  split; [exact H1|]. apply H2; by vm_compute.
Defined.

Lemma Reconcile_initialises_witness :
  ∃ w' e', @Reconcile canonical_range Server store_client (fresh_server fresh_pool) "a" = (w', Ok ()) ∧
    srv_eips w' !! "a" = Some e' ∧ eip_ok [10;0;0;0] 4 e'.
Proof.
  destruct (@Reconcile canonical_range Server store_client (fresh_server fresh_pool) "a") as [w' r] eqn:E.
  assert (r = Ok ()) as -> by (vm_compute in E; congruence).
  destruct (@Reconcile_initialises canonical_range Server store_client (λ v, v) store_client_ok
    (fresh_server fresh_pool) w' "a" fresh_pool [10;0;0;0] 4) as (e' & He & _ & _ & Hok & _);
    [by apply fresh_server_ok|by vm_compute|done|done|by vm_compute|apply fresh_pool_ok|exact E|].
  exists w', e'. split; [done|]. split; [exact He|exact Hok].
Defined.

Definition dying_pool : Eip :=
  set_EipMeta fresh_pool {| Name := "a"; Namespace := ""; Labels := None; Annotations := None;
    Finalizers := [constant.IPAMFinalizerName]; DeletionTimestamp := Some 1 |}.

Lemma Reconcile_deletes_witness :
  srv_eips (@Reconcile canonical_range Server store_client (fresh_server dying_pool) "a").1 !! "a" = None.
Proof.
  destruct (@Reconcile canonical_range Server store_client (fresh_server dying_pool) "a") as [w' r] eqn:E.
  assert (r = Ok ()) as -> by (vm_compute in E; congruence).
  destruct (@Reconcile_deletes canonical_range Server store_client (λ v, v) store_client_ok
    (fresh_server dying_pool) w' "a" dying_pool) as (_ & _ & H);
    [by apply fresh_server_ok|by vm_compute|by vm_compute|exact E|].
  by apply H.
Defined.
