(* ===== verification/NodeProxy.v ===== *)
(** * [pkg/controllers/lb/nodeproxy.go]: services exported by proxy pods

    A service annotated with a node-proxy type is served by a Deployment or a
    DaemonSet of proxy pods that the reconciler creates for it, and its
    annotations list the addresses of the nodes the pods run on.

    The further calls to the API server (nodes, workloads, pods, the image
    ConfigMap) are the class [ProxyClient] over the same world as
    [KubeClient]; [ProxyClientOk] states what they document about the stored
    workloads.  The environment variable that names OpenELB's namespace is the
    argument [env]. *)
From S2P Require Import Prelude GoNet K8s EipTypes Kube.
Local Open Scope Z_scope.

Inductive WorkloadKind := Deployment | DaemonSet.
#[export] Instance WorkloadKind_eq_dec : EqDecision WorkloadKind.
Proof. solve_decision. Defined.
#[export] Instance WorkloadKind_countable : Countable WorkloadKind.
Proof.
  refine (inj_countable' (λ k, match k with Deployment => true | DaemonSet => false end)
    (λ b, if b then Deployment else DaemonSet) _). by intros [].
Defined.

Record ContainerPort := {
  Cp_ContainerPort : Z; Cp_HostPort : Z; Cp_Name : string; Cp_Protocol : string }.
#[export] Instance ContainerPort_eq_dec : EqDecision ContainerPort.
Proof. solve_decision. Defined.

Record Container := {
  Ctn_Name : string;
  Ctn_Image : string;
  Ctn_Ports : list ContainerPort;
  Ctn_Env : list (string * string);
  Ctn_Capabilities : list string;
  Ctn_Privileged : bool;
}.
#[export] Instance Container_eq_dec : EqDecision Container.
Proof. solve_decision. Defined.

Inductive LabelOperator := OpExists | OpDoesNotExist.
#[export] Instance LabelOperator_eq_dec : EqDecision LabelOperator.
Proof. solve_decision. Defined.

(** The pod template: its labels, containers, node affinity (required terms
    and preferred ones with their weight) and tolerated taints. *)
Record PodTemplate := {
  Tpl_Labels : smap;
  Tpl_Containers : list Container;
  Tpl_InitContainers : list Container;
  Tpl_Required : list (string * LabelOperator);
  Tpl_Preferred : list (Z * (string * LabelOperator));
  Tpl_Tolerations : list (string * LabelOperator * string);
}.
#[export] Instance PodTemplate_eq_dec : EqDecision PodTemplate.
Proof. solve_decision. Defined.

Record Workload := {
  Wl_Kind : WorkloadKind;
  Wl_Meta : ObjectMeta;
  Wl_Selector : smap;
  Wl_Template : PodTemplate;
}.
#[export] Instance Workload_eq_dec : EqDecision Workload.
Proof. solve_decision. Defined.

Definition Wl_Key (x : Workload) : WorkloadKind * (string * string) :=
  (Wl_Kind x, (Namespace (Wl_Meta x), Name (Wl_Meta x))).

(** ** The further calls *)
Class ProxyClient (W : Type) := {
  ListNodes : W → Result (list Node);
  UpdateNode : W → Node → W * Result Node;
  GetWorkload : W → WorkloadKind * (string * string) → Result Workload;
  CreateWorkload : W → Workload → W * Result Workload;
  UpdateWorkload : W → Workload → W * Result Workload;
  DeleteWorkload : W → Workload → W * Result ();
  ListRunningPods : W → string → string * string → Result (list string);  (* their host addresses *)
  GetConfigMap : W → string * string → Result gomap;
}.

(** ** Names *)
Definition isProxyResc (env : string) (obj : ObjectMeta) : bool :=
  bool_decide (Namespace obj = EnvNamespace env) && HasPrefix (Name obj) constant.NodeProxyWorkloadPrefix.

Definition proxyRescName (svcName svcNs : string) : string :=
  constant.NodeProxyWorkloadPrefix +:+ svcName +:+ constant.NameSeparator +:+ svcNs.

(** A slice [s[low:high]]: a panic unless [low <= high <= len s]. *)
Definition slice (s : string) (low high : Z) : Result string :=
  if (0 <=? low) && (low <=? high) && (high <=? Z.of_nat (String.length s))
  then Ok (String.substring (Z.to_nat low) (Z.to_nat (high - low)) s) else Panic.

Definition svcName (rescName svcNs : string) : Result string :=
  slice rescName (Z.of_nat (String.length constant.NodeProxyWorkloadPrefix))
    (Z.of_nat (String.length rescName) - Z.of_nat (String.length svcNs)
     - Z.of_nat (String.length constant.NameSeparator)).

Definition IsOpenELBNPService (svc : Service) : bool :=
  HasOpenELBAnnotation (Annotations (Svc_Meta svc)) && IsTypeLoadBalancer svc
  && HasOpenELBNPAnnotation (Annotations (Svc_Meta svc)).

Section nodeproxy.
Context {GS : GoSort} {W : Type} {K : KubeClient W} {P : ProxyClient W} (env : string).

Definition shouldReconcileDeDs (w : W) (e : ObjectMeta) : Result bool :=
  if negb (isProxyResc env e) then Ok false
  else match mget (Annotations e) constant.NodeProxyTypeAnnotationKey with
       | None => Ok false
       | Some ns =>
           name ← svcName (Name e) ns;
           match GetService w (ns, name) with
           | Err err => Ok (negb (IsNotFound err))
           | Panic => Panic
           | Ok svc => Ok (IsOpenELBNPService svc)
           end
       end.

(** ** The workload of a service *)
Definition getNPConfig (w : W) : Result gomap :=
  GetConfigMap w (EnvNamespace env, constant.OpenELBImagesConfigMap).

Definition getForwardImage (w : W) : string :=
  match getNPConfig w with
  | Ok data => default constant.NodeProxyDefaultForwardImage
                 (mget data constant.NodeProxyConfigMapForwardImage)
  | _ => constant.NodeProxyDefaultForwardImage
  end.

Definition getProxyImage (w : W) : string :=
  match getNPConfig w with
  | Ok data => default constant.NodeProxyDefaultProxyImage
                 (mget data constant.NodeProxyConfigMapProxyImage)
  | _ => constant.NodeProxyDefaultProxyImage
  end.

Definition newProxyCtnEnvArgs (ports : list ServicePort) (clusterIP : string) : list (string * string) :=
  [("PROXY_ARGS",
    foldl (λ acc port,
      acc +:+ clusterIP +:+ constant.EnvArgSplitter
          +:+ Itoa (Port_Port port) +:+ constant.EnvArgSplitter
          +:+ Itoa (Port_Port port) +:+ constant.EnvArgSplitter
          +:+ ToLower (Port_Protocol port) +:+ constant.EnvArgSplitter) "" ports)].

Definition newProxyCtnPorts (ports : list ServicePort) : list ContainerPort :=
  (λ port, {| Cp_ContainerPort := Port_Port port; Cp_HostPort := Port_Port port;
              Cp_Name := Port_Name port; Cp_Protocol := Port_Protocol port |}) <$> ports.

Definition newProxyCtn (w : W) (svc : Service) : Container :=
  {| Ctn_Name := proxyRescName (Name (Svc_Meta svc)) (Namespace (Svc_Meta svc));
     Ctn_Image := getProxyImage w;
     Ctn_Ports := newProxyCtnPorts (Spec_Ports (Svc_Spec svc));
     Ctn_Env := newProxyCtnEnvArgs (Spec_Ports (Svc_Spec svc)) (Spec_ClusterIP (Svc_Spec svc));
     Ctn_Capabilities := ["NET_ADMIN"]; Ctn_Privileged := false |}.

Definition newForwardCtn (w : W) (name : string) : Container :=
  {| Ctn_Name := name; Ctn_Image := getForwardImage w; Ctn_Ports := []; Ctn_Env := [];
     Ctn_Capabilities := []; Ctn_Privileged := true |}.

Definition newProxyRescAnno (svc : Service) : smap :=
  {[constant.OpenELBAnnotationKey := constant.OpenELBAnnotationValue;
    constant.NodeProxyTypeAnnotationKey := Namespace (Svc_Meta svc)]}.

Definition newProxyRescOM (svc : Service) : ObjectMeta :=
  {| Name := proxyRescName (Name (Svc_Meta svc)) (Namespace (Svc_Meta svc));
     Namespace := EnvNamespace env; Labels := None; Annotations := Some (newProxyRescAnno svc);
     Finalizers := []; DeletionTimestamp := None |}.

Definition newProxyRescSel (svc : Service) : smap :=
  {["name" := proxyRescName (Name (Svc_Meta svc)) (Namespace (Svc_Meta svc))]}.

Definition newProxyPoTepl (w : W) (svc : Service) : PodTemplate :=
  {| Tpl_Labels := {["name" := proxyRescName (Name (Svc_Meta svc)) (Namespace (Svc_Meta svc))]};
     Tpl_Containers := [newProxyCtn w svc];
     Tpl_InitContainers := [newForwardCtn w (Name (Svc_Meta svc))];
     Tpl_Required := [(constant.LabelNodeProxyExcludeNode, OpDoesNotExist)];
     Tpl_Preferred := [(10, (constant.LabelNodeProxyExternalIPPreffered, OpExists))];
     Tpl_Tolerations := [(constant.KubernetesMasterLabel, OpExists, "NoSchedule")] |}.

Definition newProxyDe (w : W) (svc : Service) : Workload :=
  {| Wl_Kind := Deployment; Wl_Meta := newProxyRescOM svc; Wl_Selector := newProxyRescSel svc;
     Wl_Template := newProxyPoTepl w svc |}.

Definition newProxyDs (w : W) (svc : Service) : Workload :=
  {| Wl_Kind := DaemonSet; Wl_Meta := newProxyRescOM svc; Wl_Selector := newProxyRescSel svc;
     Wl_Template := newProxyPoTepl w svc |}.

(** The kind a service's annotation names. *)
Definition proxy_kind (svc : Service) : option WorkloadKind :=
  let v := mget0 (Annotations (Svc_Meta svc)) constant.NodeProxyTypeAnnotationKey in
  if decide (v = constant.NodeProxyTypeDeployment) then Some Deployment
  else if decide (v = constant.NodeProxyTypeDaemonSet) then Some DaemonSet
  else None.

(** [newProxyResc]: a nil object for any other annotation. *)
Definition newProxyResc (w : W) (svc : Service) : option Workload :=
  match proxy_kind svc with
  | Some Deployment => Some (newProxyDe w svc)
  | Some DaemonSet => Some (newProxyDs w svc)
  | None => None
  end.

(** ** Reconciliation *)

(** The addresses of one node: external ones (labelling the node when it is
    not yet), and internal ones. *)
Fixpoint node_addrs (node : Node) (addrs : list (NodeAddressType * string))
    (ext int : gset string) : ST W (gset string * gset string) :=
  match addrs with
  | [] => mret (M := ST W) (ext, int)
  | (t, a) :: rest =>
      if decide (t = NodeExternalIP) then
        if mhas (Labels (Node_Meta node)) constant.LabelNodeProxyExternalIPPreffered
        then node_addrs node rest ({[a]} ∪ ext) int
        else
          labels ← st_lift (mset (Labels (Node_Meta node)) constant.LabelNodeProxyExternalIPPreffered "");
          node' ← (λ w, UpdateNode w {| Node_Meta := set_Labels (Node_Meta node) labels;
                                        Node_Addresses := Node_Addresses node;
                                        Node_Conditions := Node_Conditions node |}) : ST W Node;
          node_addrs node' rest ({[a]} ∪ ext) int
      else if decide (t = NodeInternalIP) then node_addrs node rest ext ({[a]} ∪ int)
      else node_addrs node rest ext int
  end.

Fixpoint nodes_addrs (nodes : list Node) (ext int : gset string) : ST W (gset string * gset string) :=
  match nodes with
  | [] => mret (M := ST W) (ext, int)
  | node :: rest =>
      r ← node_addrs node (Node_Addresses node) ext int;
      nodes_addrs rest r.1 r.2
  end.

Definition other_kind (k : WorkloadKind) : WorkloadKind :=
  match k with Deployment => DaemonSet | DaemonSet => Deployment end.

(** A [Get] whose [IsNotFound] error is an answer. *)
Definition find_workload (key : WorkloadKind * (string * string)) : ST W (option Workload) := λ w,
  match GetWorkload w key with
  | Ok x => (w, Ok (Some x))
  | Err e => (w, if IsNotFound e then Ok None else Err e)
  | Panic => (w, Panic)
  end.

(** [sort.Strings] *)
Definition sort_Strings (l : list string) : list string := sort_Slice str_ltb l.

Definition set_ip_annotation (svc : Service) (key : string) (ips : list string) : Result Service :=
  annotations ← match ips with
                | [] => Ok (mdel (Annotations (Svc_Meta svc)) key)
                | _ => mset (Annotations (Svc_Meta svc)) key (Join (sort_Strings ips) constant.IPSeparator)
                end;
  Ok {| Svc_Meta := set_Annotations (Svc_Meta svc) annotations; Svc_Spec := Svc_Spec svc;
        Svc_Ingress := Svc_Ingress svc |}.

(** The pods of the proxy; an [IsNotFound] error leaves the list empty and is
    what the caller then returns. *)
Definition proxy_pods (svc : Service) : ST W (list string * option error) := λ w,
  match ListRunningPods w (EnvNamespace env)
          ("name", proxyRescName (Name (Svc_Meta svc)) (Namespace (Svc_Meta svc))) with
  | Ok pods => (w, Ok (pods, None))
  | Err e => (w, if IsNotFound e then Ok ([], Some e) else Err e)
  | Panic => (w, Panic)
  end.

Definition svc_with_finalizers (svc : Service) (m : ObjectMeta) : Service :=
  {| Svc_Meta := m; Svc_Spec := Svc_Spec svc; Svc_Ingress := Svc_Ingress svc |}.

(** [*r.newProxyResc(svc)] passed to the client: a nil object is a panic. *)
Definition built (svc : Service) : ST W Workload := λ w,
  (w, match newProxyResc w svc with Some x => Ok x | None => Panic end).

(** The second half of [reconcileNPNormal]: update the workload and the
    service's address annotations, or create the workload. *)
Definition ensure_proxy (kind : WorkloadKind) (svc : Service) (addrs : gset string * gset string)
    : ST W () :=
  let key := (EnvNamespace env, proxyRescName (Name (Svc_Meta svc)) (Namespace (Svc_Meta svc))) in
  existing ← find_workload (kind, key);
  match existing with
  | Some _ =>
      resc ← built svc;
      _ ← (λ w, UpdateWorkload w resc) : ST W Workload;
      found ← proxy_pods svc;
      match found with
      | ([], None) => mret (M := ST W) ()
      | ([], Some e) => st_lift (Err e)
      | (pods, _) =>
          let podInExternalIPNode := filter (λ ip, ip ∈ addrs.1) pods in
          let podInInternalIPNode := filter (λ ip, ip ∈ addrs.2) pods in
          svc ← st_lift (set_ip_annotation svc constant.NodeProxyExternalIPAnnotationKey podInExternalIPNode);
          svc ← st_lift (set_ip_annotation svc constant.NodeProxyInternalIPAnnotationKey podInInternalIPNode);
          _ ← (λ w, UpdateService w svc) : ST W Service;
          mret (M := ST W) ()
      end
  | None =>
      resc ← built svc;
      _ ← (λ w, CreateWorkload w resc) : ST W Workload;
      mret (M := ST W) ()
  end.

Definition reconcileNPNormal (svc : Service) : ST W () :=
  svc ← (if ContainsString (Finalizers (Svc_Meta svc)) constant.NodeProxyFinalizerName
         then mret (M := ST W) svc
         else λ w, UpdateService w (svc_with_finalizers svc
                     (AddFinalizer (Svc_Meta svc) constant.NodeProxyFinalizerName))) : ST W Service;
  nodes ← st_read ListNodes : ST W (list Node);
  addrs ← nodes_addrs nodes ∅ ∅;
  let key := (EnvNamespace env, proxyRescName (Name (Svc_Meta svc)) (Namespace (Svc_Meta svc))) in
  match proxy_kind svc with
  | None => mret (M := ST W) ()
  | Some kind =>
      other ← find_workload (other_kind kind, key);
      _ ← match other with
          | Some x => (λ w, DeleteWorkload w x) : ST W ()
          | None => mret (M := ST W) ()
          end;
      ensure_proxy kind svc addrs
  end.

Definition reconcileNPDelete (svc : Service) : ST W () :=
  if ContainsString (Finalizers (Svc_Meta svc)) constant.NodeProxyFinalizerName then
    let key := (EnvNamespace env, proxyRescName (Name (Svc_Meta svc)) (Namespace (Svc_Meta svc))) in
    match proxy_kind svc with
    | None => mret (M := ST W) ()
    | Some kind =>
        found ← find_workload (kind, key);
        match found with
        | None => mret (M := ST W) ()
        | Some x =>
            _ ← (λ w, DeleteWorkload w x) : ST W ();
            _ ← (λ w, UpdateService w (svc_with_finalizers svc
                   (RemoveFinalizer (Svc_Meta svc) constant.NodeProxyFinalizerName))) : ST W Service;
            mret (M := ST W) ()
        end
    end
  else mret (M := ST W) ().

Definition reconcileNP (svc : Service) : ST W () :=
  if IsZero (DeletionTimestamp (Svc_Meta svc)) then reconcileNPNormal svc else reconcileNPDelete svc.
End nodeproxy.

(** ** What the calls promise about the stored workloads *)
Abbreviation Workloads := (gmap (WorkloadKind * (string * string)) Workload).

Class ProxyClientOk (W : Type) `{K : KubeClient W} `{P : ProxyClient W} (wls : W → Workloads) : Prop := {
  GetWorkload_law w k : read_law (GetWorkload w k) (wls w !! k);
  wls_keys w k x : wls w !! k = Some x → Wl_Key x = k;
  CreateWorkload_law w x w' x' : CreateWorkload w x = (w', Ok x') → wls w' = <[Wl_Key x := x]> (wls w);
  UpdateWorkload_law w x w' x' : UpdateWorkload w x = (w', Ok x') → wls w' = <[Wl_Key x := x]> (wls w);
  DeleteWorkload_law w x w' : DeleteWorkload w x = (w', Ok ()) → wls w' = delete (Wl_Key x) (wls w);
  UpdateNode_wls w n w' r : UpdateNode w n = (w', r) → wls w' = wls w;
  UpdateService_wls w s w' r : UpdateService w s = (w', r) → wls w' = wls w;
}.

Lemma substring_app (p s t : string) :
  String.substring (String.length p) (String.length s) (p +:+ s +:+ t) = s.
Proof.
  induction p as [|c p IH]; [|exact IH]. cbn [String.append String.length].
  induction s as [|c s IHs]; [by destruct t|]. cbn in *. by rewrite IHs.
Qed.

Lemma length_str_app s t : String.length (s +:+ t) = (String.length s + String.length t)%nat.
Proof. induction s; cbn; [done|]. by f_equal. Qed.

(** The name of a service is recovered from the name of the workload made
    for it. *)
Theorem svcName_proxyRescName (name ns : string) :
  svcName (proxyRescName name ns) ns = Ok name.
Proof.
  unfold svcName, slice, proxyRescName. rewrite !length_str_app.
  set (p := String.length constant.NodeProxyWorkloadPrefix).
  set (q := String.length constant.NameSeparator). set (l := String.length name).
  replace ((0 <=? Z.of_nat p) && (Z.of_nat p <=? _) && (_ <=? _)) with true; [|symmetry].
  - f_equal. rewrite Nat2Z.id.
    replace (Z.to_nat _) with l by lia. apply substring_app.
  - rewrite !andb_true_iff, !Z.leb_le. lia.
Qed.

Section lemmas.
Context {GS : GoSort} {W : Type} {K : KubeClient W} {P : ProxyClient W} (env : string).
Context (wls : W → Workloads) {PO : ProxyClientOk W wls}.

Lemma node_addrs_wls addrs : ∀ node ext int w w' r,
  node_addrs node addrs ext int w = (w', Ok r) → wls w' = wls w.
Proof.
  induction addrs as [|[t a] addrs IH]; intros node ext int w w' r; cbn [node_addrs].
  { by intros [= <- _]. }
  case_decide; [|case_decide; apply IH]. destruct (mhas _ _); [apply IH|].
  intros (w1 & labels & H1 & (w2 & node' & H2 & H3)%ST_bind_Ok)%ST_bind_Ok.
  unfold st_lift in H1. injection H1 as -> _.
  apply UpdateNode_wls in H2. apply IH in H3. congruence.
Qed.

Lemma nodes_addrs_wls nodes : ∀ ext int w w' r,
  nodes_addrs nodes ext int w = (w', Ok r) → wls w' = wls w.
Proof.
  induction nodes as [|node nodes IH]; intros ext int w w' r; cbn [nodes_addrs]; [by intros [= <- _]|].
  intros (w1 & r1 & H1 & H2)%ST_bind_Ok. apply node_addrs_wls in H1. apply IH in H2. congruence.
Qed.

Lemma find_workload_ok k w w' r : find_workload k w = (w', Ok r) → w' = w ∧ wls w !! k = r.
Proof.
  unfold find_workload. pose proof (GetWorkload_law w k) as Hl.
  destruct (GetWorkload w k) as [x|e|]; cbn in Hl; [by intros [= <- <-]| |done].
  destruct (IsNotFound e); [|done]. intros [= <- <-]. by rewrite Hl.
Qed.

Lemma newProxyResc_kind w svc kind : proxy_kind svc = Some kind →
  ∃ x, newProxyResc env w svc = Some x ∧ Wl_Template x = newProxyPoTepl env w svc ∧
    Wl_Key x = (kind, (EnvNamespace env, proxyRescName (Name (Svc_Meta svc)) (Namespace (Svc_Meta svc)))).
Proof. unfold newProxyResc. intros ->. destruct kind; eexists; eauto. Qed.

(** Between the two lookups and the end of the reconciliation. *)
Lemma ensure_proxy_ok kind svc addrs w w' : proxy_kind svc = Some kind →
  let key := (EnvNamespace env, proxyRescName (Name (Svc_Meta svc)) (Namespace (Svc_Meta svc))) in
  ensure_proxy env kind svc addrs w = (w', Ok ()) →
  ∃ x, Wl_Template x = newProxyPoTepl env w svc ∧ Wl_Key x = (kind, key) ∧
    wls w' = <[(kind, key) := x]> (wls w).
Proof.
  intros Hkind key H. unfold ensure_proxy in H. fold key in H. apply ST_bind_Ok in H as (w1 & ex & Hf & H).
  apply find_workload_ok in Hf as [-> Hex].
  destruct (newProxyResc_kind w svc kind Hkind) as (x & Hx & Htpl & Hkey).
  fold key in Hkey. exists x. split; [done|]. split; [done|].
  destruct ex as [old|]; apply ST_bind_Ok in H as (w2 & resc & Hb & H);
    unfold built in Hb; rewrite Hx in Hb; injection Hb as <- <-;
    apply ST_bind_Ok in H as (w3 & y & Hw & H).
  - apply UpdateWorkload_law in Hw. rewrite Hkey in Hw. rewrite <- Hw.
    apply ST_bind_Ok in H as (w4 & [pods err] & Hp & H).
    assert (w4 = w3) as -> by (unfold proxy_pods in Hp; repeat case_match; by simplify_eq).
    destruct pods as [|p pods]; [destruct err; [done|by injection H as <-]|].
    apply ST_bind_Ok in H as (w5 & s1 & H5 & H). unfold st_lift in H5. injection H5 as -> _.
    apply ST_bind_Ok in H as (w6 & s2 & H6 & H). unfold st_lift in H6. injection H6 as -> _.
    apply ST_bind_Ok in H as (w7 & s3 & H7 & H). apply UpdateService_wls in H7.
    injection H as <-. done.
  - apply CreateWorkload_law in Hw. injection H as <-. by rewrite Hkey in Hw.
Qed.
End lemmas.

(** ** Properties *)

(** C22: when the reconciliation of a node-proxy service succeeds, the workload
    of the kind its annotation names exists, publishes exactly the service's
    ports and forwards them to its cluster address, and there is no workload
    of the other kind; no workload of another service has changed. *)
Theorem reconcileNPNormal_exports `{GS : GoSort} {W : Type} `{K : KubeClient W} `{P : ProxyClient W}
    (view : W → Server) `{KO : !KubeClientOk W view} (wls : W → Workloads) `{PO : !ProxyClientOk W wls}
    (env : string) (svc : Service) (kind : WorkloadKind) (w w' : W)
    (Hkind : proxy_kind svc = Some kind)
    (Hr : reconcileNPNormal env svc w = (w', Ok ())) :
  let key := (EnvNamespace env, proxyRescName (Name (Svc_Meta svc)) (Namespace (Svc_Meta svc))) in
  (∃ x c, wls w' !! (kind, key) = Some x ∧ Tpl_Containers (Wl_Template x) = [c] ∧
     Ctn_Ports c = newProxyCtnPorts (Spec_Ports (Svc_Spec svc)) ∧
     Ctn_Env c = newProxyCtnEnvArgs (Spec_Ports (Svc_Spec svc)) (Spec_ClusterIP (Svc_Spec svc))) ∧
  wls w' !! (other_kind kind, key) = None ∧
  (∀ k, k.2 ≠ key → wls w' !! k = wls w !! k).
Proof.
  intros key. unfold reconcileNPNormal in Hr. apply ST_bind_Ok in Hr as (w1 & s1 & H1 & Hr).
  assert (wls w1 = wls w ∧ Svc_Spec s1 = Svc_Spec svc ∧ Name (Svc_Meta s1) = Name (Svc_Meta svc) ∧
    Namespace (Svc_Meta s1) = Namespace (Svc_Meta svc) ∧
    Annotations (Svc_Meta s1) = Annotations (Svc_Meta svc)) as (Hw1 & Hsp & HN & HNs & Han).
  { destruct (ContainsString _ _); [by injection H1 as <- <-|]. split; [by eapply UpdateService_wls|].
    apply UpdateService_law in H1. unfold srv_update_svc in H1.
    destruct (srv_svcs _ !! _); [|done]. cbn in H1. injection H1 as _ <-. cbn.
    unfold AddFinalizer. by destruct (ContainsString _ _). }
  apply ST_bind_Ok in Hr as (w2 & nodes & H2 & Hr). injection H2 as <- _.
  apply ST_bind_Ok in Hr as (w3 & addrs & H3 & Hr). apply (nodes_addrs_wls wls) in H3.
  assert (proxy_kind s1 = Some kind) as Hk1 by (unfold proxy_kind in *; by rewrite Han).
  rewrite Hk1 in Hr. cbv zeta in Hr. rewrite HN, HNs in Hr. fold key in Hr.
  apply ST_bind_Ok in Hr as (w4 & other & H4 & Hr). apply (find_workload_ok wls) in H4 as [-> Ho].
  apply ST_bind_Ok in Hr as (w5 & [] & H5 & Hr).
  assert (wls w5 = delete (other_kind kind, key) (wls w3)) as H5'.
  { destruct other as [x|].
    - apply DeleteWorkload_law in H5. by rewrite (wls_keys w3 _ x Ho) in H5.
    - injection H5 as <-. by rewrite delete_id. }
  apply (ensure_proxy_ok env wls) in Hr as (x & Htpl & _ & Hw'); [|done].
  rewrite HN, HNs in Hw'. fold key in Hw'. rewrite Hw', H5', H3, Hw1. split; [|split].
  - exists x, (newProxyCtn env w5 s1). rewrite lookup_insert_eq, Htpl. cbn. by rewrite Hsp.
  - rewrite lookup_insert_ne by (by destruct kind). apply lookup_delete_eq.
  - intros [k k2] Hne. cbn in Hne. rewrite lookup_insert_ne, lookup_delete_ne by congruence. done.
Qed.

(** When the proxy workload of a deleted node-proxy service is already
    gone, the reconciliation reports success without touching anything: the
    service keeps its finalizer and is never removed. *)
Theorem reconcileNPDelete_stuck {W : Type} `{K : KubeClient W} `{P : ProxyClient W} (env : string)
    (svc : Service) (kind : WorkloadKind) (w : W) (e : error)
    (Hkind : proxy_kind svc = Some kind)
    (Hgone : GetWorkload w (kind, (EnvNamespace env,
       proxyRescName (Name (Svc_Meta svc)) (Namespace (Svc_Meta svc)))) = Err e)
    (Hnf : IsNotFound e = true) (Hdel : IsZero (DeletionTimestamp (Svc_Meta svc)) = false)
    `{GS : GoSort} :
  reconcileNP env svc w = (w, Ok ()).
Proof.
  unfold reconcileNP. rewrite Hdel. unfold reconcileNPDelete.
  destruct (ContainsString _ _); [|done]. rewrite Hkind. unfold mbind, ST_bind, find_workload.
  by rewrite Hgone, Hnf.
Qed.

(** ** A concrete world *)
Record ProxyWorld := {
  pw_server : Server;
  pw_nodes : list Node;
  pw_workloads : Workloads;
  pw_pods : list string;
}.
Definition pw_with_server (w : ProxyWorld) (v : Server) : ProxyWorld :=
  {| pw_server := v; pw_nodes := pw_nodes w; pw_workloads := pw_workloads w; pw_pods := pw_pods w |}.
Definition pw_with_workloads (w : ProxyWorld) (m : Workloads) : ProxyWorld :=
  {| pw_server := pw_server w; pw_nodes := pw_nodes w; pw_workloads := m; pw_pods := pw_pods w |}.

Definition pw_write {A} (f : Server → A → option (Server * A)) (w : ProxyWorld) (a : A)
    : ProxyWorld * Result A :=
  match f (pw_server w) a with
  | Some (v, a') => (pw_with_server w v, Ok a')
  | None => (w, Err (ErrNotFound "not found"))
  end.

#[export] Instance pw_client : KubeClient ProxyWorld := {|
  GetEip w := GetEip (pw_server w);
  ListEips w := ListEips (pw_server w);
  UpdateEip := pw_write srv_update_eip;
  StatusUpdateEip := pw_write srv_status_eip;
  GetNamespaceLabels w := GetNamespaceLabels (pw_server w);
  GetService w := GetService (pw_server w);
  ListServices w := ListServices (pw_server w);
  UpdateService := pw_write srv_update_svc;
  StatusUpdateService := pw_write srv_status_svc;
|}.

#[export] Instance pw_proxy : ProxyClient ProxyWorld := {|
  ListNodes w := Ok (pw_nodes w);
  UpdateNode w n := (w, Ok n);
  GetWorkload w k := match pw_workloads w !! k with
    | Some x => if decide (Wl_Key x = k) then Ok x else Err (ErrNotFound "not found")
    | None => Err (ErrNotFound "not found") end;
  CreateWorkload w x := (pw_with_workloads w (<[Wl_Key x := x]> (pw_workloads w)), Ok x);
  UpdateWorkload w x := (pw_with_workloads w (<[Wl_Key x := x]> (pw_workloads w)), Ok x);
  DeleteWorkload w x := (pw_with_workloads w (delete (Wl_Key x) (pw_workloads w)), Ok ());
  ListRunningPods w ns l := Ok (pw_pods w);
  GetConfigMap w k := Err (ErrNotFound "not found");
|}.

Lemma pw_write_law {A} (f : Server → A → option (Server * A)) : write_law pw_server f (pw_write f).
Proof.
  intros w a w' r. unfold pw_write. destruct (f (pw_server w) a) as [[v a']|] eqn:E;
    intros [= <- <-]; [done|by left].
Qed.

#[export] Instance pw_client_ok : KubeClientOk ProxyWorld pw_server.
Proof.
  constructor; intros; try apply pw_write_law; try apply store_get_law; cbn; unfold listing; reflexivity.
Qed.

(** The workloads stored under their own key. *)
Definition pw_wls (w : ProxyWorld) : Workloads := filter (λ kx, Wl_Key kx.2 = kx.1) (pw_workloads w).

#[export] Instance pw_proxy_ok : ProxyClientOk ProxyWorld pw_wls.
Proof.
  constructor.
  - intros w k. cbn. unfold pw_wls, read_law. destruct (pw_workloads w !! k) as [x|] eqn:E.
    + case_decide as H; [by rewrite map_lookup_filter_Some|]. intros _.
      apply map_lookup_filter_None. right. intros y Hy. simplify_eq. done.
    + intros _. apply map_lookup_filter_None. by left.
  - intros w k x Hx. by apply map_lookup_filter_Some in Hx as [_ ?].
  - intros w x w' x' [= <- _]. unfold pw_wls. cbn. by rewrite map_filter_insert_True.
  - intros w x w' x' [= <- _]. unfold pw_wls. cbn. by rewrite map_filter_insert_True.
  - intros w x w' [= <-]. unfold pw_wls. cbn. by rewrite map_filter_delete.
  - by intros w n w' r [= <- _].
  - intros w s w' r. cbn. unfold pw_write. destruct (srv_update_svc _ _) as [[v a']|]; by intros [= <- _].
Qed.

Definition np_service (deleted : option Z) : Service :=
  {| Svc_Meta := {| Name := "nginx"; Namespace := "default"; Labels := None;
       Annotations := Some {[constant.NodeProxyTypeAnnotationKey := "daemonset"]};
       Finalizers := [constant.NodeProxyFinalizerName]; DeletionTimestamp := deleted |};
     Svc_Spec := {| Spec_Type := LoadBalancerType; Spec_LoadBalancerIP := ""; Spec_IPFamilies := [];
       Spec_ExternalTrafficPolicy := PolicyCluster; Spec_ClusterIP := "10.96.0.7";
       Spec_Ports := [{| Port_Name := "http"; Port_Port := 80; Port_Protocol := "TCP" |}] |};
     Svc_Ingress := None |}.
Definition np_world : ProxyWorld :=
  {| pw_server := {| srv_eips := ∅; srv_svcs := {[("default", "nginx") := np_service None]}; srv_nss := ∅ |};
     pw_nodes := []; pw_workloads := ∅; pw_pods := [] |}.

Lemma reconcileNPNormal_exports_witness :
  ∃ x c, pw_wls (@reconcileNPNormal insertion_sort _ _ _ "" (np_service None) np_world).1
      !! (DaemonSet, ("openelb-system", "node-proxy-nginx-default")) = Some x ∧
    Tpl_Containers (Wl_Template x) = [c] ∧ Ctn_Env c = [("PROXY_ARGS", "10.96.0.7 80 80 tcp ")].
Proof.
  destruct (@reconcileNPNormal insertion_sort _ _ _ "" (np_service None) np_world) as [w' r] eqn:E.
  assert (r = Ok ()) as -> by (vm_compute in E; congruence).
  destruct (@reconcileNPNormal_exports insertion_sort ProxyWorld _ _ pw_server _ pw_wls _
    "" (np_service None) DaemonSet np_world w' ltac:(by vm_compute) E) as [(x & c & Hx & Hc & _ & He) _].
  exists x, c. split; [exact Hx|]. split; [exact Hc|]. rewrite He. by vm_compute.
Defined.

Lemma reconcileNPDelete_stuck_witness :
  @reconcileNP insertion_sort _ _ _ "" (np_service (Some 1)) np_world = (np_world, Ok ()).
Proof.
  apply (@reconcileNPDelete_stuck ProxyWorld _ _ "" (np_service (Some 1)) DaemonSet np_world
    (ErrNotFound "not found")); by vm_compute.
Defined.
