(* ===== verification/LbController.v ===== *)
(** * [pkg/controllers/lb]: the reconciler of services

    [controller.go]: [Reconcile] releases and assigns the address of a
    load-balancer service through the address manager ([Ipam]) and writes the
    outcome back to the service (pool label, finalizer, status);
    [updateReconcileResult] is the write.  Node-proxy services go to
    [NodeProxy].  [eventhandler.go] and the predicates of [SetupWithManager]
    decide which events enqueue which services.  Events and logs are not
    modelled. *)
From S2P Require Import Prelude GoNet Cnet Iprange K8s EipTypes Kube Ipam IpamController NodeProxy.
Local Open Scope Z_scope.

(** ** Which services, and which events *)
Definition IsOpenELBService (svc : Service) : bool :=
  if mhas (Labels (Svc_Meta svc)) constant.OpenELBEIPAnnotationKeyV1Alpha2 then true
  else HasOpenELBAnnotation (Annotations (Svc_Meta svc)) && IsTypeLoadBalancer svc.

(** Eip updates: only the one that initialises the status. *)
Definition eip_update_event (oldEip newEip : Eip) : bool :=
  bool_decide (Eip_Status oldEip = Eip_Status zero_Eip)
  && negb (bool_decide (Eip_Status newEip = Eip_Status zero_Eip)).

(** [nodeInternalAndExternalIP]: the last address of each type. *)
Fixpoint internal_external (addrs : list (NodeAddressType * string)) (ext int : string) : string * string :=
  match addrs with
  | [] => (ext, int)
  | (t, a) :: rest =>
      internal_external rest (if decide (t = NodeExternalIP) then a else ext)
                             (if decide (t = NodeInternalIP) then a else int)
  end.
Definition nodeInternalAndExternalIP (node : Node) : string * string :=
  internal_external (Node_Addresses node) "" "".

Definition nodeAddrChange (oldObj newObj : Node) : bool :=
  let '(oldExternalIP, oldInternalIP) := nodeInternalAndExternalIP oldObj in
  let '(newExternalIP, newInternalIP) := nodeInternalAndExternalIP newObj in
  negb (bool_decide (oldExternalIP = newExternalIP)) || negb (bool_decide (oldInternalIP = newInternalIP)).

Definition node_update_event (oldNode newNode : Node) : bool :=
  if negb (Bool.eqb (NodeReady oldNode) (NodeReady newNode)) then true
  else if nodeAddrChange oldNode newNode then true
  else false.

Section lb.
Context {R : GoRange} {GS : GoSort} {L : CidrLib} {LL : LabelLib}.
Context {W : Type} {K : KubeClient W} {P : ProxyClient W} (env : string).

(** The two [getServices]: what a node or an Eip event enqueues, and what a
    workload event does; a list error enqueues nothing. *)
Definition node_getServices (w : W) : list Service :=
  match ListServices w None with Ok svcs => List.filter IsOpenELBService svcs | _ => [] end.
Definition deds_getServices (w : W) : list Service :=
  match ListServices w None with Ok svcs => List.filter IsOpenELBNPService svcs | _ => [] end.

(** Both handlers add one request per service to the queue. *)
Definition enqueue (svcs : list Service) (q : list (string * string)) : list (string * string) :=
  foldl (λ q svc, q ++ [Svc_Key svc]) q svcs.
Definition node_event (w : W) (q : list (string * string)) : list (string * string) :=
  enqueue (node_getServices w) q.
Definition deds_event (w : W) (q : list (string * string)) : list (string * string) :=
  enqueue (deds_getServices w) q.

(** Workload updates: either version may concern a node-proxy service. *)
Definition deds_update_event (w : W) (oldObj newObj : ObjectMeta) : Result bool :=
  match shouldReconcileDeDs env w newObj with
  | Ok false => shouldReconcileDeDs env w oldObj
  | r => r
  end.

(** ** Writing the outcome back *)
Definition set_Ingress (svc : Service) (ingress : option (list Ingress)) : Service :=
  {| Svc_Meta := Svc_Meta svc; Svc_Spec := Svc_Spec svc; Svc_Ingress := ingress |}.

Definition updateReconcileResult (svc resultSvc : Service) : ST W () :=
  clone ← (if decide (Labels (Svc_Meta svc) = Labels (Svc_Meta resultSvc))
           then mret (M := ST W) resultSvc
           else λ w, UpdateService w resultSvc) : ST W Service;
  if decide (Svc_Ingress svc = Svc_Ingress resultSvc) then mret (M := ST W) ()
  else
    _ ← (λ w, StatusUpdateService w (set_Ingress clone (Svc_Ingress resultSvc))) : ST W Service;
    mret (M := ST W) ().

(** ** [Reconcile] *)

(** The service after its address is released, and after one is assigned. *)
Definition released_svc (clone : Service) : Service :=
  let m := RemoveFinalizer (Svc_Meta clone) constant.FinalizerName in
  set_SvcMeta clone (set_Labels m (mdel (Labels m) constant.OpenELBEIPAnnotationKeyV1Alpha2)).

Definition assigned_svc (clone : Service) (eip : string) : Service :=
  let m := AddFinalizer (Svc_Meta clone) constant.FinalizerName in
  set_SvcMeta clone (set_Labels m
    (Some (<[constant.OpenELBEIPAnnotationKeyV1Alpha2 := eip]> (default ∅ (Labels m))))).

Definition reconcile_request (svc : Service) (request : Request) : ST W () :=
  match Req_Release request, Req_Allocate request with
  | None, None => mret (M := ST W) ()
  | release, allocate =>
      rel ← match release with
            | None => mret (M := ST W) (svc, Svc_Ingress svc)
            | Some r =>
                _ ← (λ w, ReleaseIP w (Some r)) : ST W ();
                mret (M := ST W) (released_svc svc, Some [])
            end;
      let '(clone, statusIPs) := rel in
      match allocate with
      | None => updateReconcileResult svc (set_Ingress clone statusIPs)
      | Some a =>
          got ← st_try (λ w, AssignIP w (Spec_IPFamilies (Svc_Spec svc)) (Some a));
          match got with
          | Ok (Some a') =>
              updateReconcileResult svc
                (set_Ingress (assigned_svc clone (Rec_Eip a'))
                   (Some [{| Ingress_IP := Rec_IP a'; Ingress_Hostname := "" |}]))
          | Ok None => st_lift Panic
          | Err e =>
              _ ← st_try (updateReconcileResult svc (set_Ingress clone statusIPs));
              st_lift (Err e)
          | Panic => st_lift Panic
          end
      end
  end.

Definition Reconcile (key : string * string) : ST W () := λ w,
  match GetService w key with
  | Err e => (w, if IsNotFound e then Ok () else Err e)
  | Panic => (w, Panic)
  | Ok svc =>
      if HasOpenELBNPAnnotation (Annotations (Svc_Meta svc)) then reconcileNP env svc w
      else match ConstructRequest w (Some svc) with
           | Err e => (w, Err e)
           | Panic => (w, Panic)
           | Ok request => reconcile_request svc request w
           end
  end.
End lb.

(** ** Lemmas *)

(** Every pool of the server has exact records. *)
Definition pools_ok (v : Server) : Prop :=
  ∀ n e, srv_eips v !! n = Some e → no_dups (Eip_Status e) ∧ ∃ first m, eip_ok first m e.

Section lemmas.
Context {R : GoRange} {GS : GoSort} {L : CidrLib} {LL : LabelLib}.
Context {W : Type} {K : KubeClient W} (view : W → Server) {KO : KubeClientOk W view}.

(** What the write-back leaves on the server. *)
Lemma updateReconcileResult_ok s r w w' : srv_svcs (view w) !! Svc_Key s = Some s →
  Svc_Key r = Svc_Key s → updateReconcileResult s r w = (w', Ok ()) →
  srv_eips (view w') = srv_eips (view w) ∧
  (∀ k, k ≠ Svc_Key s → srv_svcs (view w') !! k = srv_svcs (view w) !! k) ∧
  (∀ s', srv_svcs (view w') !! Svc_Key s = Some s' → Svc_Ingress s' = Svc_Ingress r ∧
     (Svc_Meta s' = if decide (Labels (Svc_Meta s) = Labels (Svc_Meta r)) then Svc_Meta s
                    else set_DeletionTimestamp (Svc_Meta r) (DeletionTimestamp (Svc_Meta s))) ∧
     (Svc_Spec r = Svc_Spec s → Svc_Spec s' = Svc_Spec s)) ∧
  (Labels (Svc_Meta s) = Labels (Svc_Meta r) ∨ IsZero (DeletionTimestamp (Svc_Meta s)) = true →
   is_Some (srv_svcs (view w') !! Svc_Key s)).
Proof.
  intros Hs Hkey. unfold updateReconcileResult.
  intros (w1 & clone & H1 & H2)%ST_bind_Ok.
  set (m1 := if decide (Labels (Svc_Meta s) = Labels (Svc_Meta r)) then Svc_Meta s
             else set_DeletionTimestamp (Svc_Meta r) (DeletionTimestamp (Svc_Meta s))).
  assert (srv_eips (view w1) = srv_eips (view w) ∧
    (∀ k, k ≠ Svc_Key s → srv_svcs (view w1) !! k = srv_svcs (view w) !! k) ∧
    (∀ x, srv_svcs (view w1) !! Svc_Key s = Some x → Svc_Ingress x = Svc_Ingress s ∧ Svc_Meta x = m1 ∧
       (Svc_Spec r = Svc_Spec s → Svc_Spec x = Svc_Spec s)) ∧
    (Labels (Svc_Meta s) = Labels (Svc_Meta r) ∨ IsZero (DeletionTimestamp (Svc_Meta s)) = true →
     is_Some (srv_svcs (view w1) !! Svc_Key s)) ∧ Svc_Key clone = Svc_Key s) as (He & Ho & Hx & Hz & Hc).
  { unfold m1. destruct (decide (Labels (Svc_Meta s) = Labels (Svc_Meta r))) as [Hl|Hl].
    - injection H1 as <- <-. split_and!; try done; intros; simplify_eq; eauto.
    - apply UpdateService_law in H1. unfold srv_update_svc in H1. rewrite Hkey, Hs in H1.
      cbn [mbind option_bind] in H1. injection H1 as Hv <-. rewrite <- Hv. cbn [srv_eips srv_svcs with_svcs].
      split; [done|]. split; [|split; [|split]].
      + intros k Hk. destruct (is_gone _); by rewrite ?lookup_delete_ne, ?lookup_insert_ne by done.
      + intros x. destruct (is_gone _); rewrite ?lookup_delete_eq, ?lookup_insert_eq; [done|].
        by intros [= <-].
      + intros [?|Hzero]; [done|]. unfold is_gone. cbn. rewrite Hzero. cbn. rewrite lookup_insert_eq. eauto.
      + done. }
  destruct (decide (Svc_Ingress s = Svc_Ingress r)) as [Hi|Hi].
  - injection H2 as <-. rewrite <- Hi. done.
  - apply ST_bind_Ok in H2 as (w2 & x & H2 & H3). injection H3 as <-.
    apply StatusUpdateService_law in H2. unfold srv_status_svc in H2.
    change (Svc_Key (set_Ingress clone (Svc_Ingress r))) with (Svc_Key clone) in H2. rewrite Hc in H2.
    destruct (srv_svcs (view w1) !! Svc_Key s) as [old|] eqn:Eold; [|done].
    cbn [mbind option_bind] in H2. injection H2 as Hv <-. rewrite <- Hv. cbn [srv_eips srv_svcs with_svcs].
    split; [done|]. split; [|split].
    + intros k Hk. rewrite lookup_insert_ne by done. by apply Ho.
    + intros y. rewrite lookup_insert_eq. intros [= <-]. cbn. destruct (Hx old eq_refl) as (_ & -> & ?). done.
    + rewrite lookup_insert_eq. eauto.
Qed.

Lemma ReleaseIP_world r w w' : server_ok (view w) → pools_ok (view w) →
  ReleaseIP w (Some r) = (w', Ok ()) →
  server_ok (view w') ∧ pools_ok (view w') ∧ srv_svcs (view w') = srv_svcs (view w) ∧
  (∀ e, srv_eips (view w') !! Rec_Eip r = Some e →
     IsZero (DeletionTimestamp (Eip_Meta e)) = true → ∀ x, Key r ∉ holders (Eip_Status e) x).
Proof.
  intros Hsrv Hpools Hr. pose proof (ReleaseIP_ok view w w' r Hsrv (Hpools _) Hr) as H.
  destruct (srv_eips (view w) !! Rec_Eip r) as [e|] eqn:E.
  - destruct (IsZero (DeletionTimestamp (Eip_Meta e))) eqn:Ez.
    + destruct H as (e' & Hv & Hm & Hs & Hnd & Hok & Hh). rewrite Hv.
      split_and!; cbn [srv_eips srv_svcs with_eips].
      * split; [|apply Hsrv]. cbn [srv_eips with_eips].
        intros n x [[<- <-]|[_ Hx]]%lookup_insert_Some; [|by apply Hsrv].
        unfold Eip_Name. rewrite Hm. by apply Hsrv.
      * intros n x. cbn [srv_eips with_eips].
        intros [[<- <-]|[_ Hx]]%lookup_insert_Some; [done|by apply (Hpools n)].
      * done.
      * rewrite lookup_insert_eq. intros x [= <-] _ y. rewrite Hh, elem_of_RemoveString. tauto.
    + rewrite H. split_and!; try done. rewrite E. intros x [= <-]. by rewrite Ez.
  - rewrite H. split_and!; try done. by rewrite E.
Qed.

(** A request that allocates is for a live load-balancer service. *)
Lemma ConstructRequest_allocate w s req a : ConstructRequest w (Some s) = Ok req →
  Req_Allocate req = Some a →
  Key a = svc_key s ∧ IsZero (DeletionTimestamp (Svc_Meta s)) = true.
Proof.
  unfold ConstructRequest. destruct (Annotations (Svc_Meta s)) as [annotations|] eqn:Ea; [|by intros; simplify_eq].
  intros ([aEip aIP] & _ & H)%Result_bind_Ok Ha.
  destruct (needRelease (Some s)) eqn:En; [by simplify_eq|].
  assert (IsZero (DeletionTimestamp (Svc_Meta s)) = true) as Hz.
  { unfold needRelease in En. rewrite Ea in En. by destruct (IsZero _). }
  destruct (if str_empty _ then _ else _) as [[en|]|?|]; [|by simplify_eq|done..].
  destruct (_ && _); simplify_eq. cbn in Ha. by simplify_eq.
Qed.
End lemmas.

Lemma Reconcile_request `{R : GoRange} `{GS : GoSort} `{L : CidrLib} `{LL : LabelLib} {W : Type}
    `{K : KubeClient W} `{P : ProxyClient W} (view : W → Server) `{KO : !KubeClientOk W view}
    env key s req w w' :
  srv_svcs (view w) !! key = Some s →
  HasOpenELBNPAnnotation (Annotations (Svc_Meta s)) = false →
  ConstructRequest w (Some s) = Ok req → Reconcile env key w = (w', Ok ()) →
  reconcile_request s req w = (w', Ok ()).
Proof.
  intros Hst Hnp Hreq. unfold Reconcile. pose proof (GetService_law w key) as Hl.
  destruct (GetService w key) as [x|e|]; cbn in Hl; [| |done].
  - rewrite Hst in Hl. injection Hl as <-. by rewrite Hnp, Hreq.
  - destruct (IsNotFound e); [rewrite Hl in Hst by done|]; done.
Qed.

(** The assigning half of a successful request: after a release, if one is
    due, [AssignIP] gives an address, and the object is written back with it. *)
Lemma reconcile_request_assigns `{R : GoRange} `{GS : GoSort} `{L : CidrLib} `{LL : LabelLib} {W : Type}
    `{K : KubeClient W} `{P : ProxyClient W} (view : W → Server) `{KO : !KubeClientOk W view}
    (s : Service) (req : Request) (a : svcRecord) (w w' : W) :
  server_ok (view w) → pools_ok (view w) → Req_Allocate req = Some a →
  reconcile_request s req w = (w', Ok ()) →
  ∃ w1 clone w2 a', Name (Svc_Meta clone) = Name (Svc_Meta s) ∧
    Namespace (Svc_Meta clone) = Namespace (Svc_Meta s) ∧
    server_ok (view w1) ∧ pools_ok (view w1) ∧ srv_svcs (view w1) = srv_svcs (view w) ∧
    AssignIP w1 (Spec_IPFamilies (Svc_Spec s)) (Some a) = (w2, Ok (Some a')) ∧
    updateReconcileResult s (set_Ingress (assigned_svc clone (Rec_Eip a'))
      (Some [{| Ingress_IP := Rec_IP a'; Ingress_Hostname := "" |}])) w2 = (w', Ok ()).
Proof.
  intros Hsrv Hpools Ha HR.
  unfold reconcile_request in HR. rewrite Ha in HR.
  assert (∃ w1 clone ips, Name (Svc_Meta clone) = Name (Svc_Meta s) ∧
    Namespace (Svc_Meta clone) = Namespace (Svc_Meta s) ∧
    server_ok (view w1) ∧ pools_ok (view w1) ∧ srv_svcs (view w1) = srv_svcs (view w) ∧
    (got ← st_try (λ w, AssignIP w (Spec_IPFamilies (Svc_Spec s)) (Some a));
     match got with
     | Ok (Some a') => updateReconcileResult s (set_Ingress (assigned_svc clone (Rec_Eip a'))
         (Some [{| Ingress_IP := Rec_IP a'; Ingress_Hostname := "" |}]))
     | Ok None => st_lift Panic
     | Err e => _ ← st_try (updateReconcileResult s (set_Ingress clone ips)); st_lift (Err e)
     | Panic => st_lift Panic
     end) w1 = (w', Ok ())) as (w1 & clone & ips & Hc & Hc' & Hsrv1 & Hpools1 & Hsvcs1 & H).
  { destruct (Req_Release req) as [r|]; [|by exists w, s, (Svc_Ingress s)].
    apply ST_bind_Ok in HR as (w1 & [clone ips] & Hrel & HR).
    apply ST_bind_Ok in Hrel as (w2 & [] & Hrel & Hret). injection Hret as -> <- <-.
    destruct (ReleaseIP_world view r w w1 Hsrv Hpools Hrel) as (? & ? & ? & _).
    exists w1, (released_svc s), (Some []). done. }
  apply ST_bind_Ok in H as (w2 & got & Htry & H). unfold st_try in Htry.
  destruct (AssignIP w1 _ (Some a)) as [w2' [oa|err|]] eqn:Eas; [|..|done]; injection Htry as -> <-;
    [|apply ST_bind_Ok in H as (? & ? & _ & H); by injection H].
  destruct oa as [a'|]; [|by injection H].
  by exists w1, clone, w2, a'.
Qed.

(** ** Properties *)

(** C6: when the reconciliation of a service that is to get an address
    succeeds, the service's status shows exactly one address, its label names
    the pool, and on the server that pool records the service under that very
    address: status, label and pool agree.  Every other service is as it
    was. *)
Theorem Reconcile_assigns `{R : GoRange} `{GS : GoSort} `{L : CidrLib} `{LL : LabelLib} {W : Type}
    `{K : KubeClient W} `{P : ProxyClient W} (view : W → Server) `{KO : !KubeClientOk W view}
    (env : string) (key : string * string) (s : Service) (req : Request) (a : svcRecord) (w w' : W)
    (Hsrv : server_ok (view w)) (Hpools : pools_ok (view w))
    (Hst : srv_svcs (view w) !! key = Some s)
    (Hnp : HasOpenELBNPAnnotation (Annotations (Svc_Meta s)) = false)
    (Hreq : ConstructRequest w (Some s) = Ok req) (Ha : Req_Allocate req = Some a)
    (Hkey : str_elem ";" (svc_key s) = false)
    (HR : Reconcile env key w = (w', Ok ())) :
  ∃ s' e addr, srv_svcs (view w') !! key = Some s' ∧
    Svc_Ingress s' = Some [{| Ingress_IP := addr; Ingress_Hostname := "" |}] ∧
    mget (Labels (Svc_Meta s')) constant.OpenELBEIPAnnotationKeyV1Alpha2 = Some (Rec_Eip a) ∧
    srv_eips (view w') !! Rec_Eip a = Some e ∧ svc_key s ∈ holders (Eip_Status e) addr ∧
    (∀ k, k ≠ key → srv_svcs (view w') !! k = srv_svcs (view w) !! k).
Proof.
  assert (Svc_Key s = key) as Hk by (by apply Hsrv).
  destruct (ConstructRequest_allocate w s req a Hreq Ha) as [HK Hz].
  apply (Reconcile_request view env key s req) in HR; [|done..].
  apply (reconcile_request_assigns view s req a w w' Hsrv Hpools Ha) in HR
    as (w1 & clone & w2 & a' & Hc & Hc' & Hsrv1 & Hpools1 & Hsvcs1 & Eas & H).
  assert (∃ first n, ∀ e, srv_eips (view w1) !! Rec_Eip a = Some e → eip_ok first n e) as (first & n & Hpool).
  { destruct (srv_eips (view w1) !! Rec_Eip a) as [e|] eqn:E.
    - destruct (Hpools1 _ e E) as [_ (first & n & Hok)]. exists first, n. intros x [= <-]. done.
    - by exists [], 0. }
  destruct (AssignIP_ok view w1 w2 _ a _ first n Hsrv1 Hpool ltac:(by rewrite HK) Eas)
    as (e & e' & r & addr & _ & _ & _ & _ & [= ->] & Hv & _ & Hin & _).
  cbn [Rec_Eip Rec_IP] in H. rewrite HK in Hin.
  assert (srv_svcs (view w2) !! Svc_Key s = Some s) as Hst2 by (rewrite Hv; cbn; congruence).
  set (r' := set_Ingress (assigned_svc clone (Rec_Eip a)) _) in H.
  assert (Svc_Key r' = Svc_Key s) as Hr'.
  { unfold r', Svc_Key. rewrite <- Hc, <- Hc'. unfold set_Ingress, assigned_svc, AddFinalizer.
    by destruct (ContainsString _ _). }
  destruct (updateReconcileResult_ok view s r' w2 w' Hst2 Hr' H) as (He & Ho & Hs' & Hsome).
  destruct (Hsome (or_intror Hz)) as [s' Hx]. destruct (Hs' s' Hx) as (Hing & Hmeta & _).
  exists s', e', addr. rewrite <- Hk. split; [done|]. split; [done|].
  assert (mget (Labels (Svc_Meta r')) constant.OpenELBEIPAnnotationKeyV1Alpha2 = Some (Rec_Eip a)) as Hlab
    by apply lookup_insert_eq.
  split; [rewrite Hmeta; destruct (decide _) as [->|]; exact Hlab|].
  split; [rewrite He, Hv; apply lookup_insert_eq|]. split; [done|].
  intros k Hne. rewrite Ho by done. rewrite Hv. cbn. by rewrite Hsvcs1.
Qed.

(** C21: when a labelled service only has to give its address back (it is being
    deleted or is no longer an OpenELB service) and the reconciliation
    succeeds, then if the service is still there it has neither the finalizer
    nor the label nor an address, and the pool it was released from no longer
    records it. *)
Theorem Reconcile_releases `{R : GoRange} `{GS : GoSort} `{L : CidrLib} `{LL : LabelLib} {W : Type}
    `{K : KubeClient W} `{P : ProxyClient W} (view : W → Server) `{KO : !KubeClientOk W view}
    (env : string) (key : string * string) (s : Service) (r : svcRecord) (w w' : W)
    (Hsrv : server_ok (view w)) (Hpools : pools_ok (view w))
    (Hst : srv_svcs (view w) !! key = Some s)
    (Hnp : HasOpenELBNPAnnotation (Annotations (Svc_Meta s)) = false)
    (Hreq : ConstructRequest w (Some s) = Ok {| Req_Allocate := None; Req_Release := Some r |})
    (Hlab : mhas (Labels (Svc_Meta s)) constant.OpenELBEIPAnnotationKeyV1Alpha2 = true)
    (HR : Reconcile env key w = (w', Ok ())) :
  (∀ s', srv_svcs (view w') !! key = Some s' →
     Svc_Ingress s' = Some [] ∧
     mget (Labels (Svc_Meta s')) constant.OpenELBEIPAnnotationKeyV1Alpha2 = None ∧
     constant.FinalizerName ∉ Finalizers (Svc_Meta s')) ∧
  (∀ e x, srv_eips (view w') !! Rec_Eip r = Some e →
     IsZero (DeletionTimestamp (Eip_Meta e)) = true → Key r ∉ holders (Eip_Status e) x).
Proof.
  assert (Svc_Key s = key) as Hk by (by apply Hsrv).
  apply (Reconcile_request view env key s _ w w' Hst Hnp Hreq) in HR.
  unfold reconcile_request in HR. cbn [Req_Release Req_Allocate] in HR.
  apply ST_bind_Ok in HR as (w1 & [clone ips] & Hrel & H).
  apply ST_bind_Ok in Hrel as (w2 & [] & Hrel & Hret). injection Hret as -> <- <-.
  destruct (ReleaseIP_world view r w w1 Hsrv Hpools Hrel) as (_ & _ & Hsv & Hfree).
  assert (srv_svcs (view w1) !! Svc_Key s = Some s) as Hst1 by (rewrite Hsv; congruence).
  destruct (updateReconcileResult_ok view s (set_Ingress (released_svc s) (Some [])) w1 w' Hst1 eq_refl H) as (He & _ & Hs' & _).
  assert (Labels (Svc_Meta s) ≠ Labels (Svc_Meta (released_svc s))) as Hne.
  { intros Heq. unfold mhas in Hlab. rewrite Heq in Hlab. bool_to_prop. destruct Hlab as [v Hv].
    revert Hv. unfold released_svc, mget. cbn. destruct (Labels (Svc_Meta s)); cbn; [|done].
    by rewrite lookup_delete_eq. }
  split.
  - intros s' Hx. rewrite <- Hk in Hx. destruct (Hs' s' Hx) as (Hing & Hm & _).
    rewrite decide_False in Hm by done. rewrite Hm. split; [done|]. cbn. split.
    + unfold mget. destruct (Labels (Svc_Meta s)); cbn; [apply lookup_delete_eq|done].
    + rewrite elem_of_RemoveString. tauto.
  - intros e x. rewrite He. eauto.
Qed.

(** A service that gives its address back but carries no pool label keeps
    its finalizer: the write-back compares labels only, so the removal of the
    finalizer is never sent and the metadata on the server stays the same.
    A deleted service in that state is never removed. *)
Theorem Reconcile_keeps_finalizer `{R : GoRange} `{GS : GoSort} `{L : CidrLib} `{LL : LabelLib} {W : Type}
    `{K : KubeClient W} `{P : ProxyClient W} (view : W → Server) `{KO : !KubeClientOk W view}
    (env : string) (key : string * string) (s : Service) (r : svcRecord) (w w' : W)
    (Hsrv : server_ok (view w)) (Hpools : pools_ok (view w))
    (Hst : srv_svcs (view w) !! key = Some s)
    (Hnp : HasOpenELBNPAnnotation (Annotations (Svc_Meta s)) = false)
    (Hreq : ConstructRequest w (Some s) = Ok {| Req_Allocate := None; Req_Release := Some r |})
    (Hlab : mhas (Labels (Svc_Meta s)) constant.OpenELBEIPAnnotationKeyV1Alpha2 = false)
    (HR : Reconcile env key w = (w', Ok ())) :
  ∃ s', srv_svcs (view w') !! key = Some s' ∧ Svc_Meta s' = Svc_Meta s ∧ Svc_Ingress s' = Some [].
Proof.
  assert (Svc_Key s = key) as Hk by (by apply Hsrv).
  apply (Reconcile_request view env key s _ w w' Hst Hnp Hreq) in HR.
  unfold reconcile_request in HR. cbn [Req_Release Req_Allocate] in HR.
  apply ST_bind_Ok in HR as (w1 & [clone ips] & Hrel & H).
  apply ST_bind_Ok in Hrel as (w2 & [] & Hrel & Hret). injection Hret as -> <- <-.
  destruct (ReleaseIP_world view r w w1 Hsrv Hpools Hrel) as (_ & _ & Hsv & _).
  assert (srv_svcs (view w1) !! Svc_Key s = Some s) as Hst1 by (rewrite Hsv; congruence).
  destruct (updateReconcileResult_ok view s (set_Ingress (released_svc s) (Some [])) w1 w' Hst1 eq_refl H) as (_ & _ & Hs' & Hsome).
  assert (Labels (Svc_Meta s) = Labels (Svc_Meta (released_svc s))) as Heq.
  { unfold released_svc. cbn. unfold mhas, mget, mdel in *. bool_to_prop.
    destruct (Labels (Svc_Meta s)) as [m|]; [|done]. cbn in *. f_equal. symmetry. apply delete_id.
    destruct (m !! _) eqn:E; [|done]. destruct Hlab. eauto. }
  destruct (Hsome (or_introl Heq)) as [s' Hx]. destruct (Hs' s' Hx) as (Hing & Hm & _).
  rewrite decide_True in Hm by done. exists s'. rewrite <- Hk. done.
Qed.

(** ** Witnesses *)
Definition lb_world (svc : Service) : ProxyWorld :=
  {| pw_server := {| srv_eips := {["a" := sample]}; srv_svcs := {[("ns", "s1") := svc]}; srv_nss := ∅ |};
     pw_nodes := []; pw_workloads := ∅; pw_pods := [] |}.

Lemma lb_world_ok svc : Svc_Key svc = ("ns", "s1") →
  server_ok (pw_server (lb_world svc)) ∧ pools_ok (pw_server (lb_world svc)).
Proof.
  intros Hk. split; [split|]; intros n x; cbn [pw_server lb_world srv_eips srv_svcs];
    intros [<- <-]%lookup_singleton_Some; [done|done|].
  split; [apply sample_no_dups|]. exists [10;0;0;0], 4. apply sample_ok.
Qed.

Definition dying_service (labels : gomap) : Service :=
  set_SvcMeta (sample_service labels "10.0.0.0")
    {| Name := "s1"; Namespace := "ns"; Labels := labels;
       Annotations := Annotations (Svc_Meta (sample_service None ""));
       Finalizers := [constant.FinalizerName; "service.kubernetes.io/load-balancer-cleanup"];
       DeletionTimestamp := Some 1 |}.

Abbreviation lb_reconcile := (@Reconcile canonical_range insertion_sort go_cidr subset_labels
  ProxyWorld pw_client pw_proxy "" ("ns", "s1")).

Lemma Reconcile_assigns_witness :
  ∃ w' s', lb_reconcile (lb_world (sample_service None "10.0.0.9")) = (w', Ok ()) ∧
    srv_svcs (pw_server w') !! ("ns", "s1") = Some s' ∧
    mget (Labels (Svc_Meta s')) constant.OpenELBEIPAnnotationKeyV1Alpha2 = Some "a".
Proof.
  destruct (lb_reconcile (lb_world (sample_service None "10.0.0.9"))) as [w' r] eqn:E.
  assert (r = Ok ()) as -> by (vm_compute in E; congruence).
  destruct (lb_world_ok (sample_service None "10.0.0.9") eq_refl) as [H1 H2].
  destruct (@Reconcile_assigns canonical_range insertion_sort go_cidr subset_labels ProxyWorld _ _
    pw_server _ "" ("ns", "s1") (sample_service None "10.0.0.9")
    {| Req_Allocate := Some {| Key := "ns/s1"; Rec_Eip := "a"; Rec_IP := "" |};
       Req_Release := Some {| Key := "ns/s1"; Rec_Eip := "a"; Rec_IP := "10.0.0.0" |} |}
    {| Key := "ns/s1"; Rec_Eip := "a"; Rec_IP := "" |} (lb_world (sample_service None "10.0.0.9")) w')
    as (s' & e & addr & Hs & _ & Hl & _);
    [exact H1|exact H2|by vm_compute|by vm_compute|by vm_compute|done|by vm_compute|exact E|].
  exists w', s'. split; [done|]. split; [exact Hs|exact Hl].
Defined.

Lemma Reconcile_releases_witness :
  ∃ w' s', lb_reconcile (lb_world (dying_service (Some {[constant.OpenELBEIPAnnotationKeyV1Alpha2 := "a"]})))
      = (w', Ok ()) ∧
    srv_svcs (pw_server w') !! ("ns", "s1") = Some s' ∧
    (constant.FinalizerName ∉ Finalizers (Svc_Meta s')).
Proof.
  set (svc := dying_service (Some {[constant.OpenELBEIPAnnotationKeyV1Alpha2 := "a"]})).
  destruct (lb_reconcile (lb_world svc)) as [w' r] eqn:E.
  assert (r = Ok () ∧ is_Some (srv_svcs (pw_server w') !! ("ns", "s1"))) as [-> [s' Hs']].
  { vm_compute in E. injection E as <- <-. split; [done|]. vm_compute. eauto. }
  destruct (lb_world_ok svc eq_refl) as [H1 H2].
  destruct (@Reconcile_releases canonical_range insertion_sort go_cidr subset_labels ProxyWorld _ _
    pw_server _ "" ("ns", "s1") svc {| Key := "ns/s1"; Rec_Eip := "a"; Rec_IP := "10.0.0.0" |}
    (lb_world svc) w') as [H _];
    [exact H1|exact H2|by vm_compute|by vm_compute|by vm_compute|by vm_compute|exact E|].
  exists w', s'. split; [done|]. split; [exact Hs'|]. by apply H.
Defined.

Definition orphan_world : ProxyWorld :=
  pw_with_server (lb_world (dying_service None))
    (with_eips (pw_server (lb_world (dying_service None))) ∅).

Lemma Reconcile_keeps_finalizer_witness :
  ∃ w' s', lb_reconcile orphan_world = (w', Ok ()) ∧
    srv_svcs (pw_server w') !! ("ns", "s1") = Some s' ∧
    constant.FinalizerName ∈ Finalizers (Svc_Meta s').
Proof.
  destruct (lb_reconcile orphan_world) as [w' r] eqn:E.
  assert (r = Ok ()) as -> by (vm_compute in E; congruence).
  destruct (lb_world_ok (dying_service None) eq_refl) as [[_ H1] _].
  destruct (@Reconcile_keeps_finalizer canonical_range insertion_sort go_cidr subset_labels ProxyWorld _ _
    pw_server _ "" ("ns", "s1") (dying_service None) {| Key := "ns/s1"; Rec_Eip := ""; Rec_IP := "10.0.0.0" |}
    orphan_world w') as (s' & Hs & Hm & _);
    [split; [|exact H1]| |by vm_compute|by vm_compute|by vm_compute|by vm_compute|exact E|].
  - intros n x. cbn. by rewrite lookup_empty.
  - intros n x. cbn. by rewrite lookup_empty.
  - exists w', s'. split; [done|]. split; [exact Hs|]. rewrite Hm. vm_compute. left.
Defined.
