(* ===== verification/Calls.v ===== *)
(** * The reconcilers as programs of calls to the API server

    [LbController.Reconcile] and [IpamController.Reconcile] run to their end
    before anything else happens.  Here the same code is a program ([prog]): a
    tree whose nodes are the calls to the API server, in the order in which the
    sources make them, each with what is done for every answer.  An object that
    was read carries the version it was read at, and a write of the object sends
    the version back, as the resource version in the metadata does.  The part
    of [Reconcile] for node-proxy services ([reconcileNP]) is one call.

    [run] makes all calls of a program at once on a [KubeClient]; the programs
    are then the reconcilers ([programs_run]).
    [Interleave] lets several programs take turns, call by call. *)
From S2P Require Import Prelude GoNet Cnet Iprange K8s EipTypes Kube Ipam IpamController NodeProxy LbController.
Local Open Scope Z_scope.

(** ** Programs *)

(** An object as it was read or written: with its resource version. *)
Record versioned (A : Type) := At { version : N; object : A }.
Arguments At {A} version object.
Arguments version {A} v.
Arguments object {A} v.
#[export] Instance versioned_fmap : FMap versioned := λ A B f v, At (version v) (f (object v)).

Inductive call :=
| CGetEip (n : string)
| CListEips
| CUpdateEip (e : versioned Eip)
| CStatusUpdateEip (e : versioned Eip)
| CGetNamespaceLabels (n : string)
| CGetService (k : string * string)
| CListServices (sel : option (string * string))
| CUpdateService (s : versioned Service)
| CStatusUpdateService (s : versioned Service)
| CNodeProxy (s : Service).

(** What a call returns.  The code never writes a pool it got from a list. *)
Definition answer (c : call) : Type :=
  match c with
  | CGetEip _ | CUpdateEip _ | CStatusUpdateEip _ => versioned Eip
  | CListEips => list Eip
  | CGetNamespaceLabels _ => gomap
  | CGetService _ | CUpdateService _ | CStatusUpdateService _ => versioned Service
  | CListServices _ => list (versioned Service)
  | CNodeProxy _ => ()
  end.

Inductive prog (A : Type) :=
| Done (r : Result A)
| Ask (c : call) (k : Result (answer c) → prog A).
Arguments Done {A} r.
Arguments Ask {A} c k.

#[export] Instance prog_ret : MRet prog := λ A a, Done (Ok a).
#[export] Instance prog_bind : MBind prog := λ A B f, fix bind p :=
  match p with
  | Done (Ok a) => f a
  | Done (Err e) => Done (Err e)
  | Done Panic => Done Panic
  | Ask c k => Ask c (λ r, bind (k r))
  end.

Definition ask (c : call) : prog (answer c) := Ask c Done.

(** A program whose error the code looks at. *)
Fixpoint attempt {A} (p : prog A) : prog (Result A) :=
  match p with
  | Done Panic => Done Panic
  | Done r => Done (Ok r)
  | Ask c k => Ask c (λ r, attempt (k r))
  end.

(** ** The address manager *)
Section manager.
Context {R : GoRange} {GS : GoSort} {L : CidrLib} {LL : LabelLib}.

Definition getAllocatedEIPInfo_calls (svcInfo : string) : prog (string * string) :=
  eips ← ask CListEips; mret (M := prog) (find_eip svcInfo eips).

Definition getEIPBasedOnIP_calls (ip : string) : prog Eip :=
  eips ← ask CListEips; Done (eip_based_on_ip eips ip).

Definition getDefaultEIP_calls (name : string) : prog Eip :=
  nsLabels ← ask (CGetNamespaceLabels name);
  eips ← ask CListEips;
  Done ('(nseips, defaultEip) ← default_candidates name nsLabels eips [] None;
        match sort_Slice eip_less nseips with
        | e :: _ => Ok e
        | [] => match defaultEip with
                | Some e => Ok e
                | None => Err (Errorf "no available default eip found")
                end
        end).

Definition getEIP_calls (ns svcip specifyEip : string) : prog Eip :=
  if str_empty specifyEip then
    if negb (str_empty svcip) then getEIPBasedOnIP_calls svcip else getDefaultEIP_calls ns
  else
    got ← ask (CGetEip specifyEip);
    let eip := object got in
    Done (if negb (IsZero (DeletionTimestamp (Eip_Meta eip)))
          then Err (Errorf ("eip:" +:+ Eip_Name eip +:+ " is deleting"))
          else if Disable (Eip_Spec eip)
          then Err (Errorf ("eip:" +:+ Eip_Name eip +:+ " is disabled"))
          else if negb (str_empty svcip) && negb (Contains eip (ParseIP svcip))
          then Err (Errorf (EipNotContainIP +:+ ":[" +:+ svcip +:+ "]"))
          else Ok eip).

Definition ConstructRequest_calls (s : Service) : prog Request :=
  let none := {| Req_Allocate := None; Req_Release := None |} in
  match Annotations (Svc_Meta s) with
  | None => mret (M := prog) none
  | Some annotations =>
      let name := NamespacedName (Namespace (Svc_Meta s)) (Name (Svc_Meta s)) in
      '(aEip, aIP) ← getAllocatedEIPInfo_calls name;
      let release := constructRelease
        {| Ipam.svcName := name; svcSpecifyEIP := ""; svcSpecifyLBIP := "";
           svcStatusLBIP := status_lbip s; allocatedEip := aEip; allocatedIP := aIP |} in
      let only_release := {| Req_Allocate := None; Req_Release := release |} in
      if needRelease (Some s) then mret (M := prog) only_release
      else
        let lbip := default (Spec_LoadBalancerIP (Svc_Spec s))
                      (annotations !! constant.OpenELBEIPAnnotationKey) in
        let specified := default "" (annotations !! constant.OpenELBEIPAnnotationKeyV1Alpha2) in
        chosen ← (if str_empty specified
                  then got ← attempt (getEIP_calls (Namespace (Svc_Meta s)) lbip specified);
                       mret (M := prog) (match got with Ok eip => Some (Eip_Name eip) | _ => None end)
                  else mret (M := prog) (Some specified));
        match chosen with
        | None => mret (M := prog) only_release
        | Some eipName =>
            let i := {| Ipam.svcName := name; svcSpecifyEIP := eipName; svcSpecifyLBIP := lbip;
                        svcStatusLBIP := status_lbip s; allocatedEip := aEip; allocatedIP := aIP |} in
            mret (M := prog)
              (if negb (needUpdate i)
                  && mhas (Labels (Svc_Meta s)) constant.OpenELBEIPAnnotationKeyV1Alpha2
               then none
               else {| Req_Allocate := Some {| Key := name; Rec_Eip := eipName; Rec_IP := lbip |};
                       Req_Release := release |})
        end
  end.

Definition AssignIP_calls (ipFamilies : list IPFamily) (a : svcRecord) : prog svcRecord :=
  eip ← ask (CGetEip (Rec_Eip a));
  parsed ← Done (ParseRange (Address (Eip_Spec (object eip))));
  match parsed with
  | None => Done Panic
  | Some parseRange =>
      if negb (IsSameFamily (Range_Family parseRange) ipFamilies)
      then Done (Err (Errorf "service can't use different family eip"))
      else
        '(addr, clone) ← Done (match assignIPFromEip (Some a) (object eip) with
                               | Err e => Err (Errorf ("no avliable eip, err:" +:+ err_text e))
                               | r => r
                               end);
        let a' := {| Key := Key a; Rec_IP := addr; Rec_Eip := Rec_Eip a |} in
        if decide (clone = object eip) then mret (M := prog) a'
        else _ ← ask (CStatusUpdateEip (At (version eip) clone)); mret (M := prog) a'
  end.

(** A pool that is gone is read as an empty object, which has no version. *)
Definition ReleaseIP_calls (r : svcRecord) : prog () :=
  got ← attempt (ask (CGetEip (Rec_Eip r)));
  eip ← match got with
        | Ok eip => mret (M := prog) eip
        | Err e => if IsNotFound e then mret (M := prog) (At 0%N zero_Eip) else Done (Err e)
        | Panic => Done Panic
        end;
  let clone := releaseIPFromEip (Key r) (object eip) in
  if decide (clone = object eip) then mret (M := prog) ()
  else _ ← ask (CStatusUpdateEip (At (version eip) clone)); mret (M := prog) ().
End manager.

(** ** The reconciler of services *)
Definition updateReconcileResult_calls (svc resultSvc : versioned Service) : prog () :=
  clone ← (if decide (Labels (Svc_Meta (object svc)) = Labels (Svc_Meta (object resultSvc)))
           then mret (M := prog) resultSvc
           else ask (CUpdateService resultSvc));
  if decide (Svc_Ingress (object svc) = Svc_Ingress (object resultSvc)) then mret (M := prog) ()
  else
    _ ← ask (CStatusUpdateService (At (version clone)
               (set_Ingress (object clone) (Svc_Ingress (object resultSvc)))));
    mret (M := prog) ().

Section service.
Context {R : GoRange} {GS : GoSort} {L : CidrLib} {LL : LabelLib}.

Definition assign_request_calls (svc clone : versioned Service) (statusIPs : option (list Ingress))
    (a : svcRecord) : prog () :=
  got ← attempt (AssignIP_calls (Spec_IPFamilies (Svc_Spec (object svc))) a);
  match got with
  | Ok a' =>
      updateReconcileResult_calls svc (At (version clone)
        (set_Ingress (assigned_svc (object clone) (Rec_Eip a'))
           (Some [{| Ingress_IP := Rec_IP a'; Ingress_Hostname := "" |}])))
  | Err e =>
      _ ← attempt (updateReconcileResult_calls svc (At (version clone) (set_Ingress (object clone) statusIPs)));
      Done (Err e)
  | Panic => Done Panic
  end.

Definition reconcile_request_calls (svc : versioned Service) (request : Request) : prog () :=
  match Req_Release request, Req_Allocate request with
  | None, None => mret (M := prog) ()
  | release, allocate =>
      rel ← match release with
            | None => mret (M := prog) (svc, Svc_Ingress (object svc))
            | Some r =>
                _ ← ReleaseIP_calls r;
                mret (M := prog) (At (version svc) (released_svc (object svc)), Some [])
            end;
      let '(clone, statusIPs) := rel in
      match allocate with
      | None => updateReconcileResult_calls svc (At (version clone) (set_Ingress (object clone) statusIPs))
      | Some a => assign_request_calls svc clone statusIPs a
      end
  end.

Definition service_Reconcile_calls (key : string * string) : prog () :=
  got ← attempt (ask (CGetService key));
  match got with
  | Err e => Done (if IsNotFound e then Ok () else Err e)
  | Panic => Done Panic
  | Ok svc =>
      if HasOpenELBNPAnnotation (Annotations (Svc_Meta (object svc))) then ask (CNodeProxy (object svc))
      else
        request ← ConstructRequest_calls (object svc);
        reconcile_request_calls svc request
  end.
End service.

(** ** The reconciler of pools *)
Fixpoint sync_svcs_calls (svcs : list string) : prog (list string) :=
  match svcs with
  | [] => mret (M := prog) []
  | svc :: rest =>
      match Split "/" svc with
      | s0 :: s1 :: _ =>
          got ← attempt (ask (CGetService (s0, s1)));
          match got with
          | Err e => if IsNotFound e then sync_svcs_calls rest else Done (Err e)
          | Panic => Done Panic
          | Ok _ => l ← sync_svcs_calls rest; mret (M := prog) (svc :: l)
          end
      | _ => sync_svcs_calls rest
      end
  end.

Fixpoint sync_entries_calls (entries : list (string * string)) (used : smap) : prog smap :=
  match entries with
  | [] => mret (M := prog) used
  | (k, v) :: rest =>
      syncSvcs ← sync_svcs_calls (Split ";" v);
      sync_entries_calls rest
        (if Nat.eqb (length syncSvcs) 0 then used else <[k := Join syncSvcs ";"]> used)
  end.

(** The pool with the records that are left, counted. *)
Definition synced (e : Eip) (used : smap) : Eip :=
  let st := set_Usage (set_Used (Eip_Status e) (Some used)) (go_len used) in
  set_Status e (set_Occupied st (PoolSize st <=? Usage st)).

Fixpoint remove_labels_calls (svcs : list (versioned Service)) : prog () :=
  match svcs with
  | [] => mret (M := prog) ()
  | svc :: rest =>
      let labels := mdel (Labels (Svc_Meta (object svc))) constant.OpenELBEIPAnnotationKeyV1Alpha2 in
      _ ← ask (CUpdateService (At (version svc)
                 (set_SvcMeta (object svc) (set_Labels (Svc_Meta (object svc)) labels))));
      remove_labels_calls rest
  end.

Definition removeEip_calls (e : Eip) : prog () :=
  svcs ← ask (CListServices (Some (constant.OpenELBEIPAnnotationKeyV1Alpha2, Eip_Name e)));
  remove_labels_calls svcs.

Section pool.
Context {R : GoRange}.

Definition syncEip_calls (e : Eip) : prog Eip :=
  used ← sync_entries_calls (range_map (used_map (Eip_Status e))) ∅;
  mret (M := prog) (synced e used).

Definition updateEip_calls (e : Eip) : prog Eip :=
  e ← Done (if str_empty (FirstIP (Eip_Status e)) then init_status e else Ok e);
  syncEip_calls e.

Definition sync_write_calls (eip : versioned Eip) : prog () :=
  clone ← updateEip_calls (object eip);
  if decide (Eip_Status clone = Eip_Status (object eip)) then mret (M := prog) ()
  else _ ← ask (CStatusUpdateEip (At (version eip) clone)); mret (M := prog) ().

Definition pool_Reconcile_calls (name : string) : prog () :=
  got ← attempt (ask (CGetEip name));
  match got with
  | Err err => Done (if IsNotFound err then Ok () else Err err)
  | Panic => Done Panic
  | Ok eip =>
      let meta := Eip_Meta (object eip) in
      if IsDeletionCandidate meta constant.IPAMFinalizerName then
        _ ← removeEip_calls (object eip);
        _ ← ask (CUpdateEip (At (version eip)
                   (set_EipMeta (object eip) (RemoveFinalizer meta constant.IPAMFinalizerName))));
        mret (M := prog) ()
      else
        eip ← (if NeedToAddFinalizer meta constant.IPAMFinalizerName
               then ask (CUpdateEip (At (version eip)
                           (set_EipMeta (object eip) (AddFinalizer meta constant.IPAMFinalizerName))))
               else mret (M := prog) eip);
        sync_write_calls eip
  end.
End pool.

(** ** All calls at once *)
Section run.
Context {R : GoRange} {GS : GoSort} {L : CidrLib} {LL : LabelLib}.
Context {W : Type} {K : KubeClient W} {P : ProxyClient W} (env : string).

Definition unversioned {A} (w : W) (r : Result A) : W * Result (versioned A) := (w, At 0%N <$> r).

Definition perform (c : call) : ST W (answer c) := λ w,
  match c return W * Result (answer c) with
  | CGetEip n => unversioned w (GetEip w n)
  | CListEips => (w, ListEips w)
  | CUpdateEip e => let '(w', r) := UpdateEip w (object e) in unversioned w' r
  | CStatusUpdateEip e => let '(w', r) := StatusUpdateEip w (object e) in unversioned w' r
  | CGetNamespaceLabels n => (w, GetNamespaceLabels w n)
  | CGetService k => unversioned w (GetService w k)
  | CListServices sel => (w, svcs ← ListServices w sel; Ok (list_fmap _ _ (At 0%N) svcs))
  | CUpdateService s => let '(w', r) := UpdateService w (object s) in unversioned w' r
  | CStatusUpdateService s => let '(w', r) := StatusUpdateService w (object s) in unversioned w' r
  | CNodeProxy s => reconcileNP env s w
  end.

Fixpoint run {A} (p : prog A) : ST W A := λ w,
  match p with
  | Done r => (w, r)
  | Ask c k => let '(w', r) := perform c w in run (k r) w'
  end.
End run.

(** ** The programs are the reconcilers *)
Section runs.
Context {R : GoRange} {GS : GoSort} {L : CidrLib} {LL : LabelLib}.
Context {W : Type} {K : KubeClient W} {P : ProxyClient W} (env : string).
Abbreviation run := (run (W := W) env).

Lemma run_bind {A B} (p : prog A) (f : A → prog B) w :
  run (p ≫= f) w = match run p w with
                   | (w', Ok a) => run (f a) w'
                   | (w', Err e) => (w', Err e)
                   | (w', Panic) => (w', Panic)
                   end.
Proof.
  revert w. induction p as [[a|e|]|c k IH]; intros w; [done..|].
  transitivity (let '(w', r) := perform env c w in run (k r ≫= f) w'); [done|].
  cbn [Calls.run]. destruct (perform env c w) as [w' r]. exact (IH r w').
Qed.

Lemma ST_bind_eq {A B} (f : A → ST W B) (m : ST W A) w :
  mbind (M := ST W) f m w =
  match m w with (w', Ok a) => f a w' | (w', Err e) => (w', Err e) | (w', Panic) => (w', Panic) end.
Proof. done. Qed.

Lemma run_attempt {A} (p : prog A) w : run (attempt p) w =
  match run p w with (w', Panic) => (w', Panic) | (w', r) => (w', Ok r) end.
Proof.
  revert w. induction p as [[a|e|]|c k IH]; intros w; [done..|]. cbn.
  destruct (perform env c w) as [w' r]. exact (IH r w').
Qed.

Lemma run_ask c w : run (ask c) w = perform env c w.
Proof. cbn. by destruct (perform env c w). Qed.

Lemma run_getAllocatedEIPInfo key w :
  run (getAllocatedEIPInfo_calls key) w = (w, getAllocatedEIPInfo w key).
Proof.
  unfold getAllocatedEIPInfo_calls, getAllocatedEIPInfo. rewrite run_bind. cbn.
  by destruct (ListEips w).
Qed.

Lemma run_getEIP ns ip eip w : run (getEIP_calls ns ip eip) w = (w, getEIP w ns ip eip).
Proof.
  unfold getEIP_calls, getEIP. destruct (str_empty eip); [destruct (negb _)|].
  - unfold getEIPBasedOnIP_calls, getEIPBasedOnIP. rewrite run_bind. cbn.
    by destruct (ListEips w).
  - unfold getDefaultEIP_calls, getDefaultEIP. rewrite run_bind. cbn.
    destruct (GetNamespaceLabels w ns); [|done..]. cbn. by destruct (ListEips w).
  - rewrite run_bind. cbn. by destruct (GetEip w eip).
Qed.

Lemma run_ConstructRequest s w : run (ConstructRequest_calls s) w = (w, ConstructRequest w (Some s)).
Proof.
  unfold ConstructRequest_calls, ConstructRequest. destruct (Annotations (Svc_Meta s)) as [annotations|]; [|done].
  rewrite run_bind, run_getAllocatedEIPInfo.
  destruct (getAllocatedEIPInfo w _) as [[aEip aIP]|e|]; [|done..]. cbn [mbind Result_bind].
  destruct (needRelease _); [done|]. destruct (str_empty _); rewrite run_bind.
  - rewrite run_bind, run_attempt, run_getEIP.
    destruct (getEIP w _ _ _) as [eip|e|]; [|done..]. cbn. by destruct (_ && _).
  - cbn. by destruct (_ && _).
Qed.

Lemma run_AssignIP fams a w : run (AssignIP_calls fams a) w =
  (let '(w', r) := AssignIP w fams (Some a) in
   (w', match r with Ok (Some a') => Ok a' | Ok None => Panic | Err e => Err e | Panic => Panic end)).
Proof.
  unfold AssignIP_calls, AssignIP. rewrite run_bind. cbn -[assignIPFromEip].
  destruct (GetEip w (Rec_Eip a)) as [e|err|]; [|done..]. cbn -[assignIPFromEip].
  destruct (ParseRange _) as [[rg|]|err|]; [|done..]. cbn -[assignIPFromEip]. destruct (negb _); [done|].
  destruct (assignIPFromEip (Some a) e) as [[addr clone]|err|]; [|done..]. cbn. destruct (decide _); [done|].
  cbn. by destruct (StatusUpdateEip w clone) as [w' [x|err|]].
Qed.

Lemma run_ReleaseIP r w : run (ReleaseIP_calls r) w = ReleaseIP w (Some r).
Proof.
  unfold ReleaseIP_calls, ReleaseIP. rewrite run_bind, run_attempt. cbn.
  destruct (GetEip w (Rec_Eip r)) as [e|[m|m]|]; [| |done..]; cbn.
  all: destruct (decide _); [done|]; cbn; by destruct (StatusUpdateEip w _) as [w' [x|err'|]].
Qed.

Lemma run_updateReconcileResult s r w :
  run (updateReconcileResult_calls (At 0%N s) (At 0%N r)) w = updateReconcileResult s r w.
Proof.
  unfold updateReconcileResult_calls, updateReconcileResult. rewrite run_bind. cbn [object].
  destruct (decide (Labels _ = _)); rewrite ST_bind_eq; cbn;
    [|destruct (UpdateService w r) as [w1 [x|e|]]; [|done..]; cbn].
  all: destruct (decide (Svc_Ingress s = _)); [done|]; rewrite ST_bind_eq; cbn;
    by destruct (StatusUpdateService _ _) as [w2 [y|?|]].
Qed.

Lemma run_assign_request s clone ips a w :
  run (assign_request_calls (At 0%N s) (At 0%N clone) ips a) w =
  (got ← st_try (λ w, AssignIP w (Spec_IPFamilies (Svc_Spec s)) (Some a));
   match got with
   | Ok (Some a') => updateReconcileResult s (set_Ingress (assigned_svc clone (Rec_Eip a'))
       (Some [{| Ingress_IP := Rec_IP a'; Ingress_Hostname := "" |}]))
   | Ok None => st_lift Panic
   | Err e => _ ← st_try (updateReconcileResult s (set_Ingress clone ips)); st_lift (Err e)
   | Panic => st_lift Panic
   end) w.
Proof.
  unfold assign_request_calls. rewrite run_bind, run_attempt, run_AssignIP, ST_bind_eq. unfold st_try at 1.
  cbn [object version]. destruct (AssignIP w _ (Some a)) as [w1 [[a'|]|e|]]; [|done| |done].
  - apply run_updateReconcileResult.
  - rewrite run_bind, run_attempt, run_updateReconcileResult, ST_bind_eq. unfold st_try.
    by destruct (updateReconcileResult _ _ w1) as [w2 [[]|?|]].
Qed.

Lemma run_reconcile_request s req w :
  run (reconcile_request_calls (At 0%N s) req) w = reconcile_request s req w.
Proof.
  unfold reconcile_request_calls, reconcile_request.
  destruct (Req_Release req) as [rl|], (Req_Allocate req) as [a|]; [| | |done].
  1-2: rewrite !run_bind, run_ReleaseIP; rewrite !ST_bind_eq;
    destruct (ReleaseIP w (Some rl)) as [w1 [[]|e|]]; [|done..].
  - apply run_assign_request.
  - apply run_updateReconcileResult.
  - apply run_assign_request.
Qed.

Lemma run_sync_svcs l w : run (sync_svcs_calls l) w = (w, sync_svcs w l).
Proof.
  induction l as [|svc l IH]; cbn [sync_svcs_calls sync_svcs]; [done|].
  destruct (Split "/" svc) as [|s0 [|s1 rest]]; [done..|].
  rewrite run_bind, run_attempt. cbn.
  destruct (GetService w (s0, s1)) as [s|e|]; cbn; [|by destruct (IsNotFound e)|done].
  rewrite run_bind, IH. by destruct (sync_svcs w l).
Qed.

Lemma run_sync_entries l w : ∀ used, run (sync_entries_calls l used) w = (w, sync_entries w l used).
Proof.
  induction l as [|[k v] l IH]; intros used; cbn [sync_entries_calls sync_entries]; [done|].
  rewrite run_bind, run_sync_svcs.
  destruct (sync_svcs w (Split ";" v)) as [svcs|e|]; [|done..]. cbn. apply IH.
Qed.

Lemma run_updateEip e w : run (updateEip_calls e) w = (w, updateEip w e).
Proof.
  unfold updateEip_calls, updateEip. rewrite run_bind. cbn [Calls.run].
  destruct (if str_empty _ then _ else _) as [e1|err|]; [|done..]. cbn [mbind Result_bind].
  unfold syncEip_calls, syncEip. rewrite run_bind, run_sync_entries.
  by destruct (sync_entries w _ _).
Qed.

Lemma run_sync_write e w : run (sync_write_calls (At 0%N e)) w =
  match updateEip w e with
  | Err err => (w, Err err)
  | Panic => (w, Panic)
  | Ok clone => if decide (Eip_Status clone = Eip_Status e) then (w, Ok ()) else forget (StatusUpdateEip w clone)
  end.
Proof.
  unfold sync_write_calls. rewrite run_bind, run_updateEip. cbn [object version].
  destruct (updateEip w e) as [clone|err|]; [|done..]. destruct (decide _); [done|].
  rewrite run_bind. cbn. unfold forget.
  by destruct (StatusUpdateEip w clone) as [w' [x|err|]].
Qed.

Lemma run_remove_labels l : ∀ w, run (remove_labels_calls (At 0%N <$> l)) w = remove_labels w l.
Proof.
  induction l as [|s l IH]; intros w; cbn [remove_labels_calls remove_labels fmap list_fmap]; [done|].
  rewrite run_bind. cbn.
  destruct (UpdateService w _) as [w' [x|e|]]; cbn; [apply IH|done..].
Qed.

Lemma run_removeEip e w : run (removeEip_calls e) w = removeEip w e.
Proof.
  unfold removeEip_calls, removeEip. rewrite run_bind. cbn.
  destruct (ListServices w _); cbn; [apply run_remove_labels|done..].
Qed.
End runs.

(** ** Properties *)

(** The programs of calls are the reconcilers: when nothing happens between
    the calls, running the program of a service, or of a pool, is its
    [Reconcile], whatever the API server answers. *)
Theorem programs_run `{R : GoRange} `{GS : GoSort} `{L : CidrLib} `{LL : LabelLib} {W : Type} `{K : KubeClient W}
    `{P : ProxyClient W} (env : string) (w : W) :
  (∀ key, run env (service_Reconcile_calls key) w = LbController.Reconcile env key w) ∧
  (∀ name, run env (pool_Reconcile_calls name) w = IpamController.Reconcile w name).
Proof.
  split.
  - intros key. unfold service_Reconcile_calls, LbController.Reconcile. rewrite run_bind, run_attempt.
    cbn -[ConstructRequest]. destruct (GetService w key) as [s|e|]; cbn -[ConstructRequest]; [|done..].
    destruct (HasOpenELBNPAnnotation _); [exact (run_ask env (CNodeProxy s) w)|]. 
    rewrite run_bind, run_ConstructRequest. destruct (ConstructRequest w (Some s)); [apply run_reconcile_request|done..].
  - intros name. unfold pool_Reconcile_calls, IpamController.Reconcile. rewrite run_bind, run_attempt.
    cbn -[removeEip_calls removeEip]. destruct (GetEip w name) as [e|err|]; cbn -[removeEip_calls removeEip]; [|done..].
    destruct (IsDeletionCandidate _ _).
    + rewrite run_bind, run_removeEip.
      destruct (removeEip w e) as [w1 [[]|err|]]; [|done..]. cbn.
      unfold forget. by destruct (UpdateEip w1 _) as [w2 [x|err|]].
    + rewrite run_bind. destruct (NeedToAddFinalizer _ _).
      * cbn. destruct (UpdateEip w _) as [w1 [x|err|]]; cbn; [apply run_sync_write|done..].
      * apply run_sync_write.
Qed.
