(* ===== verification/Speaker.v ===== *)
(** * [pkg/speaker/interface.go] and [utils.go]: what a speaker is

    A speaker announces load-balancer addresses.  The Go interface is the
    class [Speaker] over the speaker's own state; [SpeakerOk] is what the
    manager relies on: which addresses a speaker announces ([announced]), and
    that a call adds at most the address it is given, withdraws the one it is
    told to, and never starts announcing another.  The speakers of the
    repository are its instances.

    The network interfaces of the host ([net.Interface], [netlink.RouteGet])
    are the class [HostNet]. *)
From S2P Require Import Prelude GoNet Iprange K8s.
Local Open Scope Z_scope.

Record Config := { Cfg_Name : string; Cfg_IPRange : option Range; Cfg_Iface : string }.
#[export] Instance Config_eq_dec : EqDecision Config.
Proof. solve_decision. Defined.

Class Speaker (Sp : Type) := {
  SetBalancer : string → list Node → ST Sp ();
  DelBalancer : string → ST Sp ();
  ConfigureWithEIP : Config → bool → ST Sp ();
}.

Class SpeakerOk (Sp : Type) `{SI : Speaker Sp} (ok : Sp → Prop) (announced : Sp → gset string) : Prop := {
  SetBalancer_law ip nodes s s' r : ok s → SetBalancer ip nodes s = (s', r) →
    ok s' ∧ announced s' ⊆ {[ip]} ∪ announced s;
  DelBalancer_law ip s s' r : ok s → DelBalancer ip s = (s', r) →
    ok s' ∧ announced s' ⊆ announced s ∧ (r = Ok () → ip ∉ announced s');
  ConfigureWithEIP_law c b s s' r : ok s → ConfigureWithEIP c b s = (s', r) →
    ok s' ∧ announced s' ⊆ announced s;
}.

(** ** [utils.go] *)
Record NetInterface := { If_Name : string; If_HardwareAddr : list Z; If_Addrs : Result (list string) }.

Class HostNet := {
  InterfaceByName : string → Result NetInterface;
  InterfaceByIndex : Z → Result NetInterface;
  RouteGet : IP → Result (list Z);  (* the link index of each route *)
}.

Section utils.
Context {H : HostNet}.

(** [routers[0]] of an empty answer is a panic. *)
Definition ParseInterface (ifaceName : string) : Result NetInterface :=
  match SplitN2 ":" ifaceName with
  | [s0; s1] =>
      if decide (s0 = "can_reach") then
        let ip := ParseIP s1 in
        if ip_nil ip then Err (Errorf ("invalid can_reach address " +:+ s1))
        else
          routers ← RouteGet ip;
          match routers with
          | [] => Panic
          | link :: _ =>
              iface ← InterfaceByIndex link;
              if decide (If_Name iface = "lo") then Err (Errorf "invalid interface lo") else Ok iface
          end
      else Err (Errorf "invalid interface string, now only support can_reach")
  | _ => InterfaceByName ifaceName
  end.

(** [r.Start()] and the like on a nil range are a panic. *)
Fixpoint validate_addrs (name : string) (addrs : list string) (r : option Range) : Result () :=
  match addrs with
  | [] => match r with
          | None => Panic
          | Some r => Err (Errorf (name +:+ "'s ip and the eip[" +:+ Range_String r
                                   +:+ "] are not in the same network segment"))
          end
  | addr :: rest =>
      '(ip, cidrnet) ← ParseCIDR addr;
      if ip_nil (To4 ip) && ip_nil (To16 ip) then validate_addrs name rest r
      else match r with
           | None => Panic
           | Some rg => if IPNet_Contains cidrnet (Start rg) && IPNet_Contains cidrnet (End rg)
                        then Ok () else validate_addrs name rest r
           end
  end.

Definition ValidateInterface (netif : NetInterface) (r : option Range) : Result () :=
  addrs ← If_Addrs netif; validate_addrs (If_Name netif) addrs r.
End utils.
