(* ===== verification/SpeakerManager.v ===== *)
(** * [pkg/speaker/manager.go] and the speaker's controllers

    The manager keeps the registered speakers and the pools it has handled,
    and turns each change of a pool or of a service into calls on the speaker
    of the pool's protocol.  The API server is only read ([w] is an argument);
    the state is [SMgr].  The goroutines and contexts are in [Lifecycle], the
    events in [Events]. *)
From S2P Require Import Prelude GoNet Iprange K8s EipTypes Kube Ipam NodeProxy Speaker.
Local Open Scope Z_scope.

(** [corev1.Endpoints]: the node name, if any, of each address of each subset. *)
Class EndpointsClient (W : Type) := {
  GetEndpoints : W → string * string → Result (list (list (option string)));
}.

Record SMgr (Sp : Type) := { speakers : gmap string Sp; pools : gmap string Eip }.
Arguments speakers {Sp} _.
Arguments pools {Sp} _.

Definition NewSpeakerManager {Sp} : SMgr Sp := {| speakers := ∅; pools := ∅ |}.

Section manager.
Context {R : GoRange} {L : CidrLib}.
Context {W : Type} {K : KubeClient W} {P : ProxyClient W} {EC : EndpointsClient W}.
Context {Sp : Type} {SI : Speaker Sp}.

Definition set_speakers (m : SMgr Sp) (s : gmap string Sp) : SMgr Sp :=
  {| speakers := s; pools := pools m |}.
Definition set_pools (m : SMgr Sp) (p : gmap string Eip) : SMgr Sp :=
  {| speakers := speakers m; pools := p |}.

(** [RegisterSpeaker] and [UnRegisterSpeaker]: the map; the goroutine of
    a speaker is in [Lifecycle]. *)
Definition RegisterSpeaker (name : string) (speaker : Sp) : ST (SMgr Sp) () := λ m,
  (set_speakers m (<[name := speaker]> (speakers m)), Ok ()).
Definition UnRegisterSpeaker (name : string) : ST (SMgr Sp) () := λ m,
  (set_speakers m (delete name (speakers m)), Ok ()).

(** [m.speakers[protocol].Method(...)]: a nil method call when there is none. *)
Definition on_speaker {A} (protocol : string) (call : ST Sp A) : ST (SMgr Sp) A := λ m,
  match speakers m !! protocol with
  | None => (m, Panic)
  | Some s => let '(s', r) := call s in (set_speakers m (<[protocol := s']> (speakers m)), r)
  end.

(** [getServiceNodes]'s loop over the services that share the address. *)
Definition node_by_name (nodes : list Node) (keep : Node → bool) (acc : gmap string Node) : gmap string Node :=
  foldl (λ acc node, if keep node then <[Name (Node_Meta node) := node]> acc else acc) acc nodes.

Definition active_nodes (eps : list (list (option string))) : gset string :=
  foldl (λ acc subset, foldl (λ acc a, match a with None => acc | Some n => {[n]} ∪ acc end) acc subset) ∅ eps.

Fixpoint service_nodes (w : W) (nodes : list Node) (svcs : list string) (acc : gmap string Node)
    : Result (gmap string Node) :=
  match svcs with
  | [] => Ok acc
  | str :: rest =>
      match Split "/" str with
      | [ns; name] =>
          svc ← GetService w (ns, name);
          eps ← GetEndpoints w (Svc_Key svc);
          if decide (Spec_ExternalTrafficPolicy (Svc_Spec svc) = PolicyLocal) then
            let active := active_nodes eps in
            if decide (active = ∅) then service_nodes w nodes rest acc
            else service_nodes w nodes rest
                   (node_by_name nodes (λ node, bool_decide (Name (Node_Meta node) ∈ active)) acc)
          else service_nodes w nodes rest (node_by_name nodes (λ _, true) acc)
      | _ => service_nodes w nodes rest acc
      end
  end.

Definition getServiceNodes (w : W) (svcs : string) : Result (list Node) :=
  nodeList ← ListNodes w;
  nodeSets ← service_nodes w nodeList (Split ";" svcs) ∅;
  Ok (range_map nodeSets).*2.

Fixpoint set_balancers (w : W) (protocol : string) (usage : list (string * string)) : ST (SMgr Sp) () :=
  match usage with
  | [] => mret (M := ST (SMgr Sp)) ()
  | (ip, value) :: rest =>
      nodes ← st_lift (getServiceNodes w value);
      match nodes with
      | [] => set_balancers w protocol rest
      | _ => _ ← on_speaker protocol (SetBalancer ip nodes); set_balancers w protocol rest
      end
  end.
Definition setBalancer (w : W) (protocol : string) (usage : smap) : ST (SMgr Sp) () :=
  set_balancers w protocol (range_map usage).

Fixpoint del_balancers (protocol : string) (usage : list (string * string)) : ST (SMgr Sp) () :=
  match usage with
  | [] => mret (M := ST (SMgr Sp)) ()
  | (ip, _) :: rest => _ ← on_speaker protocol (DelBalancer ip); del_balancers protocol rest
  end.
Definition delBalancer (protocol : string) (usage : smap) : ST (SMgr Sp) () :=
  del_balancers protocol (range_map usage).

Definition eip_config (eip : Eip) (r : option Range) : Config :=
  {| Cfg_Name := Eip_Name eip; Cfg_IPRange := r; Cfg_Iface := Interface (Eip_Spec eip) |}.

Definition setBalancerWithEIP (w : W) (eip : Eip) : ST (SMgr Sp) () :=
  r ← st_lift (ParseRange (Address (Eip_Spec eip)));
  _ ← on_speaker (GetProtocol eip) (ConfigureWithEIP (eip_config eip r) false);
  setBalancer w (GetProtocol eip) (used_map (Eip_Status eip)).

Definition delBalancerWithEIP (eip : Eip) : ST (SMgr Sp) () :=
  _ ← delBalancer (GetProtocol eip) (used_map (Eip_Status eip));
  r ← st_lift (ParseRange (Address (Eip_Spec eip)));
  on_speaker (GetProtocol eip) (ConfigureWithEIP (eip_config eip r) true).

Definition isSpeakerConfigUpdate (old new : EipSpec) : bool :=
  if negb (bool_decide (Protocol old = Protocol new)) then true
  else if negb (bool_decide (Protocol new = constant.OpenELBProtocolBGP))
          && negb (bool_decide (Interface old = Interface new)) then true
  else false.

Definition put_pool (eip : Eip) : ST (SMgr Sp) () := λ m,
  (set_pools m (<[Eip_Name eip := eip]> (pools m)), Ok ()).
Definition drop_pool (name : string) : ST (SMgr Sp) () := λ m,
  (set_pools m (delete name (pools m)), Ok ()).

Definition HandleEIP (w : W) (eip : option Eip) : ST (SMgr Sp) () := λ m,
  match eip with
  | None => (m, Ok ())
  | Some eip =>
      match speakers m !! GetProtocol eip with
      | None => (m, Err (Errorf ("no registered speaker:[" +:+ GetProtocol eip +:+ "] eip:[" +:+ Eip_Name eip +:+ "]")))
      | Some _ =>
          match pools m !! Eip_Name eip with
          | None => (_ ← setBalancerWithEIP w eip; put_pool eip) m
          | Some oldData =>
              if negb (IsZero (DeletionTimestamp (Eip_Meta eip))) then
                (_ ← delBalancerWithEIP oldData; drop_pool (Eip_Name eip)) m
              else if isSpeakerConfigUpdate (Eip_Spec eip) (Eip_Spec oldData) then
                (_ ← delBalancerWithEIP oldData;
                 _ ← drop_pool (Eip_Name eip);
                 _ ← setBalancerWithEIP w eip;
                 put_pool eip) m
              else if decide (Used (Eip_Status eip) = Used (Eip_Status oldData)) then (m, Ok ())
              else
                let '(add, del) := DiffMaps (used_map (Eip_Status oldData)) (used_map (Eip_Status eip)) in
                (_ ← delBalancer (GetProtocol eip) del;
                 _ ← setBalancer w (GetProtocol eip) add;
                 put_pool eip) m
          end
      end
  end.

Definition getSvcEIPUsed (svc : Service) : string :=
  let eipName := mget0 (Labels (Svc_Meta svc)) constant.OpenELBEIPAnnotationKeyV1Alpha2 in
  if negb (str_empty eipName) then eipName
  else mget0 (Annotations (Svc_Meta svc)) constant.OpenELBEIPAnnotationKeyV1Alpha2.

(** The addresses of the service's status that [HandleService] announces. *)
Fixpoint service_ingress (eip : Eip) (addr : option Range) (key : string) (ips : list Ingress) (acc : smap)
    : Result smap :=
  match ips with
  | [] => Ok acc
  | ip :: rest =>
      let found := mget (Used (Eip_Status eip)) (Ingress_IP ip) in
      let value := default "" found in
      if decide (value = key) then service_ingress eip addr key rest acc
      else
        let value := if decide (is_Some found) then value +:+ ";" else value in
        match addr with
        | None => Panic
        | Some r =>
            service_ingress eip addr key rest
              (if Range_Contains r (ParseIP (Ingress_IP ip))
               then <[Ingress_IP ip := value +:+ key]> acc else acc)
        end
  end.

Definition HandleService (w : W) (svc : option Service) : ST (SMgr Sp) () := λ m,
  match svc with
  | None => (m, Ok ())
  | Some svc =>
      if negb (IsZero (DeletionTimestamp (Svc_Meta svc))) then (m, Ok ())
      else match pools m !! getSvcEIPUsed svc with
           | None => (m, Ok ())
           | Some eip =>
               (addr ← st_lift (ParseRange (Address (Eip_Spec eip)));
                ingress ← st_lift (service_ingress eip addr
                  (NamespacedName (Namespace (Svc_Meta svc)) (Name (Svc_Meta svc)))
                  (default [] (Svc_Ingress svc)) ∅);
                setBalancer w (GetProtocol eip) ingress) m
           end
  end.

(** [ResyncEIPSpeaker]: an error of one pool is only logged. *)
Fixpoint resync (w : W) (items : list Eip) : ST (SMgr Sp) () :=
  match items with
  | [] => mret (M := ST (SMgr Sp)) ()
  | e :: rest =>
      if negb (bool_decide (Protocol (Eip_Spec e) = constant.OpenELBProtocolLayer2)) then resync w rest
      else _ ← st_try (setBalancer w constant.OpenELBProtocolLayer2 (used_map (Eip_Status e))); resync w rest
  end.
Definition ResyncEIPSpeaker (w : W) : ST (SMgr Sp) () :=
  eips ← st_lift (ListEips w); resync w eips.

(** ** [eip_controller.go] and [lb_controller.go] *)
Definition reloadLayer2Speaker (ns name : string) : bool :=
  bool_decide (name = constant.Layer2ReloadEIPName) && bool_decide (ns = constant.Layer2ReloadEIPNamespace).

Definition EIP_Reconcile (w : W) (ns name : string) : ST (SMgr Sp) () := λ m,
  if reloadLayer2Speaker ns name then ResyncEIPSpeaker w m
  else match GetEip w name with
       | Err e => (m, if IsNotFound e then Ok () else Err e)
       | Panic => (m, Panic)
       | Ok eip => HandleEIP w (Some eip) m
       end.

Definition LB_Reconcile (w : W) (key : string * string) : ST (SMgr Sp) () := λ m,
  match GetService w key with
  | Err e => (m, if IsNotFound e then Ok () else Err e)
  | Panic => (m, Panic)
  | Ok svc => HandleService w (Some svc) m
  end.

Definition speaker_IsOpenELBService (svc : Service) : bool :=
  if negb (bool_decide (Spec_Type (Svc_Spec svc) = LoadBalancerType)) then false
  else bool_decide (mget0 (Annotations (Svc_Meta svc)) constant.OpenELBAnnotationKey
                    = constant.OpenELBAnnotationValue).

Definition shouldReconcileEP (w : W) (e : ObjectMeta) : bool :=
  if negb (str_empty (mget0 (Annotations e) "control-plane.alpha.kubernetes.io/leader")) then false
  else match GetService w (Namespace e, Name e) with
       | Err err => negb (IsNotFound err)
       | Panic => false
       | Ok svc => if decide (Spec_ExternalTrafficPolicy (Svc_Spec svc) = PolicyLocal)
                   then speaker_IsOpenELBService svc else false
       end.

Definition lb_UpdateFunc (old new : Service) : bool :=
  if decide (Spec_ExternalTrafficPolicy (Svc_Spec old) = Spec_ExternalTrafficPolicy (Svc_Spec new))
  then false else speaker_IsOpenELBService new.
End manager.

(** ** What the manager has announced *)
Section lemmas.
Context {R : GoRange} {L : CidrLib}.
Context {W : Type} {K : KubeClient W} {P : ProxyClient W} {EC : EndpointsClient W}.
Context {Sp : Type} {SI : Speaker Sp} (ok : Sp → Prop) (announced : Sp → gset string).
Context {SO : SpeakerOk Sp ok announced}.

Definition ann (m : SMgr Sp) (p : string) : gset string :=
  match speakers m !! p with Some s => announced s | None => ∅ end.
Definition all_ok (m : SMgr Sp) : Prop := ∀ p s, speakers m !! p = Some s → ok s.

(** [m'] differs from [m] in what the speaker [p] announces, by [f] at most. *)
Record moves (p : string) (bound : gset string) (m m' : SMgr Sp) : Prop := {
  mv_ok : all_ok m';
  mv_ann : ann m' p ⊆ bound;
  mv_other : ∀ q, q ≠ p → ann m' q = ann m q;
  mv_pools : pools m' = pools m;
}.

Lemma on_speaker_moves {A} p (call : ST Sp A) (bound : gset string) (Q : Result A → Prop) m m' r :
  all_ok m →
  (∀ s s' r, ok s → announced s = ann m p → call s = (s', r) → ok s' ∧ announced s' ⊆ bound ∨ ¬ Q r) →
  ann m p ⊆ bound ∨ is_Some (speakers m !! p) →
  on_speaker p call m = (m', r) → Q r → moves p bound m m'.
Proof.
  intros Hok Hcall Hb. unfold on_speaker. destruct (speakers m !! p) as [s|] eqn:E.
  - destruct (call s) as [s' r'] eqn:Ec. intros [= <- ->] HQ.
    assert (announced s = ann m p) as Hann by (unfold ann; by rewrite E).
    destruct (Hcall s s' r (Hok p s E) Hann Ec) as [[Hs Hsub]|]; [|done]. constructor.
    + intros q x. cbn. intros [[<- <-]|[_ Hx]]%lookup_insert_Some; [done|by apply (Hok q)].
    + unfold ann. cbn. by rewrite lookup_insert_eq.
    + intros q Hq. unfold ann. cbn. by rewrite lookup_insert_ne.
    + done.
  - intros [= <- <-] _. destruct Hb as [Hb|[x Hx]]; [|done]. by constructor.
Qed.

Lemma moves_trans p b1 b2 m1 m2 m3 : moves p b1 m1 m2 → moves p b2 m2 m3 → moves p b2 m1 m3.
Proof.
  intros [H1 H2 H3 H4] [K1 K2 K3 K4]. constructor; [done|done| |congruence].
  intros q Hq. rewrite K3, H3 by done. done.
Qed.

Lemma moves_weaken p b1 b2 m m' : moves p b1 m m' → b1 ⊆ b2 → moves p b2 m m'.
Proof. intros [H1 H2 H3 H4] Hb. constructor; [done|set_solver|done|done]. Qed.

Definition keys (l : list (string * string)) : gset string := list_to_set l.*1.

Lemma set_balancers_moves w p l : ∀ m m' r, all_ok m → set_balancers w p l m = (m', r) →
  moves p (keys l ∪ ann m p) m m'.
Proof.
  induction l as [|[ip v] l IH]; intros m m' r Hok; cbn [set_balancers].
  { intros [= <- <-]. constructor; [done|set_solver|done|done]. }
  unfold mbind at 1, ST_bind at 1, st_lift. destruct (getServiceNodes w v) as [nodes| |].
  2, 3: intros [= <- <-]; constructor; [done|set_solver|done|done].
  assert (∀ m1, moves p ({[ip]} ∪ ann m p) m m1 → ∀ m2 r, set_balancers w p l m1 = (m2, r) →
    moves p (keys ((ip, v) :: l) ∪ ann m p) m m2) as Hstep.
  { intros m1 Hm1 m2 r2 H2. eapply moves_trans; [exact Hm1|].
    eapply moves_weaken; [eapply IH; [apply Hm1|exact H2]|].
    pose proof (mv_ann _ _ _ _ Hm1). unfold keys. cbn. set_solver. }
  destruct nodes as [|n nodes].
  { apply Hstep. constructor; [done|set_solver|done|done]. }
  unfold mbind, ST_bind. destruct (on_speaker p _ m) as [m1 r1] eqn:E1.
  assert (moves p ({[ip]} ∪ ann m p) m m1) as Hm1.
  { apply (on_speaker_moves p _ ({[ip]} ∪ ann m p) (λ _, True)) in E1; [done|done| |left; set_solver|done].
    intros s s' r0 Hs Hann Hc. left. rewrite <- Hann. by apply (SetBalancer_law ip (n :: nodes) s s' r0). }
  destruct r1 as [[]| |]; [by apply Hstep|intros [= <- <-]..];
    (eapply moves_weaken; [exact Hm1|unfold keys; cbn; set_solver]).
Qed.

Lemma del_balancers_moves p l : ∀ m m' r, all_ok m → del_balancers p l m = (m', r) →
  moves p (ann m p) m m' ∧ (r = Ok () → ann m' p ⊆ ann m p ∖ keys l).
Proof.
  induction l as [|[ip v] l IH]; intros m m' r Hok; cbn [del_balancers].
  { intros [= <- <-]. split; [by constructor|]. intros _. unfold keys. cbn. set_solver. }
  unfold mbind, ST_bind. destruct (on_speaker p _ m) as [m1 r1] eqn:E1.
  pose proof E1 as E1'.
  apply (on_speaker_moves p _ (ann m p) (λ _, True)) in E1; [|done| |by left|done].
  2: { intros s s' r0 Hs Hann Hc. left. rewrite <- Hann.
       by destruct (DelBalancer_law ip s s' r0 Hs Hc) as (? & ? & _). }
  destruct r1 as [[]| |]; [|intros [= <- <-]; done..].
  assert (ip ∉ ann m1 p) as Hip.
  { apply (on_speaker_moves p _ (ann m p ∖ {[ip]}) (λ r, r = Ok ())) in E1' as [_ Hsub _ _]; [set_solver|done| | |done].
    - intros s s' r0 Hs Hann Hc. destruct (DelBalancer_law ip s s' r0 Hs Hc) as (? & Hs' & Hgone).
      destruct (decide (r0 = Ok ())) as [Heq|]; [left|by right]. split; [done|].
      specialize (Hgone Heq). set_solver.
    - unfold on_speaker in E1'. destruct (speakers m !! p); [eauto|done]. }
  intros H. destruct (IH m1 m' r (mv_ok _ _ _ _ E1) H) as [Hm Hok'].
  split.
  - eapply moves_trans; [exact E1|]. eapply moves_weaken; [exact Hm|apply E1].
  - intros Hr. specialize (Hok' Hr). pose proof (mv_ann _ _ _ _ E1). unfold keys in *. cbn. set_solver.
Qed.

Lemma keys_range u : keys (range_map u) = dom u.
Proof.
  apply set_eq. intros x. unfold keys. rewrite elem_of_list_to_set, list_elem_of_fmap, elem_of_dom.
  split.
  - intros ([k v] & -> & H%elem_of_range_map). cbn. eauto.
  - intros [v Hv]. exists (x, v). split; [done|]. by apply elem_of_range_map.
Qed.

(** ** The two directions on a whole pool, however the calls end *)
Lemma on_speaker_frame {A} p (call : ST Sp A) m m' r : all_ok m →
  (∀ s s' r, ok s → call s = (s', r) → ok s' ∧ announced s' ⊆ announced s) →
  on_speaker p call m = (m', r) → moves p (ann m p) m m'.
Proof.
  intros Hok Hcall H. apply (on_speaker_moves p call (ann m p) (λ _, True) m m' r); [done| |by left|done|done].
  intros s s' r0 Hs <- Hc. left. by eapply Hcall.
Qed.

Lemma setBalancerWithEIP_moves w e m m' r : all_ok m → setBalancerWithEIP w e m = (m', r) →
  moves (GetProtocol e) (dom (used_map (Eip_Status e)) ∪ ann m (GetProtocol e)) m m'.
Proof.
  intros Hok. unfold setBalancerWithEIP, mbind, ST_bind, st_lift.
  assert (∀ m1, moves (GetProtocol e) (ann m (GetProtocol e)) m m1 →
    moves (GetProtocol e) (dom (used_map (Eip_Status e)) ∪ ann m (GetProtocol e)) m m1) as Hw
    by (intros m1 Hm1; eapply moves_weaken; [done|set_solver]).
  destruct (ParseRange _) as [rg|er|]; [|by intros [= <- <-]; apply Hw..].
  destruct (on_speaker _ _ m) as [m1 r1] eqn:E1. apply on_speaker_frame in E1; [|done|by intros; eapply ConfigureWithEIP_law].
  destruct r1 as [[]|er|]; [|by intros [= <- <-]; apply Hw..]. intros H3.
  apply set_balancers_moves in H3; [|apply E1]. rewrite keys_range in H3.
  eapply moves_trans; [exact E1|]. eapply moves_weaken; [exact H3|]. pose proof (mv_ann _ _ _ _ E1). set_solver.
Qed.

Lemma delBalancerWithEIP_moves e m m' r : all_ok m → delBalancerWithEIP e m = (m', r) →
  moves (GetProtocol e) (ann m (GetProtocol e)) m m' ∧
  (r = Ok () → ann m' (GetProtocol e) ⊆ ann m (GetProtocol e) ∖ dom (used_map (Eip_Status e))).
Proof.
  intros Hok. unfold delBalancerWithEIP, mbind, ST_bind, st_lift.
  destruct (delBalancer _ _ m) as [m1 r1] eqn:E1. apply del_balancers_moves in E1 as [Hm1 H1]; [|done].
  rewrite keys_range in H1. destruct r1 as [[]|er|]; [|by intros [= <- <-]..]. specialize (H1 eq_refl).
  destruct (ParseRange _) as [rg|er|]; [|by intros [= <- <-]..]. intros H3.
  apply on_speaker_frame in H3; [|apply Hm1|by intros; eapply ConfigureWithEIP_law]. pose proof (mv_ann _ _ _ _ H3). split.
  - eapply moves_trans; [exact Hm1|]. eapply moves_weaken; [exact H3|]. apply Hm1.
  - set_solver.
Qed.
End lemmas.

(** ** Where the announcements come from

    The manager announces an address because a pool it knows records it, or
    because of one of three operations that announce without recording: a
    handling of a pool that fails half way, a service event and a
    resynchronisation.  The ledger is the set of the (protocol, address) pairs
    of these three kinds that no later handling has withdrawn; it is not part of
    the program. *)
Abbreviation ledger := (gset (string * string)).

(** The addresses of [u] under the protocol [p]. *)
Definition claims (p : string) (u : gset string) : ledger := set_map (pair p) u.
Lemma elem_of_claims p u q ip : (q, ip) ∈ claims p u ↔ q = p ∧ ip ∈ u.
Proof. unfold claims. rewrite elem_of_map. naive_solver. Qed.

Section ledgers.
Context {R : GoRange} {L : CidrLib} {W : Type} {K : KubeClient W} {Sp : Type}.

(** What a successful handling of [e] withdraws, if the manager knew the pool
    as [old]: the addresses of the copy when the pool goes or is set up anew,
    those that are recorded no longer otherwise. *)
Definition withdrawn (old : option Eip) (e : Eip) : ledger :=
  match old with
  | None => ∅
  | Some o =>
      if negb (IsZero (DeletionTimestamp (Eip_Meta e))) || isSpeakerConfigUpdate (Eip_Spec e) (Eip_Spec o)
      then claims (GetProtocol o) (dom (used_map (Eip_Status o)))
      else claims (GetProtocol e) (dom (used_map (Eip_Status o)) ∖ dom (used_map (Eip_Status e)))
  end.

Definition handle_ledger (m : SMgr Sp) (e : Eip) (r : Result ()) (l : ledger) : ledger :=
  match r with
  | Ok _ => l ∖ withdrawn (pools m !! Eip_Name e) e
  | _ => l ∪ claims (GetProtocol e) (dom (used_map (Eip_Status e)))
  end.

(** The addresses of a service's status that lie in the pool it names. *)
Definition service_claims (m : SMgr Sp) (svc : Service) : ledger :=
  match pools m !! getSvcEIPUsed svc with
  | None => ∅
  | Some e =>
      match ParseRange (Address (Eip_Spec e)) with
      | Ok (Some rg) => claims (GetProtocol e)
          (list_to_set (Ingress_IP <$> List.filter (λ i, Range_Contains rg (ParseIP (Ingress_IP i))) (default [] (Svc_Ingress svc))))
      | _ => ∅
      end
  end.

(** The recorded addresses of the layer-2 pools. *)
Definition resync_claims (items : list Eip) : ledger :=
  ⋃ ((λ e, if bool_decide (Protocol (Eip_Spec e) = constant.OpenELBProtocolLayer2)
           then claims constant.OpenELBProtocolLayer2 (dom (used_map (Eip_Status e))) else ∅) <$> items).

(** The ledger after a reconciliation of the two controllers. *)
Definition eip_ledger (w : W) (ns name : string) (m : SMgr Sp) (r : Result ()) (l : ledger) : ledger :=
  if reloadLayer2Speaker ns name then match ListEips w with Ok items => l ∪ resync_claims items | _ => l end
  else match GetEip w name with Ok e => handle_ledger m e r l | _ => l end.
Definition lb_ledger (w : W) (key : string * string) (m : SMgr Sp) (l : ledger) : ledger :=
  match GetService w key with Ok svc => l ∪ service_claims m svc | _ => l end.
End ledgers.

(** ** Every announcement belongs to a pool or is in the ledger *)
Section invariant.
Context {R : GoRange} {L : CidrLib}.
Context {W : Type} {K : KubeClient W} {P : ProxyClient W} {EC : EndpointsClient W}.
Context {Sp : Type} {SI : Speaker Sp} (ok : Sp → Prop) (announced : Sp → gset string).
Context {SO : SpeakerOk Sp ok announced}.

Definition recorded (ps : gmap string Eip) (p ip : string) : Prop :=
  ∃ n e, ps !! n = Some e ∧ GetProtocol e = p ∧ ip ∈ dom (used_map (Eip_Status e)).

Record mgr_inv (m : SMgr Sp) (l : ledger) : Prop := {
  mi_ok : all_ok ok m;
  mi_names : ∀ n e, pools m !! n = Some e → Eip_Name e = n;
  mi_recorded : ∀ p ip, ip ∈ ann announced m p → recorded (pools m) p ip ∨ (p, ip) ∈ l;
}.

Lemma recorded_insert ps e n p ip : n = Eip_Name e → recorded ps p ip →
  (∀ old, ps !! n = Some old → GetProtocol old = p → ip ∈ dom (used_map (Eip_Status old)) →
     GetProtocol e = p ∧ ip ∈ dom (used_map (Eip_Status e))) →
  recorded (<[n := e]> ps) p ip.
Proof.
  intros -> (k & x & Hx & Hp & Hip) Hold. destruct (decide (k = Eip_Name e)) as [->|Hne].
  - destruct (Hold x Hx Hp Hip). exists (Eip_Name e), e. by rewrite lookup_insert_eq.
  - exists k, x. by rewrite lookup_insert_ne.
Qed.

Lemma recorded_delete ps n p ip : recorded ps p ip →
  recorded (delete n ps) p ip ∨ ∃ o, ps !! n = Some o ∧ GetProtocol o = p ∧ ip ∈ dom (used_map (Eip_Status o)).
Proof.
  intros (k & x & Hx & Hp & Hip). destruct (decide (k = n)) as [->|Hne]; [by right; exists x|].
  left. exists k, x. by rewrite lookup_delete_ne.
Qed.

(** A step that announces at most [new] more, with the same pools, is one for
    the ledger. *)
Lemma inv_loose m m' l p new : mgr_inv m l → moves ok announced p (new ∪ ann announced m p) m m' →
  mgr_inv m' (l ∪ claims p new).
Proof.
  intros [Hok Hn Hr] [H1 H2 H3 H4]. constructor; [done|by rewrite H4|]. rewrite H4. intros q ip Hip.
  assert (ip ∈ ann announced m q ∨ (q = p ∧ ip ∈ new)) as [Hm|Hm].
  { destruct (decide (q = p)) as [->|Hq]; [apply H2 in Hip; set_solver|left; by rewrite <- H3]. }
  - destruct (Hr q ip Hm); [by left|right; set_solver].
  - right. apply elem_of_union_r. by apply elem_of_claims.
Qed.

Lemma inv_weaken m l l' : mgr_inv m l → l ⊆ l' → mgr_inv m l'.
Proof. intros [H1 H2 H3] Hl. constructor; [done..|]. intros p ip Hip. destruct (H3 p ip Hip); [by left|right; set_solver]. Qed.

(** A pool that was announced becomes known. *)
Lemma inv_put e m l : mgr_inv m (l ∪ claims (GetProtocol e) (dom (used_map (Eip_Status e)))) →
  (∀ old ip, pools m !! Eip_Name e = Some old → ip ∈ ann announced m (GetProtocol old) →
     ip ∈ dom (used_map (Eip_Status old)) → GetProtocol e = GetProtocol old ∧ ip ∈ dom (used_map (Eip_Status e))) →
  mgr_inv (set_pools m (<[Eip_Name e := e]> (pools m))) l.
Proof.
  intros [Hok Hn Hr] Hold. constructor; cbn.
  - done.
  - intros n x [[<- <-]|[_ Hx]]%lookup_insert_Some; [done|by apply Hn].
  - intros p ip Hip. change (ann announced _ p) with (ann announced m p) in Hip.
    destruct (Hr p ip Hip) as [H|H].
    + left. apply recorded_insert; [done..|]. intros old Ho <- Hd. by apply (Hold old ip).
    + apply elem_of_union in H as [H|[-> H]%elem_of_claims]; [by right|left]. exists (Eip_Name e), e.
      by rewrite lookup_insert_eq.
Qed.

(** A pool that was withdrawn is dropped. *)
Lemma inv_drop n m l : mgr_inv m l →
  (∀ old ip, pools m !! n = Some old → ip ∈ dom (used_map (Eip_Status old)) → ip ∉ ann announced m (GetProtocol old)) →
  mgr_inv (set_pools m (delete n (pools m))) l.
Proof.
  intros [Hok Hn Hr] Hgone. constructor; cbn.
  - done.
  - intros k x [_ Hx]%lookup_delete_Some. by apply Hn.
  - intros p ip Hip. change (ann announced _ p) with (ann announced m p) in Hip.
    destruct (Hr p ip Hip) as [[H|(o & Ho & <- & Hd)]%(recorded_delete _ n)|H]; [by left| |by right].
    by destruct (Hgone o ip Ho Hd).
Qed.

(** What is announced no longer may leave the ledger. *)
Lemma inv_narrow m l gone : mgr_inv m l → (∀ p ip, (p, ip) ∈ gone → ip ∈ ann announced m p → recorded (pools m) p ip) →
  mgr_inv m (l ∖ gone).
Proof.
  intros [Hok Hn Hr] Hg. constructor; [done..|]. intros p ip Hip. destruct (Hr p ip Hip) as [?|Hl]; [by left|].
  destruct (decide ((p, ip) ∈ gone)) as [Hin|Hout]; [left; by apply Hg|right; set_solver].
Qed.

(** A pool is withdrawn, whatever the result. *)
Lemma inv_withdraw o m m' l r : mgr_inv m l → delBalancerWithEIP o m = (m', r) →
  mgr_inv m' l ∧ pools m' = pools m ∧
  (r = Ok () → ∀ ip, ip ∈ dom (used_map (Eip_Status o)) → ip ∉ ann announced m' (GetProtocol o)).
Proof.
  intros Hinv H. apply (delBalancerWithEIP_moves ok announced) in H as [Hm Hok]; [|apply Hinv].
  split_and!; [|apply Hm|intros Hr; specialize (Hok Hr); set_solver].
  eapply inv_weaken; [apply (inv_loose m m' l (GetProtocol o) ∅ Hinv)|].
  - eapply (moves_weaken ok announced); [exact Hm|set_solver].
  - intros [q x]. rewrite elem_of_union, elem_of_claims. set_solver.
Qed.

(** A pool that the manager does not know is announced and put down. *)
Lemma inv_announce w e m m' l r : mgr_inv m l → pools m !! Eip_Name e = None →
  (setBalancerWithEIP w e ≫= λ _, put_pool e) m = (m', r) →
  mgr_inv m' (if decide (r = Ok ()) then l else l ∪ claims (GetProtocol e) (dom (used_map (Eip_Status e)))).
Proof.
  intros Hinv Hnew. unfold mbind, ST_bind. destruct (setBalancerWithEIP w e m) as [m1 r1] eqn:E1.
  apply (setBalancerWithEIP_moves ok announced) in E1; [|apply Hinv].
  pose proof (inv_loose m m1 l _ _ Hinv E1) as H1.
  destruct r1 as [[]|er|]; intros [= <- <-]; [rewrite decide_True by done|by rewrite decide_False..].
  apply inv_put; [done|]. rewrite (mv_pools _ _ _ _ _ _ E1), Hnew. done.
Qed.

Lemma same_config_protocol a b : isSpeakerConfigUpdate a b = false → Protocol a = Protocol b.
Proof. unfold isSpeakerConfigUpdate. destruct (bool_decide (Protocol a = Protocol b)) eqn:E; [|done]. by bool_to_prop. Qed.

(** The records of a known pool change. *)
Lemma inv_diff w e old m m' l r add del : mgr_inv m l → pools m !! Eip_Name e = Some old →
  GetProtocol old = GetProtocol e →
  DiffMaps (used_map (Eip_Status old)) (used_map (Eip_Status e)) = (add, del) →
  (_ ← delBalancer (GetProtocol e) del; _ ← setBalancer w (GetProtocol e) add; put_pool e) m = (m', r) →
  mgr_inv m' (if decide (r = Ok ())
              then l ∖ claims (GetProtocol e) (dom (used_map (Eip_Status old)) ∖ dom (used_map (Eip_Status e)))
              else l ∪ claims (GetProtocol e) (dom (used_map (Eip_Status e)))).
Proof.
  intros Hinv Hold Hproto Hdiff.
  assert (∀ ip, (ip ∈ dom add → ip ∈ dom (used_map (Eip_Status e))) ∧
    (ip ∈ dom (used_map (Eip_Status old)) → ip ∉ dom (used_map (Eip_Status e)) → ip ∈ dom del)) as Hd.
  { intros ip. pose proof (DiffMaps_lookup (used_map (Eip_Status old)) (used_map (Eip_Status e)) ip) as [Ha Hd].
    rewrite Hdiff in Ha, Hd. cbn [fst snd] in Ha, Hd. rewrite !elem_of_dom, Ha, Hd. split.
    - by destruct (used_map (Eip_Status old) !! ip).
    - intros Ho Hn. destruct (used_map (Eip_Status e) !! ip); [by destruct Hn|done]. }
  assert (∀ x, claims (GetProtocol e) ∅ ∪ x = x) as Hnil by (intros x; unfold claims; by rewrite set_map_empty, union_empty_l_L).
  unfold mbind, ST_bind. destruct (delBalancer _ del m) as [m1 r1] eqn:E1.
  apply (del_balancers_moves ok announced) in E1 as [Hm1 H1]; [|apply Hinv]. rewrite keys_range in H1.
  assert (mgr_inv m1 l) as Hi1.
  { rewrite <- (Hnil l), union_comm_L. apply (inv_loose m); [done|]. eapply (moves_weaken ok announced); [exact Hm1|set_solver]. }
  destruct r1 as [[]|er|]; [|intros [= <- <-]; rewrite decide_False by done; eapply inv_weaken; [done|set_solver]..].
  specialize (H1 eq_refl). destruct (setBalancer w _ add m1) as [m2 r2] eqn:E2.
  apply (set_balancers_moves ok announced) in E2; [|apply Hm1]. rewrite keys_range in E2.
  assert (mgr_inv m2 (l ∪ claims (GetProtocol e) (dom (used_map (Eip_Status e))))) as Hi2.
  { apply (inv_loose m1); [done|]. eapply (moves_weaken ok announced); [exact E2|]. set_solver. }
  destruct r2 as [[]|er|]; intros [= <- <-]; [rewrite decide_True by done|by rewrite decide_False..].
  assert (∀ ip, ip ∈ ann announced m2 (GetProtocol e) → ip ∈ dom (used_map (Eip_Status old)) →
    ip ∈ dom (used_map (Eip_Status e))) as Hkept.
  { intros ip Hip Ho. destruct (decide (ip ∈ dom (used_map (Eip_Status e)))) as [|Hn]; [done|].
    destruct (Hd ip) as [Ha Hdel]. specialize (Hdel Ho Hn). apply (mv_ann _ _ _ _ _ _ E2) in Hip. set_solver. }
  apply inv_narrow; [apply inv_put; [done|]|].
  - rewrite (mv_pools _ _ _ _ _ _ E2), (mv_pools _ _ _ _ _ _ Hm1), Hold. intros o ip [= <-] Hip Ho.
    rewrite Hproto in Hip. split; [done|by apply Hkept].
  - intros p ip [-> Hip]%elem_of_claims Ha. change (ann announced _ _) with (ann announced m2 (GetProtocol e)) in Ha.
    specialize (Hkept ip Ha). set_solver.
Qed.

Lemma HandleEIP_inv w e m m' l r : mgr_inv m l → HandleEIP w (Some e) m = (m', r) → mgr_inv m' (handle_ledger m e r l).
Proof.
  intros Hinv. unfold HandleEIP, handle_ledger.
  assert (∀ r m', mgr_inv m' (if decide (r = Ok ()) then l ∖ withdrawn (pools m !! Eip_Name e) e
      else l ∪ claims (GetProtocol e) (dom (used_map (Eip_Status e)))) →
    mgr_inv m' match r with Ok _ => l ∖ withdrawn (pools m !! Eip_Name e) e
      | _ => l ∪ claims (GetProtocol e) (dom (used_map (Eip_Status e))) end) as Hr.
  { intros [[]|er|] m1; [rewrite decide_True by done|rewrite decide_False by done..]; done. }
  assert (∀ m', mgr_inv m' l → mgr_inv m' (l ∪ claims (GetProtocol e) (dom (used_map (Eip_Status e))))) as Hfail
    by (intros m1 H1; eapply inv_weaken; [done|set_solver]).
  intros H. apply Hr. revert H. destruct (speakers m !! GetProtocol e); [|intros [= <- <-]; rewrite decide_False by done; by apply Hfail].
  destruct (pools m !! Eip_Name e) as [old|] eqn:Ep.
  2: { cbn [withdrawn]. rewrite difference_empty_L. by apply inv_announce. }
  cbn [withdrawn]. destruct (negb (IsZero _)) eqn:Ez; cbn [orb].
  { unfold mbind, ST_bind. destruct (delBalancerWithEIP old m) as [m1 r1] eqn:E1.
    destruct (inv_withdraw old m m1 l r1 Hinv E1) as (H1 & Hp & Hw).
    destruct r1 as [[]|er|]; intros [= <- <-]; [rewrite decide_True by done|rewrite decide_False by done; by apply Hfail..].
    specialize (Hw eq_refl). apply inv_narrow.
    - apply inv_drop; [done|]. rewrite Hp, Ep. intros o ip [= <-]. apply Hw.
    - intros p ip [-> Hip]%elem_of_claims Ha. by destruct (Hw ip Hip). }
  destruct (isSpeakerConfigUpdate _ _) eqn:Ec.
  { unfold mbind at 1, ST_bind at 1. destruct (delBalancerWithEIP old m) as [m1 r1] eqn:E1.
    destruct (inv_withdraw old m m1 l r1 Hinv E1) as (H1 & Hp & Hw).
    destruct r1 as [[]|er|]; [|intros [= <- <-]; rewrite decide_False by done; by apply Hfail..].
    specialize (Hw eq_refl). set (m2 := set_pools m1 (delete (Eip_Name e) (pools m1))).
    assert (mgr_inv m2 (l ∖ claims (GetProtocol old) (dom (used_map (Eip_Status old))))) as H2.
    { apply inv_narrow; [apply inv_drop; [done|]|].
      - rewrite Hp, Ep. intros o ip [= <-]. apply Hw.
      - intros p ip [-> Hip]%elem_of_claims Ha. by destruct (Hw ip Hip). }
    intros H. apply (inv_announce w e m2 m' _ r H2) in H; [|apply lookup_delete_eq].
    case_decide; [done|]. eapply inv_weaken; [done|]. set_solver. }
  case_decide as Hu.
  { intros [= <- <-]. rewrite decide_True by done. apply inv_narrow; [done|].
    intros p ip [-> Hip]%elem_of_claims _. unfold used_map in Hip. rewrite Hu in Hip. set_solver. }
  destruct (DiffMaps _ _) as [add del] eqn:Ed. intros H.
  apply (inv_diff w e old m m' l r add del); [done..| |done|done].
  unfold GetProtocol. by rewrite (same_config_protocol _ _ Ec).
Qed.

(** The pools the manager knows after a handling: those it knew, and the one it
    handled. *)
Lemma HandleEIP_pools w e m m' l r : mgr_inv m l → HandleEIP w (Some e) m = (m', r) →
  ∀ n x, pools m' !! n = Some x → pools m !! n = Some x ∨ (n = Eip_Name e ∧ x = e).
Proof.
  intros Hinv. pose proof (mi_ok _ _ Hinv) as Hok. unfold HandleEIP.
  assert (∀ (m1 m' : SMgr Sp) r, pools m1 = pools m ∨ pools m1 = delete (Eip_Name e) (pools m) → put_pool e m1 = (m', r) →
    ∀ n x, pools m' !! n = Some x → pools m !! n = Some x ∨ (n = Eip_Name e ∧ x = e)) as Hput.
  { intros m1 m2 r2 [Hp|Hp] [= <- _] n x; cbn; rewrite Hp; intros [[<- <-]|[_ Hx]]%lookup_insert_Some; auto.
    apply lookup_delete_Some in Hx as [_ ?]. auto. }
  destruct (speakers m !! GetProtocol e); [|intros [= <- <-]; auto].
  assert (∀ (m1 m' : SMgr Sp) r, all_ok ok m1 → pools m1 = pools m ∨ pools m1 = delete (Eip_Name e) (pools m) →
    (setBalancerWithEIP w e ≫= λ _, put_pool e) m1 = (m', r) →
    ∀ n x, pools m' !! n = Some x → pools m !! n = Some x ∨ (n = Eip_Name e ∧ x = e)) as Hset.
  { intros m1 m2 r2 Hok1 Hp. unfold mbind, ST_bind. destruct (setBalancerWithEIP w e m1) as [m3 r3] eqn:E3.
    apply (setBalancerWithEIP_moves ok announced) in E3; [|done]. pose proof (mv_pools _ _ _ _ _ _ E3) as Hp3.
    rewrite <- Hp3 in Hp. destruct r3 as [[]|er|]; [by apply (Hput m3)|intros [= <- _] n x..];
      destruct Hp as [-> | ->]; auto; intros [_ ?]%lookup_delete_Some; auto. }
  destruct (pools m !! Eip_Name e) as [old|] eqn:Ep; [|by apply Hset; auto].
  assert (∀ m1 r1, delBalancerWithEIP old m = (m1, r1) → all_ok ok m1 ∧ pools m1 = pools m) as Hdel.
  { intros m1 r1 E1. apply (delBalancerWithEIP_moves ok announced) in E1 as [Hm _]; [|done]. split; apply Hm. }
  destruct (negb _); [|destruct (isSpeakerConfigUpdate _ _)].
  - unfold mbind, ST_bind. destruct (delBalancerWithEIP old m) as [m1 r1] eqn:E1. destruct (Hdel _ _ eq_refl) as [_ Hp].
    destruct r1 as [[]|er|]; intros [= <- _] n x; cbn; rewrite Hp; auto. intros [_ ?]%lookup_delete_Some; auto.
  - unfold mbind at 1, ST_bind at 1. destruct (delBalancerWithEIP old m) as [m1 r1] eqn:E1. destruct (Hdel _ _ eq_refl) as [Hok1 Hp].
    destruct r1 as [[]|er|]; [|intros [= <- _] n x; rewrite Hp; auto..].
    apply (Hset (set_pools m1 (delete (Eip_Name e) (pools m1)))); [done|right; cbn; by rewrite Hp].
  - case_decide; [intros [= <- _]; auto|]. destruct (DiffMaps _ _) as [add del]. unfold mbind, ST_bind.
    destruct (delBalancer _ del m) as [m1 r1] eqn:E1. apply (del_balancers_moves ok announced) in E1 as [Hm1 _]; [|done].
    destruct r1 as [[]|er|]; [|intros [= <- _] n x; rewrite (mv_pools _ _ _ _ _ _ Hm1); auto..].
    destruct (setBalancer w _ add m1) as [m2 r2] eqn:E2. apply (set_balancers_moves ok announced) in E2; [|apply Hm1].
    assert (pools m2 = pools m) as Hp by (rewrite (mv_pools _ _ _ _ _ _ E2); apply Hm1).
    destruct r2 as [[]|er|]; [by apply (Hput m2); left|intros [= <- _] n x; rewrite Hp; auto..].
Qed.

(** A service event and a resynchronisation announce; they know no pools. *)
Lemma service_ingress_dom eip rg key ips : ∀ acc res,
  service_ingress eip (Some rg) key ips acc = Ok res →
  dom res ⊆ dom acc ∪ list_to_set (Ingress_IP <$> List.filter (λ i, Range_Contains rg (ParseIP (Ingress_IP i))) ips).
Proof.
  induction ips as [|i ips IH]; intros acc res; cbn [service_ingress].
  { intros [= <-]. set_solver. }
  assert (list_to_set (C := gset string) (Ingress_IP <$> List.filter (λ i, Range_Contains rg (ParseIP (Ingress_IP i))) ips) ⊆
    list_to_set (Ingress_IP <$> List.filter (λ i, Range_Contains rg (ParseIP (Ingress_IP i))) (i :: ips))) as Hsub.
  { cbn [List.filter]. destruct (Range_Contains rg _); cbn; set_solver. }
  case_decide as Hkey; [intros Hi%IH; set_solver|]. intros Hi%IH. cbn [List.filter] in *.
  destruct (Range_Contains rg (ParseIP (Ingress_IP i))); [|set_solver]. rewrite dom_insert_L in Hi. cbn. set_solver.
Qed.

Lemma HandleService_inv w svc m m' l r : mgr_inv m l → HandleService w (Some svc) m = (m', r) →
  mgr_inv m' (l ∪ service_claims m svc) ∧ pools m' = pools m.
Proof.
  intros Hinv. assert (mgr_inv m (l ∪ service_claims m svc)) as Hw by (eapply inv_weaken; [done|set_solver]).
  unfold HandleService. destruct (negb _); [by intros [= <- <-]|]. unfold service_claims in *.
  destruct (pools m !! getSvcEIPUsed svc) as [e|]; [|by intros [= <- <-]].
  unfold mbind, ST_bind, st_lift. destruct (ParseRange _) as [[rg|]|er|]; [| |by intros [= <- <-]..].
  - destruct (service_ingress _ _ _ _ _) as [ingress|er|] eqn:Ei; [|by intros [= <- <-]..]. intros H.
    apply (set_balancers_moves ok announced) in H; [|apply Hinv]. rewrite keys_range in H. split; [|apply H].
    apply (inv_loose m); [done|]. eapply (moves_weaken ok announced); [exact H|].
    apply service_ingress_dom in Ei. rewrite dom_empty_L in Ei. set_solver.
  - assert (∀ ips acc res, service_ingress e None (NamespacedName (Namespace (Svc_Meta svc)) (Name (Svc_Meta svc))) ips acc = Ok res →
      res = acc) as Hnone.
    { induction ips as [|i ips IH]; intros acc res; cbn; [by intros [= <-]|]. case_decide; [apply IH|done]. }
    destruct (service_ingress _ _ _ _ _) as [ingress|er|] eqn:Ei; [|by intros [= <- <-]..]. apply Hnone in Ei as ->.
    unfold setBalancer. assert (range_map (∅ : smap) = []) as ->; [|by intros [= <- <-]].
    apply Permutation_nil_r. by rewrite range_map_perm, map_to_list_empty.
Qed.

Lemma resync_inv w items : ∀ m m' l r, mgr_inv m l → resync w items m = (m', r) →
  mgr_inv m' (l ∪ resync_claims items) ∧ pools m' = pools m.
Proof.
  unfold resync_claims. induction items as [|e items IH]; intros m m' l r Hinv; cbn [resync fmap list_fmap union_list].
  { intros [= <- <-]. split; [|done]. eapply inv_weaken; [done|set_solver]. }
  destruct (bool_decide _) eqn:Ep; cbn [negb].
  2: { intros H. destruct (IH m m' l r Hinv H) as [H1 Hp]. split; [|done]. eapply inv_weaken; [done|cbn; set_solver]. }
  unfold mbind, ST_bind, st_try. destruct (setBalancer w _ _ m) as [m1 r1] eqn:E1.
  apply (set_balancers_moves ok announced) in E1; [|apply Hinv]. rewrite keys_range in E1.
  pose proof (inv_loose m m1 l _ _ Hinv E1) as H1. pose proof (mv_pools _ _ _ _ _ _ E1) as Hp1.
  destruct r1; [| |intros [= <- <-]; split; [eapply inv_weaken; [done|cbn; set_solver]|done]];
    (intros H; destruct (IH m1 m' _ r H1 H) as [H2 Hp]; split; [eapply inv_weaken; [done|cbn; set_solver]|congruence]).
Qed.

Lemma EIP_Reconcile_inv w ns name m m' l r : mgr_inv m l → EIP_Reconcile w ns name m = (m', r) →
  mgr_inv m' (eip_ledger w ns name m r l).
Proof.
  intros Hinv. unfold EIP_Reconcile, eip_ledger, ResyncEIPSpeaker. destruct (reloadLayer2Speaker ns name).
  - unfold mbind, ST_bind, st_lift. destruct (ListEips w) as [items|er|]; [|by intros [= <- <-]..].
    intros H. by eapply resync_inv.
  - destruct (GetEip w name) as [e|er|]; [by apply HandleEIP_inv|by intros [= <- <-]..].
Qed.

Lemma LB_Reconcile_inv w key m m' l r : mgr_inv m l → LB_Reconcile w key m = (m', r) →
  mgr_inv m' (lb_ledger w key m l) ∧ pools m' = pools m.
Proof.
  intros Hinv. unfold LB_Reconcile, lb_ledger. destruct (GetService w key) as [svc|er|]; [|by intros [= <- <-]..].
  by apply HandleService_inv.
Qed.
End invariant.

(** ** The nodes of an address *)
Section nodes.
Context {R : GoRange} {W : Type} {K : KubeClient W} {P : ProxyClient W} {EC : EndpointsClient W}.

(** A node that serves one of the services: any node, or with the local
    traffic policy one that has an endpoint. *)
Definition serves (w : W) (str : string) (node : Node) : Prop :=
  ∃ ns name svc eps, Split "/" str = [ns; name] ∧ GetService w (ns, name) = Ok svc ∧
    GetEndpoints w (Svc_Key svc) = Ok eps ∧
    (Spec_ExternalTrafficPolicy (Svc_Spec svc) = PolicyLocal →
     ∃ subset, subset ∈ eps ∧ Some (Name (Node_Meta node)) ∈ subset).

Lemma active_nodes_spec eps n : n ∈ active_nodes eps ↔ ∃ subset, subset ∈ eps ∧ Some n ∈ subset.
Proof.
  unfold active_nodes.
  assert (∀ l (acc : gset string), n ∈ foldl (λ acc a, match a with None => acc | Some n => {[n]} ∪ acc end) acc l ↔
    n ∈ acc ∨ Some n ∈ l) as Hin.
  { induction l as [|[x|] l IH]; intros acc; cbn; [set_solver|rewrite IH; set_solver|rewrite IH; set_solver]. }
  assert (∀ (acc : gset string), n ∈ foldl (λ acc subset, foldl (λ acc a,
    match a with None => acc | Some n => {[n]} ∪ acc end) acc subset) acc eps ↔
    n ∈ acc ∨ ∃ subset, subset ∈ eps ∧ Some n ∈ subset) as H; [|rewrite H; set_solver].
  induction eps as [|s eps IH]; intros acc; cbn; [set_solver|]. rewrite IH, Hin. set_solver.
Qed.

Definition by_name (nodes : list Node) (m : gmap string Node) : Prop :=
  ∀ n node, m !! n = Some node → node ∈ nodes ∧ Name (Node_Meta node) = n.

Lemma node_by_name_spec nodes keep : NoDup ((λ n, Name (Node_Meta n)) <$> nodes) →
  ∀ acc, by_name nodes acc →
  by_name nodes (node_by_name nodes keep acc) ∧
  ∀ node, node ∈ nodes → node_by_name nodes keep acc !! Name (Node_Meta node) =
    (if keep node then Some node else acc !! Name (Node_Meta node)).
Proof.
  intros Hnd. unfold node_by_name.
  assert (∀ l acc, NoDup ((λ n, Name (Node_Meta n)) <$> l) → (∀ x, x ∈ l → x ∈ nodes) → by_name nodes acc →
    let r := foldl (λ acc node, if keep node then <[Name (Node_Meta node) := node]> acc else acc) acc l in
    by_name nodes r ∧
    (∀ node, node ∈ l → r !! Name (Node_Meta node) = if keep node then Some node else acc !! Name (Node_Meta node)) ∧
    (∀ n, n ∉ (λ n, Name (Node_Meta n)) <$> l → r !! n = acc !! n)) as H.
  { induction l as [|x l IH]; intros acc Hl Hsub Hacc; cbn.
    { split_and!; [done|by intros ? ?%not_elem_of_nil|done]. }
    cbn in Hl. apply NoDup_cons in Hl as [Hx Hl].
    set (acc' := if keep x then _ else acc).
    assert (by_name nodes acc') as Hacc'.
    { unfold acc'. destruct (keep x); [|done].
      intros n node [[<- <-]|[_ Hn]]%lookup_insert_Some; [split; [apply Hsub; by left|done]|by apply Hacc]. }
    destruct (IH acc' Hl (λ y Hy, Hsub y (list_elem_of_further _ _ _ Hy)) Hacc') as (H1 & H2 & H3).
    split; [done|]. split.
    - intros node [->|Hn]%elem_of_cons.
      + rewrite H3 by done. unfold acc'. destruct (keep x); [by rewrite lookup_insert_eq|done].
      + rewrite H2 by done. destruct (keep node); [done|]. unfold acc'. destruct (keep x); [|done].
        rewrite lookup_insert_ne; [done|]. intros Heq. apply Hx. rewrite Heq. apply list_elem_of_fmap. by exists node.
    - intros n [Hne Hn]%not_elem_of_cons. rewrite H3 by done. unfold acc'. destruct (keep x); [|done].
      by rewrite lookup_insert_ne. }
  intros acc Hacc. destruct (H nodes acc Hnd (λ _ Hx, Hx) Hacc) as (H1 & H2 & _). done.
Qed.

Lemma service_nodes_spec w nodes svcs : NoDup ((λ n, Name (Node_Meta n)) <$> nodes) →
  ∀ acc r, by_name nodes acc → service_nodes w nodes svcs acc = Ok r →
  by_name nodes r ∧ ∀ node, node ∈ nodes →
    r !! Name (Node_Meta node) = Some node ↔
    acc !! Name (Node_Meta node) = Some node ∨ ∃ str, str ∈ svcs ∧ serves w str node.
Proof.
  intros Hnd. induction svcs as [|str svcs IH]; intros acc r Hacc; cbn [service_nodes].
  { intros [= <-]. split; [done|]. intros node _. split; [by left|].
    intros [?|(? & ?%not_elem_of_nil & _)]; done. }
  assert (∀ acc', by_name nodes acc' → service_nodes w nodes svcs acc' = Ok r →
    (∀ node, node ∈ nodes → acc' !! Name (Node_Meta node) = Some node ↔
       acc !! Name (Node_Meta node) = Some node ∨ serves w str node) →
    by_name nodes r ∧ ∀ node, node ∈ nodes → r !! Name (Node_Meta node) = Some node ↔
      acc !! Name (Node_Meta node) = Some node ∨ ∃ s, s ∈ str :: svcs ∧ serves w s node) as Hstep.
  { intros acc' Hacc' Hr Heq. destruct (IH acc' r Hacc' Hr) as [H1 H2]. split; [done|].
    intros node Hn. rewrite H2, Heq by done. setoid_rewrite elem_of_cons.
    split; [intros [[?|?]|(s & ? & ?)]|intros [?|(s & [->|?] & ?)]]; eauto 10. }
  destruct (Split "/" str) as [|ns [|name [|x rest]]] eqn:Es.
  1, 2, 4: intros Hr; apply (Hstep acc Hacc Hr); intros node _; split; [by left|];
    intros [?|(? & ? & ? & ? & He & _)]; [done|by rewrite Es in He].
  intros (svc & Hg & (eps & He & H)%Result_bind_Ok)%Result_bind_Ok.
  assert (∀ node, serves w str node ↔ (Spec_ExternalTrafficPolicy (Svc_Spec svc) = PolicyLocal →
    Name (Node_Meta node) ∈ active_nodes eps)) as Hserves.
  { intros node. rewrite active_nodes_spec. unfold serves. split.
    - intros (a & b & c & d & E1 & E2 & E3 & Hx). rewrite Es in E1. injection E1 as <- <-.
      rewrite Hg in E2. injection E2 as <-. rewrite He in E3. injection E3 as <-. exact Hx.
    - intros Hx. eauto 10. }
  revert H. case_decide as Hpol; [case_decide as Hact|].
  - intros H. apply (Hstep acc Hacc H). intros node _. rewrite Hserves. split; [by left|].
    intros [?|Hx]; [done|]. specialize (Hx Hpol). rewrite Hact in Hx. by apply elem_of_empty in Hx.
  - destruct (node_by_name_spec nodes (λ node, bool_decide (Name (Node_Meta node) ∈ active_nodes eps)) Hnd acc Hacc)
      as [Hb Hl]. intros H. apply (Hstep _ Hb H). intros node Hn. rewrite Hl, Hserves by done.
    case_bool_decide; [split; [by right|done]|]. split; [by left|]. intros [?|Hx]; [done|]. by specialize (Hx Hpol).
  - destruct (node_by_name_spec nodes (λ _, true) Hnd acc Hacc) as [Hb Hl].
    intros H. apply (Hstep _ Hb H). intros node Hn. rewrite Hl, Hserves by done. split; [by right|done].
Qed.
End nodes.

(** ** Properties *)

(** The manager beside its ledger: its two controllers reconcile whatever they
    are asked to, on any state of the server and with any result, and speakers
    come and go. *)
Inductive mgr_step `{R : GoRange} `{L : CidrLib} {W : Type} `{K : KubeClient W} `{P : ProxyClient W}
    `{EC : EndpointsClient W} {Sp : Type} `{SI : Speaker Sp} (ok : Sp → Prop)
    (announced : Sp → gset string) : SMgr Sp * ledger → SMgr Sp * ledger → Prop :=
| ms_eip (w : W) ns name m m' l r : EIP_Reconcile w ns name m = (m', r) →
    mgr_step ok announced (m, l) (m', eip_ledger w ns name m r l)
| ms_service (w : W) key m m' l r : LB_Reconcile w key m = (m', r) →
    mgr_step ok announced (m, l) (m', lb_ledger w key m l)
| ms_register name s m m' l : ok s → announced s = ∅ →
    RegisterSpeaker name s m = (m', Ok ()) → mgr_step ok announced (m, l) (m', l)
| ms_unregister name m m' l : UnRegisterSpeaker name m = (m', Ok ()) → mgr_step ok announced (m, l) (m', l).

Lemma mgr_step_inv `{R : GoRange} `{L : CidrLib} {W : Type} `{K : KubeClient W} `{P : ProxyClient W}
    `{EC : EndpointsClient W} {Sp : Type} `{SI : Speaker Sp} (ok : Sp → Prop)
    (announced : Sp → gset string) `{SO : !SpeakerOk Sp ok announced} s s' :
  mgr_step (W := W) ok announced s s' → mgr_inv ok announced s.1 s.2 → mgr_inv ok announced s'.1 s'.2.
Proof.
  intros [w ns name m m' l r H|w key m m' l r H|name x m m' l Hs Ha [= <-]|name m m' l [= <-]] Hinv; cbn [fst snd] in *.
  - by eapply EIP_Reconcile_inv.
  - by eapply LB_Reconcile_inv.
  - destruct Hinv as [Hok Hn Hr]. constructor; [|done|].
    + intros p y. cbn. intros [[<- <-]|[_ Hx]]%lookup_insert_Some; [done|by apply (Hok p)].
    + intros p ip. unfold ann at 1. cbn. destruct (decide (p = name)) as [->|Hp].
      * rewrite lookup_insert_eq, Ha. set_solver.
      * rewrite lookup_insert_ne by done. apply Hr.
  - destruct Hinv as [Hok Hn Hr]. constructor; [|done|].
    + intros p y. cbn. intros [_ Hx]%lookup_delete_Some. by apply (Hok p).
    + intros p ip. unfold ann at 1. cbn. destruct (decide (p = name)) as [->|Hp].
      * rewrite lookup_delete_eq. set_solver.
      * rewrite lookup_delete_ne by done. apply Hr.
Qed.

(** A manager as its process starts: no pools, nothing announced. *)
Definition starting {Sp : Type} (ok : Sp → Prop) (announced : Sp → gset string) (m : SMgr Sp) : Prop :=
  pools m = ∅ ∧ ∀ p s, speakers m !! p = Some s → ok s ∧ announced s = ∅.

Lemma starting_inv {Sp : Type} (ok : Sp → Prop) (announced : Sp → gset string) m :
  starting ok announced m → mgr_inv ok announced m ∅.
Proof.
  intros [Hp Hs]. constructor.
  - intros p s Hps. by apply (Hs p).
  - rewrite Hp. intros n e. by rewrite lookup_empty.
  - intros p ip. unfold ann. destruct (speakers m !! p) as [s|] eqn:E; [|set_solver].
    destruct (Hs p s E) as [_ ->]. set_solver.
Qed.

(** C9: whatever the manager's controllers are asked to reconcile (new,
    changed, reconfigured, deleted and missing pools, service events,
    resynchronisations), whatever the state of the server is at the time, however
    each of them ends, and whichever speakers come and go: every address a
    speaker announces is recorded in a pool of that speaker's protocol that the
    manager knows, or was announced by a service event, a resynchronisation or a
    handling that failed, and not withdrawn since.  In particular nothing stays
    announced after a handling of its pool that withdraws it, and without those
    three only recorded addresses are announced. *)
Theorem manager_announces_only_recorded `{R : GoRange} `{L : CidrLib} {W : Type} `{K : KubeClient W}
    `{P : ProxyClient W} `{EC : EndpointsClient W} {Sp : Type} `{SI : Speaker Sp} (ok : Sp → Prop)
    (announced : Sp → gset string) `{SO : !SpeakerOk Sp ok announced} (m : SMgr Sp) (l : ledger)
    (Hrun : rtc (mgr_step (W := W) ok announced) (NewSpeakerManager, ∅) (m, l))
    (p : string) (s : Sp) (ip : string)
    (Hs : speakers m !! p = Some s) (Hip : ip ∈ announced s) :
  (∃ n e, pools m !! n = Some e ∧ GetProtocol e = p ∧ ip ∈ dom (used_map (Eip_Status e))) ∨ (p, ip) ∈ l.
Proof.
  assert (mgr_inv ok announced m l) as Hinv.
  { change (mgr_inv ok announced (m, l).1 (m, l).2). revert Hrun.
    apply (rtc_ind_r (λ s, mgr_inv ok announced s.1 s.2)); [by apply starting_inv|].
    intros s1 s2 _ Hstep H1. by eapply mgr_step_inv. }
  apply (mi_recorded _ _ _ _ Hinv). unfold ann. by rewrite Hs.
Qed.

(** C23: the nodes an address is announced with are exactly the nodes that
    serve one of its services: all nodes for the cluster traffic policy, the
    nodes with an endpoint for the local one; each node once. *)
Theorem getServiceNodes_serving `{R : GoRange} {W : Type} `{K : KubeClient W} `{P : ProxyClient W}
    `{EC : EndpointsClient W} (w : W) (svcs : string) (nodes l : list Node)
    (Hnodes : ListNodes w = Ok nodes) (Hnd : NoDup ((λ n, Name (Node_Meta n)) <$> nodes))
    (Hl : getServiceNodes w svcs = Ok l) :
  NoDup l ∧ ∀ node, node ∈ l ↔ node ∈ nodes ∧ ∃ str, str ∈ Split ";" svcs ∧ serves w str node.
Proof.
  unfold getServiceNodes in Hl. rewrite Hnodes in Hl. cbn [mbind Result_bind] in Hl.
  destruct (service_nodes w nodes (Split ";" svcs) ∅) as [r| |] eqn:E; [|done..]. injection Hl as <-.
  apply service_nodes_spec in E as [Hb Hr]; [|done|intros ? ?; by rewrite lookup_empty].
  assert (∀ node, node ∈ (range_map r).*2 ↔ r !! Name (Node_Meta node) = Some node) as Hin.
  { intros node. rewrite list_elem_of_fmap. split.
    - intros ([n x] & -> & Hx%elem_of_range_map). cbn. destruct (Hb n x Hx) as [_ ->]. done.
    - intros Hx. exists (Name (Node_Meta node), node). split; [done|]. by apply elem_of_range_map. }
  split.
  - apply (NoDup_fmap_1 (λ n, Name (Node_Meta n))). rewrite <- list_fmap_compose.
    rewrite (list_fmap_ext _ fst); [apply NoDup_range_map_fst|].
    intros i [n x] Hx%list_elem_of_lookup_2%elem_of_range_map. cbn. by apply Hb.
  - intros node. rewrite Hin. split.
    + intros Hx. destruct (Hb _ _ Hx) as [Hn _]. split; [done|]. apply Hr in Hx; [|done].
      rewrite lookup_empty in Hx. by destruct Hx as [?|?].
    + intros [Hn Hs]. apply Hr; [done|]. by right.
Qed.

(** A pool that is being deleted and that the manager does not know (it
    has already dropped it) is announced like a new one; when the object is
    then gone, reconciling its name changes nothing, so the manager keeps the
    deleted pool and its announcements. *)
Theorem HandleEIP_adopts_deleted_pool `{R : GoRange} `{L : CidrLib} {W : Type} `{K : KubeClient W}
    `{P : ProxyClient W} `{EC : EndpointsClient W} {Sp : Type} `{SI : Speaker Sp}
    (w w2 : W) (e : Eip) (m m' : SMgr Sp) (err : error)
    (Hdel : IsZero (DeletionTimestamp (Eip_Meta e)) = false)
    (Hunknown : pools m !! Eip_Name e = None)
    (Hh : HandleEIP w (Some e) m = (m', Ok ()))
    (Hgone : GetEip w2 (Eip_Name e) = Err err) (Hnf : IsNotFound err = true) :
  pools m' !! Eip_Name e = Some e ∧ EIP_Reconcile w2 "" (Eip_Name e) m' = (m', Ok ()).
Proof.
  split.
  - unfold HandleEIP in Hh. destruct (speakers m !! GetProtocol e); [|done]. rewrite Hunknown in Hh.
    apply ST_bind_Ok in Hh as (m1 & [] & _ & [= <-]). apply lookup_insert_eq.
  - unfold EIP_Reconcile, reloadLayer2Speaker. rewrite andb_false_r. by rewrite Hgone, Hnf.
Qed.

Lemma service_ingress_none eip addr key ips acc :
  (∀ i, i ∈ ips → mget (Used (Eip_Status eip)) (Ingress_IP i) = Some key) →
  service_ingress eip addr key ips acc = Ok acc.
Proof.
  induction ips as [|i ips IH]; intros Hips; cbn; [done|].
  rewrite (Hips i) by left. cbn. rewrite decide_True by done. apply IH. intros j Hj. apply Hips. by right.
Qed.

(** For a service that is the only holder of its addresses,
    [HandleService] calls no speaker: a change of its endpoints or of its
    traffic policy, which is what triggers the call, does not change the nodes
    its addresses are announced with. *)
Theorem HandleService_skips_sole_holder `{R : GoRange} `{L : CidrLib} {W : Type} `{K : KubeClient W}
    `{P : ProxyClient W} `{EC : EndpointsClient W} {Sp : Type} `{SI : Speaker Sp}
    (w : W) (svc : Service) (e : Eip) (r : option Range) (m : SMgr Sp)
    (Hpool : pools m !! getSvcEIPUsed svc = Some e)
    (Hrange : ParseRange (Address (Eip_Spec e)) = Ok r)
    (Hsole : ∀ i, i ∈ default [] (Svc_Ingress svc) →
       mget (Used (Eip_Status e)) (Ingress_IP i) =
       Some (NamespacedName (Namespace (Svc_Meta svc)) (Name (Svc_Meta svc)))) :
  HandleService w (Some svc) m = (m, Ok ()).
Proof.
  unfold HandleService. destruct (negb _); [done|]. rewrite Hpool.
  unfold mbind, ST_bind, st_lift. rewrite Hrange. rewrite service_ingress_none by done.
  unfold setBalancer. assert (range_map (∅ : smap) = []) as ->; [|done].
  apply Permutation_nil_r. rewrite range_map_perm. by rewrite map_to_list_empty.
Qed.

(** ** Witnesses: a speaker that only remembers what it announces *)
#[export] Instance recorder : Speaker (gset string) := {|
  SetBalancer ip nodes s := ({[ip]} ∪ s, Ok ());
  DelBalancer ip s := (s ∖ {[ip]}, Ok ());
  ConfigureWithEIP c b s := (s, Ok ());
|}.
#[export] Instance recorder_ok : SpeakerOk (gset string) (λ _, True) (λ s, s).
Proof. constructor; intros * _ [= <- <-]; set_solver. Qed.

#[export] Instance pw_endpoints : EndpointsClient ProxyWorld := {| GetEndpoints w k := Ok [[Some "node1"; None]] |}.

Definition node1 : Node :=
  {| Node_Meta := {| Name := "node1"; Namespace := ""; Labels := None; Annotations := None;
                     Finalizers := []; DeletionTimestamp := None |};
     Node_Addresses := []; Node_Conditions := [] |}.
Definition speaker_world : ProxyWorld :=
  {| pw_server := {| srv_eips := {["a" := sample]};
       srv_svcs := {[("ns", "s1") := sample_service None "10.0.0.0"]}; srv_nss := ∅ |};
     pw_nodes := [node1]; pw_workloads := ∅; pw_pods := [] |}.
Definition speaker_mgr : SMgr (gset string) :=
  {| speakers := {["layer2" := {["10.0.0.0"]}]}; pools := {["a" := sample]} |}.

Definition first_mgr : SMgr (gset string) := {| speakers := {["layer2" := ∅]}; pools := ∅ |}.
Abbreviation first_ledger := (@eip_ledger ProxyWorld _ (gset string) speaker_world "" "a" first_mgr (Ok ()) ∅).
Lemma manager_announces_only_recorded_witness :
  ∃ n e, pools speaker_mgr !! n = Some e ∧ GetProtocol e = "layer2" ∧
    "10.0.0.0" ∈ dom (used_map (Eip_Status e)).
Proof.
  destruct (@manager_announces_only_recorded canonical_range go_cidr ProxyWorld _ _ _ _ _
    (λ _, True) (λ s, s) _ speaker_mgr first_ledger) with (p := "layer2") (s := ({["10.0.0.0"]} : gset string)) (ip := "10.0.0.0") as [H|H].
  - eapply rtc_l; [apply (ms_register _ _ "layer2" ∅ _ first_mgr); [done|done|reflexivity]|].
    apply rtc_once. apply (ms_eip _ _ speaker_world "" "a"). by vm_compute.
  - by vm_compute.
  - set_solver.
  - exact H.
  - exfalso. revert H. apply (bool_decide_eq_false_1 _). vm_compute. reflexivity.
Defined.

Lemma getServiceNodes_serving_witness :
  ∃ l, @getServiceNodes canonical_range ProxyWorld _ _ _ speaker_world "ns/s1" = Ok l ∧ NoDup l.
Proof.
  eexists. split; [by vm_compute|].
  apply (@getServiceNodes_serving canonical_range ProxyWorld _ _ _ speaker_world "ns/s1" [node1]);
    [done|apply NoDup_singleton|by vm_compute].
Defined.

Definition dying_sample : Eip :=
  {| Eip_Meta := set_DeletionTimestamp (Eip_Meta sample) (Some 1); Eip_Spec := Eip_Spec sample;
     Eip_Status := sample_status |}.

Lemma HandleEIP_adopts_deleted_pool_witness :
  ∃ m', @HandleEIP canonical_range go_cidr ProxyWorld _ _ _ _ recorder speaker_world (Some dying_sample)
      {| speakers := {["layer2" := ∅]}; pools := ∅ |} = (m', Ok ()) ∧
    pools m' !! "a" = Some dying_sample.
Proof.
  eexists. split; [by vm_compute|].
  apply (@HandleEIP_adopts_deleted_pool canonical_range go_cidr ProxyWorld _ _ _ _ recorder
    speaker_world (pw_with_server speaker_world (with_eips (pw_server speaker_world) ∅)) dying_sample
    {| speakers := {["layer2" := ∅]}; pools := ∅ |} _ (ErrNotFound "not found"));
    [done|done|by vm_compute|by vm_compute|done].
Defined.

Lemma HandleService_skips_sole_holder_witness :
  @HandleService canonical_range go_cidr ProxyWorld _ _ _ _ recorder speaker_world
    (Some (sample_service (Some {[constant.OpenELBEIPAnnotationKeyV1Alpha2 := "a"]}) "10.0.0.0")) speaker_mgr
  = (speaker_mgr, Ok ()).
Proof.
  eapply (@HandleService_skips_sole_holder canonical_range go_cidr ProxyWorld _ _ _ _ recorder)
    with (e := sample); [by vm_compute|by vm_compute|].
  intros i Hi. cbn in Hi. apply list_elem_of_singleton in Hi as ->. by vm_compute.
Defined.
