(* ===== verification/Events.v ===== *)
(** * The events of the speaker manager ([pkg/speaker/manager.go])

    The manager tells administrators what it did through Kubernetes events: on
    a pool when its speaker was configured, and on every service that holds an
    address when the address was announced or withdrawn.  [SpeakerManager]
    leaves the events out.  Here the same operations keep the list of the
    events they record; erasing the list gives the operations of
    [SpeakerManager] back ([HandleEIP_events_erase]), so recording an event
    never changes what the manager does, and the events of an announcement are
    given exactly ([setBalancer_events]). *)
From S2P Require Import Prelude GoNet Iprange K8s EipTypes Kube Ipam NodeProxy Speaker SpeakerManager.
Local Open Scope Z_scope.

Inductive event_type := EventTypeNormal | EventTypeWarning.
(** The object of an event: a pool, or a service with its namespace. *)
Inductive event_object := OnEip (name : string) | OnService (key : string * string).
Record event := { ev_object : event_object; ev_type : event_type; ev_reason : string; ev_message : string }.

Section events.
Context {R : GoRange} {GS : GoSort} {L : CidrLib}.
Context {W : Type} {K : KubeClient W} {P : ProxyClient W} {EC : EndpointsClient W}.
Context {Sp : Type} {SI : Speaker Sp}.

(** The manager and the events recorded so far. *)
Abbreviation EMgr := (SMgr Sp * list event)%type.

Definition quiet {A} (p : ST (SMgr Sp) A) : ST EMgr A := λ s,
  let '(m, r) := p s.1 in ((m, s.2), r).
Definition record (evs : list event) : ST EMgr () := λ s, ((s.1, s.2 ++ evs), Ok ()).
(** [if err := p; err != nil { bad(err); return err }] *)
Definition noting {A} (p : ST EMgr A) (bad : error → ST EMgr ()) : ST EMgr A := λ s,
  match p s with (s', Err e) => ((bad e s').1, Err e) | r => r end.

(** [m.Event] on a pool. *)
Definition eip_event (eip : Eip) (t : event_type) (reason message : string) : ST EMgr () :=
  record [{| ev_object := OnEip (Eip_Name eip); ev_type := t; ev_reason := reason; ev_message := message |}].

(** The events of [addSvcEventRecorder]: one per service of the record that
    has a namespace and a name and can be read. *)
Fixpoint svc_events (w : W) (services : list string) (t : event_type) (reason message : string) : list event :=
  match services with
  | [] => []
  | str :: rest =>
      match Split "/" str with
      | [ns; name] =>
          match GetService w (ns, name) with
          | Ok svc => {| ev_object := OnService (Svc_Key svc); ev_type := t; ev_reason := reason; ev_message := message |}
                      :: svc_events w rest t reason message
          | _ => svc_events w rest t reason message
          end
      | _ => svc_events w rest t reason message
      end
  end.
Definition addSvcEventRecorder (w : W) (services : string) (t : event_type) (reason message : string) : ST EMgr () :=
  record (svc_events w (Split ";" services) t reason message).

Definition nexthops_message (nodes : list Node) : string :=
  "success to add nexthops [" +:+ Join (sort_Slice str_ltb ((λ n, Name (Node_Meta n)) <$> nodes)) ", " +:+ "]".
Definition no_nodes_message (ip value : string) : string :=
  "no available nodes for service ip " +:+ ip +:+ ":" +:+ value.

Fixpoint set_balancers_events (w : W) (protocol : string) (usage : list (string * string)) : ST EMgr () :=
  match usage with
  | [] => mret (M := ST EMgr) ()
  | (ip, value) :: rest =>
      nodes ← st_lift (getServiceNodes w value);
      match nodes with
      | [] =>
          _ ← addSvcEventRecorder w value EventTypeWarning "SetBalancer" (no_nodes_message ip value);
          set_balancers_events w protocol rest
      | _ =>
          _ ← noting (quiet (on_speaker protocol (SetBalancer ip nodes)))
                (λ e, addSvcEventRecorder w value EventTypeWarning "SetBalancer" (err_text e));
          _ ← addSvcEventRecorder w value EventTypeNormal "SetBalancer" (nexthops_message nodes);
          set_balancers_events w protocol rest
      end
  end.
Definition setBalancer_recorded (w : W) (protocol : string) (usage : smap) : ST EMgr () :=
  set_balancers_events w protocol (range_map usage).

Fixpoint del_balancers_events (w : W) (protocol : string) (usage : list (string * string)) : ST EMgr () :=
  match usage with
  | [] => mret (M := ST EMgr) ()
  | (ip, svcs) :: rest =>
      _ ← noting (quiet (on_speaker protocol (DelBalancer ip)))
            (λ e, addSvcEventRecorder w svcs EventTypeWarning "DelBalancer" (err_text e));
      _ ← addSvcEventRecorder w svcs EventTypeNormal "DelBalancer" "success to withdraw announcement for service";
      del_balancers_events w protocol rest
  end.
Definition delBalancer_recorded (w : W) (protocol : string) (usage : smap) : ST EMgr () :=
  del_balancers_events w protocol (range_map usage).

Definition setBalancerWithEIP_recorded (w : W) (eip : Eip) : ST EMgr () :=
  r ← st_lift (ParseRange (Address (Eip_Spec eip)));
  _ ← noting (quiet (on_speaker (GetProtocol eip) (ConfigureWithEIP (eip_config eip r) false)))
        (λ e, eip_event eip EventTypeWarning "ConfigSpeakerFailed" (err_text e));
  _ ← eip_event eip EventTypeNormal "ConfigSpeaker" ("config openelb " +:+ GetProtocol eip +:+ " speaker successfully");
  setBalancer_recorded w (GetProtocol eip) (used_map (Eip_Status eip)).

Definition delBalancerWithEIP_recorded (w : W) (eip : Eip) : ST EMgr () :=
  _ ← delBalancer_recorded w (GetProtocol eip) (used_map (Eip_Status eip));
  r ← st_lift (ParseRange (Address (Eip_Spec eip)));
  _ ← noting (quiet (on_speaker (GetProtocol eip) (ConfigureWithEIP (eip_config eip r) true)))
        (λ e, eip_event eip EventTypeWarning "ConfigSpeakerFailed" (err_text e));
  eip_event eip EventTypeNormal "ConfigSpeaker" ("unconfig openelb " +:+ GetProtocol eip +:+ " speaker successfully").

Definition HandleEIP_recorded (w : W) (eip : option Eip) : ST EMgr () := λ s,
  match eip with
  | None => (s, Ok ())
  | Some eip =>
      match speakers s.1 !! GetProtocol eip with
      | None => (s, Err (Errorf ("no registered speaker:[" +:+ GetProtocol eip +:+ "] eip:[" +:+ Eip_Name eip +:+ "]")))
      | Some _ =>
          match pools s.1 !! Eip_Name eip with
          | None => (_ ← setBalancerWithEIP_recorded w eip; quiet (put_pool eip)) s
          | Some oldData =>
              if negb (IsZero (DeletionTimestamp (Eip_Meta eip))) then
                (_ ← delBalancerWithEIP_recorded w oldData; quiet (drop_pool (Eip_Name eip))) s
              else if isSpeakerConfigUpdate (Eip_Spec eip) (Eip_Spec oldData) then
                (_ ← delBalancerWithEIP_recorded w oldData;
                 _ ← quiet (drop_pool (Eip_Name eip));
                 _ ← setBalancerWithEIP_recorded w eip;
                 quiet (put_pool eip)) s
              else if decide (Used (Eip_Status eip) = Used (Eip_Status oldData)) then (s, Ok ())
              else
                let '(add, del) := DiffMaps (used_map (Eip_Status oldData)) (used_map (Eip_Status eip)) in
                (_ ← delBalancer_recorded w (GetProtocol eip) del;
                 _ ← setBalancer_recorded w (GetProtocol eip) add;
                 quiet (put_pool eip)) s
          end
      end
  end.

Definition HandleService_recorded (w : W) (svc : option Service) : ST EMgr () := λ s,
  match svc with
  | None => (s, Ok ())
  | Some svc =>
      if negb (IsZero (DeletionTimestamp (Svc_Meta svc))) then (s, Ok ())
      else match pools s.1 !! getSvcEIPUsed svc with
           | None => (s, Ok ())
           | Some eip =>
               (addr ← st_lift (ParseRange (Address (Eip_Spec eip)));
                ingress ← st_lift (service_ingress eip addr
                  (NamespacedName (Namespace (Svc_Meta svc)) (Name (Svc_Meta svc)))
                  (default [] (Svc_Ingress svc)) ∅);
                setBalancer_recorded w (GetProtocol eip) ingress) s
           end
  end.

(** ** Events do not change what is done *)

(** [p] does what [q] does, and may record events. *)
Definition erases {A} (p : ST EMgr A) (q : ST (SMgr Sp) A) : Prop :=
  ∀ m l, ∃ more, p (m, l) = (((q m).1, l ++ more), (q m).2).

Lemma erases_quiet {A} (q : ST (SMgr Sp) A) : erases (quiet q) q.
Proof. intros m l. exists []. unfold quiet. cbn. destruct (q m). by rewrite app_nil_r. Qed.
Lemma erases_lift {A} (r : Result A) : erases (st_lift r) (st_lift r).
Proof. intros m l. exists []. cbn. by rewrite app_nil_r. Qed.
Lemma erases_ret {A} (a : A) : erases (mret (M := ST EMgr) a) (mret (M := ST (SMgr Sp)) a).
Proof. intros m l. exists []. cbn. by rewrite app_nil_r. Qed.
Lemma erases_bind {A B} p q (f : A → ST EMgr B) (g : A → ST (SMgr Sp) B) :
  erases p q → (∀ a, erases (f a) (g a)) → erases (p ≫= f) (q ≫= g).
Proof.
  intros Hp Hf m l. destruct (Hp m l) as [more E]. unfold mbind, ST_bind. rewrite E.
  destruct (q m) as [m' [a|e|]]; cbn; [|by exists more..].
  destruct (Hf a m' (l ++ more)) as [more2 ->]. exists (more ++ more2). by rewrite app_assoc.
Qed.
Lemma erases_record {A} evs (p : ST EMgr A) q : erases p q → erases (_ ← record evs; p) q.
Proof.
  intros Hp m l. unfold mbind, ST_bind, record. cbn. destruct (Hp m (l ++ evs)) as [more ->].
  exists (evs ++ more). by rewrite app_assoc.
Qed.
Lemma erases_noting {A} (p : ST EMgr A) q (evs : error → list event) :
  erases p q → erases (noting p (λ e, record (evs e))) q.
Proof.
  intros Hp m l. unfold noting. destruct (Hp m l) as [more ->].
  destruct (q m) as [m' [a|e|]]; cbn; [by exists more| |by exists more].
  exists (more ++ evs e). by rewrite app_assoc.
Qed.
(** A last event. *)
Lemma erases_last p q evs : erases p q → erases (_ ← p; record evs) q.
Proof.
  intros Hp m l. destruct (Hp m l) as [more E]. unfold mbind, ST_bind. rewrite E.
  destruct (q m) as [m' [[]|e|]]; cbn; [|by exists more..]. exists (more ++ evs). by rewrite app_assoc.
Qed.

#[local] Hint Resolve erases_quiet erases_lift erases_ret erases_bind erases_record erases_noting erases_last : core.

Lemma set_balancers_erase w protocol usage :
  erases (set_balancers_events w protocol usage) (set_balancers w protocol usage).
Proof.
  induction usage as [|[ip value] rest IH]; cbn; [auto|]. apply erases_bind; [auto|]. intros [|n ns]; [by apply erases_record|].
  apply erases_bind; [by apply erases_noting|]. intros _. by apply erases_record.
Qed.
Lemma del_balancers_erase w protocol usage :
  erases (del_balancers_events w protocol usage) (del_balancers protocol usage).
Proof.
  induction usage as [|[ip value] rest IH]; cbn; [auto|].
  apply erases_bind; [by apply erases_noting|]. intros _. by apply erases_record.
Qed.
Lemma setBalancerWithEIP_erase w eip : erases (setBalancerWithEIP_recorded w eip) (setBalancerWithEIP w eip).
Proof.
  apply erases_bind; [auto|]. intros r. apply erases_bind; [by apply erases_noting|]. intros _.
  apply erases_record, set_balancers_erase.
Qed.
Lemma delBalancerWithEIP_erase w eip : erases (delBalancerWithEIP_recorded w eip) (delBalancerWithEIP eip).
Proof.
  apply erases_bind; [apply del_balancers_erase|]. intros _. apply erases_bind; [auto|]. intros r.
  apply erases_last. by apply erases_noting.
Qed.

(** Handling a pool with its events is handling it, whatever fails: the same
    manager and the same result; the events are added to the earlier ones. *)
Theorem HandleEIP_events_erase (w : W) (eip : option Eip) (m : SMgr Sp) (log : list event) :
  ∃ more, HandleEIP_recorded w eip (m, log) = (((HandleEIP w eip m).1, log ++ more), (HandleEIP w eip m).2).
Proof.
  pose proof (erases_ret () m log) as Hnil. unfold HandleEIP_recorded, HandleEIP. cbn [fst snd].
  destruct eip as [eip|]; [|done]. destruct (speakers m !! GetProtocol eip); [|by exists []; rewrite app_nil_r].
  destruct (pools m !! Eip_Name eip) as [old|].
  - destruct (negb _); [by apply erases_bind; [apply delBalancerWithEIP_erase|auto]|].
    destruct (isSpeakerConfigUpdate _ _).
    { apply erases_bind; [apply delBalancerWithEIP_erase|]. intros _. apply erases_bind; [auto|]. intros _.
      apply erases_bind; [apply setBalancerWithEIP_erase|auto]. }
    case_decide; [done|]. destruct (DiffMaps _ _) as [add del].
    apply erases_bind; [apply del_balancers_erase|]. intros _. apply erases_bind; [apply set_balancers_erase|auto].
  - apply erases_bind; [apply setBalancerWithEIP_erase|auto].
Qed.

(** The same for a service. *)
Theorem HandleService_events_erase (w : W) (svc : option Service) (m : SMgr Sp) (log : list event) :
  ∃ more, HandleService_recorded w svc (m, log) =
    (((HandleService w svc m).1, log ++ more), (HandleService w svc m).2).
Proof.
  pose proof (erases_ret () m log) as Hnil. unfold HandleService_recorded, HandleService. cbn [fst snd].
  destruct svc as [svc|]; [|done]. destruct (negb _); [done|]. destruct (pools m !! _) as [eip|]; [|done].
  apply erases_bind; [auto|]. intros addr. apply erases_bind; [auto|]. intros ingress. apply set_balancers_erase.
Qed.

(** ** The events of an announcement *)

(** What the services of one recorded address are told. *)
Definition announced_events (w : W) (entry : string * string) : list event :=
  let '(ip, value) := entry in
  match getServiceNodes w value with
  | Ok [] => svc_events w (Split ";" value) EventTypeWarning "SetBalancer" (no_nodes_message ip value)
  | Ok nodes => svc_events w (Split ";" value) EventTypeNormal "SetBalancer" (nexthops_message nodes)
  | _ => []
  end.

(** A successful announcement tells the services of every address once, in the
    order of the announcement: with the sorted names of the next hops, or with
    a warning when there is no node. *)
Theorem setBalancer_events (w : W) (protocol : string) (usage : smap) (m m' : SMgr Sp) (log log' : list event)
    (Hrun : setBalancer_recorded w protocol usage (m, log) = ((m', log'), Ok ())) :
  log' = log ++ (range_map usage ≫= announced_events w).
Proof.
  unfold setBalancer_recorded in Hrun. revert m log Hrun.
  induction (range_map usage) as [|[ip value] rest IH]; intros m log; cbn [set_balancers_events].
  { intros [= _ <-]. by rewrite app_nil_r. }
  intros (s1 & nodes & Hn & Hrun)%ST_bind_Ok. injection Hn as <- Hn.
  cbn [mbind list_bind announced_events]. rewrite Hn. destruct nodes as [|n ns].
  - apply ST_bind_Ok in Hrun as (s2 & [] & [= <-] & Hrun). rewrite (IH _ _ Hrun). cbn. by rewrite app_assoc.
  - apply ST_bind_Ok in Hrun as ([m1 l1] & [] & Hset & Hrun).
    apply ST_bind_Ok in Hrun as (s2 & [] & [= <-] & Hrun). rewrite (IH _ _ Hrun). cbn [fst snd].
    assert (l1 = log) as ->; [|by rewrite app_assoc].
    revert Hset. unfold noting, quiet. cbn [fst snd].
    destruct (on_speaker protocol _ m) as [m2 [[]|e|]]; by intros [= _ <-].
Qed.

(** Only services that exist are told, and only those of the record. *)
Lemma svc_events_services (w : W) (services : list string) t reason message e :
  e ∈ svc_events w services t reason message →
  ∃ str ns name svc, str ∈ services ∧ Split "/" str = [ns; name] ∧ GetService w (ns, name) = Ok svc ∧
    ev_object e = OnService (Svc_Key svc) ∧ ev_type e = t ∧ ev_reason e = reason ∧ ev_message e = message.
Proof.
  induction services as [|str rest IH]; [by intros ?%not_elem_of_nil|]. cbn [svc_events].
  assert (e ∈ svc_events w rest t reason message → ∃ str' ns name svc, str' ∈ str :: rest ∧ Split "/" str' = [ns; name] ∧
    GetService w (ns, name) = Ok svc ∧ ev_object e = OnService (Svc_Key svc) ∧ ev_type e = t ∧ ev_reason e = reason ∧
    ev_message e = message) as Hrest.
  { intros He. destruct (IH He) as (s & ns & name & svc & Hs & ?). exists s, ns, name, svc. split; [by right|done]. }
  destruct (Split "/" str) as [|ns [|name [|]]] eqn:Hsp; [done..| |done].
  destruct (GetService w (ns, name)) as [svc|err|] eqn:Hg; [|done..].
  intros [->|?]%elem_of_cons; [|by apply Hrest]. exists str, ns, name, svc. split_and!; [left|done..].
Qed.
End events.

(** ** A run *)

(** A pool that appears is configured and its one service told of its next
    hop. *)
Example HandleEIP_told :
  (HandleEIP_recorded (R := canonical_range) (GS := insertion_sort) (L := go_cidr) speaker_world (Some sample)
     ({| speakers := {["layer2" := ∅]}; pools := ∅ |} : SMgr (gset string), [])).1.2 =
  [{| ev_object := OnEip "a"; ev_type := EventTypeNormal; ev_reason := "ConfigSpeaker";
      ev_message := "config openelb layer2 speaker successfully" |};
   {| ev_object := OnService ("ns", "s1"); ev_type := EventTypeNormal; ev_reason := "SetBalancer";
      ev_message := "success to add nexthops [node1]" |}].
Proof. vm_compute. reflexivity. Qed.
