(* ===== verification/Sha256.v ===== *)
(** * [crypto/sha256] and [encoding/hex]: what the speakers use of them

    The VIP speaker names a keepalived instance after the SHA-256 digest of
    the node names and draws its router ID from it.  [Sum256] is the function
    of FIPS 180-4 on 32-bit words (integers modulo 2^32), executable and
    checked against the standard's examples. *)
From S2P Require Import Prelude GoNet.
Local Open Scope Z_scope.

Module sha256.
Definition rotr (n x : Z) : Z := wrapU32 (Z.lor (Z.shiftr x n) (Z.shiftl x (32 - n))).
Definition not32 (x : Z) : Z := Z.lxor 4294967295 x.
Definition Ch (x y z : Z) : Z := Z.lxor (Z.land x y) (Z.land (not32 x) z).
Definition Maj (x y z : Z) : Z := Z.lxor (Z.lxor (Z.land x y) (Z.land x z)) (Z.land y z).
Definition Sigma0 (x : Z) : Z := Z.lxor (Z.lxor (rotr 2 x) (rotr 13 x)) (rotr 22 x).
Definition Sigma1 (x : Z) : Z := Z.lxor (Z.lxor (rotr 6 x) (rotr 11 x)) (rotr 25 x).
Definition sigma0 (x : Z) : Z := Z.lxor (Z.lxor (rotr 7 x) (rotr 18 x)) (Z.shiftr x 3).
Definition sigma1 (x : Z) : Z := Z.lxor (Z.lxor (rotr 17 x) (rotr 19 x)) (Z.shiftr x 10).

Definition round_constants : list Z :=
  [1116352408; 1899447441; 3049323471; 3921009573; 961987163; 1508970993; 2453635748; 2870763221;
   3624381080; 310598401; 607225278; 1426881987; 1925078388; 2162078206; 2614888103; 3248222580;
   3835390401; 4022224774; 264347078; 604807628; 770255983; 1249150122; 1555081692; 1996064986;
   2554220882; 2821834349; 2952996808; 3210313671; 3336571891; 3584528711; 113926993; 338241895;
   666307205; 773529912; 1294757372; 1396182291; 1695183700; 1986661051; 2177026350; 2456956037;
   2730485921; 2820302411; 3259730800; 3345764771; 3516065817; 3600352804; 4094571909; 275423344;
   430227734; 506948616; 659060556; 883997877; 958139571; 1322822218; 1537002063; 1747873779;
   1955562222; 2024104815; 2227730452; 2361852424; 2428436474; 2756734187; 3204031479; 3329325298].

Definition initial_hash : list Z :=
  [1779033703; 3144134277; 1013904242; 2773480762; 1359893119; 2600822924; 528734635; 1541459225].

Definition be32 (x : Z) : list Z :=
  [Z.shiftr x 24 mod 256; Z.shiftr x 16 mod 256; Z.shiftr x 8 mod 256; x mod 256].
Fixpoint words (bs : list Z) : list Z :=
  match bs with
  | a :: b :: c :: d :: rest => (((a * 256 + b) * 256 + c) * 256 + d) :: words rest
  | _ => []
  end.

(** The message, a one bit, zeros up to 56 modulo 64, and the 64-bit length. *)
Definition pad (msg : list Z) : list Z :=
  let n := Z.of_nat (length msg) in
  msg ++ [128] ++ replicate (Z.to_nat ((55 - n) mod 64)) 0
      ++ be32 (wrapU32 (Z.shiftr (8 * n) 32)) ++ be32 (wrapU32 (8 * n)).

(** The message schedule, latest word first. *)
Fixpoint schedule (n : nat) (w : list Z) : list Z :=
  match n with
  | O => w
  | S n' =>
      let at' i := nth i w 0 in
      schedule n' (wrapU32 (sigma1 (at' 1%nat) + at' 6%nat + sigma0 (at' 14%nat) + at' 15%nat) :: w)
  end.

Definition round (h : list Z) (kw : Z * Z) : list Z :=
  match h with
  | [a; b; c; d; e; f; g; h] =>
      let t1 := h + Sigma1 e + Ch e f g + kw.1 + kw.2 in
      let t2 := Sigma0 a + Maj a b c in
      [wrapU32 (t1 + t2); a; b; c; wrapU32 (d + t1); e; f; g]
  | _ => h
  end.

Definition compress (h block : list Z) : list Z :=
  let w := rev (schedule 48 (rev block)) in
  zip_with (λ a b, wrapU32 (a + b)) h (foldl round h (zip round_constants w)).

Fixpoint blocks (fuel : nat) (h ws : list Z) : list Z :=
  match fuel, ws with
  | S f, _ :: _ => blocks f (compress h (take 16 ws)) (drop 16 ws)
  | _, _ => h
  end.

Definition bytes (s : string) : list Z := ord <$> String.list_ascii_of_string s.

(** [sha256.Sum256([]byte(s))]; a block takes sixteen words, so the number of
    words is enough fuel. *)
Definition Sum256 (s : string) : list Z :=
  let ws := words (pad (bytes s)) in concat (be32 <$> blocks (length ws) initial_hash ws).
End sha256.

(** [hex.EncodeToString] *)
Fixpoint EncodeToString (bs : list Z) : string :=
  match bs with
  | [] => ""
  | b :: rest => String (hex_digit (b / 16)) (String (hex_digit (b mod 16)) (EncodeToString rest))
  end.

(** [binary.BigEndian.Uint32(hash[:4])] *)
Definition Uint32 (bs : list Z) : Z := default 0 (head (sha256.words (take 4 bs))).

Lemma Sum256_bytes s : Forall (λ b, 0 <= b < 256) (sha256.Sum256 s).
Proof.
  unfold sha256.Sum256. apply Forall_concat, Forall_fmap, Forall_true. intros x.
  repeat apply Forall_cons_2; try done; by apply Z.mod_pos_bound.
Qed.

Lemma Uint32_nonneg bs : Forall (λ b, 0 <= b < 256) bs → 0 <= Uint32 bs.
Proof.
  intros H. unfold Uint32. destruct bs as [|a [|b [|c [|d rest]]]]; cbn; try done.
  rewrite !Forall_cons in H. lia.
Qed.

(** The examples of the standard. *)
Example Sum256_abc : EncodeToString (sha256.Sum256 "abc") =
  "ba7816bf8f01cfea414140de5dae2223b00361a396177a9cb410ff61f20015ad".
Proof. vm_compute. reflexivity. Qed.
Example Sum256_two_blocks :
  EncodeToString (sha256.Sum256 "abcdbcdecdefdefgefghfghighijhijkijkljklmklmnlmnomnopnopq") =
  "248d6a61d20638b8e5c026930c3e6039a33ce45964ff2167f6ecedd419db06c1".
Proof. vm_compute. reflexivity. Qed.
