(* ===== verification/Keepalived.v ===== *)
(** * [pkg/speaker/vip/keepalived.go]: the speaker of the VIP mode

    The speaker groups the addresses that have the same next hops and the same
    interface into one VRRP instance, named after the digest of the node names
    and the interface, and gives each instance a virtual router ID drawn from
    the ID allocator.  The configuration file is rewritten and keepalived told
    to reload it after each change.

    The host (files, the keepalived process and the clock) is the class
    [KeepalivedHost], a component of the speaker's state; [KeepalivedHostOk]
    says what a successful write and a successful signal do.  Rendering the
    template is part of [Execute]: a file is described by the data the
    template was executed with; its text is in [KeepalivedConf]. *)
From S2P Require Import Prelude GoNet Iprange Idalloc K8s Speaker Sha256.
Local Open Scope Z_scope.

Definition keepalivedCfg : string := "/etc/keepalived/keepalived.conf".
Definition keepalivedDir : string := "/etc/keepalived".
Definition keepalivedPid : string := "/var/run/keepalived/keepalived.pid".
Definition keepalivedTmpl : string := "keepalived.tmpl".

Record instances := {
  Inst_Name : string; Inst_Iface : string; RouteID : Z; Svcips : list string; Priority : Z; Enabled : bool
}.
#[export] Instance instances_eq_dec : EqDecision instances.
Proof. solve_decision. Defined.

Abbreviation instance_map := (gmap string instances).

(** The host: [pid_delay] is the time until keepalived's pid file exists,
    [cfg_file] what the configuration file holds, [running] what the process
    last loaded. *)
Class KeepalivedHost (F : Type) := {
  GetNodeName : F → string;
  ParseFiles : string → ST F ();
  MkdirAll : string → ST F ();
  Create : string → ST F ();
  Execute : string → instance_map → ST F ();
  Stat : string → F → bool;
  Sleep : F → F;
  KillHUP : ST F ();
  pid_delay : F → nat;
  cfg_file : F → option instance_map;
  running : F → option instance_map;
}.

Class KeepalivedHostOk (F : Type) `{HF : KeepalivedHost F} : Prop := {
  MkdirAll_running d f f' r : MkdirAll d f = (f', r) → running f' = running f;
  Create_running p f f' r : Create p f = (f', r) → running f' = running f;
  Execute_running n m f f' r : Execute n m f = (f', r) → running f' = running f;
  Execute_writes n m f f' : Execute n m f = (f', Ok ()) → cfg_file f' = Some m;
  Sleep_files f : cfg_file (Sleep f) = cfg_file f ∧ running (Sleep f) = running f;
  Sleep_delay f : pid_delay (Sleep f) = pred (pid_delay f);
  Stat_pid f : Stat keepalivedPid f = Nat.eqb (pid_delay f) 0;
  KillHUP_loads f f' r : KillHUP f = (f', r) →
    running f' = (if is_ok r then cfg_file f else running f);
}.

Record keepAlived (F : Type) := {
  ka_instances : instance_map;
  vips : gmap string string;
  configs : gmap string Config;
  idAlloc : IDAllocator;
  host : F;
}.
Arguments ka_instances {F} _.
Arguments vips {F} _.
Arguments configs {F} _.
Arguments idAlloc {F} _.
Arguments host {F} _.

(** The three ways [cleanRecord] cuts one element out of the slice. *)
Definition cut_at (i : nat) (l : list string) : list string :=
  if Nat.eqb i 0 then drop 1 l
  else if Nat.eqb i (length l - 1) then take (length l - 1) l
  else take i l ++ drop (S i) l.

Fixpoint clean_svcips (vip : string) (i : nat) (rest l : list string) : list string :=
  match rest with
  | [] => l
  | ip :: rest => if decide (ip = vip) then cut_at i l else clean_svcips vip (S i) rest l
  end.

Section keepalived.
Context {R : GoRange} {GS : GoSort} {HN : HostNet}.
Context {F : Type} {HF : KeepalivedHost F}.

Definition ka_set (k : keepAlived F) (m : instance_map) (v : gmap string string) (a : IDAllocator)
    : keepAlived F :=
  {| ka_instances := m; vips := v; configs := configs k; idAlloc := a; host := host k |}.
Definition set_host (k : keepAlived F) (f : F) : keepAlived F :=
  {| ka_instances := ka_instances k; vips := vips k; configs := configs k; idAlloc := idAlloc k; host := f |}.
Definition set_configs (k : keepAlived F) (c : gmap string Config) : keepAlived F :=
  {| ka_instances := ka_instances k; vips := vips k; configs := c; idAlloc := idAlloc k; host := host k |}.

(** A call on the host. *)
Definition on_host {A} (call : ST F A) : ST (keepAlived F) A := λ k,
  let '(f', r) := call (host k) in (set_host k f', r).

Definition NewKeepAlived : ST F (keepAlived F) := λ f,
  match ParseFiles keepalivedTmpl f with
  | (f', Ok _) =>
      (f', a ← Idalloc.New 256;
           Ok {| ka_instances := ∅; vips := ∅; configs := ∅; idAlloc := a; host := f' |})
  | (f', Err e) => (f', Err e)
  | (f', Panic) => (f', Panic)
  end.

Definition set_Svcips (i : instances) (l : list string) : instances :=
  {| Inst_Name := Inst_Name i; Inst_Iface := Inst_Iface i; RouteID := RouteID i; Svcips := l;
     Priority := Priority i; Enabled := Enabled i |}.

Definition cleanRecord (vip instanceName : string) : ST (keepAlived F) () := λ k,
  match ka_instances k !! instanceName with
  | None => (k, Ok ())
  | Some inst =>
      let inst := set_Svcips inst (clean_svcips vip 0 (Svcips inst) (Svcips inst)) in
      let m := <[instanceName := inst]> (ka_instances k) in
      if Nat.eqb (length (Svcips inst)) 0 then
        match Free (idAlloc k) (RouteID inst) with
        | Ok a => (ka_set k (delete instanceName m) (vips k) a, Ok ())
        | _ => (ka_set k (delete instanceName m) (vips k) (idAlloc k), Panic)
        end
      else (ka_set k m (vips k) (idAlloc k), Ok ())
  end.

(** [c.IPRange.Contains] on a nil range is a panic. *)
Fixpoint find_interface (cs : list (string * Config)) (ip : IP) : Result string :=
  match cs with
  | [] => Ok ""
  | (_, c) :: rest =>
      match Cfg_IPRange c with
      | None => Panic
      | Some r => if Range_Contains r ip then Ok (Cfg_Iface c) else find_interface rest ip
      end
  end.
Definition getInterfaces (k : keepAlived F) (vip : string) : Result string :=
  find_interface (range_map (configs k)) (ParseIP vip).

Definition node_names (nodes : list Node) : list string := (λ n, Name (Node_Meta n)) <$> nodes.

Definition getNodeSha256Bytes (nodes : list Node) : list Z :=
  sha256.Sum256 (Join (sort_Slice str_ltb (node_names nodes)) ",").

Definition isNodeInList (k : keepAlived F) (nodes : list Node) : bool :=
  existsb (λ n, bool_decide (Name (Node_Meta n) = GetNodeName (host k))) nodes.

Definition write_template : ST (keepAlived F) () := λ k,
  match on_host (Execute (GetNodeName (host k)) (ka_instances k)) k with
  | (k', Err e) => (k', Err (Errorf ("unexpected error creating keepalived.cfg: " +:+ err_text e)))
  | p => p
  end.
Definition WriteCfg : ST (keepAlived F) () :=
  on_host (MkdirAll keepalivedDir);; on_host (Create keepalivedCfg);; write_template.

(** [for !k.IsRunning() { time.Sleep(time.Second) }]: [pid_delay] seconds are
    enough, see [wait_running_stops]. *)
Definition IsRunning (f : F) : bool := Stat keepalivedPid f.
Fixpoint wait_running (fuel : nat) (f : F) : F :=
  match fuel with
  | O => f
  | S n => if IsRunning f then f else wait_running n (Sleep f)
  end.

Definition Reload : ST (keepAlived F) () := λ k,
  let k := set_host k (wait_running (pid_delay (host k)) (host k)) in
  match on_host KillHUP k with
  | (k', Err e) => (k', Err (Errorf ("error reloading keepalived: " +:+ err_text e)))
  | p => p
  end.

(** The instance for [vip]: found by name, or created with a new router ID. *)
Definition ensure_instance (instanceName iface : string) (bytes : list Z) : ST (keepAlived F) instances := λ k,
  match ka_instances k !! instanceName with
  | Some i => (k, Ok i)
  | None =>
      match AllocateWithHash (idAlloc k) (Uint32 bytes) with
      | None => (k, Panic)
      | Some (a, routeid, Some err) => (ka_set k (ka_instances k) (vips k) a, Err err)
      | Some (a, routeid, None) =>
          let i := {| Inst_Name := instanceName; Inst_Iface := iface; RouteID := routeid;
                      Svcips := []; Priority := 100; Enabled := false |} in
          (ka_set k (<[instanceName := i]> (ka_instances k)) (vips k) a, Ok i)
      end
  end.

Definition record_vip (vip instanceName : string) (nodes : list Node) (i : instances) : ST (keepAlived F) () := λ k,
  let i := {| Inst_Name := Inst_Name i; Inst_Iface := Inst_Iface i; RouteID := RouteID i;
              Svcips := Svcips i ++ [vip]; Priority := Priority i; Enabled := isNodeInList k nodes |} in
  (ka_set k (<[instanceName := i]> (ka_instances k)) (<[vip := instanceName]> (vips k)) (idAlloc k), Ok ()).

Definition clean_old (vip : string) : ST (keepAlived F) () := λ k,
  match vips k !! vip with Some value => cleanRecord vip value k | None => (k, Ok ()) end.

Definition ka_SetBalancer (vip : string) (nodes : list Node) : ST (keepAlived F) () :=
  iface ← st_read (λ k, getInterfaces k vip);
  if decide (iface = "") then st_lift (Err (Errorf ("no interface found for VIP " +:+ vip)))
  else
    clean_old vip;;
    let bytes := getNodeSha256Bytes nodes in
    let instanceName := EncodeToString bytes +:+ "-" +:+ iface in
    inst ← ensure_instance instanceName iface bytes;
    record_vip vip instanceName nodes inst;;
    WriteCfg;;
    Reload.

Definition ka_DelBalancer (vip : string) : ST (keepAlived F) () := λ k,
  match vips k !! vip with
  | None => (k, Ok ())
  | Some instanceName =>
      let k := ka_set k (ka_instances k) (delete vip (vips k)) (idAlloc k) in
      match ka_instances k !! instanceName with
      | None => (k, Ok ())
      | Some _ => (cleanRecord vip instanceName;; WriteCfg;; Reload) k
      end
  end.

Definition store_config (config : Config) (deleted : bool) : ST (keepAlived F) () := λ k,
  if deleted then (set_configs k (delete (Cfg_Name config) (configs k)), Ok ())
  else (set_configs k (<[Cfg_Name config := config]> (configs k)), Ok ()).

(** [netif] is never nil without an error: [net.InterfaceByName] and
    [net.InterfaceByIndex] say so. *)
Definition ka_ConfigureWithEIP (config : Config) (deleted : bool) : ST (keepAlived F) () :=
  netif ← st_lift (ParseInterface (Cfg_Iface config));
  let config := {| Cfg_Name := Cfg_Name config; Cfg_IPRange := Cfg_IPRange config; Cfg_Iface := If_Name netif |} in
  st_lift (ValidateInterface netif (Cfg_IPRange config));;
  store_config config deleted.

#[export] Instance keepalived_speaker : Speaker (keepAlived F) := {|
  SetBalancer := ka_SetBalancer; DelBalancer := ka_DelBalancer; ConfigureWithEIP := ka_ConfigureWithEIP |}.
End keepalived.

(** ** The slice of an instance *)
Lemma cut_at_spec l1 x l2 : cut_at (length l1) (l1 ++ x :: l2) = l1 ++ l2.
Proof.
  unfold cut_at. destruct (Nat.eqb _ 0) eqn:E0.
  { apply Nat.eqb_eq in E0. by apply nil_length_inv in E0 as ->. }
  rewrite length_app. cbn [length]. destruct (Nat.eqb _ (_ - 1)) eqn:E1.
  - apply Nat.eqb_eq in E1. assert (l2 = []) as -> by (apply nil_length_inv; lia).
    rewrite app_nil_r. apply take_app_length'. cbn. lia.
  - rewrite take_app_length. f_equal. replace (S (length l1)) with (length l1 + 1)%nat by lia.
    by rewrite drop_app_add.
Qed.

Lemma clean_svcips_skip vip rest : ∀ i l, vip ∉ rest → clean_svcips vip i rest l = l.
Proof.
  induction rest as [|ip rest IH]; intros i l Hn; cbn; [done|].
  apply not_elem_of_cons in Hn as [? ?]. rewrite decide_False by done. by apply IH.
Qed.

Lemma clean_svcips_find vip l1 : ∀ i l l2, vip ∉ l1 →
  clean_svcips vip i (l1 ++ vip :: l2) l = cut_at (i + length l1) l.
Proof.
  induction l1 as [|ip l1 IH]; intros i l l2 Hn; cbn.
  - by rewrite decide_True, Nat.add_0_r.
  - apply not_elem_of_cons in Hn as [? ?]. rewrite decide_False by done. rewrite IH by done.
    f_equal. lia.
Qed.

(** [cleanRecord]'s loop removes the address, whichever cut it takes. *)
Lemma clean_svcips_spec vip l : NoDup l →
  let l' := clean_svcips vip 0 l l in NoDup l' ∧ ∀ ip, ip ∈ l' ↔ ip ∈ l ∧ ip ≠ vip.
Proof.
  intros Hnd. cbv zeta. destruct (decide (vip ∈ l)) as [Hin|Hn].
  - apply list_elem_of_split in Hin as (l1 & l2 & ->).
    apply NoDup_app in Hnd as (H1 & H2 & H3). apply NoDup_cons in H3 as [H3 H4].
    assert (vip ∉ l1) as Hl1 by (intros Hx; apply (H2 _ Hx); left).
    rewrite clean_svcips_find, Nat.add_0_l, cut_at_spec by done. split; [|set_solver].
    apply NoDup_app. split_and!; [done|set_solver|done].
  - rewrite clean_svcips_skip by done. set_solver.
Qed.

(** ** The invariant

    Over the three tables: [m] the instances, [v] the instance of each
    address, [a] the router IDs. *)
Record inst_ok (v : gmap string string) (a : IDAllocator) (n : string) (i : instances) : Prop := {
  io_name : Inst_Name i = n;
  io_nonempty : Svcips i ≠ [];
  io_nodup : NoDup (Svcips i);
  io_id : 0 < RouteID i < 256;
  io_allocated : allocated a (RouteID i) = true;
  io_vips ip : ip ∈ Svcips i → v !! ip = Some n;
}.

Record tables_ok (m : instance_map) (v : gmap string string) (a : IDAllocator) : Prop := {
  to_alloc : alloc_ok a;
  to_capacity : capacity a = 256;
  to_zero : allocated a 0 = true;
  to_inst n i : m !! n = Some i → inst_ok v a n i;
  to_distinct n n' i i' : m !! n = Some i → m !! n' = Some i' → RouteID i = RouteID i' → n = n';
  to_no_leak j : 0 < j < 256 → allocated a j = true → ∃ n i, m !! n = Some i ∧ RouteID i = j;
}.

(** [ip] is announced by the instance [n]. *)
Definition carried (m : instance_map) (ip n : string) : Prop := ∃ i, m !! n = Some i ∧ ip ∈ Svcips i.

Lemma carried_vips m v a ip n : tables_ok m v a → carried m ip n → v !! ip = Some n.
Proof. intros Hok (i & Hi & Hip). by apply (io_vips _ _ _ _ (to_inst _ _ _ Hok _ _ Hi)). Qed.

(** The record of an address no instance carries may be anything. *)
Lemma tables_ok_vips m v v' a : tables_ok m v a →
  (∀ ip n, carried m ip n → v' !! ip = v !! ip) → tables_ok m v' a.
Proof.
  intros Hok Hv. destruct Hok as [? ? ? Hi ? ?]. constructor; try done.
  intros n i Hn. destruct (Hi n i Hn) as [? ? ? ? ? Hvips]. constructor; try done.
  intros ip Hip. rewrite (Hv ip n); [by apply Hvips|by exists i].
Qed.

Lemma carried_insert m n i ip n' : carried (<[n := i]> m) ip n' ↔
  (n' = n ∧ ip ∈ Svcips i) ∨ (n' ≠ n ∧ carried m ip n').
Proof.
  unfold carried. destruct (decide (n' = n)) as [->|Hne].
  - rewrite lookup_insert_eq. naive_solver.
  - rewrite lookup_insert_ne by done. naive_solver.
Qed.

Lemma carried_delete m n ip n' : carried (delete n m) ip n' ↔ n' ≠ n ∧ carried m ip n'.
Proof.
  unfold carried. destruct (decide (n' = n)) as [->|Hne].
  - rewrite lookup_delete_eq. naive_solver.
  - rewrite lookup_delete_ne by done. naive_solver.
Qed.

(** ** Changing one instance *)
Lemma tables_update m v a n i i' : tables_ok m v a → m !! n = Some i →
  Inst_Name i' = Inst_Name i → RouteID i' = RouteID i → Svcips i' ≠ [] → NoDup (Svcips i') →
  (∀ ip, ip ∈ Svcips i' → v !! ip = Some n) → tables_ok (<[n := i']> m) v a.
Proof.
  intros Hok Hi Hname Hid Hne Hnd Hv. pose proof (to_inst _ _ _ Hok _ _ Hi) as Hio.
  assert (∀ n' j, <[n := i']> m !! n' = Some j → ∃ j', m !! n' = Some j' ∧ RouteID j' = RouteID j) as Hback.
  { intros n' j. rewrite lookup_insert_Some. intros [[<- <-]|[? ?]]; eauto. }
  constructor; try apply Hok.
  - intros n' j. rewrite lookup_insert_Some. intros [[<- <-]|[_ Hj]]; [|by apply (to_inst _ _ _ Hok)].
    destruct Hio. constructor; rewrite ?Hid; try done. congruence.
  - intros n1 n2 i1 i2 H1 H2 He. destruct (Hback _ _ H1) as (j1 & Hj1 & E1), (Hback _ _ H2) as (j2 & Hj2 & E2).
    eapply (to_distinct _ _ _ Hok); [done|done|congruence].
  - intros j Hj Ha. destruct (to_no_leak _ _ _ Hok j Hj Ha) as (n' & i0 & Hn' & E).
    destruct (decide (n' = n)) as [->|]; [exists n, i'|exists n', i0].
    + rewrite lookup_insert_eq. split; [done|congruence].
    + by rewrite lookup_insert_ne.
Qed.

(** Removing an instance frees its router ID, which is within the bitmap. *)
Lemma tables_remove m v a n i : tables_ok m v a → m !! n = Some i →
  ∃ a', Free a (RouteID i) = Ok a' ∧ tables_ok (delete n m) v a'.
Proof.
  intros Hok Hi. destruct (to_inst _ _ _ Hok _ _ Hi) as [_ _ _ Hid Ha _].
  destruct (Free_refines a (RouteID i)) as (a' & HF & Hok' & Hmax & _ & Hset); [apply Hok| |].
  { split; [lia|]. destruct (decide (Z.of_nat (length (bits a)) * 64 <= RouteID i)); [|lia].
    rewrite allocated_beyond in Ha by lia. done. }
  exists a'. split; [done|]. constructor.
  - done.
  - unfold capacity in *. rewrite Hmax. apply Hok.
  - rewrite Hset by lia. rewrite (to_zero _ _ _ Hok), andb_true_r. apply negb_true_iff, Z.eqb_neq. lia.
  - intros n' j. rewrite lookup_delete_Some. intros [Hne Hj].
    destruct (to_inst _ _ _ Hok _ _ Hj). constructor; try done. rewrite Hset by lia.
    rewrite io_allocated0, andb_true_r. apply negb_true_iff, Z.eqb_neq. intros E.
    apply Hne. eapply (to_distinct _ _ _ Hok); [done|done|congruence].
  - intros n1 n2 i1 i2. rewrite !lookup_delete_Some. intros [_ ?] [_ ?]. by eapply (to_distinct _ _ _ Hok).
  - intros j Hj. rewrite Hset by lia. rewrite andb_true_iff, negb_true_iff, Z.eqb_neq. intros [Hne Hal].
    destruct (to_no_leak _ _ _ Hok j Hj Hal) as (n' & i0 & Hn' & E). exists n', i0.
    rewrite lookup_delete_ne; [done|]. congruence.
Qed.

(** A new instance takes an ID no other instance has. *)
Lemma tables_add m v a a' n i : tables_ok m v a → m !! n = None → alloc_ok a' → maxBlocks a' = maxBlocks a →
  took a a' (RouteID i) → Inst_Name i = n → Svcips i ≠ [] → NoDup (Svcips i) →
  (∀ ip, ip ∈ Svcips i → v !! ip = Some n) → tables_ok (<[n := i]> m) v a'.
Proof.
  intros Hok Hn Hok' Hmax (Hr & Hfree & Hset) Hname Hne Hnd Hv. rewrite (to_capacity _ _ _ Hok) in Hr.
  assert (RouteID i ≠ 0) as Hz by (intros E; rewrite E, (to_zero _ _ _ Hok) in Hfree; done).
  assert (∀ n' j, m !! n' = Some j → RouteID j ≠ RouteID i) as Hother.
  { intros n' j Hj E. pose proof (io_allocated _ _ _ _ (to_inst _ _ _ Hok _ _ Hj)). congruence. }
  constructor.
  - done.
  - unfold capacity in *. rewrite Hmax. apply Hok.
  - by rewrite Hset, (to_zero _ _ _ Hok), orb_true_r by lia.
  - intros n' j. rewrite lookup_insert_Some. intros [[<- <-]|[_ Hj]].
    + constructor; try done; [lia|]. by rewrite Hset, Z.eqb_refl by lia.
    + destruct (to_inst _ _ _ Hok _ _ Hj). constructor; try done. by rewrite Hset, io_allocated0, orb_true_r by lia.
  - intros n1 n2 i1 i2. rewrite !lookup_insert_Some. intros [[<- <-]|[_ H1]] [[<- <-]|[_ H2]] E; try done.
    + by destruct (Hother _ _ H2).
    + by destruct (Hother _ _ H1).
    + by eapply (to_distinct _ _ _ Hok).
  - intros j Hj. rewrite Hset by lia. rewrite orb_true_iff, Z.eqb_eq. intros [->|Hal].
    + exists n, i. by rewrite lookup_insert_eq.
    + destruct (to_no_leak _ _ _ Hok j Hj Hal) as (n' & i0 & Hn' & E). exists n', i0.
      rewrite lookup_insert_ne; [done|]. congruence.
Qed.

(** A failed allocation changes nothing that matters. *)
Lemma tables_realloc m v a a' : tables_ok m v a → alloc_ok a' → maxBlocks a' = maxBlocks a →
  (∀ j, 0 <= j → allocated a' j = allocated a j) → tables_ok m v a'.
Proof.
  intros Hok Hok' Hmax Hset. constructor; try apply Hok; try done.
  - unfold capacity in *. rewrite Hmax. apply Hok.
  - rewrite Hset by lia. apply Hok.
  - intros n i Hi. destruct (to_inst _ _ _ Hok _ _ Hi). constructor; try done. by rewrite Hset by lia.
  - intros j Hj. rewrite Hset by lia. by apply Hok.
Qed.

(** ** The operations on the tables *)
Section tables.
Context {F : Type} {HF : KeepalivedHost F}.

(** [cleanRecord] takes the address out of its instance, and the instance out
    of the table when that was its last address.  [v] is the table before the
    caller changed it. *)
Lemma cleanRecord_spec (k : keepAlived F) v vip name : tables_ok (ka_instances k) v (idAlloc k) →
  v !! vip = Some name →
  ∃ m a, cleanRecord vip name k = (ka_set k m (vips k) a, Ok ()) ∧ tables_ok m v a ∧
    ∀ ip n, carried m ip n ↔ carried (ka_instances k) ip n ∧ ip ≠ vip.
Proof.
  intros Hok Hv. unfold cleanRecord. destruct (ka_instances k !! name) as [i|] eqn:Hi.
  2: { exists (ka_instances k), (idAlloc k). split; [by destruct k|]. split; [done|]. intros ip n.
       split; [|by intros [? _]]. intros Hc. split; [done|]. intros ->.
       pose proof (carried_vips _ _ _ _ _ Hok Hc) as Hv'. simplify_eq. destruct Hc as (? & ? & _). congruence. }
  pose proof (to_inst _ _ _ Hok _ _ Hi) as Hio.
  destruct (clean_svcips_spec vip (Svcips i) (io_nodup _ _ _ _ Hio)) as [Hnd Hel].
  cbv zeta in *. set (l := clean_svcips vip 0 (Svcips i) (Svcips i)) in *.
  assert (∀ ip n, carried (<[name := set_Svcips i l]> (ka_instances k)) ip n ↔
                  carried (ka_instances k) ip n ∧ ip ≠ vip) as Hcar.
  { intros ip n. rewrite carried_insert. cbn [set_Svcips Svcips]. rewrite Hel. split.
    - intros [[-> [? ?]]|[? Hc]]; [by split; [exists i|]|]. split; [done|]. intros ->.
      pose proof (carried_vips _ _ _ _ _ Hok Hc). congruence.
    - intros [Hc Hne]. destruct (decide (n = name)) as [->|]; [left|by right].
      destruct Hc as (? & ? & ?). simplify_eq. done. }
  cbn [set_Svcips Svcips RouteID] in *. destruct (Nat.eqb (length l) 0) eqn:E.
  - apply Nat.eqb_eq, nil_length_inv in E. rewrite delete_insert_eq.
    destruct (tables_remove _ _ _ _ _ Hok Hi) as (a' & HFree & Hok'). rewrite HFree.
    eexists _, _. split; [done|]. split; [done|]. intros ip n. rewrite carried_delete, <- Hcar, carried_insert.
    cbn [Svcips set_Svcips]. fold l. rewrite E. set_solver.
  - apply Nat.eqb_neq in E. eexists _, _. split; [done|]. split; [|done].
    eapply tables_update; try done; cbn; [by intros ->|]. intros ip Hip. apply Hel in Hip as [Hip _].
    by apply (io_vips _ _ _ _ Hio).
Qed.

(** The instance the address joins: the one of its name, or a new one. *)
Lemma join_instance_spec (k : keepAlived F) vip name iface bytes nodes :
  tables_ok (ka_instances k) (vips k) (idAlloc k) → Forall (λ b, 0 <= b < 256) bytes →
  (∀ n, ¬ carried (ka_instances k) vip n) →
  (∃ m a i, (inst ← ensure_instance name iface bytes; record_vip vip name nodes inst) k =
      (ka_set k m (<[vip := name]> (vips k)) a, Ok ()) ∧
    tables_ok m (<[vip := name]> (vips k)) a ∧ m !! name = Some i ∧ vip ∈ Svcips i ∧
    Enabled i = isNodeInList k nodes ∧
    (∀ n, n ≠ name → m !! n = ka_instances k !! n) ∧
    ∀ ip n, carried m ip n ↔ carried (ka_instances k) ip n ∨ (ip = vip ∧ n = name)) ∨
  (∃ a, (inst ← ensure_instance name iface bytes; record_vip vip name nodes inst) k =
      (ka_set k (ka_instances k) (vips k) a, Err ErrIDsExhausted) ∧
    tables_ok (ka_instances k) (vips k) a ∧ ka_instances k !! name = None ∧
    ∀ j, 0 <= j < 256 → allocated (idAlloc k) j = true).
Proof.
  intros Hok Hbytes Hfresh.
  assert (tables_ok (ka_instances k) (<[vip := name]> (vips k)) (idAlloc k)) as Hok2.
  { eapply tables_ok_vips; [done|]. intros ip n Hc. apply lookup_insert_ne. intros ->. by destruct (Hfresh n). }
  unfold mbind, ST_bind, ensure_instance. destruct (ka_instances k !! name) as [i|] eqn:Hi.
  { left. pose proof (to_inst _ _ _ Hok2 _ _ Hi) as Hio. eexists _, _, _. split; [done|].
    split; [|split; [apply lookup_insert_eq|]; split; [cbn; set_solver|]; split; [done|]; split].
    - eapply tables_update; try done; cbn [Svcips].
      + by destruct (Svcips i).
      + apply NoDup_app. split_and!; [apply Hio| |apply NoDup_singleton].
        intros x Hx ->%list_elem_of_singleton. apply (Hfresh name). by exists i.
      + intros ip [Hip | ->%list_elem_of_singleton]%elem_of_app; [by apply (io_vips _ _ _ _ Hio)|].
        apply lookup_insert_eq.
    - intros n Hn. by rewrite lookup_insert_ne.
    - intros ip n. rewrite carried_insert. cbn [Svcips]. rewrite elem_of_app, list_elem_of_singleton.
      unfold carried. split; [intros [[-> [?|?]]|[? ?]]; eauto|].
      intros [(j & Hj & Hip)|[-> ->]]; [|by left; split; [|right]].
      destruct (decide (n = name)) as [->|]; [left|right; eauto]. simplify_eq. by split; [|left]. }
  destruct (AllocateWithHash_refines (idAlloc k) (Uint32 bytes))
    as (a' & id & e & -> & Hok' & Hmax & [(-> & Htook & _)|(-> & -> & Hex & Hset)]).
  { apply Hok. } { by apply Uint32_nonneg. } { rewrite (to_capacity _ _ _ Hok). done. }
  - left. eexists _, _, _. split; [unfold record_vip, ka_set; cbn; by rewrite insert_insert_eq|].
    split; [|split; [apply lookup_insert_eq|]; split; [cbn; set_solver|]; split; [done|]; split].
    + eapply tables_add; try done; cbn; [apply NoDup_singleton|].
      intros ip ->%list_elem_of_singleton. apply lookup_insert_eq.
    + intros n Hn. by rewrite lookup_insert_ne.
    + intros ip n. rewrite carried_insert. cbn [Svcips app]. rewrite list_elem_of_singleton.
      split; [intros [[-> ->]|[? ?]]; eauto|]. intros [Hc|[-> ->]]; [|by left]. right. split; [|done].
      intros ->. destruct Hc as (? & ? & _). congruence.
  - right. eexists. split; [done|]. split; [by eapply tables_realloc|]. split; [done|].
    intros j Hj. apply Hex. rewrite (to_capacity _ _ _ Hok). done.
Qed.
End tables.

(** ** The host *)
Section host.
Context {F : Type} {HF : KeepalivedHost F} {HO : KeepalivedHostOk F}.

(** The wait for keepalived ends, with the process there and nothing written
    meanwhile. *)
Lemma wait_running_stops (f : F) :
  let f' := wait_running (pid_delay f) f in
  IsRunning f' = true ∧ cfg_file f' = cfg_file f ∧ running f' = running f.
Proof.
  assert (∀ n (f : F), n = pid_delay f → let f' := wait_running n f in
    IsRunning f' = true ∧ cfg_file f' = cfg_file f ∧ running f' = running f) as H; [|by apply H].
  clear f. cbv zeta. induction n as [|n IH]; intros f Hn.
  { split; [|done]. cbn. unfold IsRunning. by rewrite Stat_pid, <- Hn. }
  assert (IsRunning f = false) as Hrun by (unfold IsRunning; by rewrite Stat_pid, <- Hn).
  cbn [wait_running]. rewrite Hrun. destruct (Sleep_files f) as [<- <-].
  apply IH. by rewrite Sleep_delay, <- Hn.
Qed.

Lemma WriteCfg_spec (k k' : keepAlived F) r : WriteCfg k = (k', r) →
  ∃ f, k' = set_host k f ∧ running f = running (host k) ∧ (r = Ok () → cfg_file f = Some (ka_instances k)).
Proof.
  unfold WriteCfg, mbind, ST_bind, write_template, on_host.
  destruct (MkdirAll _ _) as [f1 r1] eqn:E1. pose proof (MkdirAll_running _ _ _ _ E1) as H1.
  destruct r1; [|intros [= <- <-]; by exists f1..]. cbn [host set_host].
  destruct (Create _ _) as [f2 r2] eqn:E2. pose proof (Create_running _ _ _ _ E2) as H2.
  destruct r2; [|intros [= <- <-]; exists f2; split_and!; [done|congruence|done]..]. cbn [host set_host ka_instances].
  destruct (Execute _ _ _) as [f3 r3] eqn:E3. pose proof (Execute_running _ _ _ _ _ E3) as H3.
  destruct r3 as [[]| |]; intros [= <- <-]; exists f3; (split_and!; [done|congruence|]); [|done..].
  intros _. by eapply Execute_writes.
Qed.

Lemma Reload_spec (k k' : keepAlived F) r : Reload k = (k', r) →
  ∃ f, k' = set_host k f ∧ running f = (if is_ok r then cfg_file (host k) else running (host k)).
Proof.
  unfold Reload, on_host. destruct (wait_running_stops (host k)) as (_ & Hc & Hr).
  cbn [host set_host]. destruct (KillHUP _) as [f r1] eqn:E. apply KillHUP_loads in E.
  rewrite Hc, Hr in E. destruct r1; intros [= <- <-]; by exists f.
Qed.

(** After a successful write and reload keepalived runs the instances of the
    speaker; otherwise it keeps running what it ran. *)
Lemma publish_spec (k k' : keepAlived F) r : (WriteCfg;; Reload) k = (k', r) →
  ∃ f, k' = set_host k f ∧ running f = (if is_ok r then Some (ka_instances k) else running (host k)).
Proof.
  unfold mbind, ST_bind. destruct (WriteCfg k) as [k1 r1] eqn:E1.
  destruct (WriteCfg_spec _ _ _ E1) as (f1 & -> & Hr & Hw).
  destruct r1 as [[]| |]; [|intros [= <- <-]; by exists f1..].
  intros (f & -> & Hf)%Reload_spec. exists f. split; [done|]. rewrite Hf. cbn [host set_host].
  rewrite Hw by done. by destruct (is_ok r).
Qed.
End host.

(** ** The speaker *)
Definition ka_ok {F} (k : keepAlived F) : Prop := tables_ok (ka_instances k) (vips k) (idAlloc k).
Definition ka_announced {F} (k : keepAlived F) : gset string :=
  ⋃ ((λ p, list_to_set (Svcips p.2)) <$> map_to_list (ka_instances k)).

Lemma elem_of_ka_announced {F} (k : keepAlived F) ip : ip ∈ ka_announced k ↔ ∃ n, carried (ka_instances k) ip n.
Proof.
  unfold ka_announced, carried. rewrite elem_of_union_list. split.
  - intros (X & HX & Hip). apply list_elem_of_fmap in HX as ([n i] & -> & Hin).
    apply elem_of_map_to_list in Hin. exists n, i. split; [done|]. set_solver.
  - intros (n & i & Hi & Hip). exists (list_to_set (Svcips i)). split; [|set_solver].
    apply list_elem_of_fmap. exists (n, i). split; [done|]. by apply elem_of_map_to_list.
Qed.

Section speaker.
Context {R : GoRange} {GS : GoSort} {HN : HostNet}.
Context {F : Type} {HF : KeepalivedHost F} {HO : KeepalivedHostOk F}.
Implicit Types k : keepAlived F.

Definition instance_name (nodes : list Node) (iface : string) : string :=
  EncodeToString (getNodeSha256Bytes nodes) +:+ "-" +:+ iface.

(** The tables after an attempt to set [vip]: unchanged; the address moved to
    [name] and keepalived told; or, when the router IDs ran out, withdrawn. *)
Inductive set_outcome (vip name : string) (nodes : list Node) (k k' : keepAlived F) (r : Result ()) : Prop :=
| so_unchanged : k' = k → is_ok r = false → set_outcome vip name nodes k k' r
| so_moved i : ka_ok k' → ka_instances k' !! name = Some i → vip ∈ Svcips i →
    Enabled i = isNodeInList k nodes →
    (∀ ip n, carried (ka_instances k') ip n ↔
       (carried (ka_instances k) ip n ∧ ip ≠ vip) ∨ (ip = vip ∧ n = name)) →
    (r = Ok () → running (host k') = Some (ka_instances k')) → set_outcome vip name nodes k k' r
| so_exhausted : r = Err ErrIDsExhausted → ka_ok k' → ka_instances k' !! name = None →
    (∀ j, 0 < j < 256 → ∃ n i, ka_instances k' !! n = Some i ∧ RouteID i = j) →
    (∀ ip n, carried (ka_instances k') ip n ↔ carried (ka_instances k) ip n ∧ ip ≠ vip) →
    set_outcome vip name nodes k k' r.

Lemma clean_old_spec k vip : ka_ok k →
  ∃ m a, clean_old vip k = (ka_set k m (vips k) a, Ok ()) ∧ tables_ok m (vips k) a ∧
    ∀ ip n, carried m ip n ↔ carried (ka_instances k) ip n ∧ ip ≠ vip.
Proof.
  intros Hok. unfold clean_old. destruct (vips k !! vip) as [name|] eqn:Hv.
  - by apply cleanRecord_spec.
  - exists (ka_instances k), (idAlloc k). split; [by destruct k|]. split; [done|]. intros ip n.
    split; [|by intros [? _]]. intros Hc. split; [done|]. intros ->.
    pose proof (carried_vips _ _ _ _ _ Hok Hc). congruence.
Qed.

Lemma ka_SetBalancer_spec k k' vip nodes r : ka_ok k → ka_SetBalancer vip nodes k = (k', r) →
  ∃ iface, set_outcome vip (instance_name nodes iface) nodes k k' r ∧
    (is_ok r = true → getInterfaces k vip = Ok iface ∧ iface ≠ "").
Proof.
  intros Hok. unfold ka_SetBalancer, st_read, st_lift. unfold mbind at 1, ST_bind at 1.
  destruct (getInterfaces k vip) as [iface|e|] eqn:Hif;
    [|intros [= <- <-]; exists ""; (split; [by apply so_unchanged|done])..].
  case_decide as Hne; [intros [= <- <-]; exists ""; (split; [by apply so_unchanged|done])|].
  unfold mbind at 1, ST_bind at 1. destruct (clean_old_spec k vip Hok) as (m & a & -> & Hok1 & Hcar).
  fold (instance_name nodes iface). set (name := instance_name nodes iface).
  set (k1 := ka_set k m (vips k) a).
  destruct (join_instance_spec k1 vip name iface (getNodeSha256Bytes nodes) nodes)
    as [(m2 & a2 & i & Hj & Hok2 & Hi & Hin & Hen & _ & Hcar2)|(a2 & Hj & Hok2 & Hno & Hall)].
  { done. } { apply Sum256_bytes. } { intros n Hc. apply Hcar in Hc as [_ Hc]. done. }
  - intros Heq. exists iface. split; [|done].
    assert ((WriteCfg;; Reload) (ka_set k1 m2 (<[vip := name]> (vips k1)) a2) = (k', r)) as Hpub.
    { revert Heq Hj. unfold mbind, ST_bind. destruct (ensure_instance _ _ _ _) as [k2 [i2| |]]; [|done..].
      destruct (record_vip _ _ _ _ _) as [k3 [[]| |]]; [|done..]. by intros Heq [= ->]. }
    destruct (publish_spec _ _ _ Hpub) as (f & -> & Hf). eapply so_moved; try done.
    + intros ip n. cbn [ka_instances set_host ka_set]. rewrite Hcar2. cbn [k1 ka_instances ka_set]. by rewrite Hcar.
    + intros ->. cbn. by rewrite Hf.
  - intros Heq. exists iface.
    assert ((k', r) = (ka_set k1 (ka_instances k1) (vips k1) a2, Err ErrIDsExhausted)) as [= -> ->].
    { revert Heq Hj. unfold mbind, ST_bind. destruct (ensure_instance _ _ _ _) as [k2 [i2| |]].
      - destruct (record_vip _ _ _ _ _) as [k3 [[]| |]]; [done| |done]. by intros [= <- <-] [= -> ->].
      - by intros [= <- <-] [= -> ->].
      - done. }
    split; [|done]. apply so_exhausted; try done. intros j Hj'. cbn [ka_instances ka_set k1].
    apply (to_no_leak _ _ _ Hok1 j Hj'). apply (Hall j). lia.
Qed.

Lemma ka_DelBalancer_spec k k' vip r : ka_ok k → ka_DelBalancer vip k = (k', r) →
  ka_ok k' ∧ vips k' = delete vip (vips k) ∧
  (∀ ip n, carried (ka_instances k') ip n ↔ carried (ka_instances k) ip n ∧ ip ≠ vip) ∧
  ((running (host k') = running (host k) ∧ (is_ok r = true → ka_instances k' = ka_instances k)) ∨
   (is_ok r = true ∧ running (host k') = Some (ka_instances k'))).
Proof.
  intros Hok. unfold ka_DelBalancer. destruct (vips k !! vip) as [name|] eqn:Hv.
  2: { intros [= <- <-]. split; [done|]. split; [by rewrite delete_id|]. split; [|by left]. intros ip n.
       split; [|by intros [? _]]. intros Hc. split; [done|]. intros ->.
       pose proof (carried_vips _ _ _ _ _ Hok Hc). congruence. }
  set (k1 := ka_set _ _ _ _). change (ka_instances k1) with (ka_instances k).
  destruct (cleanRecord_spec k1 (vips k) vip name) as (m & a & Hc & Hok1 & Hcar); [done|done|].
  assert (tables_ok m (delete vip (vips k)) a) as Hok2.
  { eapply tables_ok_vips; [done|]. intros ip n [_ Hne]%Hcar. by rewrite lookup_delete_ne. }
  destruct (ka_instances k !! name) as [i|] eqn:Hi.
  - unfold mbind at 1, ST_bind at 1. rewrite Hc. intros Hp. destruct (publish_spec _ _ _ Hp) as (f & -> & Hf).
    split; [done|]. split; [done|]. split; [done|]. destruct (is_ok r); [by right|by left].
  - intros [= <- <-]. revert Hc. unfold cleanRecord. change (ka_instances k1) with (ka_instances k). rewrite Hi.
    intros Hc. injection Hc as Hm Ha. split; [|split; [done|split; [|by left]]].
    + unfold ka_ok. cbn. rewrite Hm, Ha. exact Hok2.
    + rewrite <- Hm in Hcar. exact Hcar.
Qed.

Lemma ka_ConfigureWithEIP_spec k k' c b r : ka_ConfigureWithEIP c b k = (k', r) →
  ka_instances k' = ka_instances k ∧ vips k' = vips k ∧ idAlloc k' = idAlloc k ∧ host k' = host k.
Proof.
  unfold ka_ConfigureWithEIP, mbind, ST_bind, st_lift, store_config.
  destruct (ParseInterface _) as [netif| |]; [|by intros [= <- <-]..].
  destruct (ValidateInterface _ _) as [[]| |]; [|by intros [= <- <-]..].
  destruct b; by intros [= <- <-].
Qed.

(** keepalived keeps the promises the speaker manager relies on. *)
#[export] Instance keepalived_ok : SpeakerOk (keepAlived F) ka_ok ka_announced.
Proof.
  constructor.
  - intros ip nodes k k' r Hok H. destruct (ka_SetBalancer_spec _ _ _ _ _ Hok H) as (iface & Ho & _).
    destruct Ho as [-> _|i Hok' _ _ _ Hcar _|_ Hok' _ _ Hcar]; (split; [done|]); [set_solver|..];
      intros x; rewrite elem_of_union, elem_of_singleton, !elem_of_ka_announced;
      intros (n & Hn); apply Hcar in Hn; naive_solver.
  - intros ip k k' r Hok H. destruct (ka_DelBalancer_spec _ _ _ _ Hok H) as (Hok' & _ & Hcar & _).
    split; [done|]. split; [intros x|intros _]; rewrite !elem_of_ka_announced.
    + intros (n & [Hn _]%Hcar). by exists n.
    + by intros (n & [_ Hn]%Hcar).
  - intros c b k k' r Hok H. destruct (ka_ConfigureWithEIP_spec _ _ _ _ _ H) as (Hm & Hv & Ha & _).
    unfold ka_ok, ka_announced. by rewrite Hm, Hv, Ha.
Qed.

Lemma NewKeepAlived_ok f f' k : NewKeepAlived f = (f', Ok k) → ka_ok k ∧ ka_announced k = ∅.
Proof.
  unfold NewKeepAlived. destruct (ParseFiles _ _) as [f1 [u| |]]; [|done..].
  destruct (Idalloc.New 256) as [a| |] eqn:Ha; [|done..]. cbn. intros [= <- <-]. split; [|done].
  destruct (New_ok 256 a) as (Hok & Hc & Hset); [done|done|]. constructor; cbn; try done.
  - by rewrite Hset.
  - intros j Hj. rewrite Hset by lia. intros ->%Z.eqb_eq. lia.
Qed.
End speaker.

(** ** Runs of the speaker *)
Inductive ka_step `{R : GoRange} `{GS : GoSort} `{HN : HostNet} {F : Type} `{HF : KeepalivedHost F}
    : keepAlived F → keepAlived F → Prop :=
| kas_set k k' r vip nodes : SetBalancer vip nodes k = (k', r) → ka_step k k'
| kas_del k k' r vip : DelBalancer vip k = (k', r) → ka_step k k'
| kas_configure k k' r c b : ConfigureWithEIP c b k = (k', r) → ka_step k k'.

(** ** Properties *)

(** C10: from [NewKeepAlived] on, whatever the calls and however they end, every
    VRRP instance serves at least one address, no address twice, and each
    address is recorded under its instance; the instances have different
    virtual router IDs between 1 and 255, and exactly these are allocated, so
    no ID leaks. *)
Theorem keepalived_invariant `{R : GoRange} `{GS : GoSort} `{HN : HostNet} {F : Type} `{HF : KeepalivedHost F}
    `{HO : !KeepalivedHostOk F} (f f' : F) (k0 k : keepAlived F)
    (Hnew : NewKeepAlived f = (f', Ok k0)) (Hrun : rtc ka_step k0 k) :
  (∀ n i, ka_instances k !! n = Some i →
     Inst_Name i = n ∧ Svcips i ≠ [] ∧ NoDup (Svcips i) ∧ 1 <= RouteID i <= 255 ∧
     ∀ ip, ip ∈ Svcips i → vips k !! ip = Some n) ∧
  (∀ n n' i i', ka_instances k !! n = Some i → ka_instances k !! n' = Some i' →
     RouteID i = RouteID i' → n = n') ∧
  (∀ j, 1 <= j <= 255 →
     allocated (idAlloc k) j = true ↔ ∃ n i, ka_instances k !! n = Some i ∧ RouteID i = j).
Proof.
  assert (ka_ok k) as Hok.
  { destruct (NewKeepAlived_ok _ _ _ Hnew) as [Hok _]. clear Hnew.
    induction Hrun as [|k0 k1 k Hs _ IH]; [done|]. apply IH.
    destruct Hs as [? ? ? ? ? H|? ? ? ? H|? ? ? ? ? H].
    - by destruct (SetBalancer_law _ _ _ _ _ Hok H).
    - by destruct (DelBalancer_law _ _ _ _ Hok H).
    - by destruct (ConfigureWithEIP_law _ _ _ _ _ Hok H). }
  split; [|split].
  - intros n i Hi. destruct (to_inst _ _ _ Hok _ _ Hi). split_and!; try done; lia.
  - intros n n' i i'. apply (to_distinct _ _ _ Hok).
  - intros j Hj. split; [apply (to_no_leak _ _ _ Hok); lia|]. intros (n & i & Hi & <-).
    apply (to_inst _ _ _ Hok _ _ Hi).
Qed.

(** C15: when [SetBalancer] succeeds, the address is in exactly one instance,
    the one named after its next hops and its interface; that instance is
    active on this node exactly when the node is one of the next hops; no
    other address moved; and keepalived runs the new configuration. *)
Theorem keepalived_SetBalancer_publishes `{R : GoRange} `{GS : GoSort} `{HN : HostNet} {F : Type}
    `{HF : KeepalivedHost F} `{HO : !KeepalivedHostOk F} (vip : string) (nodes : list Node)
    (k k' : keepAlived F) (Hok : ka_ok k) (Hset : ka_SetBalancer vip nodes k = (k', Ok ())) :
  ∃ iface i, getInterfaces k vip = Ok iface ∧ iface ≠ "" ∧
    ka_instances k' !! instance_name nodes iface = Some i ∧
    (Enabled i = true ↔ ∃ node, node ∈ nodes ∧ Name (Node_Meta node) = GetNodeName (host k)) ∧
    (∀ n, carried (ka_instances k') vip n ↔ n = instance_name nodes iface) ∧
    (∀ ip n, ip ≠ vip → carried (ka_instances k') ip n ↔ carried (ka_instances k) ip n) ∧
    running (host k') = Some (ka_instances k').
Proof.
  destruct (ka_SetBalancer_spec _ _ _ _ _ Hok Hset) as (iface & Ho & Hif).
  destruct Hif as [Hif Hne]; [done|].
  destruct Ho as [_ ?|i Hok' Hi Hvip Hen Hcar Hrun|]; [done| |done].
  exists iface, i. split_and!; try done.
  - rewrite Hen. unfold isNodeInList. rewrite existsb_elem.
    split; intros (x & Hx & E); exists x; (split; [done|]); by apply bool_decide_eq_true in E || apply bool_decide_eq_true.
  - intros n. rewrite Hcar. naive_solver.
  - intros ip n Hip. rewrite Hcar. naive_solver.
  - by apply Hrun.
Qed.

(** The nodes agree on an instance: its name and the router ID tried first
    depend on the set of next hops only, not on the order in which a node
    lists them nor on its sorting algorithm. *)
Theorem keepalived_nodes_agree (G1 G2 : GoSort) (nodes nodes' : list Node) (iface : string)
    (Hp : nodes ≡ₚ nodes') :
  @instance_name G1 nodes iface = @instance_name G2 nodes' iface ∧
  Uint32 (@getNodeSha256Bytes G1 nodes) = Uint32 (@getNodeSha256Bytes G2 nodes').
Proof.
  assert (@getNodeSha256Bytes G1 nodes = @getNodeSha256Bytes G2 nodes') as E.
  { unfold getNodeSha256Bytes. do 2 f_equal. apply sort_strings_unique. unfold node_names. by rewrite Hp. }
  unfold instance_name. by rewrite E.
Qed.

(** A withdrawal that failed to reach keepalived is lost: [DelBalancer]
    forgets the address before it writes the configuration, so when writing or
    reloading fails the call can be repeated, succeeds without doing
    anything, and keepalived keeps running the configuration it had, with the
    address. *)
Theorem keepalived_failed_withdrawal_lost `{R : GoRange} `{GS : GoSort} `{HN : HostNet} {F : Type}
    `{HF : KeepalivedHost F} `{HO : !KeepalivedHostOk F} (vip : string) (e : error)
    (k k1 : keepAlived F) (Hok : ka_ok k)
    (Hdel : ka_DelBalancer vip k = (k1, Err e)) :
  ka_DelBalancer vip k1 = (k1, Ok ()) ∧ running (host k1) = running (host k) ∧ vip ∉ ka_announced k1.
Proof.
  destruct (ka_DelBalancer_spec _ _ _ _ Hok Hdel) as (Hok' & Hv & Hcar & [[Hr _]|[? _]]); [|done].
  split; [|split].
  - unfold ka_DelBalancer. by rewrite Hv, lookup_delete_eq.
  - done.
  - rewrite elem_of_ka_announced. by intros (n' & [_ Hn]%Hcar).
Qed.

(** ** Witnesses: a host that fails its first [failures] writes *)
Record DemoHost := { failures : nat; delay : nat; file : option instance_map; loaded : option instance_map }.
#[export] Instance demo_host : KeepalivedHost DemoHost := {|
  GetNodeName f := "node1";
  ParseFiles p f := (f, Ok ());
  MkdirAll p f := (f, Ok ());
  Create p f := (f, Ok ());
  Execute n m f := match failures f with
                   | O => ({| failures := 0; delay := delay f; file := Some m; loaded := loaded f |}, Ok ())
                   | S x => ({| failures := x; delay := delay f; file := None; loaded := loaded f |},
                             Err (Errorf "no space left on device"))
                   end;
  Stat p f := Nat.eqb (delay f) 0;
  Sleep f := {| failures := failures f; delay := pred (delay f); file := file f; loaded := loaded f |};
  KillHUP f := ({| failures := failures f; delay := delay f; file := file f; loaded := file f |}, Ok ());
  pid_delay := delay; cfg_file := file; running := loaded;
|}.
#[export] Instance demo_host_ok : KeepalivedHostOk DemoHost.
Proof.
  constructor; cbn; try done; try (by intros ? ? ? ? [= <- <-]).
  - intros n m f f' r. destruct (failures f); by intros [= <- <-].
  - intros n m f f'. destruct (failures f); [|done]. by intros [= <-].
  - by intros f f' r [= <- <-].
Qed.

#[export] Instance demo_net : HostNet := {|
  InterfaceByName n := Ok {| If_Name := n; If_HardwareAddr := [2;0;0;0;0;1]; If_Addrs := Ok ["10.0.0.254/24"] |};
  InterfaceByIndex i := Err (Errorf "no such network interface");
  RouteGet ip := Err (Errorf "network is unreachable");
|}.

Definition demo_node (n : string) : Node :=
  {| Node_Meta := {| Name := n; Namespace := ""; Labels := None; Annotations := None;
                     Finalizers := []; DeletionTimestamp := None |};
     Node_Addresses := []; Node_Conditions := [] |}.

#[local] Existing Instances canonical_range insertion_sort.

(** A configured speaker on that host, then one that announces an address
    through two nodes. *)
Definition demo_new (n : nat) : keepAlived DemoHost :=
  {| ka_instances := ∅; vips := ∅; configs := ∅; idAlloc := {| bits := [1]; maxBlocks := 4 |};
     host := {| failures := n; delay := 3; file := None; loaded := None |} |}.
Definition demo_config : Config :=
  {| Cfg_Name := "a"; Cfg_IPRange := Some (v4Range (ParseIP "10.0.0.1") (ParseIP "10.0.0.9")); Cfg_Iface := "eth0" |}.
Definition demo_nodes : list Node := [demo_node "node2"; demo_node "node1"].
Definition demo_configured : keepAlived DemoHost := fst (ConfigureWithEIP demo_config false (demo_new 0)).
Definition demo_announcing : keepAlived DemoHost := fst (SetBalancer "10.0.0.2" demo_nodes demo_configured).
(** The same, with the next write failing. *)
Definition demo_failing : keepAlived DemoHost :=
  set_host demo_announcing {| failures := 1; delay := 0; file := file (host demo_announcing);
                              loaded := loaded (host demo_announcing) |}.

Lemma demo_new_ok : NewKeepAlived (host (demo_new 0)) = (host (demo_new 0), Ok (demo_new 0)).
Proof. by vm_compute. Qed.

Lemma demo_configured_ok : ka_ok demo_configured.
Proof.
  destruct (NewKeepAlived_ok _ _ _ demo_new_ok) as [Hok _].
  exact (proj1 (ConfigureWithEIP_law _ _ _ _ _ Hok (surjective_pairing (ConfigureWithEIP demo_config false (demo_new 0))))).
Qed.

Lemma set_host_ok {F} (k : keepAlived F) f : ka_ok k → ka_ok (set_host k f).
Proof. done. Qed.
Lemma ka_set_ok k k' vip nodes r : ka_ok k → ka_SetBalancer vip nodes k = (k', r) → ka_ok (F := DemoHost) k'.
Proof. intros Hok H. by destruct (ka_SetBalancer_spec _ _ _ _ _ Hok H) as (? & [-> _| |] & _). Qed.

Lemma demo_set : ka_SetBalancer "10.0.0.2" demo_nodes demo_configured = (demo_announcing, Ok ()).
Proof. apply pair_result. vm_compute. reflexivity. Qed.
Lemma demo_failing_ok : ka_ok demo_failing.
Proof. unfold demo_failing. apply set_host_ok. eapply ka_set_ok; [exact demo_configured_ok|exact demo_set]. Qed.

Lemma demo_instance : is_Some (ka_instances demo_announcing !! instance_name demo_nodes "eth0").
Proof. apply not_eq_None_Some. vm_compute. discriminate. Qed.

Lemma keepalived_invariant_witness :
  ∃ i, ka_instances demo_announcing !! instance_name demo_nodes "eth0" = Some i ∧ 1 <= RouteID i <= 255.
Proof.
  destruct (keepalived_invariant _ _ _ demo_announcing demo_new_ok) as (H & _).
  { eapply rtc_l; [eapply kas_configure, surjective_pairing|].
    apply rtc_once. eapply kas_set. exact demo_set. }
  destruct demo_instance as [i Hi]. exists i. split; [exact Hi|]. apply (H _ _ Hi).
Defined.

Lemma keepalived_SetBalancer_publishes_witness :
  running (host demo_announcing) = Some (ka_instances demo_announcing).
Proof.
  destruct (keepalived_SetBalancer_publishes _ _ _ _ demo_configured_ok demo_set)
    as (iface & i & _ & _ & _ & _ & _ & _ & H). exact H.
Defined.

Lemma keepalived_nodes_agree_witness :
  instance_name demo_nodes "eth0" = instance_name (rev demo_nodes) "eth0".
Proof. apply (keepalived_nodes_agree insertion_sort insertion_sort). apply Permutation_rev. Defined.

Lemma demo_del_fails : ka_DelBalancer "10.0.0.2" demo_failing = (fst (ka_DelBalancer "10.0.0.2" demo_failing),
  Err (Errorf "unexpected error creating keepalived.cfg: no space left on device")).
Proof. apply pair_result. vm_compute. reflexivity. Qed.

Lemma keepalived_failed_withdrawal_lost_witness :
  ∃ k1, ka_DelBalancer "10.0.0.2" demo_failing =
      (k1, Err (Errorf "unexpected error creating keepalived.cfg: no space left on device")) ∧
    ka_DelBalancer "10.0.0.2" k1 = (k1, Ok ()) ∧ running (host k1) = running (host demo_failing).
Proof.
  destruct (keepalived_failed_withdrawal_lost _ _ _ _ demo_failing_ok demo_del_fails) as (H1 & H2 & _).
  exists (fst (ka_DelBalancer "10.0.0.2" demo_failing)). split_and!; [exact demo_del_fails|exact H1|exact H2].
Defined.
