(* ===== verification/Layer2.v ===== *)
(** * [pkg/speaker/layer2]: the ARP and NDP speaker

    The speaker keeps an announcer per network interface; an announcer keeps
    the pools registered on the interface and the addresses this node answers
    ARP requests (IPv4) or neighbour solicitations (IPv6) for.  Of the nodes
    that are alive according to the member list, the one whose name and the
    address have the least SHA-256 digest announces the address.

    The packet libraries, the sockets and the member list are third-party
    code: the class [L2Host], whose state is a component of the speaker's.
    [arp_processRequest] and [ndp_processRequest] are one round of the
    receiving goroutines, whose loops are in [Lifecycle]; the lock of an
    announcer is in [Locks].  Metrics and logs are not modelled. *)
From S2P Require Import Prelude GoNet Iprange K8s Speaker Sha256.
Local Open Scope Z_scope.

(** ** [const.go] *)
Inductive dropReason :=
| dropReasonNone | dropReasonClosed | dropReasonError | dropReasonARPReply
| dropReasonUnknowTargetIP | dropReasonLeader | dropReasonNotNeighborSolicitation
| dropReasonNotSourceDirection.
#[export] Instance dropReason_eq_dec : EqDecision dropReason.
Proof. solve_decision. Defined.

(** ** The host *)
Abbreviation HardwareAddr := (list Z).
Inductive Operation := OperationRequest | OperationReply.
#[export] Instance Operation_eq_dec : EqDecision Operation.
Proof. solve_decision. Defined.

Record Packet := {
  Pkt_Operation : Operation; SenderHardwareAddr : HardwareAddr; SenderIP : IP; TargetIP : IP }.

Inductive Direction := Source | Target.
#[export] Instance Direction_eq_dec : EqDecision Direction.
Proof. solve_decision. Defined.
Inductive NdpOption := LinkLayerAddress (d : Direction) (addr : HardwareAddr) | OtherOption.
Inductive NdpMessage := NeighborSolicitation (TargetAddress : Addr) (Options : list NdpOption) | OtherMessage.
Record NeighborAdvertisement := {
  Router : bool; Solicited : bool; Override : bool; NA_Target : Addr; NA_Options : list NdpOption }.

Definition EOF : error := Errorf "EOF".
Definition Broadcast : HardwareAddr := replicate 6 255.

(** Sockets are named by their interface. *)
Class L2Host (N : Type) := {
  l2_NodeName : N → string;
  Members : N → list string;
  ListenPacket : NetInterface → ST N ();
  arp_New : NetInterface → ST N ();
  ndp_Listen : NetInterface → ST N ();
  NewPacket : Operation → HardwareAddr → IP → HardwareAddr → IP → Result (list Z);
  MarshalFrame : HardwareAddr → HardwareAddr → list Z → Result (list Z);
  raw_WriteTo : string → list Z → HardwareAddr → ST N ();
  arp_Read : string → ST N Packet;
  arp_Close : string → N → N;
  SolicitedNodeMulticast : Addr → Result Addr;
  JoinGroup : string → Addr → ST N ();
  LeaveGroup : string → Addr → ST N ();
  ndp_WriteTo : string → NeighborAdvertisement → Addr → ST N ();
  ndp_ReadFrom : string → ST N (NdpMessage * Addr);
  ndp_Close : string → N → N;
}.

(** [netip.Addr.String] *)
Definition Addr_String (a : Addr) : string :=
  match a with
  | Addr4 b => string4 b
  | Addr6 b z =>
      (if decide (take 12 b = v4InV6Prefix) then "::ffff:" +:+ string4 (drop 12 b) else string6 b)
      +:+ (if str_empty z then "" else "%" +:+ z)
  end.
Definition Is6 (a : Addr) : bool := match a with Addr4 _ => false | Addr6 _ _ => true end.
Definition netip_ParseAddr (s : string) : Result Addr :=
  match ParseAddr s with Some a => Ok a | None => Err (Errorf "unable to parse IP") end.

(** ** Announcers

    [an_family] is the announcer's type: [V4Family] for [arpAnnouncer],
    [V6Family] for [ndpAnnouncer], which have the same fields. *)
Record announcer := {
  an_family : Family;
  intf : NetInterface;
  ip2mac : gmap string HardwareAddr;
  ipranges : gmap string (option Range);
}.

Definition set_ip2mac (a : announcer) (m : gmap string HardwareAddr) : announcer :=
  {| an_family := an_family a; intf := intf a; ip2mac := m; ipranges := ipranges a |}.
Definition set_ipranges (a : announcer) (rs : gmap string (option Range)) : announcer :=
  {| an_family := an_family a; intf := intf a; ip2mac := ip2mac a; ipranges := rs |}.

Definition RegisterIPRange (name : string) (r : option Range) (a : announcer) : announcer :=
  set_ipranges a (<[name := r]> (ipranges a)).

(** [r.Contains] on a nil range is a panic. *)
Definition nil_Contains (r : option Range) (ip : IP) : Result bool :=
  match r with None => Panic | Some r => Ok (Range_Contains r ip) end.

Fixpoint unregister_ips (r : option Range) (ips : list string) (m : gmap string HardwareAddr)
    : Result (gmap string HardwareAddr) :=
  match ips with
  | [] => Ok m
  | ip :: rest =>
      b ← nil_Contains r (ParseIP ip);
      unregister_ips r rest (if b : bool then delete ip m else m)
  end.

Fixpoint contains_ip (rs : list (string * option Range)) (ip : IP) : Result bool :=
  match rs with
  | [] => Ok false
  | (_, r) :: rest => b ← nil_Contains r ip; if b : bool then Ok true else contains_ip rest ip
  end.

Section announcer.
Context {R : GoRange} {N : Type} {H : L2Host N}.

Definition UnregisterIPRange (name : string) (a : announcer) : Result announcer :=
  match ipranges a !! name with
  | None => Ok a
  | Some r =>
      m ← unregister_ips r (range_map (ip2mac a)).*1 (ip2mac a);
      Ok (set_ipranges (set_ip2mac a m) (delete name (ipranges a)))
  end.

Definition Size (a : announcer) : nat := size (ipranges a).
Definition ContainsIP (a : announcer) (ip : IP) : Result bool := contains_ip (range_map (ipranges a)) ip.
Definition getMac (a : announcer) (ip : string) : option HardwareAddr := ip2mac a !! ip.
Definition setMac (ip : string) (mac : HardwareAddr) (a : announcer) : announcer :=
  set_ip2mac a (<[ip := mac]> (ip2mac a)).

(** The operations that send packets work on the announcer and the host. *)
Definition on_net {A} (call : ST N A) : ST (announcer * N) A := λ s,
  let '(n, r) := call s.2 in ((s.1, n), r).
Definition an_modify (f : announcer → announcer) : ST (announcer * N) () := λ s, ((f s.1, s.2), Ok ()).

(** *** [arp_announcer.go] *)
Definition new_announcer (f : Family) (ifi : NetInterface) : announcer :=
  {| an_family := f; intf := ifi; ip2mac := ∅; ipranges := ∅ |}.

(** An error of a call, with the text the caller puts around it. *)
Definition st_wrap {W A} (wrap : error → error) (m : ST W A) : ST W A := λ w,
  match m w with (w', Err e) => (w', Err (wrap e)) | p => p end.

Definition newARPAnnouncer (ifi : NetInterface) : ST N announcer :=
  ListenPacket ifi;;
  st_wrap (λ e, Errorf ("creating ARP Speaker for " +:+ If_Name ifi +:+ ", err=" +:+ err_text e)) (arp_New ifi);;
  mret (new_announcer V4Family ifi).

Definition generateArp (intfHW : HardwareAddr) (op : Operation) (srcHW : HardwareAddr) (srcIP : IP)
    (dstHW : HardwareAddr) (dstIP : IP) : Result (list Z) :=
  pb ← NewPacket op srcHW srcIP dstHW dstIP;
  MarshalFrame dstHW intfHW pb.

Fixpoint send_gratuitous (ops : list Operation) (a : announcer) (ip : IP) : ST (announcer * N) () :=
  match ops with
  | [] => mret ()
  | op :: rest =>
      let hw := If_HardwareAddr (intf a) in
      fb ← st_lift (generateArp hw op hw ip Broadcast ip);
      on_net (raw_WriteTo (If_Name (intf a)) fb Broadcast);;
      send_gratuitous rest a ip
  end.

Definition gratuitous (ip : IP) : ST (announcer * N) () := λ s,
  let a := s.1 in
  match getMac a (IP_String ip) with
  | Some _ => (s, Ok ())
  | None =>
      (an_modify (setMac (IP_String ip) (If_HardwareAddr (intf a)));;
       send_gratuitous [OperationRequest; OperationReply] a ip) s
  end.

Definition arp_AddAnnouncedIP (ip : IP) : ST (announcer * N) () := gratuitous ip.
Definition arp_DelAnnouncedIP (ip : IP) : ST (announcer * N) () :=
  an_modify (λ a, set_ip2mac a (delete (IP_String ip) (ip2mac a))).

(** One round of the receiving loop: the reply, if any, is what [raw_WriteTo]
    is given. *)
Definition arp_processRequest : ST (announcer * N) dropReason := λ s,
  let a := s.1 in
  match arp_Read (If_Name (intf a)) s.2 with
  | (n, Err e) => ((a, n), Ok (if decide (e = EOF) then dropReasonClosed else dropReasonError))
  | (n, Panic) => ((a, n), Panic)
  | (n, Ok pkt) =>
      if decide (Pkt_Operation pkt ≠ OperationRequest) then ((a, n), Ok dropReasonARPReply)
      else match getMac a (IP_String (TargetIP pkt)) with
      | None => ((a, n), Ok dropReasonUnknowTargetIP)
      | Some hwAddr =>
          match generateArp (If_HardwareAddr (intf a)) OperationReply hwAddr (TargetIP pkt)
                  (SenderHardwareAddr pkt) (SenderIP pkt) with
          | Panic => ((a, n), Panic)
          | Err _ => ((a, n), Ok dropReasonError)
          | Ok fb =>
              match raw_WriteTo (If_Name (intf a)) fb (SenderHardwareAddr pkt) n with
              | (n, Ok _) => ((a, n), Ok dropReasonNone)
              | (n, Err _) => ((a, n), Ok dropReasonError)
              | (n, Panic) => ((a, n), Panic)
              end
          end
      end
  end.

(** *** [ndp_announcer.go] *)
Definition newNDPAnnouncer (ifi : NetInterface) : ST N announcer :=
  st_wrap (λ e, Errorf ("creating NDP Announcer for " +:+ If_Name ifi +:+ ", err=" +:+ err_text e)) (ndp_Listen ifi);;
  mret (new_announcer V6Family ifi).

Definition generateNDP (gratuitous : bool) (srcHW : HardwareAddr) (srcIP : Addr) : NeighborAdvertisement :=
  {| Router := false; Solicited := negb gratuitous; Override := gratuitous; NA_Target := srcIP;
     NA_Options := [LinkLayerAddress Target srcHW] |}.

Definition JoinMulticastGroup (ifname : string) (ip : Addr) : ST (announcer * N) () :=
  if Is6 ip then
    multicastGroup ← st_wrap (λ e, Errorf ("no match solicitedNodeMulticast: " +:+ err_text e))
                       (st_lift (SolicitedNodeMulticast ip));
    st_wrap (λ e, Errorf ("failed to join multicast group: " +:+ err_text e))
      (on_net (JoinGroup ifname multicastGroup))
  else st_lift (Err (Errorf "join multicastgroup need ipv6")).
Definition LeaveMulticastGroup (ifname : string) (ip : Addr) : ST (announcer * N) () :=
  if Is6 ip then
    multicastGroup ← st_wrap (λ e, Errorf ("no match solicitedNodeMulticast: " +:+ err_text e))
                       (st_lift (SolicitedNodeMulticast ip));
    st_wrap (λ e, Errorf ("failed to leave multicast group: " +:+ err_text e))
      (on_net (LeaveGroup ifname multicastGroup))
  else st_lift (Err (Errorf "leave multicastgroup need ipv6")).

Definition IPv6linklocalallnodes : IP := [255; 2] ++ replicate 13 0 ++ [1].

Definition Gratuitous (ip : Addr) : ST (announcer * N) () := λ s,
  let a := s.1 in
  match getMac a (Addr_String ip) with
  | Some _ => (s, Ok ())
  | None =>
      (an_modify (setMac (Addr_String ip) (If_HardwareAddr (intf a)));;
       addr ← st_wrap (λ e, Errorf ("parse IPv6linklocalallnodes: " +:+ err_text e))
                (st_lift (netip_ParseAddr (IP_String IPv6linklocalallnodes)));
       on_net (ndp_WriteTo (If_Name (intf a)) (generateNDP true (If_HardwareAddr (intf a)) ip) addr)) s
  end.

Definition parse_service_ip (ip : IP) : ST (announcer * N) Addr :=
  st_wrap (λ e, Errorf ("parse service ip error : " +:+ err_text e)) (st_lift (netip_ParseAddr (IP_String ip))).

Definition ndp_AddAnnouncedIP (ip : IP) : ST (announcer * N) () := λ s,
  (svcIP ← parse_service_ip ip;
   st_wrap (λ _, Errorf (" ip: " +:+ IP_String ip +:+ " join multicastgroup err"))
     (JoinMulticastGroup (If_Name (intf s.1)) svcIP);;
   Gratuitous svcIP) s.

Definition ndp_DelAnnouncedIP (ip : IP) : ST (announcer * N) () := λ s,
  (svcIP ← parse_service_ip ip;
   st_wrap (λ _, Errorf (" ip: " +:+ IP_String ip +:+ " leave multicastgroup err"))
     (LeaveMulticastGroup (If_Name (intf s.1)) svcIP);;
   an_modify (λ a, set_ip2mac a (delete (IP_String ip) (ip2mac a)))) s.

(** The sender's link-layer address: the first source option. *)
Fixpoint source_addr (os : list NdpOption) : option HardwareAddr :=
  match os with
  | [] => None
  | LinkLayerAddress Source addr :: _ => Some addr
  | _ :: rest => source_addr rest
  end.

Definition ndp_processRequest : ST (announcer * N) dropReason := λ s,
  let a := s.1 in
  match ndp_ReadFrom (If_Name (intf a)) s.2 with
  | (n, Err e) => ((a, n), Ok (if decide (e = EOF) then dropReasonClosed else dropReasonError))
  | (n, Panic) => ((a, n), Panic)
  | (n, Ok (OtherMessage, _)) => ((a, n), Ok dropReasonNotNeighborSolicitation)
  | (n, Ok (NeighborSolicitation target opts, nsSenderIP)) =>
      match source_addr opts with
      | None | Some [] => ((a, n), Ok dropReasonNotSourceDirection)
      | Some _ =>
          match getMac a (Addr_String target) with
          | None => ((a, n), Ok dropReasonUnknowTargetIP)
          | Some hwAddr =>
              match ndp_WriteTo (If_Name (intf a)) (generateNDP false hwAddr target) nsSenderIP n with
              | (n, Ok _) => ((a, n), Ok dropReasonNone)
              | (n, Err _) => ((a, n), Ok dropReasonError)
              | (n, Panic) => ((a, n), Panic)
              end
          end
      end
  end.

(** *** [announcer.go] *)
Definition newAnnouncer (iface : NetInterface) (family : Family) : ST N announcer :=
  if decide (family = V4Family) then newARPAnnouncer iface else newNDPAnnouncer iface.
Definition AddAnnouncedIP (ip : IP) : ST (announcer * N) () := λ s,
  match an_family s.1 with V4Family => arp_AddAnnouncedIP ip s | V6Family => ndp_AddAnnouncedIP ip s end.
Definition DelAnnouncedIP (ip : IP) : ST (announcer * N) () := λ s,
  match an_family s.1 with V4Family => arp_DelAnnouncedIP ip s | V6Family => ndp_DelAnnouncedIP ip s end.
(** Closing the socket; the hand-shake with the receiving goroutine that
    follows it is not modelled. *)
Definition Stop (a : announcer) (n : N) : N :=
  match an_family a with
  | V4Family => arp_Close (If_Name (intf a)) n
  | V6Family => ndp_Close (If_Name (intf a)) n
  end.

(** *** [ndp_announcer.go]: the methods it repeats word for word *)
Definition ndp_RegisterIPRange : string → option Range → announcer → announcer := RegisterIPRange.
Definition ndp_UnregisterIPRange : string → announcer → Result announcer := UnregisterIPRange.
Definition ndp_Size : announcer → nat := Size.
Definition ndp_ContainsIP : announcer → IP → Result bool := ContainsIP.
Definition ndp_getMac : announcer → string → option HardwareAddr := getMac.
Definition ndp_setMac : string → HardwareAddr → announcer → announcer := setMac.
End announcer.

(** ** [memberlist.go] *)
Record layer2Speaker (N : Type) := { announcers : gmap string announcer; l2_net : N }.
Arguments announcers {N} _.
Arguments l2_net {N} _.

(** Which of two candidates goes first for [ip]. *)
Definition hash_less (ip a b : string) : bool :=
  match bytes_compare (sha256.Sum256 (a +:+ "#" +:+ ip)) (sha256.Sum256 (b +:+ "#" +:+ ip)) with
  | Lt => true | _ => false
  end.

Section layer2.
Context {R : GoRange} {GS : GoSort} {HN : HostNet} {N : Type} {H : L2Host N}.
Implicit Types l : layer2Speaker N.

(** A call on the announcer of interface [name]. *)
Definition on_announcer {A} (name : string) (a : announcer) (call : ST (announcer * N) A)
    : ST (layer2Speaker N) A := λ l,
  let '((a', n'), r) := call (a, l2_net l) in
  ({| announcers := <[name := a']> (announcers l); l2_net := n' |}, r).

(** The first announcer, in the order of the map, with the address in a range. *)
Fixpoint find_announcer (as_ : list (string * announcer)) (ip : IP) : Result (option (string * announcer)) :=
  match as_ with
  | [] => Ok None
  | (name, a) :: rest =>
      b ← ContainsIP a ip; if b : bool then Ok (Some (name, a)) else find_announcer rest ip
  end.

(** The nodes of [clusterNodes] that are alive, best first. *)
Definition candidates (members : list string) (ip : string) (clusterNodes : list Node) : list string :=
  sort_Slice (hash_less ip)
    (filter (λ n, n ∈ members) ((λ n, Name (Node_Meta n)) <$> clusterNodes)).

Definition l2_SetBalancer (ip : string) (clusterNodes : list Node) : ST (layer2Speaker N) () := λ l,
  match find_announcer (range_map (announcers l)) (ParseIP ip) with
  | Panic => (l, Panic)
  | Err e => (l, Err e)
  | Ok None => (l, Ok ())
  | Ok (Some (name, a)) =>
      match candidates (Members (l2_net l)) ip clusterNodes with
      | [] => (l, Ok ())
      | winner :: _ =>
          if decide (winner ≠ l2_NodeName (l2_net l)) then (l, Ok ())
          else on_announcer name a (AddAnnouncedIP (ParseIP ip)) l
      end
  end.

Definition l2_DelBalancer (ip : string) : ST (layer2Speaker N) () := λ l,
  match find_announcer (range_map (announcers l)) (ParseIP ip) with
  | Panic => (l, Panic)
  | Err e => (l, Err e)
  | Ok None => (l, Ok ())
  | Ok (Some (name, a)) => on_announcer name a (DelAnnouncedIP (ParseIP ip)) l
  end.

(** [Start] of a new announcer only starts its goroutine. *)
Definition registerAnnouncer (eipName : string) (netif : NetInterface) (r : option Range)
    : ST (layer2Speaker N) () := λ l,
  match announcers l !! If_Name netif with
  | Some a => ({| announcers := <[If_Name netif := RegisterIPRange eipName r a]> (announcers l);
                  l2_net := l2_net l |}, Ok ())
  | None =>
      match r with
      | None => (l, Panic)
      | Some rg =>
          match newAnnouncer netif (Range_Family rg) (l2_net l) with
          | (n, Ok a) => ({| announcers := <[If_Name netif := RegisterIPRange eipName r a]> (announcers l);
                             l2_net := n |}, Ok ())
          | (n, Err e) => ({| announcers := announcers l; l2_net := n |},
              Err (Errorf ("new Announcer error. interface " +:+ If_Name netif +:+ ", error " +:+ err_text e)))
          | (n, Panic) => ({| announcers := announcers l; l2_net := n |}, Panic)
          end
      end
  end.

Definition unregisterAnnouncer (eipName netifName : string) : ST (layer2Speaker N) () := λ l,
  match announcers l !! netifName with
  | None => (l, Ok ())
  | Some a =>
      match UnregisterIPRange eipName a with
      | Err e => (l, Err e)
      | Panic => (l, Panic)
      | Ok a' =>
          if Nat.eqb (Size a') 0
          then ({| announcers := delete netifName (announcers l); l2_net := Stop a' (l2_net l) |}, Ok ())
          else ({| announcers := <[netifName := a']> (announcers l); l2_net := l2_net l |}, Ok ())
      end
  end.

Definition l2_ConfigureWithEIP (config : Config) (deleted : bool) : ST (layer2Speaker N) () :=
  netif ← st_lift (ParseInterface (Cfg_Iface config));
  st_lift (ValidateInterface netif (Cfg_IPRange config));;
  if deleted then unregisterAnnouncer (Cfg_Name config) (If_Name netif)
  else registerAnnouncer (Cfg_Name config) netif (Cfg_IPRange config).

Definition unregisterAllAnnouncers (l : layer2Speaker N) : layer2Speaker N :=
  {| announcers := ∅; l2_net := foldl (λ n p, Stop p.2 n) (l2_net l) (range_map (announcers l)) |}.

#[export] Instance layer2_speaker : Speaker (layer2Speaker N) := {|
  SetBalancer := l2_SetBalancer; DelBalancer := l2_DelBalancer; ConfigureWithEIP := l2_ConfigureWithEIP |}.
End layer2.

(** ** Texts of addresses *)
Lemma ParseIP_reparse s : ParseIP (IP_String (ParseIP s)) = ParseIP s.
Proof.
  destruct (ParseIP_ok s) as [->|[Hok Hl]]; [done|].
  rewrite ParseIP_String by done. by apply To16_addr16.
Qed.

(** The text under which [Gratuitous] records an IPv6 address is the one
    [DelAnnouncedIP] removes. *)
Lemma Addr_String_svcIP s a : netip_ParseAddr (IP_String (ParseIP s)) = Ok a → Is6 a = true →
  Addr_String a = IP_String (ParseIP s).
Proof.
  destruct (ParseIP_ok s) as [->|[Hok Hl]]; [done|]. unfold netip_ParseAddr, ParseAddr.
  destruct (IP_String_cases _ Hok) as [(H4 & _ & E)|(H4 & E)]; rewrite E.
  - destruct Hok as [Hb _]. destruct (string6_chars _ Hl Hb) as [-> Hc].
    unfold parseIPv6. rewrite CutByte_none by (apply Hc; [set_solver|done]).
    rewrite string6_parse by done. intros [= <-] _. cbn. rewrite str_app_nil_r, decide_False; [done|].
    intros Hp. unfold To4 in H4. rewrite Hl in H4. cbn in H4. rewrite bool_decide_eq_true_2 in H4 by done.
    apply (f_equal length) in H4. rewrite length_drop, Hl in H4. done.
  - destruct (To4_cases _ Hok) as [(E' & _)|(_ & Hb & _)]; [by rewrite E' in H4|].
    destruct (string4_chars _ H4 Hb) as [-> _]. unfold parseIPv4. destruct (parseIPv4Fields _ _ _ _); [|done].
    by intros [= <-].
Qed.

(** ** What the calls do to an announcer *)
Lemma unregister_ips_spec r m0 ips : ∀ m m', unregister_ips (Some r) ips m = Ok m' →
  (∀ ip, ip ∈ dom m → Range_Contains r (ParseIP ip) = true → ip ∈ ips ∨ m0 ip) →
  ∀ ip mac, m' !! ip = Some mac → m !! ip = Some mac ∧ (Range_Contains r (ParseIP ip) = true → m0 ip).
Proof.
  induction ips as [|x ips IH]; intros m m' Hu Hin ip mac Hm'; cbn in Hu.
  { simplify_eq. split; [done|]. intros Hr. destruct (Hin ip) as [Hx|?]; [by apply elem_of_dom|done| |done].
    by apply not_elem_of_nil in Hx. }
  apply IH with (ip := ip) (mac := mac) in Hu; [|clear Hu|done].
  - destruct (Range_Contains r (ParseIP x)); [|done]. destruct Hu as [Hu ?].
    by apply lookup_delete_Some in Hu as [_ ?].
  - intros y Hy Hr. destruct (decide (y = x)) as [->|Hne].
    + rewrite Hr in Hy. set_solver - Hin.
    + assert (y ∈ dom m) as Hy' by (destruct (Range_Contains r (ParseIP x)); [rewrite dom_delete in Hy|]; set_solver - Hin).
      destruct (Hin y Hy' Hr) as [[?|?]%elem_of_cons|?]; [done|by left|by right].
Qed.

Lemma contains_ip_true rs ip : contains_ip rs ip = Ok true →
  ∃ name r, (name, Some r) ∈ rs ∧ Range_Contains r ip = true.
Proof.
  induction rs as [|[name [r|]] rs IH]; cbn; [done| |done].
  destruct (Range_Contains r ip) eqn:E.
  - intros _. exists name, r. split; [left|done].
  - intros (n & r' & Hin & ?)%IH. exists n, r'. split; [by right|done].
Qed.

Section announcer_lemmas.
Context {R : GoRange} {N : Type} {H : L2Host N}.

Lemma send_gratuitous_announcer ops a ip : ∀ (s s' : announcer * N) r,
  send_gratuitous ops a ip s = (s', r) → s'.1 = s.1.
Proof.
  induction ops as [|op ops IH]; intros s s' r; cbn; [by intros [= <- <-]|].
  unfold mbind, ST_bind, st_lift, on_net. destruct (generateArp _ _ _ _ _ _); [|by intros [= <- <-]..].
  destruct (raw_WriteTo _ _ _ _) as [n [| |]]; [|by intros [= <- <-]..]. by intros ->%IH.
Qed.

(** The announcer after an attempt to announce: unchanged, or with the MAC of
    its interface recorded for the address. *)
Definition added (ip : IP) (a a' : announcer) : Prop :=
  a' = a ∨ a' = setMac (IP_String ip) (If_HardwareAddr (intf a)) a.

Lemma arp_AddAnnouncedIP_spec ip (s s' : announcer * N) r : arp_AddAnnouncedIP ip s = (s', r) →
  added ip s.1 s'.1 ∧ (r = Ok () → is_Some (getMac s'.1 (IP_String ip))).
Proof.
  unfold arp_AddAnnouncedIP, gratuitous, added. destruct (getMac _ _) eqn:E.
  - intros [= <- <-]. split; [by left|]. by rewrite E.
  - unfold mbind, ST_bind, an_modify. intros ->%send_gratuitous_announcer. cbn. split; [by right|]. intros _.
    unfold getMac, setMac. cbn. by rewrite lookup_insert_eq.
Qed.

Lemma Gratuitous_spec ip (s s' : announcer * N) r : Gratuitous ip s = (s', r) →
  (s'.1 = s.1 ∨ s'.1 = setMac (Addr_String ip) (If_HardwareAddr (intf s.1)) s.1) ∧
  (r = Ok () → is_Some (getMac s'.1 (Addr_String ip))).
Proof.
  unfold Gratuitous. destruct (getMac _ _) eqn:E.
  - intros [= <- <-]. split; [by left|]. by rewrite E.
  - unfold mbind, ST_bind, an_modify, st_wrap, st_lift, on_net.
    assert (∀ m, is_Some (getMac (setMac (Addr_String ip) m s.1) (Addr_String ip))) as Hs.
    { intros m. unfold getMac, setMac. cbn. by rewrite lookup_insert_eq. }
    destruct (netip_ParseAddr _); [|intros [= <- <-]; (split; [by right|done])..].
    destruct (ndp_WriteTo _ _ _ _) as [n r1]. intros [= <- <-]. split; [by right|]. intros _. apply Hs.
Qed.

Lemma st_wrap_state {W A} f (c : ST W A) w w' r : st_wrap f c w = (w', r) → ∃ r0, c w = (w', r0) ∧ is_ok r0 = is_ok r
  ∧ (∀ x, r = Ok x → r0 = Ok x).
Proof. unfold st_wrap. destruct (c w) as [w1 [| |]]; intros [= <- <-]; eexists; split_and!; try done. Qed.

Lemma multicast_announcer (join : bool) ifname ip (s s' : announcer * N) r :
  (if join then JoinMulticastGroup ifname ip else LeaveMulticastGroup ifname ip) s = (s', r) →
  s'.1 = s.1 ∧ (r = Ok () → Is6 ip = true).
Proof.
  unfold JoinMulticastGroup, LeaveMulticastGroup, mbind, ST_bind, st_lift, on_net.
  destruct (Is6 ip), join; try (by intros [= <- <-]); unfold st_wrap; destruct (SolicitedNodeMulticast ip);
    try (by intros [= <- <-]); [destruct (JoinGroup _ _ _) as [n [| |]]|destruct (LeaveGroup _ _ _) as [n [| |]]];
    by intros [= <- <-].
Qed.

Lemma AddAnnouncedIP_spec ip (s s' : announcer * N) r : AddAnnouncedIP (ParseIP ip) s = (s', r) →
  added (ParseIP ip) s.1 s'.1 ∧ (r = Ok () → is_Some (getMac s'.1 (IP_String (ParseIP ip)))).
Proof.
  unfold AddAnnouncedIP. destruct (an_family s.1); [apply arp_AddAnnouncedIP_spec|].
  unfold ndp_AddAnnouncedIP, parse_service_ip, mbind, ST_bind, added. unfold st_wrap at 1, st_lift.
  destruct (netip_ParseAddr _) as [a| |] eqn:Ha; [|by intros [= <- <-]; split; [left|]..].
  destruct (st_wrap _ _ s) as [s1 r1] eqn:E1. apply st_wrap_state in E1 as (r0 & E1 & _ & Hok).
  apply (multicast_announcer true) in E1 as [Hs1 H6].
  destruct r1 as [[]| |]; [|by intros [= <- <-]; split; [left|]..].
  intros Hg%Gratuitous_spec. rewrite Hs1, (Addr_String_svcIP ip a) in Hg; [done|done|]. apply H6, Hok. done.
Qed.

Lemma DelAnnouncedIP_spec ip (s s' : announcer * N) r : DelAnnouncedIP ip s = (s', r) →
  (s'.1 = s.1 ∧ is_ok r = false) ∨
  (s'.1 = set_ip2mac s.1 (delete (IP_String ip) (ip2mac s.1)) ∧ r = Ok ()).
Proof.
  unfold DelAnnouncedIP, arp_DelAnnouncedIP, an_modify. destruct (an_family s.1); [intros [= <- <-]; by right|].
  unfold ndp_DelAnnouncedIP, parse_service_ip, mbind, ST_bind, an_modify. unfold st_wrap at 1, st_lift.
  destruct (netip_ParseAddr _) as [a| |] eqn:Ha; [|by intros [= <- <-]; left..].
  destruct (st_wrap _ _ s) as [s1 r1] eqn:E1. apply st_wrap_state in E1 as (r0 & E1 & _ & _).
  apply (multicast_announcer false) in E1 as [Hs1 _].
  destruct r1 as [[]| |]; [|intros [= <- <-]; by left..]. intros [= <- <-]. right. by rewrite Hs1.
Qed.

(** ** The invariant of an announcer: it answers only for addresses of the
    pools registered on its interface, with the interface's own MAC. *)
Record an_ok (name : string) (a : announcer) : Prop := {
  ao_name : If_Name (intf a) = name;
  ao_ranges : ipranges a ≠ ∅;
  ao_some n r : ipranges a !! n = Some r → r ≠ None;
  ao_mac ip mac : ip2mac a !! ip = Some mac → mac = If_HardwareAddr (intf a);
  ao_in_range ip mac : ip2mac a !! ip = Some mac →
    ∃ n r, ipranges a !! n = Some (Some r) ∧ Range_Contains r (ParseIP ip) = true;
}.

Lemma ContainsIP_true a ip : ContainsIP a ip = Ok true →
  ∃ n r, ipranges a !! n = Some (Some r) ∧ Range_Contains r ip = true.
Proof.
  intros (n & r & Hin & Hr)%contains_ip_true. exists n, r. split; [|done]. by apply elem_of_range_map in Hin.
Qed.

Lemma added_ok name ip a a' : an_ok name a → ContainsIP a (ParseIP ip) = Ok true → added (ParseIP ip) a a' → an_ok name a'.
Proof.
  intros Hok Hc [-> | ->]; [done|]. destruct Hok as [Hn Hr Hs Hm Hi]. constructor; cbn; try done.
  - intros x mac. rewrite lookup_insert_Some. intros [[_ <-]|[_ Hx]]; [done|by eapply Hm].
  - intros x mac. rewrite lookup_insert_Some. intros [[<- <-]|[_ Hx]]; [|by eapply Hi].
    rewrite ParseIP_reparse. by apply ContainsIP_true.
Qed.

Lemma deleted_ok name key a : an_ok name a → an_ok name (set_ip2mac a (delete key (ip2mac a))).
Proof.
  intros [Hn Hr Hs Hm Hi]. constructor; cbn; try done; intros x mac; rewrite lookup_delete_Some; intros [_ ?]; eauto.
Qed.

Lemma register_ok name n r a : an_ok name a → r ≠ None →
  (∀ r0, ipranges a !! n = Some r0 → r0 = r) → an_ok name (RegisterIPRange n r a).
Proof.
  intros [Hn Hr Hs Hm Hi] Hsome Hsame. constructor; cbn; try done.
  - apply insert_non_empty.
  - intros n' r'. rewrite lookup_insert_Some. intros [[<- <-]|[_ ?]]; eauto.
  - intros ip mac Hip. destruct (Hi ip mac Hip) as (n' & r' & Hn' & Hin). exists n', r'. split; [|done].
    destruct (decide (n' = n)) as [->|]; [|by rewrite lookup_insert_ne].
    rewrite lookup_insert_eq. f_equal. symmetry. by apply Hsame.
Qed.

(** Unregistering a pool withdraws its addresses; an announcer without pools is
    dropped by the caller. *)
Lemma unregister_ok name n a a' : an_ok name a → UnregisterIPRange n a = Ok a' → ipranges a' ≠ ∅ → an_ok name a'.
Proof.
  intros Hok. unfold UnregisterIPRange. destruct (ipranges a !! n) as [r|] eqn:E; [|by intros [= <-]].
  destruct r as [r|]; [|by destruct (ao_some _ _ Hok _ _ E)].
  destruct (unregister_ips _ _ _) as [m| |] eqn:Hu; [|done..]. cbn. intros [= <-] Hne.
  assert (∀ ip mac, m !! ip = Some mac →
    ip2mac a !! ip = Some mac ∧ (Range_Contains r (ParseIP ip) = true → False)) as Hm.
  { eapply (unregister_ips_spec r (λ _, False)); [exact Hu|]. intros ip [mac Hip]%elem_of_dom _. left.
    apply list_elem_of_fmap. exists (ip, mac). split; [done|]. by apply elem_of_range_map. }
  destruct Hok as [Hn Hr Hs Hmac Hi]. constructor; cbn in *; try done.
  - intros n' r'. rewrite lookup_delete_Some. intros [_ ?]; eauto.
  - intros ip mac [Hip _]%Hm. eauto.
  - intros ip mac [Hip Hno]%Hm. destruct (Hi ip mac Hip) as (n' & r' & Hn' & Hin). exists n', r'. split; [|done].
    rewrite lookup_delete_ne; [done|]. intros ->. rewrite Hn' in E. injection E as ->. by apply Hno.
Qed.
End announcer_lemmas.

(** ** The speaker *)
Definition l2_ok {N} (l : layer2Speaker N) : Prop :=
  ∀ name a, announcers l !! name = Some a → an_ok name a.

(** This node answers for the address. *)
Definition answers {N} (l : layer2Speaker N) (ip : string) : Prop :=
  ∃ name a, announcers l !! name = Some a ∧ is_Some (getMac a (IP_String (ParseIP ip))).

Lemma validate_addrs_nil name addrs : validate_addrs name addrs None ≠ Ok ().
Proof.
  induction addrs as [|addr addrs IH]; cbn; [done|]. destruct (ParseCIDR addr) as [[ip n]| |]; [|done..]. cbn.
  by destruct (_ && _).
Qed.

(** The election order is strict, and total where the digests differ. *)
Lemma bytes_compare_refl_iff a : ∀ b, bytes_compare a b = Eq ↔ a = b.
Proof.
  induction a as [|x a IH]; intros [|y b]; cbn; try done.
  destruct (Z.compare_spec x y) as [->|Hlt|Hlt]; [rewrite IH; naive_solver|..]; (split; [done|]); intros [= -> _]; lia.
Qed.
Lemma bytes_compare_antisym a : ∀ b, bytes_compare b a = CompOpp (bytes_compare a b).
Proof.
  induction a as [|x a IH]; intros [|y b]; cbn; try done.
  rewrite (Z.compare_antisym x y). destruct (x ?= y); cbn; [apply IH|done..].
Qed.
Lemma bytes_compare_lt_trans a : ∀ b c, bytes_compare a b = Lt → bytes_compare b c = Lt → bytes_compare a c = Lt.
Proof.
  induction a as [|x a IH]; intros [|y b] [|z c]; cbn; try done.
  destruct (Z.compare_spec x y) as [->|Hxy|], (Z.compare_spec y z) as [->|Hyz|]; try done; intros H1 H2;
    rewrite ?Z.compare_refl.
  1: by eapply IH.
  all: match goal with |- context [?p ?= ?q] => destruct (Z.compare_spec p q); [lia|done|lia] end.
Qed.

Lemma hash_less_strict_weak ip : strict_weak (hash_less ip).
Proof.
  unfold hash_less. split.
  - intros x y. rewrite bytes_compare_antisym. by destruct (bytes_compare _ _).
  - intros x y z. set (f s := sha256.Sum256 (s +:+ "#" +:+ ip)). fold (f x) (f y) (f z).
    destruct (bytes_compare (f x) (f y)) eqn:E; [done| |done]. intros _.
    destruct (bytes_compare (f x) (f z)) eqn:E1; [|by left|].
    + apply bytes_compare_refl_iff in E1. rewrite <- E1, E. by right.
    + right. assert (bytes_compare (f z) (f x) = Lt) as E2 by (by rewrite bytes_compare_antisym, E1).
      by rewrite (bytes_compare_lt_trans _ _ _ E2 E).
Qed.

Definition no_collision (ip : string) (names : list string) : Prop :=
  ∀ a b, a ∈ names → b ∈ names →
    sha256.Sum256 (a +:+ "#" +:+ ip) = sha256.Sum256 (b +:+ "#" +:+ ip) → a = b.

(** Every node computes the same ranking. *)
Lemma candidates_agree (G1 G2 : GoSort) (members1 members2 : list string) ip (nodes1 nodes2 : list Node) :
  nodes1 ≡ₚ nodes2 → (∀ n, n ∈ members1 ↔ n ∈ members2) →
  no_collision ip ((λ n, Name (Node_Meta n)) <$> nodes1) →
  @candidates G1 members1 ip nodes1 = @candidates G2 members2 ip nodes2.
Proof.
  intros Hp Hm Hc. unfold candidates.
  set (names1 := (λ n, Name (Node_Meta n)) <$> nodes1) in *. set (names2 := _ <$> nodes2).
  assert (filter (λ n, n ∈ members1) names1 ≡ₚ filter (λ n, n ∈ members2) names2) as Hf.
  { transitivity (filter (λ n, n ∈ members2) names1).
    - rewrite (list_filter_iff _ (λ n, n ∈ members2)); [done|]. intros x. apply Hm.
    - unfold names1, names2. by rewrite Hp. }
  set (f1 := filter _ names1) in *. set (f2 := filter _ names2) in *.
  apply (StronglySorted_unique_strong (λ x y, hash_less ip y x = false)).
  - intros x y. rewrite (@sort_Slice_perm G1), (@sort_Slice_perm G2), <- Hf.
    intros [_ Hx]%list_elem_of_filter [_ Hy]%list_elem_of_filter. unfold hash_less.
    rewrite (bytes_compare_antisym (sha256.Sum256 (x +:+ _))).
    destruct (bytes_compare _ _) eqn:E; cbn; try done. intros _ _. apply Hc; [done..|].
    by apply bytes_compare_refl_iff.
  - by apply (@sort_Slice_sorted G1), hash_less_strict_weak.
  - by apply (@sort_Slice_sorted G2), hash_less_strict_weak.
  - by rewrite (@sort_Slice_perm G1), (@sort_Slice_perm G2).
Qed.

Section speaker_lemmas.
Context {R : GoRange} {GS : GoSort} {HN : HostNet} {N : Type} {H : L2Host N}.
Implicit Types l : layer2Speaker N.

Lemma find_announcer_spec l ip name a : find_announcer (range_map (announcers l)) ip = Ok (Some (name, a)) →
  announcers l !! name = Some a ∧ ContainsIP a ip = Ok true.
Proof.
  intros Hf. rewrite <- elem_of_range_map. induction (range_map (announcers l)) as [|[n x] rest IH]; cbn in Hf; [done|].
  destruct (ContainsIP x ip) as [[]| |] eqn:E; cbn in Hf; [|..|done|done].
  - simplify_eq. split; [left|done].
  - destruct (IH Hf) as [? ?]. split; [by right|done].
Qed.

(** Only the winner of the election changes its state, and only by announcing
    the address. *)
Lemma l2_SetBalancer_spec l l' ip nodes r : l2_SetBalancer ip nodes l = (l', r) →
  l' = l ∨
  ∃ name a a' rest, announcers l !! name = Some a ∧ ContainsIP a (ParseIP ip) = Ok true ∧
    candidates (Members (l2_net l)) ip nodes = l2_NodeName (l2_net l) :: rest ∧
    added (ParseIP ip) a a' ∧ announcers l' = <[name := a']> (announcers l).
Proof.
  unfold l2_SetBalancer. destruct (find_announcer _ _) as [[[name a]|]| |] eqn:E; try (intros [= <- <-]; by left).
  destruct (candidates _ _ _) as [|w rest] eqn:Ec; [intros [= <- <-]; by left|].
  case_decide as Hw; [intros [= <- <-]; by left|]. subst w.
  unfold on_announcer. destruct (AddAnnouncedIP _ _) as [[a' n'] r1] eqn:Ea. intros [= <- <-]. right.
  destruct (find_announcer_spec _ _ _ _ E) as [Hn Hc]. apply AddAnnouncedIP_spec in Ea as [Ha _].
  by exists name, a, a', rest.
Qed.

Lemma l2_insert_ok l name a n' : l2_ok l → an_ok name a →
  l2_ok {| announcers := <[name := a]> (announcers l); l2_net := n' : N |}.
Proof. intros Hl Ha x y. cbn. rewrite lookup_insert_Some. intros [[<- <-]|[_ ?]]; [done|by apply Hl]. Qed.

Lemma l2_SetBalancer_ok l l' ip nodes r : l2_ok l → l2_SetBalancer ip nodes l = (l', r) → l2_ok l'.
Proof.
  intros Hl [->|(name & a & a' & rest & Hn & Hc & _ & Ha & E)]%l2_SetBalancer_spec; [done|].
  destruct l' as [m n]. cbn in E. subst m. apply l2_insert_ok; [done|]. eapply added_ok; [|done|done]. by apply Hl.
Qed.

Lemma l2_DelBalancer_ok l l' ip r : l2_ok l → l2_DelBalancer ip l = (l', r) → l2_ok l'.
Proof.
  intros Hl. unfold l2_DelBalancer. destruct (find_announcer _ _) as [[[name a]|]| |] eqn:E; try (by intros [= <- <-]).
  destruct (find_announcer_spec _ _ _ _ E) as [Hn _]. unfold on_announcer.
  destruct (DelAnnouncedIP _ _) as [[a' n'] r1] eqn:Ed. intros [= <- <-]. apply l2_insert_ok; [done|].
  apply DelAnnouncedIP_spec in Ed. cbn [fst] in Ed. destruct Ed as [[-> _]|[-> _]]; [|apply deleted_ok]; by apply Hl.
Qed.

(** Reconfiguring a pool does not change its addresses. *)
Definition same_range l (c : Config) : Prop :=
  ∀ name a r, announcers l !! name = Some a → ipranges a !! Cfg_Name c = Some r → r = Cfg_IPRange c.

Lemma new_announcer_spec netif f (n n' : N) a : newAnnouncer netif f n = (n', Ok a) →
  ∃ f', a = new_announcer f' netif.
Proof.
  unfold newAnnouncer, newARPAnnouncer, newNDPAnnouncer, mbind, ST_bind, mret, ST_ret, st_wrap. case_decide.
  - destruct (ListenPacket _ _) as [n1 [| |]]; [|done..]. destruct (arp_New _ _) as [n2 [| |]]; [|done..].
    intros [= <- <-]; eauto.
  - destruct (ndp_Listen _ _) as [n1 [| |]]; [|done..]. intros [= <- <-]; eauto.
Qed.

Lemma registerAnnouncer_ok l l' netif c r : l2_ok l → same_range l c → Cfg_IPRange c ≠ None →
  registerAnnouncer (Cfg_Name c) netif (Cfg_IPRange c) l = (l', r) → l2_ok l'.
Proof.
  intros Hl Hsame Hsome. unfold registerAnnouncer.
  destruct (announcers l !! If_Name netif) as [a|] eqn:E.
  - intros [= <- <-]. apply l2_insert_ok; [done|]. apply register_ok; [by apply Hl|done|].
    intros r0 Hr0. by eapply Hsame.
  - destruct (Cfg_IPRange c) as [rg|] eqn:Er; [|done].
    destruct (newAnnouncer _ _ _) as [n [a| |]] eqn:En; [|by intros [= <- <-]..].
    apply new_announcer_spec in En as [f' ->]. intros [= <- <-]. apply l2_insert_ok; [done|].
    constructor; cbn; try done; try apply insert_non_empty.
    intros n0 r0. rewrite lookup_insert_Some. by intros [[_ <-]|[_ ?]].
Qed.

Lemma unregisterAnnouncer_ok l l' eip name r : l2_ok l → unregisterAnnouncer eip name l = (l', r) → l2_ok l'.
Proof.
  intros Hl. unfold unregisterAnnouncer. destruct (announcers l !! name) as [a|] eqn:E; [|by intros [= <- <-]].
  destruct (UnregisterIPRange eip a) as [a'| |] eqn:Eu; [|by intros [= <- <-]..].
  destruct (Nat.eqb (Size a') 0) eqn:Es; intros [= <- <-].
  - intros x y. cbn. rewrite lookup_delete_Some. intros [_ ?]. by apply Hl.
  - apply l2_insert_ok; [done|]. eapply unregister_ok; [by apply Hl|done|].
    apply Nat.eqb_neq in Es. intros He. apply Es. unfold Size. by rewrite He.
Qed.

Lemma l2_ConfigureWithEIP_ok l l' c b r : l2_ok l → same_range l c → l2_ConfigureWithEIP c b l = (l', r) → l2_ok l'.
Proof.
  intros Hl Hsame. unfold l2_ConfigureWithEIP, mbind, ST_bind, st_lift.
  destruct (ParseInterface _) as [netif| |]; [|by intros [= <- <-]..].
  destruct (ValidateInterface _ _) as [[]| |] eqn:Ev; [|by intros [= <- <-]..].
  destruct b; [by apply unregisterAnnouncer_ok|]. apply registerAnnouncer_ok; [done..|]. intros Hn. rewrite Hn in Ev.
  unfold ValidateInterface in Ev. destruct (If_Addrs netif) as [addrs| |]; [|done..]. by apply validate_addrs_nil in Ev.
Qed.
End speaker_lemmas.

(** ** Runs of the speaker *)
Inductive l2_step `{R : GoRange} `{GS : GoSort} `{HN : HostNet} {N : Type} `{H : L2Host N}
    : layer2Speaker N → layer2Speaker N → Prop :=
| l2s_set l l' r ip nodes : l2_SetBalancer ip nodes l = (l', r) → l2_step l l'
| l2s_del l l' r ip : l2_DelBalancer ip l = (l', r) → l2_step l l'
| l2s_configure l l' r c b : same_range l c → l2_ConfigureWithEIP c b l = (l', r) → l2_step l l'
| l2s_net l n : l2_step l {| announcers := announcers l; l2_net := n |}
| l2s_stop l : l2_step l (unregisterAllAnnouncers l).

(** ** Properties *)

(** C16: whatever the calls, their results and the events on the network, a
    node answers for an address on an interface only when a pool registered
    on that interface contains the address, it answers with the interface's
    own MAC address, and an announcer without pools does not survive.  (A pool
    is only ever registered again with the same range: its address is
    immutable.) *)
Theorem layer2_invariant `{R : GoRange} `{GS : GoSort} `{HN : HostNet} {N : Type} `{H : L2Host N}
    (n0 : N) (l : layer2Speaker N) (Hrun : rtc l2_step {| announcers := ∅; l2_net := n0 |} l)
    (name : string) (a : announcer) (Ha : announcers l !! name = Some a) :
  If_Name (intf a) = name ∧ ipranges a ≠ ∅ ∧
  ∀ ip mac, getMac a ip = Some mac →
    mac = If_HardwareAddr (intf a) ∧
    ∃ pool r, ipranges a !! pool = Some (Some r) ∧ Range_Contains r (ParseIP ip) = true.
Proof.
  assert (l2_ok l) as Hok.
  { remember {| announcers := ∅; l2_net := n0 |} as l0 eqn:E0.
    assert (l2_ok l0) as Hok by (subst l0; by intros ? ?). clear E0 Ha.
    induction Hrun as [|l0 l1 l Hs _ IH]; [done|]. apply IH. destruct Hs.
    - by eapply l2_SetBalancer_ok.
    - by eapply l2_DelBalancer_ok.
    - by eapply l2_ConfigureWithEIP_ok.
    - exact Hok.
    - by intros ? ?. }
  destruct (Hok _ _ Ha) as [Hn Hr Hs Hm Hi]. split_and!; [done|done|]. intros ip mac Hip. split; eauto.
Qed.

(** C11: two nodes never take up the same address together.  When they see the
    same members and the same next hops, in whatever order, and the digests of
    the candidates differ, then of two nodes that do not answer for an address
    at most one does after both have handled it. *)
Theorem layer2_single_announcer (R1 R2 : GoRange) (G1 G2 : GoSort) {N : Type} `{H : L2Host N}
    (ip : string) (nodes1 nodes2 : list Node) (l1 l2 l1' l2' : layer2Speaker N) (r1 r2 : Result ())
    (Hnodes : nodes1 ≡ₚ nodes2)
    (Hmembers : ∀ n, n ∈ Members (l2_net l1) ↔ n ∈ Members (l2_net l2))
    (Hhash : no_collision ip ((λ n, Name (Node_Meta n)) <$> nodes1))
    (Hname : l2_NodeName (l2_net l1) ≠ l2_NodeName (l2_net l2))
    (Hfresh : ¬ answers l1 ip ∧ ¬ answers l2 ip)
    (Hset1 : @l2_SetBalancer R1 G1 N H ip nodes1 l1 = (l1', r1))
    (Hset2 : @l2_SetBalancer R2 G2 N H ip nodes2 l2 = (l2', r2)) :
  ¬ (answers l1' ip ∧ answers l2' ip).
Proof.
  intros [Ha1 Ha2]. destruct Hfresh as [Hf1 Hf2].
  apply l2_SetBalancer_spec in Hset1 as [->|(? & ? & ? & rest1 & _ & _ & Hc1 & _)]; [done|].
  apply l2_SetBalancer_spec in Hset2 as [->|(? & ? & ? & rest2 & _ & _ & Hc2 & _)]; [done|].
  rewrite (candidates_agree G1 G2 _ _ ip _ _ Hnodes Hmembers Hhash), Hc2 in Hc1. congruence.
Qed.

(** But a node never steps back: when the election of an address is won by
    another node, [SetBalancer] succeeds without changing anything, so a node
    that announced the address before the winner joined keeps answering for
    it next to the winner. *)
Theorem layer2_loser_keeps_answering `{R : GoRange} `{GS : GoSort} {N : Type} `{H : L2Host N}
    (ip winner : string) (rest : list string) (nodes : list Node) (l l' : layer2Speaker N) (r : Result ())
    (Hwinner : candidates (Members (l2_net l)) ip nodes = winner :: rest)
    (Hother : winner ≠ l2_NodeName (l2_net l))
    (Hset : l2_SetBalancer ip nodes l = (l', r)) (Hbefore : answers l ip) :
  answers l' ip.
Proof.
  destruct (l2_SetBalancer_spec _ _ _ _ _ Hset) as [->|(? & ? & ? & ? & _ & _ & Hc & _)]; [done|]. congruence.
Qed.

(** ** Witnesses *)
Record DemoNet := { dn_name : string; dn_members : list string }.
#[export] Instance demo_l2 : L2Host DemoNet := {|
  l2_NodeName := dn_name; Members := dn_members;
  ListenPacket i n := (n, Ok ()); arp_New i n := (n, Ok ()); ndp_Listen i n := (n, Ok ());
  NewPacket op a b c d := Ok []; MarshalFrame d s p := Ok p; raw_WriteTo i f d n := (n, Ok ());
  arp_Read i n := (n, Err EOF); arp_Close i n := n;
  SolicitedNodeMulticast a := Ok a; JoinGroup i a n := (n, Ok ()); LeaveGroup i a n := (n, Ok ());
  ndp_WriteTo i m a n := (n, Ok ()); ndp_ReadFrom i n := (n, Err EOF); ndp_Close i n := n;
|}.
#[local] Existing Instances canonical_range insertion_sort.
#[local] Instance demo_l2_net : HostNet := {|
  InterfaceByName n := Ok {| If_Name := n; If_HardwareAddr := [2;0;0;0;0;1]; If_Addrs := Ok ["10.0.0.254/24"] |};
  InterfaceByIndex i := Err (Errorf "no such network interface");
  RouteGet ip := Err (Errorf "network is unreachable");
|}.
Definition l2_node (n : string) : Node :=
  {| Node_Meta := {| Name := n; Namespace := ""; Labels := None; Annotations := None;
                     Finalizers := []; DeletionTimestamp := None |};
     Node_Addresses := []; Node_Conditions := [] |}.
Definition l2_config : Config :=
  {| Cfg_Name := "a"; Cfg_IPRange := Some (v4Range (ParseIP "10.0.0.1") (ParseIP "10.0.0.9")); Cfg_Iface := "eth0" |}.
Definition l2_demo (name : string) (members : list string) : layer2Speaker DemoNet :=
  fst (l2_ConfigureWithEIP l2_config false {| announcers := ∅; l2_net := {| dn_name := name; dn_members := members |} |}).
Definition l2_set (name : string) (members : list string) : layer2Speaker DemoNet :=
  fst (l2_SetBalancer "10.0.0.2" (l2_node <$> members) (l2_demo name members)).
Definition answersb (l : layer2Speaker DemoNet) (ip : string) : bool :=
  existsb (λ p, bool_decide (is_Some (getMac p.2 (IP_String (ParseIP ip))))) (map_to_list (announcers l)).

Lemma answersb_spec l ip : answersb l ip = true ↔ answers l ip.
Proof.
  unfold answersb, answers. rewrite existsb_elem. split.
  - intros ([name a] & Hin & Hb%bool_decide_eq_true). exists name, a. by apply elem_of_map_to_list in Hin.
  - intros (name & a & Hin & Hs). exists (name, a). split; [by apply elem_of_map_to_list|]. by apply bool_decide_eq_true.
Qed.
Lemma not_answersb l ip : answersb l ip = false → ¬ answers l ip.
Proof. rewrite <- answersb_spec. by destruct (answersb l ip). Qed.

Lemma demo_eth0 : is_Some (announcers (l2_set "node1" ["node1"]) !! "eth0").
Proof. apply not_eq_None_Some. vm_compute. discriminate. Qed.

Lemma layer2_invariant_witness :
  ∃ a, announcers (l2_set "node1" ["node1"]) !! "eth0" = Some a ∧ If_Name (intf a) = "eth0".
Proof.
  destruct demo_eth0 as [a Ha]. exists a. split; [exact Ha|].
  refine (proj1 (layer2_invariant {| dn_name := "node1"; dn_members := ["node1"] |}
                   (l2_set "node1" ["node1"]) _ "eth0" a Ha)).
  eapply rtc_l; [eapply (l2s_configure _ _ _ l2_config false); [|apply surjective_pairing]|].
  { intros name x r Hx. cbn in Hx. by rewrite lookup_empty in Hx. }
  apply rtc_once. eapply (l2s_set _ _ _ "10.0.0.2" (l2_node <$> ["node1"])). apply surjective_pairing.
Defined.

Definition both : list string := ["node1"; "node2"].
Lemma both_no_collision : no_collision "10.0.0.2" ((λ n, Name (Node_Meta n)) <$> (l2_node <$> both)).
Proof.
  intros x y Hx Hy. cbn in Hx, Hy. rewrite !elem_of_cons, elem_of_nil in Hx, Hy.
  destruct Hx as [->|[->|[]]], Hy as [->|[->|[]]];
    [intros _; reflexivity|vm_compute; discriminate|vm_compute; discriminate|intros _; reflexivity].
Qed.

Lemma layer2_single_announcer_witness :
  answers (l2_set "node2" both) "10.0.0.2" ∧ ¬ answers (l2_set "node1" both) "10.0.0.2".
Proof.
  assert (answers (l2_set "node2" both) "10.0.0.2") as H2 by (apply answersb_spec; vm_compute; reflexivity).
  split; [exact H2|]. intros H1.
  apply (layer2_single_announcer canonical_range canonical_range insertion_sort insertion_sort "10.0.0.2"
    (l2_node <$> both) (l2_node <$> both) (l2_demo "node1" both) (l2_demo "node2" both)
    (l2_set "node1" both) (l2_set "node2" both)
    (snd (l2_SetBalancer "10.0.0.2" (l2_node <$> both) (l2_demo "node1" both)))
    (snd (l2_SetBalancer "10.0.0.2" (l2_node <$> both) (l2_demo "node2" both)))).
  - reflexivity.
  - intros n. reflexivity.
  - exact both_no_collision.
  - vm_compute. discriminate.
  - split; apply not_answersb; vm_compute; reflexivity.
  - apply surjective_pairing.
  - apply surjective_pairing.
  - split; [exact H1|exact H2].
Defined.

(** [node1] announces alone; [node2] joins and wins; both answer. *)
Definition lost : layer2Speaker DemoNet :=
  {| announcers := announcers (l2_set "node1" ["node1"]); l2_net := {| dn_name := "node1"; dn_members := both |} |}.
Lemma layer2_loser_keeps_answering_witness :
  answers (fst (l2_SetBalancer "10.0.0.2" (l2_node <$> both) lost)) "10.0.0.2" ∧
  answers (l2_set "node2" both) "10.0.0.2".
Proof.
  split; [|apply answersb_spec; vm_compute; reflexivity].
  eapply (layer2_loser_keeps_answering "10.0.0.2" "node2" ["node1"] (l2_node <$> both) lost).
  - vm_compute. reflexivity.
  - vm_compute. discriminate.
  - apply surjective_pairing.
  - apply answersb_spec. vm_compute. reflexivity.
Defined.
