(* ===== verification/BgpPath.v ===== *)
(** * [pkg/speaker/bgp/bgp/path.go]: the BGP speaker's routes

    The speaker announces an address by a host route per next hop in the
    global table of the embedded gobgp server.  [SetBalancer] compares the
    next hops in the table with the wanted ones and adds and deletes the
    difference; a path is identified by its prefix and the FNV-1a hash of its
    next hop.

    gobgp is third-party code: the class [BgpServer], with the table [rib] as
    its observable state; [BgpServerOk] is what the speaker relies on.
    Protobuf's [Any] wrapping of attributes is its content.  The
    operations with the metrics they feed are in [BgpRoutes]; logs are not
    modelled. *)
From S2P Require Import Prelude GoNet K8s Speaker.
Local Open Scope Z_scope.

(** ** [hash/fnv] *)
Fixpoint fnv32a (h : Z) (s : string) : Z :=
  match s with
  | EmptyString => h
  | String c rest => fnv32a (wrapU32 (Z.lxor h (ord c) * 16777619)) rest
  end.
Definition getPathIdentifier (nexthop : string) : Z := fnv32a 2166136261 nexthop.

(** Reference values of the FNV authors' test suite. *)
Example fnv32a_empty : getPathIdentifier "" = 2166136261.
Proof. reflexivity. Qed.
Example fnv32a_foobar : getPathIdentifier "foobar" = 3214735720.
Proof. vm_compute. reflexivity. Qed.

(** ** The gobgp API *)
Inductive AFI := AFI_IP | AFI_IP6.
#[export] Instance AFI_eq_dec : EqDecision AFI.
Proof. solve_decision. Defined.
Inductive Attr := OriginAttribute (origin : Z) | NextHopAttribute (nexthop : string) | OtherAttribute.
#[export] Instance Attr_eq_dec : EqDecision Attr.
Proof. solve_decision. Defined.
Record Path := { Path_Family : AFI; Prefix : string; PrefixLen : Z; Pattrs : list Attr; Identifier : Z }.
#[export] Instance Path_eq_dec : EqDecision Path.
Proof. solve_decision. Defined.

Abbreviation path_key := (string * Z * Z)%type.
Definition key_of (p : Path) : path_key := (Prefix p, PrefixLen p, Identifier p).

(** [ListPath] gives the paths of each destination found. *)
Class BgpServer (G : Type) := {
  GetBgp : ST G Z;
  ListPath : AFI → string → ST G (list (list Path));
  AddPath : Path → ST G ();
  DeletePath : Path → ST G ();
  rib : G → gmap path_key Path;
}.

Record Bgp (G : Type) := { rack : string; bgpServer : G }.
Arguments rack {G} _.
Arguments bgpServer {G} _.

Definition getFamily (ip : string) : AFI := if ip_nil (To4 (ParseIP ip)) then AFI_IP6 else AFI_IP.
Definition BGP_ORIGIN_ATTR_TYPE_IGP : Z := 0.

Definition toAPIPath (ip : string) (prefix : Z) (nexthop : string) : Path :=
  {| Path_Family := getFamily ip; Prefix := ip; PrefixLen := prefix;
     Pattrs := [OriginAttribute BGP_ORIGIN_ATTR_TYPE_IGP; NextHopAttribute nexthop];
     Identifier := getPathIdentifier nexthop |}.

Fixpoint next_hop_attr (attrs : list Attr) : IP :=
  match attrs with
  | [] => []
  | NextHopAttribute nexthop :: _ => ParseIP nexthop
  | _ :: rest => next_hop_attr rest
  end.
Definition fromAPIPath (path : Path) : IP := next_hop_attr (Pattrs path).

(** A set of strings kept as the keys of a map. *)
Definition keys_of (l : list string) (m : gmap string bool) : gmap string bool :=
  foldl (λ m k, <[k := true]> m) m l.

Section path.
Context {R : GoRange} {G : Type} {BS : BgpServer G}.

Definition on_server {A} (call : ST G A) : ST (Bgp G) A := λ b,
  let '(g, r) := call (bgpServer b) in ({| rack := rack b; bgpServer := g |}, r).

(** The keys of [m] that [other] lacks, in the order of the map. *)
Definition missing (m other : gmap string bool) : list string :=
  filter (λ k, other !! k = None) (range_map m).*1.

(** The callback of [retriveRoutes], once per destination. *)
Definition compare_routes (news : gmap string bool)
    (acc : gmap string bool * list string * list string) (paths : list Path)
    : gmap string bool * list string * list string :=
  let '(origins, toAdd, toDelete) := acc in
  let origins := keys_of ((λ p, IP_String (fromAPIPath p)) <$> paths) origins in
  (origins, toAdd ++ missing news origins, toDelete ++ missing origins news).

Definition retriveRoutes (ip : string) (prefix : Z) (nexthops : list string)
    : ST (Bgp G) (list string * list string) :=
  dests ← on_server (ListPath (getFamily ip) ip);
  let news := keys_of nexthops ∅ in
  let '(_, toAdd, toDelete) := foldl (compare_routes news) (∅, [], []) dests in
  match dests with
  | [] => mret (nexthops, toDelete)
  | _ => mret (toAdd, toDelete)
  end.

Definition ready : ST (Bgp G) () :=
  as_ ← on_server GetBgp;
  st_lift (if as_ =? 0 then Err (Errorf "Bgp not ready, please config bgpconf/bgppeer") else Ok ()).

Fixpoint addMultiRoutes (ip : string) (prefix : Z) (nexthops : list string) : ST (Bgp G) () :=
  match nexthops with
  | [] => mret ()
  | nexthop :: rest => on_server (AddPath (toAPIPath ip prefix nexthop));; addMultiRoutes ip prefix rest
  end.
Fixpoint deleteMultiRoutes (ip : string) (prefix : Z) (nexthops : list string) : ST (Bgp G) () :=
  match nexthops with
  | [] => mret ()
  | nexthop :: rest => on_server (DeletePath (toAPIPath ip prefix nexthop));; deleteMultiRoutes ip prefix rest
  end.

Definition host_prefix (ip : string) : Z := if ip_nil (To4 (ParseIP ip)) then 128 else 32.

Definition bgp_setBalancer (ip : string) (nexthops : list string) : ST (Bgp G) () :=
  let prefix := host_prefix ip in
  routes ← retriveRoutes ip prefix nexthops;
  addMultiRoutes ip prefix routes.1;;
  deleteMultiRoutes ip prefix routes.2.

Fixpoint internal_ip (addrs : list (NodeAddressType * string)) : Result string :=
  match addrs with
  | [] => Err (Errorf "node has no internal ip")
  | (t, a) :: rest => if decide (t = NodeInternalIP) then Ok a else internal_ip rest
  end.
Definition getNodeNextHop (node : Node) : Result string := internal_ip (Node_Addresses node).

(** [node.Labels[OpenELBNodeRack]]; a missing label is the empty string. *)
Definition node_rack (node : Node) : string :=
  default "" (default ∅ (Labels (Node_Meta node)) !! constant.OpenELBNodeRack).

Fixpoint rack_nexthops (myrack : string) (nodes : list Node) : Result (list string) :=
  match nodes with
  | [] => Ok []
  | node :: rest =>
      if decide (node_rack node = myrack ∨ myrack = "") then
        nexthop ← getNodeNextHop node; hs ← rack_nexthops myrack rest; Ok (nexthop :: hs)
      else rack_nexthops myrack rest
  end.

Definition bgp_SetBalancer (ip : string) (nodes : list Node) : ST (Bgp G) () :=
  ready;;
  nexthops ← st_read (λ b, rack_nexthops (rack b) nodes);
  bgp_setBalancer ip nexthops.

(** The callback of [DelBalancer] keeps its last error: a later destination
    starts again. *)
Fixpoint delete_paths (paths : list Path) : ST (Bgp G) (option error) :=
  match paths with
  | [] => mret None
  | p :: rest =>
      r ← st_try (on_server (DeletePath p));
      match r with
      | Ok _ => delete_paths rest
      | Err e => mret (Some e)
      | Panic => st_lift Panic
      end
  end.
Fixpoint delete_dests (dests : list (list Path)) (errDelete : option error) : ST (Bgp G) (option error) :=
  match dests with
  | [] => mret errDelete
  | paths :: rest =>
      e ← delete_paths paths;
      delete_dests rest (match paths with [] => errDelete | _ => e end)
  end.

Definition bgp_DelBalancer (ip : string) : ST (Bgp G) () :=
  r ← st_try ready;
  match r with
  | Err _ => mret ()
  | Panic => st_lift Panic
  | Ok _ =>
      dests ← on_server (ListPath (getFamily ip) ip);
      e ← delete_dests dests None;
      st_lift (match e with Some e => Err e | None => Ok () end)
  end.

(** [ConfigureWithEIP] is a stub in the code as well. *)
Definition bgp_ConfigureWithEIP (config : Config) (deleted : bool) : ST (Bgp G) () := mret ().

#[export] Instance bgp_speaker : Speaker (Bgp G) := {|
  SetBalancer := bgp_SetBalancer; DelBalancer := bgp_DelBalancer; ConfigureWithEIP := bgp_ConfigureWithEIP |}.
End path.

(** ** What gobgp promises

    [AddPath] and [DeletePath] replace and remove the path of the same prefix
    and identifier; a failed call leaves the table alone; a server without a
    configuration has no routes.  Listing an address finds its own route when
    the table holds host routes only (gobgp falls back to less specific
    routes otherwise). *)
Definition host_routes (m : gmap path_key Path) : Prop :=
  ∀ k p, m !! k = Some p → k = key_of p ∧ PrefixLen p = host_prefix (Prefix p).

Class BgpServerOk (G : Type) `{BS : BgpServer G} : Prop := {
  GetBgp_rib g g' r : GetBgp g = (g', r) → rib g' = rib g;
  GetBgp_stopped g g' r : GetBgp g = (g', r) → is_ok r = false ∨ r = Ok 0 → rib g = ∅;
  ListPath_rib f ip g g' r : ListPath f ip g = (g', r) → rib g' = rib g;
  ListPath_finds ip g g' ds : host_routes (rib g) → ListPath (getFamily ip) ip g = (g', Ok ds) →
    (ds = [] ∧ ∀ k p, rib g !! k = Some p → Prefix p ≠ ip) ∨
    (∃ paths, ds = [paths] ∧ ∀ p, p ∈ paths ↔ ∃ k, rib g !! k = Some p ∧ Prefix p = ip);
  AddPath_rib p g g' r : AddPath p g = (g', r) →
    rib g' = if is_ok r then <[key_of p := p]> (rib g) else rib g;
  DeletePath_rib p g g' r : DeletePath p g = (g', r) →
    rib g' = if is_ok r then delete (key_of p) (rib g) else rib g;
}.

(** The next hops of [ip] in the table are exactly [S]. *)
Definition table (ip : string) (m : gmap path_key Path) (S : gset string) : Prop :=
  ∀ k p, k.1.1 = ip → m !! k = Some p ↔
    ∃ nh, nh ∈ S ∧ k = key_of p ∧ p = toAPIPath ip (host_prefix ip) nh.

Definition no_clash (S : gset string) : Prop :=
  ∀ x y, x ∈ S → y ∈ S → getPathIdentifier x = getPathIdentifier y → x = y.

Lemma key_toAPIPath ip n nh : key_of (toAPIPath ip n nh) = (ip, n, getPathIdentifier nh).
Proof. done. Qed.

Lemma table_add ip m S nh : table ip m S → no_clash ({[nh]} ∪ S) →
  let p := toAPIPath ip (host_prefix ip) nh in table ip (<[key_of p := p]> m) ({[nh]} ∪ S).
Proof.
  intros Ht Hc p k q Hk. rewrite lookup_insert_Some, (Ht k q Hk). split.
  - intros [[<- <-]|[Hne (x & Hx & -> & ->)]]; [by exists nh; set_solver|].
    exists x. split; [set_solver|done].
  - intros (x & Hx & -> & ->). destruct (decide (x = nh)) as [->|Hne]; [by left|right].
    assert (x ∈ S) as HxS by set_solver. split; [|by exists x]. intros [= He].
    apply Hne, Hc; [set_solver..|congruence].
Qed.

Lemma table_delete ip m S nh : table ip m S → no_clash ({[nh]} ∪ S) →
  table ip (delete (key_of (toAPIPath ip (host_prefix ip) nh)) m) (S ∖ {[nh]}).
Proof.
  intros Ht Hc k q Hk. rewrite lookup_delete_Some, (Ht k q Hk). split.
  - intros [Hne (x & Hx & -> & ->)]. exists x. split; [|done]. apply elem_of_difference. split; [done|].
    intros ->%elem_of_singleton. done.
  - intros (x & [Hx Hnx]%elem_of_difference & -> & ->). split; [|by exists x]. intros [= He].
    apply Hnx, elem_of_singleton, Hc; [set_solver..|congruence].
Qed.

Lemma no_clash_mono S T : S ⊆ T → no_clash T → no_clash S.
Proof. intros Hsub Hc x y Hx Hy. apply Hc; set_solver. Qed.

(** ** The loops *)
Section loops.
Context {R : GoRange} {G : Type} {BS : BgpServer G} {BO : BgpServerOk G}.
Implicit Types b : Bgp G.

Definition brib b : gmap path_key Path := rib (bgpServer b).

(** Only routes of [ip] change. *)
Definition only (ip : string) b b' : Prop :=
  rack b' = rack b ∧ ∀ k, k.1.1 ≠ ip → brib b' !! k = brib b !! k.

Lemma only_refl ip b : only ip b b.
Proof. done. Qed.
Lemma only_trans ip b1 b2 b3 : only ip b1 b2 → only ip b2 b3 → only ip b1 b3.
Proof. intros [H1 H2] [H3 H4]. split; [congruence|]. intros k Hk. by rewrite H4, H2. Qed.

Lemma add_one ip nh b b' r : on_server (AddPath (toAPIPath ip (host_prefix ip) nh)) b = (b', r) →
  only ip b b' ∧ (host_routes (brib b) → host_routes (brib b')) ∧
  (r = Ok () → ∀ S, table ip (brib b) S → no_clash ({[nh]} ∪ S) → table ip (brib b') ({[nh]} ∪ S)).
Proof.
  unfold on_server. destruct (AddPath _ _) as [g r1] eqn:E. intros [= <- <-]. apply AddPath_rib in E.
  unfold only, host_routes, brib. cbn [rack bgpServer]. rewrite E. split; [|split].
  - split; [done|]. intros k Hk. destruct (is_ok r1); [|done]. rewrite lookup_insert_ne; [done|]. by intros <-.
  - intros Hh. destruct (is_ok r1); [|done]. intros k p. rewrite lookup_insert_Some.
    intros [[<- <-]|[_ ?]]; [done|by apply Hh].
  - intros ->. cbn. intros S. apply table_add.
Qed.

Lemma delete_one ip p b b' r : Prefix p = ip → on_server (DeletePath p) b = (b', r) →
  only ip b b' ∧ (host_routes (brib b) → host_routes (brib b')) ∧ brib b' ⊆ brib b ∧
  (r = Ok () → brib b' = delete (key_of p) (brib b)).
Proof.
  intros Hp. unfold on_server. destruct (DeletePath _ _) as [g r1] eqn:E. intros [= <- <-]. apply DeletePath_rib in E.
  unfold only, host_routes, brib. cbn [rack bgpServer]. rewrite E. split; [|split; [|split]].
  - split; [done|]. intros k Hk. destruct (is_ok r1); [|done]. rewrite lookup_delete_ne; [done|].
    intros <-. by apply Hk.
  - intros Hh. destruct (is_ok r1); [|done]. intros k q. rewrite lookup_delete_Some. intros [_ ?]. by apply Hh.
  - destruct (is_ok r1); [apply delete_subseteq|done].
  - by intros ->.
Qed.

Lemma addMultiRoutes_spec ip nhs : ∀ b b' r, addMultiRoutes ip (host_prefix ip) nhs b = (b', r) →
  only ip b b' ∧ (host_routes (brib b) → host_routes (brib b')) ∧
  (r = Ok () → ∀ S, table ip (brib b) S → no_clash (list_to_set nhs ∪ S) → table ip (brib b') (list_to_set nhs ∪ S)).
Proof.
  induction nhs as [|nh nhs IH]; intros b b' r; cbn [addMultiRoutes].
  { intros [= <- <-]. split_and!; [done|done|]. intros _ S Ht _. cbn. by rewrite union_empty_l_L. }
  unfold mbind, ST_bind. destruct (on_server _ b) as [b1 r1] eqn:E1.
  destruct (add_one _ _ _ _ _ E1) as (Ho1 & Hh1 & Ht1).
  destruct r1 as [[]| |]; [|by intros [= <- <-]..]. intros (Ho & Hh & Ht)%IH.
  split_and!; [by eapply only_trans|by auto|]. intros Hr S HS Hc. cbn [list_to_set] in *.
  replace ({[nh]} ∪ list_to_set nhs ∪ S) with (list_to_set nhs ∪ ({[nh]} ∪ S)) in * by set_solver.
  apply Ht; [done| |done]. apply Ht1; [done..|]. eapply no_clash_mono; [|exact Hc]. set_solver.
Qed.

Lemma deleteMultiRoutes_spec ip nhs : ∀ b b' r, deleteMultiRoutes ip (host_prefix ip) nhs b = (b', r) →
  only ip b b' ∧ (host_routes (brib b) → host_routes (brib b')) ∧
  (r = Ok () → ∀ S, table ip (brib b) S → no_clash (list_to_set nhs ∪ S) → table ip (brib b') (S ∖ list_to_set nhs)).
Proof.
  induction nhs as [|nh nhs IH]; intros b b' r; cbn [deleteMultiRoutes].
  { intros [= <- <-]. split_and!; [done|done|]. intros _ S Ht _. cbn. by rewrite difference_empty_L. }
  unfold mbind, ST_bind. destruct (on_server _ b) as [b1 r1] eqn:E1.
  destruct (delete_one ip (toAPIPath ip (host_prefix ip) nh) _ _ _ eq_refl E1) as (Ho1 & Hh1 & _ & Hd1).
  destruct r1 as [[]| |]; [|by intros [= <- <-]..]. intros (Ho & Hh & Ht)%IH.
  split_and!; [by eapply only_trans|by auto|]. intros Hr S HS Hc. cbn [list_to_set] in *.
  replace (S ∖ ({[nh]} ∪ list_to_set nhs)) with (S ∖ {[nh]} ∖ list_to_set nhs) by set_solver.
  apply Ht; [done| |].
  - rewrite Hd1 by done. apply table_delete; [done|]. eapply no_clash_mono; [|exact Hc]. set_solver.
  - eapply no_clash_mono; [|exact Hc]. set_solver.
Qed.
End loops.

(** ** The difference of the next hops *)
Lemma elem_of_keys_of l : ∀ m k, k ∈ dom (keys_of l m) ↔ k ∈ l ∨ k ∈ dom m.
Proof.
  unfold keys_of. induction l as [|x l IH]; intros m k; cbn; [set_solver|]. rewrite IH, dom_insert. set_solver.
Qed.

(** Texts of addresses as Go prints them; a table filled from such next hops
    gives them back. *)
Definition canonical (nh : string) : Prop := IP_String (ParseIP nh) = nh.

Section balancer.
Context {R : GoRange} {G : Type} {BS : BgpServer G} {BO : BgpServerOk G}.
Implicit Types b : Bgp G.

Lemma elem_of_missing m other k : k ∈ missing m other ↔ k ∈ dom m ∧ k ∉ dom other.
Proof.
  unfold missing. rewrite list_elem_of_filter, list_elem_of_fmap, not_elem_of_dom. split.
  - intros [Hn ([k' v] & -> & Hin)]. split; [|done]. apply elem_of_range_map in Hin. by apply elem_of_dom.
  - intros [[v Hv]%elem_of_dom Hn]. split; [done|]. exists (k, v). split; [done|]. by apply elem_of_range_map.
Qed.

Lemma retriveRoutes_spec ip nhs b b' r : retriveRoutes ip (host_prefix ip) nhs b = (b', r) →
  brib b' = brib b ∧ rack b' = rack b ∧
  ∀ S res, r = Ok res → host_routes (brib b) → table ip (brib b) S → (∀ nh, nh ∈ S → canonical nh) →
    ∀ nh, (nh ∈ res.1 ↔ nh ∈ nhs ∧ nh ∉ S) ∧ (nh ∈ res.2 ↔ nh ∈ S ∧ nh ∉ nhs).
Proof.
  unfold retriveRoutes, mbind, ST_bind, on_server.
  destruct (ListPath _ _ _) as [g [ds| |]] eqn:E; pose proof (ListPath_rib _ _ _ _ _ E) as Hr;
    [|by intros [= <- <-]..]. cbn [bgpServer].
  destruct (foldl _ _ ds) as [[origins toAdd] toDelete] eqn:Ef. intros Hret.
  assert (b' = {| rack := rack b; bgpServer := g |} ∧
          r = Ok (if decide (ds = []) then (nhs, toDelete) else (toAdd, toDelete))) as [-> ->].
  { by destruct ds; injection Hret as <- <-. }
  split_and!; [done|done|]. intros S res [= <-] Hh Ht Hcan nh.
  assert (∀ x, x ∈ S → ∃ p, (∃ k, brib b !! k = Some p ∧ Prefix p = ip) ∧ IP_String (fromAPIPath p) = x) as HS.
  { intros x Hx. exists (toAPIPath ip (host_prefix ip) x). split; [|by apply Hcan].
    exists (key_of (toAPIPath ip (host_prefix ip) x)). split; [|done]. apply Ht; [done|]. by exists x. }
  destruct (ListPath_finds _ _ _ _ Hh E) as [[-> Hno]|(paths & -> & Hp)].
  - rewrite decide_True by done. cbn in *. injection Ef as <- <- <-.
    assert (∀ x, x ∉ S) as Hx by (intros x (p & (k & Hk & ?) & _)%HS; by eapply Hno). set_solver.
  - rewrite decide_False by done. cbn in Ef. injection Ef as <- <- <-. cbn [fst snd].
    assert (∀ x, x ∈ dom (keys_of ((λ p, IP_String (fromAPIPath p)) <$> paths) ∅) ↔ x ∈ S) as Ho.
    { intros x. rewrite elem_of_keys_of, list_elem_of_fmap, dom_empty. split.
      - intros [(p & -> & (k & Hk & Hpre)%Hp)|?]; [|set_solver].
        destruct (proj1 (Ht k p ltac:(rewrite (proj1 (Hh _ _ Hk)); done)) Hk) as (y & Hy & _ & ->).
        cbn. fold (canonical y). unfold fromAPIPath. cbn. by rewrite (Hcan y Hy).
      - intros (p & Hk & Hq)%HS. left. exists p. split; [done|]. by apply Hp. }
    rewrite !elem_of_missing, !Ho, !elem_of_keys_of, dom_empty. set_solver.
Qed.

Lemma bgp_setBalancer_spec ip nhs b b' r : bgp_setBalancer ip nhs b = (b', r) →
  only ip b b' ∧ (host_routes (brib b) → host_routes (brib b')) ∧
  (r = Ok () → ∀ S, host_routes (brib b) → table ip (brib b) S → (∀ nh, nh ∈ S → canonical nh) →
     no_clash (list_to_set nhs ∪ S) → table ip (brib b') (list_to_set nhs)).
Proof.
  unfold bgp_setBalancer. unfold mbind at 1, ST_bind at 1.
  destruct (retriveRoutes _ _ _ b) as [b1 r1] eqn:E1.
  destruct (retriveRoutes_spec _ _ _ _ _ E1) as (Hb1 & Hk1 & Hres).
  assert (only ip b b1) as Ho1 by (split; [done|]; intros; by rewrite Hb1).
  destruct r1 as [[toAdd toDelete]| |]; [|by intros [= <- <-]; rewrite Hb1..]. cbn [fst snd].
  unfold mbind, ST_bind. destruct (addMultiRoutes _ _ _ b1) as [b2 r2] eqn:E2.
  destruct (addMultiRoutes_spec _ _ _ _ _ E2) as (Ho2 & Hh2 & Ht2). rewrite Hb1 in *.
  destruct r2 as [[]| |]; [|intros [= <- <-]; (split; [by eapply only_trans|by auto])..].
  intros (Ho3 & Hh3 & Ht3)%deleteMultiRoutes_spec.
  split; [by eapply only_trans; [|eapply only_trans]|]. split; [by auto|].
  intros -> S Hh HS Hcan Hc. pose proof (Hres S _ eq_refl Hh HS Hcan) as Hd. cbn [fst snd] in Hd.
  assert (list_to_set nhs = (list_to_set toAdd ∪ S) ∖ list_to_set toDelete :> gset string) as ->.
  { apply set_eq. intros x. rewrite elem_of_difference, elem_of_union, !elem_of_list_to_set.
    destruct (Hd x) as [-> ->]. destruct (decide (x ∈ S)), (decide (x ∈ nhs)); naive_solver. }
  assert (list_to_set toAdd ∪ S ⊆ list_to_set nhs ∪ S) as Hsub.
  { intros x. rewrite !elem_of_union, !elem_of_list_to_set. rewrite (proj1 (Hd x)). naive_solver. }
  apply Ht3; [done| |].
  - apply Ht2; [done|done|]. by eapply no_clash_mono.
  - eapply no_clash_mono; [|exact Hc]. intros x. rewrite elem_of_union, elem_of_list_to_set, (proj2 (Hd x)).
    set_solver.
Qed.

Lemma ready_spec b b' r : ready b = (b', r) → brib b' = brib b ∧ rack b' = rack b ∧ (is_ok r = false → brib b = ∅).
Proof.
  unfold ready, mbind, ST_bind, on_server, st_lift.
  destruct (GetBgp _) as [g r1] eqn:E. pose proof (GetBgp_rib _ _ _ E) as Hr. pose proof (GetBgp_stopped _ _ _ E) as Hs.
  destruct r1 as [n| |]; intros [= <- <-]; (split_and!; [done|done|]); intros Hok; apply Hs; [right|by left..].
  destruct (n =? 0) eqn:En; [|done]. by apply Z.eqb_eq in En as ->.
Qed.

Lemma bgp_SetBalancer_spec ip nodes b b' r : bgp_SetBalancer ip nodes b = (b', r) →
  only ip b b' ∧ (host_routes (brib b) → host_routes (brib b')) ∧
  (r = Ok () → ∃ nhs, rack_nexthops (rack b) nodes = Ok nhs ∧
     ∀ S, host_routes (brib b) → table ip (brib b) S → (∀ nh, nh ∈ S → canonical nh) →
       no_clash (list_to_set nhs ∪ S) → table ip (brib b') (list_to_set nhs)).
Proof.
  unfold bgp_SetBalancer. unfold mbind at 1, ST_bind at 1. destruct (ready b) as [b1 r1] eqn:E1.
  destruct (ready_spec _ _ _ E1) as (Hb1 & Hk1 & _).
  assert (only ip b b1) as Ho1 by (split; [done|]; intros; by rewrite Hb1).
  destruct r1 as [[]| |]; [|by intros [= <- <-]; rewrite Hb1..].
  unfold mbind, ST_bind, st_read. rewrite Hk1.
  destruct (rack_nexthops _ _) as [nhs| |]; [|by intros [= <- <-]; rewrite Hb1..].
  intros (Ho & Hh & Ht)%bgp_setBalancer_spec. rewrite Hb1 in *.
  split; [by eapply only_trans|]. split; [done|]. intros Hr. exists nhs. split; [done|]. by apply Ht.
Qed.
End balancer.

(** ** Withdrawing an address *)
Section withdraw.
Context {R : GoRange} {G : Type} {BS : BgpServer G} {BO : BgpServerOk G}.
Implicit Types b : Bgp G.

Lemma delete_paths_spec ip paths : (∀ p, p ∈ paths → Prefix p = ip) → ∀ b b' r, delete_paths paths b = (b', r) →
  only ip b b' ∧ (host_routes (brib b) → host_routes (brib b')) ∧ brib b' ⊆ brib b ∧
  (r = Ok None → ∀ p, p ∈ paths → brib b' !! key_of p = None).
Proof.
  induction paths as [|p paths IH]; intros Hpre b b' r; cbn [delete_paths].
  { intros [= <- <-]. split_and!; try done. intros _ p Hp. by apply not_elem_of_nil in Hp. }
  unfold mbind, ST_bind, st_try. destruct (on_server _ b) as [b1 r1] eqn:E1.
  destruct (delete_one ip p _ _ _ (Hpre p ltac:(left)) E1) as (Ho1 & Hh1 & Hs1 & Hd1).
  destruct r1 as [[]|e|]; [|by intros [= <- <-]..].
  intros (Ho & Hh & Hs & Hd)%IH; [|intros q Hq; apply Hpre; by right].
  split; [by eapply only_trans|]. split; [by auto|]. split; [by etrans|].
  intros Hr q [->|Hq]%elem_of_cons; [|by apply Hd].
  destruct (brib b' !! key_of p) eqn:Ep; [|done]. eapply lookup_weaken in Ep; [|exact Hs].
  rewrite Hd1, lookup_delete_eq in Ep by done. done.
Qed.

Lemma bgp_DelBalancer_spec ip b b' r : host_routes (brib b) → bgp_DelBalancer ip b = (b', r) →
  only ip b b' ∧ host_routes (brib b') ∧ brib b' ⊆ brib b ∧
  (r = Ok () → ∀ k p, brib b' !! k = Some p → Prefix p ≠ ip).
Proof.
  intros Hh. unfold bgp_DelBalancer. unfold mbind at 1, ST_bind at 1, st_try.
  destruct (ready b) as [b1 r1] eqn:E1. destruct (ready_spec _ _ _ E1) as (Hb1 & Hk1 & Hstop).
  assert (only ip b b1) as Ho1 by (split; [done|]; intros; by rewrite Hb1).
  destruct r1 as [[]|e|].
  2: { intros [= <- <-]. rewrite Hb1. split_and!; try done; try apply Ho1. intros _ k p Hk.
       rewrite Hstop in Hk by done. by rewrite lookup_empty in Hk. }
  2: { intros [= <- <-]. rewrite Hb1. split_and!; try done; apply Ho1. }
  unfold mbind, ST_bind. destruct (on_server (ListPath _ _) b1) as [b2 r2] eqn:E2.
  assert (brib b2 = brib b ∧ only ip b b2) as [Hb2 Ho2].
  { revert E2. unfold on_server. destruct (ListPath _ _ _) as [g r3] eqn:E3.
    pose proof (ListPath_rib _ _ _ _ _ E3) as Hr. intros [= <- <-]. unfold only, brib in *. cbn. rewrite Hr, Hk1.
    split; [done|]. split; [done|]. intros. by rewrite Hb1. }
  destruct r2 as [ds| |]; [|intros [= <- <-]; rewrite Hb2; split_and!; try done; apply Ho2..].
  assert ((ds = [] ∧ ∀ k p, brib b !! k = Some p → Prefix p ≠ ip) ∨
    (∃ paths, ds = [paths] ∧ ∀ p, p ∈ paths ↔ ∃ k, brib b !! k = Some p ∧ Prefix p = ip)) as Hds.
  { revert E2. unfold on_server. destruct (ListPath _ _ _) as [g r3] eqn:E3. intros [= _ ->].
    rewrite <- Hb1 in *. by eapply ListPath_finds. }
  destruct Hds as [[-> Hno]|(paths & -> & Hp)]; cbn [delete_dests].
  - intros [= <- <-]. rewrite Hb2. split_and!; try done; apply Ho2.
  - unfold mbind, ST_bind. destruct (delete_paths paths b2) as [b3 r3] eqn:E3.
    apply (delete_paths_spec ip) in E3 as (Ho3 & Hh3 & Hs3 & Hd3); [|by intros p (k & _ & ?)%Hp].
    rewrite Hb2 in *. intros Hfin.
    assert (b' = b3 ∧ (r = Ok () → r3 = Ok None ∨ paths = [])) as [-> Hr].
    { destruct r3 as [[e|]| |]; cbn in Hfin; injection Hfin as <- <-; (split; [done|]); try done; [|by left].
      destruct paths; [by right|done]. }
    split; [by eapply only_trans|]. split; [by auto|]. split; [done|].
    intros [-> | ->]%Hr k p Hk Hpre; pose proof (lookup_weaken _ _ _ _ Hk Hs3) as Hk0.
    + rewrite (proj1 (Hh _ _ Hk0)), Hd3 in Hk; [done|done|]. apply Hp. eauto.
    + assert (p ∈ []) as Hin by (apply Hp; eauto). by apply not_elem_of_nil in Hin.
Qed.

Definition bgp_announced b : gset string := set_map (λ k : path_key, k.1.1) (dom (brib b)).

Lemma elem_of_bgp_announced b ip : ip ∈ bgp_announced b ↔ ∃ k, k ∈ dom (brib b) ∧ k.1.1 = ip.
Proof. unfold bgp_announced. rewrite elem_of_map. naive_solver. Qed.

(** The BGP speaker keeps the promises the speaker manager relies on. *)
#[export] Instance bgp_ok : SpeakerOk (Bgp G) (λ b, host_routes (brib b)) bgp_announced.
Proof.
  constructor.
  - intros ip nodes b b' r Hh H. destruct (bgp_SetBalancer_spec _ _ _ _ _ H) as ([_ Ho] & Hh' & _).
    split; [by auto|]. intros x. rewrite elem_of_union, elem_of_singleton, !elem_of_bgp_announced.
    intros (k & Hk & <-). destruct (decide (k.1.1 = ip)) as [|Hne]; [by left|right]. exists k. split; [|done].
    apply elem_of_dom. rewrite <- Ho by done. by apply elem_of_dom.
  - intros ip b b' r Hh H. destruct (bgp_DelBalancer_spec _ _ _ _ Hh H) as (_ & Hh' & Hs & Hd). split; [done|].
    split; [intros x|intros Hr]; rewrite !elem_of_bgp_announced.
    + intros (k & [p Hk]%elem_of_dom & <-). exists k. split; [|done]. apply elem_of_dom. exists p.
      by eapply lookup_weaken.
    + intros (k & [p Hk]%elem_of_dom & Hip). apply (Hd Hr k p Hk).
      rewrite (proj1 (Hh' _ _ Hk)) in Hip. exact Hip.
  - intros c x b b' r Hh [= <- <-]. done.
Qed.
End withdraw.

(** ** Properties *)

(** C12: when [SetBalancer] succeeds the routes of the address are exactly the
    next hops of the nodes in the speaker's rack (of all nodes when it has
    none), whatever the table held before, and no route of another address
    changed.  The next hops in the table are texts of addresses, and no two of
    the next hops involved have the same path identifier. *)
Theorem bgp_SetBalancer_exact `{R : GoRange} {G : Type} `{BS : BgpServer G} `{BO : !BgpServerOk G}
    (ip : string) (nodes : list Node) (nexthops : list string) (before : gset string) (b b' : Bgp G)
    (Hhost : host_routes (rib (bgpServer b))) (Hbefore : table ip (rib (bgpServer b)) before)
    (Htext : ∀ nh, nh ∈ before → canonical nh)
    (Hnodes : rack_nexthops (rack b) nodes = Ok nexthops)
    (Hids : no_clash (list_to_set nexthops ∪ before))
    (Hset : bgp_SetBalancer ip nodes b = (b', Ok ())) :
  table ip (rib (bgpServer b')) (list_to_set nexthops) ∧
  ∀ k, k.1.1 ≠ ip → rib (bgpServer b') !! k = rib (bgpServer b) !! k.
Proof.
  destruct (bgp_SetBalancer_spec _ _ _ _ _ Hset) as ([_ Ho] & _ & Ht).
  destruct (Ht eq_refl) as (nhs & Hn & Htab). split; [|exact Ho].
  rewrite Hnodes in Hn. injection Hn as <-. by eapply Htab.
Qed.

(** ** Witness: a server that is its table *)
#[export] Instance demo_bgp : BgpServer (gmap path_key Path) := {|
  GetBgp g := (g, Ok 65000);
  ListPath f ip g :=
    let ps := filter (λ p, Prefix p = ip) (map_to_list g).*2 in
    (g, Ok (if decide (ps = []) then [] else [ps]));
  AddPath p g := (<[key_of p := p]> g, Ok ());
  DeletePath p g := (delete (key_of p) g, Ok ());
  rib g := g;
|}.
#[export] Instance demo_bgp_ok : BgpServerOk (gmap path_key Path).
Proof.
  constructor; cbn.
  - by intros g g' r [= <- <-].
  - intros g g' r [= <- <-] [?|?]; done.
  - by intros f ip g g' r [= <- <-].
  - intros ip g g' ds _ [= <- <-]. set (ps := filter _ _).
    assert (∀ p, p ∈ ps ↔ ∃ k, g !! k = Some p ∧ Prefix p = ip) as Hps.
    { intros p. unfold ps. rewrite list_elem_of_filter, list_elem_of_fmap. split.
      - intros (? & [k q] & -> & Hin%elem_of_map_to_list). eauto.
      - intros (k & Hk & ?). split; [done|]. exists (k, p). split; [done|]. by apply elem_of_map_to_list. }
    case_decide as Hd; [left|right; by exists ps]. split; [done|]. intros k p Hk Hpre.
    assert (p ∈ ps) as Hin by (apply Hps; eauto). rewrite Hd in Hin. by apply not_elem_of_nil in Hin.
  - by intros p g g' r [= <- <-].
  - by intros p g g' r [= <- <-].
Qed.

#[local] Existing Instance canonical_range.
Definition bgp_node (n addr rk : string) : Node :=
  {| Node_Meta := {| Name := n; Namespace := ""; Labels := Some {[constant.OpenELBNodeRack := rk]};
                     Annotations := None; Finalizers := []; DeletionTimestamp := None |};
     Node_Addresses := [(NodeHostName, n); (NodeInternalIP, addr)]; Node_Conditions := [] |}.
Definition bgp_nodes : list Node :=
  [bgp_node "node1" "192.168.0.1" "left"; bgp_node "node2" "192.168.0.2" "left"; bgp_node "node3" "192.168.0.3" "right"].
Definition old_route : Path := toAPIPath "10.0.0.1" 32 "192.168.0.9".
Definition bgp_before : Bgp (gmap path_key Path) := {| rack := "left"; bgpServer := {[key_of old_route := old_route]} |}.

Lemma bgp_before_table : table "10.0.0.1" (rib (bgpServer bgp_before)) {["192.168.0.9"]}.
Proof.
  intros k p _. unfold bgp_before, rib, demo_bgp. cbn [bgpServer]. rewrite lookup_singleton_Some. split.
  - intros [<- <-]. exists "192.168.0.9". split; [set_solver|]. split; vm_compute; reflexivity.
  - intros (nh & ->%elem_of_singleton & -> & ->). split; vm_compute; reflexivity.
Qed.

Lemma bgp_before_host : host_routes (rib (bgpServer bgp_before)).
Proof.
  intros k p. unfold bgp_before, rib, demo_bgp. cbn [bgpServer]. rewrite lookup_singleton_Some.
  intros [<- <-]. split; vm_compute; reflexivity.
Qed.

Definition bgp_hops : gset string := list_to_set ["192.168.0.1"; "192.168.0.2"] ∪ {["192.168.0.9"]}.
Lemma bgp_hops_ids : no_clash bgp_hops.
Proof.
  assert (∀ z, z ∈ bgp_hops → z = "192.168.0.1" ∨ z = "192.168.0.2" ∨ z = "192.168.0.9") as Hz.
  { unfold bgp_hops. intros z. rewrite elem_of_union, elem_of_list_to_set, !elem_of_cons, elem_of_nil, elem_of_singleton.
    tauto. }
  intros x y Hx Hy. destruct (Hz x Hx) as [->|[->| ->]], (Hz y Hy) as [->|[->| ->]]; vm_compute; intros E;
    (reflexivity || discriminate E).
Qed.

Lemma bgp_demo_set : bgp_SetBalancer "10.0.0.1" bgp_nodes bgp_before =
  (fst (bgp_SetBalancer "10.0.0.1" bgp_nodes bgp_before), Ok ()).
Proof. apply pair_result. vm_compute. reflexivity. Qed.

Lemma bgp_SetBalancer_exact_witness :
  table "10.0.0.1" (rib (bgpServer (fst (bgp_SetBalancer "10.0.0.1" bgp_nodes bgp_before))))
    (list_to_set ["192.168.0.1"; "192.168.0.2"]).
Proof.
  refine (proj1 (bgp_SetBalancer_exact "10.0.0.1" bgp_nodes ["192.168.0.1"; "192.168.0.2"] {["192.168.0.9"]}
    bgp_before _ bgp_before_host bgp_before_table _ _ bgp_hops_ids bgp_demo_set)).
  - intros nh ->%elem_of_singleton. vm_compute. reflexivity.
  - vm_compute. reflexivity.
Defined.
