(* ===== verification/Strconv.v ===== *)
(** * Packages [strconv], [strings] and [regexp]: what the BGP code uses of them

    Decimal numbers with the range behaviour of [ParseUint] and [ParseInt]
    (on overflow the error comes with the nearest bound), [strings.TrimSpace]
    on ASCII text, and the leftmost match of the two expressions of the
    policy code, [(\d+)\.\.(\d+)] and [([+-]?)(\d+)]. *)
From S2P Require Import Prelude GoNet.
Local Open Scope Z_scope.

(** ** Decimal digits *)
Definition digit (c : ascii) : Z := ord c - 48.
Fixpoint all_digits (s : string) : bool :=
  match s with EmptyString => true | String c s' => is_digit c && all_digits s' end.

Inductive NumError := ErrSyntax | ErrRange.
#[export] Instance NumError_eq_dec : EqDecision NumError.
Proof. solve_decision. Defined.

(** [strconv.ParseUint(s, 10, bits)]: the value and the error.  The digits are
    read from the left, so a number too large for its width is a range error
    even when something else follows. *)
Fixpoint ParseUint_loop (bits : Z) (s : string) (n : Z) : Z * option NumError :=
  match s with
  | EmptyString => (n, None)
  | String c s' =>
      if is_digit c then
        let n1 := 10 * n + digit c in
        if 2 ^ bits <=? n1 then (2 ^ bits - 1, Some ErrRange) else ParseUint_loop bits s' n1
      else (0, Some ErrSyntax)
  end.
Definition ParseUint (s : string) (bits : Z) : Z * option NumError :=
  if str_empty s then (0, Some ErrSyntax) else ParseUint_loop bits s 0.

(** [strconv.ParseInt(s, 10, 64)]: an optional sign, then [ParseUint]. *)
Definition ParseInt64 (s : string) : Z * option NumError :=
  let '(neg, d) := match s with
                   | String "+" d => (false, d)
                   | String "-" d => (true, d)
                   | _ => (false, s)
                   end in
  let '(un, err) := ParseUint d 64 in
  match err with
  | Some ErrSyntax => (0, Some ErrSyntax)
  | _ =>
      if negb neg && (two63 <=? un) then (two63 - 1, Some ErrRange)
      else if neg && (two63 <? un) then (- two63, Some ErrRange)
      else if neg then (- un, None) else (un, None)
  end.

(** ** [strings.TrimSpace], on ASCII *)
Definition is_space (c : ascii) : bool :=
  let n := ord c in (n =? 32) || ((9 <=? n) && (n <=? 13)).
Fixpoint trim_left (s : string) : string :=
  match s with
  | EmptyString => ""
  | String c s' => if is_space c then trim_left s' else s
  end.
Fixpoint trim_right (s : string) : string :=
  match s with
  | EmptyString => ""
  | String c s' =>
      let t := trim_right s' in
      if is_space c && str_empty t then "" else String c t
  end.
Definition TrimSpace (s : string) : string := trim_right (trim_left s).

(** ** The regular expressions

    [span_digits] is the greedy [\d*] at the start of a text. *)
Fixpoint span_digits (s : string) : string * string :=
  match s with
  | EmptyString => ("", "")
  | String c s' =>
      if is_digit c then let '(d, rest) := span_digits s' in (String c d, rest) else ("", s)
  end.

(** [(\d+)\.\.(\d+)] at the start of a text, then leftmost. *)
Definition match_mask_range (s : string) : option (string * string) :=
  let '(d1, rest) := span_digits s in
  match rest with
  | String "." (String "." rest2) =>
      let '(d2, _) := span_digits rest2 in
      if str_empty d1 || str_empty d2 then None else Some (d1, d2)
  | _ => None
  end.
Fixpoint find_mask_range (s : string) : option (string * string) :=
  match match_mask_range s with
  | Some m => Some m
  | None => match s with EmptyString => None | String _ s' => find_mask_range s' end
  end.

(** [([+-]?)(\d+)] at the start of a text, then leftmost. *)
Definition match_med (s : string) : option (string * string) :=
  let '(sign, rest) := match s with
                       | String "+" r => ("+", r)
                       | String "-" r => ("-", r)
                       | _ => ("", s)
                       end in
  let '(d, _) := span_digits rest in
  if str_empty d then None else Some (sign, d).
Fixpoint find_med (s : string) : option (string * string) :=
  match match_med s with
  | Some m => Some m
  | None => match s with EmptyString => None | String _ s' => find_med s' end
  end.

(** ** Facts *)
Lemma digit_bound c : is_digit c = true → 0 <= digit c <= 9.
Proof. unfold is_digit, digit. intros. bool_to_prop. lia. Qed.

Lemma ParseUint_bound s bits : 0 <= bits → 0 <= (ParseUint s bits).1 < 2 ^ bits.
Proof.
  intros Hb. pose proof (Z.pow_pos_nonneg 2 bits ltac:(lia) Hb) as Hp. unfold ParseUint.
  destruct (str_empty s) eqn:E1; cbn [fst]; [lia|].
  assert (∀ s n, 0 <= n < 2 ^ bits → 0 <= (ParseUint_loop bits s n).1 < 2 ^ bits) as Hl; [|by apply Hl; lia].
  clear s E1. induction s as [|c s IH]; intros n Hn; cbn [ParseUint_loop]; [done|].
  destruct (is_digit c) eqn:Hd; [|cbn; lia]. apply digit_bound in Hd.
  destruct (_ <=? _) eqn:E; bool_to_prop; cbn [fst]; [lia|]. apply IH. lia.
Qed.

(** A digit string ends where the first other character stands. *)
Definition no_digit_head (s : string) : Prop :=
  match s with String c _ => is_digit c = false | EmptyString => True end.

Lemma span_digits_app d rest : all_digits d = true → no_digit_head rest →
  span_digits (d +:+ rest) = (d, rest).
Proof.
  induction d as [|x d IH]; intros Hd Hr; cbn in *; [destruct rest; cbn in *; by rewrite ?Hr|].
  apply andb_true_iff in Hd as [-> Hd]. by rewrite IH.
Qed.

Lemma find_mask_range_text d1 d2 v : all_digits d1 = true → all_digits d2 = true →
  str_empty d1 = false → str_empty d2 = false → no_digit_head v →
  find_mask_range (d1 +:+ ".." +:+ d2 +:+ v) = Some (d1, d2).
Proof.
  intros H1 H2 E1 E2 Hv.
  assert (match_mask_range (d1 +:+ ".." +:+ d2 +:+ v) = Some (d1, d2)) as Hm.
  { unfold match_mask_range. rewrite span_digits_app by done.
    cbn [String.append]. by rewrite span_digits_app, E1, E2. }
  destruct (d1 +:+ ".." +:+ d2 +:+ v) eqn:E; cbn [find_mask_range]; by rewrite Hm.
Qed.

(** The texts of small numbers read back. *)
Lemma Itoa_small n : 0 <= n <= 255 →
  all_digits (Itoa n) = true ∧ str_empty (Itoa n) = false ∧ ParseUint (Itoa n) 8 = (n, None).
Proof.
  intros Hn.
  assert (Forall (λ n, all_digits (Itoa n) = true ∧ str_empty (Itoa n) = false
                       ∧ ParseUint (Itoa n) 8 = (n, None)) (seqZ 0 256)) as H.
  { apply (bool_decide_unpack _). vm_compute. exact I. }
  rewrite Forall_forall in H. apply H, elem_of_seqZ. lia.
Qed.

(** ** Numbers with a sign between spaces

    The number a digit string stands for, and the texts the action accepts. *)
Fixpoint decimal (acc : Z) (s : string) : Z :=
  match s with
  | EmptyString => acc
  | String c s' => decimal (10 * acc + digit c) s'
  end.

Lemma decimal_mono d : all_digits d = true → ∀ acc, 0 <= acc → acc <= decimal acc d.
Proof.
  induction d as [|c d IH]; intros Hd acc Ha; cbn in *; [lia|].
  apply andb_true_iff in Hd as [Hc Hd]. apply digit_bound in Hc.
  specialize (IH Hd (10 * acc + digit c) ltac:(lia)). lia.
Qed.

Lemma ParseUint_loop_decimal bits d : all_digits d = true → ∀ acc, 0 <= acc →
  ParseUint_loop bits d acc =
    if str_empty d || (decimal acc d <? 2 ^ bits) then (decimal acc d, None) else (2 ^ bits - 1, Some ErrRange).
Proof.
  induction d as [|c d IH]; intros Hd acc Ha; cbn [ParseUint_loop decimal str_empty orb]; [done|].
  cbn in Hd. apply andb_true_iff in Hd as [Hc Hd]. rewrite Hc. apply digit_bound in Hc.
  pose proof (decimal_mono d Hd (10 * acc + digit c) ltac:(lia)).
  destruct (2 ^ bits <=? 10 * acc + digit c) eqn:E; bool_to_prop.
  - by rewrite (proj2 (Z.ltb_ge _ _)) by lia.
  - rewrite IH by (done || lia). destruct d; [cbn|done]. by rewrite (proj2 (Z.ltb_lt _ _)) by lia.
Qed.

Lemma ParseUint_decimal bits d : all_digits d = true → str_empty d = false →
  ParseUint d bits = if decimal 0 d <? 2 ^ bits then (decimal 0 d, None) else (2 ^ bits - 1, Some ErrRange).
Proof.
  intros Hd He. unfold ParseUint. rewrite He, ParseUint_loop_decimal by (done || lia). by rewrite He.
Qed.

Lemma is_digit_not_sign c : is_digit c = true → c ≠ "+"%char ∧ c ≠ "-"%char ∧ is_space c = false.
Proof.
  intros Hc. split_and!; [intros ->; done..|]. unfold is_digit, is_space in *. bool_to_prop.
  rewrite (proj2 (Z.eqb_neq _ 32)), (proj2 (Z.leb_gt _ 13)) by lia. by destruct (_ <=? _).
Qed.

(** A text with no spaces at its ends is its own trimming. *)
Lemma trim_right_id s : (∀ c, str_elem c s = true → is_space c = false) → trim_right s = s.
Proof.
  induction s as [|c s IH]; intros H; cbn; [done|].
  rewrite (H c) by (cbn; by rewrite decide_True). cbn. f_equal. apply IH.
  intros d Hd. apply H. cbn. by case_decide.
Qed.
Lemma trim_right_spaces s w : (∀ c, str_elem c w = true → is_space c = true) →
  trim_right (s +:+ w) = trim_right s.
Proof.
  intros Hw. induction s as [|c s IH]; cbn; [|by rewrite IH].
  induction w as [|c w IH]; cbn; [done|]. rewrite (Hw c) by (cbn; by rewrite decide_True).
  rewrite IH; [done|]. intros d Hd. apply Hw. cbn. by case_decide.
Qed.
Lemma trim_left_spaces w s : (∀ c, str_elem c w = true → is_space c = true) →
  trim_left (w +:+ s) = trim_left s.
Proof.
  induction w as [|c w IH]; intros Hw; cbn; [done|]. rewrite (Hw c) by (cbn; by rewrite decide_True).
  apply IH. intros d Hd. apply Hw. cbn. by case_decide.
Qed.

(** What may stand before the digits. *)
Definition signs : list string := [""; "+"; "-"].
Definition spaces (w : string) : Prop := ∀ c, str_elem c w = true → is_space c = true.

Lemma all_digits_elem d c : all_digits d = true → str_elem c d = true → is_digit c = true.
Proof.
  induction d as [|x d IH]; cbn; [done|]. rewrite andb_true_iff. intros [Hx Hd].
  case_decide; [by subst|by apply IH].
Qed.

Lemma TrimSpace_med w1 sign d w2 : spaces w1 → spaces w2 → sign ∈ signs →
  all_digits d = true → str_empty d = false → TrimSpace (w1 +:+ sign +:+ d +:+ w2) = sign +:+ d.
Proof.
  intros H1 H2 Hs Hd He. unfold TrimSpace. rewrite trim_left_spaces by done.
  assert (∀ c, str_elem c (sign +:+ d) = true → is_space c = false) as Hns.
  { intros c. rewrite str_elem_app, orb_true_iff. intros [Hc|Hc];
      [|by apply is_digit_not_sign, (all_digits_elem d)].
    unfold signs in Hs. set_unfold in Hs. destruct Hs as [-> | [-> | [-> | []]]]; cbn in Hc;
      [done|case_decide; by subst..]. }
  assert (trim_left (sign +:+ d +:+ w2) = (sign +:+ d) +:+ w2) as ->.
  { rewrite <- str_app_assoc. destruct (sign +:+ d) as [|c s] eqn:E.
    - destruct d; [done|]. by destruct sign.
    - cbn. by rewrite Hns by (cbn; by rewrite decide_True). }
  rewrite trim_right_spaces by done. by apply trim_right_id.
Qed.

Lemma find_med_text sign d : sign ∈ signs → all_digits d = true → str_empty d = false →
  find_med (sign +:+ d) = Some (sign, d).
Proof.
  intros Hs Hd He.
  assert (span_digits d = (d, "")) as Hsp.
  { rewrite <- (str_app_nil_r d) at 1. by apply span_digits_app. }
  assert (match_med (sign +:+ d) = Some (sign, d)) as Hm.
  { unfold match_med. unfold signs in Hs. set_unfold in Hs. destruct Hs as [-> | [-> | [-> | []]]]; cbn [String.append].
    - destruct d as [|c d]; [done|]. cbn in Hd. apply andb_true_iff in Hd as [Hc _].
      destruct (is_digit_not_sign c Hc) as (Hp & Hm & _).
      assert (match String c d with String "+" r => ("+", r) | String "-" r => ("-", r) | _ => ("", String c d) end
              = ("", String c d)) as ->.
      { by destruct c as [[] [] [] [] [] [] [] []]. }
      by rewrite Hsp.
    - by rewrite Hsp, He.
    - by rewrite Hsp, He. }
  destruct (sign +:+ d) eqn:E; cbn [find_med]; by rewrite Hm.
Qed.
