(* ===== verification/KeepalivedConf.v ===== *)
(** * The files of keepalived: its configuration and its log

    [render] is the text that the template [build/speaker/keepalived.tmpl]
    produces in [keepAlived.WriteCfg]: the literal text of the template with
    the node name and the enabled instances filled in.  The package is
    [html/template], which escapes every value for HTML and visits a map in the
    order of its keys.  [read_conf] reads such a file: lines of words, blocks
    between braces, comments from [#] or [!] on.  A file that is written is read
    back exactly, as long as no value has a character that is escaped or has a
    meaning in the file.

    [scan_log] is the scanner of [newKeepalivedLogPiper], which logs the output
    of keepalived line by line. *)
From S2P Require Import Prelude GoNet Iprange Idalloc K8s Speaker Sha256 Strconv Keepalived.
Local Open Scope Z_scope.

(** ** The template *)

(** The characters that [html/template] replaces in text. *)
Definition html_char (c : ascii) : string :=
  let n := ord c in
  if n =? 0 then String (chr 239) (String (chr 191) (String (chr 189) ""))
  else if n =? 34 then "&#34;"
  else if n =? 38 then "&amp;"
  else if n =? 39 then "&#39;"
  else if n =? 43 then "&#43;"
  else if n =? 60 then "&lt;"
  else if n =? 62 then "&gt;"
  else String c "".

Fixpoint html_escape (s : string) : string :=
  match s with EmptyString => "" | String c s' => html_char c +:+ html_escape s' end.

(** The parts of the template, each followed by the rest of the file. *)
Definition render_ips (ips : list string) (rest : string) : string :=
  foldr (λ ip r, "
    " +:+ (html_escape ip +:+ r)) rest ips.

Definition instance_text (name iface id priority : string) (ips : string → string) (rest : string) : string :=
  "
vrrp_instance " +:+ (name +:+ (" {
  state BACKUP
  interface " +:+ (iface +:+ ("
  virtual_router_id " +:+ (id +:+ ("
  priority " +:+ (priority +:+ ("
  nopreempt
  advert_int 1

  track_interface {
    " +:+ (iface +:+ ("
  }

  virtual_ipaddress { " +:+ ips ("
  }

  notify /keepalived-check.sh
}

" +:+ rest))))))))))).

Definition render_instance (name : string) (i : instances) : string → string :=
  instance_text (html_escape name) (html_escape (Inst_Iface i)) (html_escape (Itoa (RouteID i)))
    (html_escape (Itoa (Priority i))) (render_ips (Svcips i)).

Definition render_entry (entry : string * instances) (rest : string) : string :=
  "
" +:+ (let more := "
" +:+ rest in if Enabled entry.2 then render_instance entry.1 entry.2 more else more).

(** The order in which a template ranges over a map. *)
Definition key_less (x y : string * instances) : bool := str_ltb x.1 y.1.
Definition by_key (m : instance_map) : list (string * instances) :=
  foldr (insert_sorted key_less) [] (map_to_list m).

Definition render (name : string) (m : instance_map) : string :=
  "global_defs {
  vrrp_version 3
  script_user root
  enable_script_security
  router_id " +:+ (html_escape name +:+ ("
}


#Check if the VIP list is empty

" +:+ foldr render_entry "" (by_key m))).

(** ** Reading a file *)

(** The lines of a file, as words; [com] is set inside a comment. *)
Definition flush (cur : string) (ws : list string) : list string := if str_empty cur then ws else ws ++ [cur].
Definition emit (ws : list string) : list (list string) := match ws with [] => [] | _ => [ws] end.

Fixpoint scan (com : bool) (cur : string) (ws : list string) (s : string) : list (list string) :=
  match s with
  | EmptyString => emit (flush cur ws)
  | String c s' =>
      if ord c =? 10 then emit (flush cur ws) ++ scan false "" [] s'
      else if com then scan true cur ws s'
      else if (ord c =? 35) || (ord c =? 33) then scan true "" (flush cur ws) s'
      else if is_space c then scan false "" (flush cur ws) s'
      else scan false (cur +:+ String c "") ws s'
  end.

(** Lines and blocks: a line that ends in a brace opens a block. *)
#[local] Set Warnings "-register-all".
Inductive stmt := Line (ws : list string) | Block (head : list string) (body : list stmt).

Definition closes (l : list string) : bool := match l with [w] => String.eqb w "}" | _ => false end.
Fixpoint opens (l : list string) : option (list string) :=
  match l with
  | [] => None
  | [w] => if String.eqb w "{" then Some [] else None
  | w :: l' => h ← opens l'; Some (w :: h)
  end.

(** [stack] holds the blocks that are open, with what came before each. *)
Fixpoint build_blocks (ls : list (list string)) (stack : list (list string * list stmt)) (cur : list stmt)
    : option (list stmt) :=
  match ls with
  | [] => match stack with [] => Some cur | _ => None end
  | l :: rest =>
      if closes l then
        match stack with
        | [] => None
        | (h, before) :: stack' => build_blocks rest stack' (before ++ [Block h cur])
        end
      else match opens l with
           | Some h => build_blocks rest ((h, cur) :: stack) []
           | None => build_blocks rest stack (cur ++ [Line l])
           end
  end.

Record vrrp := { vr_name : string; vr_interface : string; vr_id : Z; vr_priority : Z; vr_addresses : list string }.

Fixpoint field (key : string) (body : list stmt) : option string :=
  match body with
  | [] => None
  | Line [k; v] :: rest => if String.eqb k key then Some v else field key rest
  | _ :: rest => field key rest
  end.
Fixpoint block (key : string) (body : list stmt) : option (list stmt) :=
  match body with
  | [] => None
  | Block [k] b :: rest => if String.eqb k key then Some b else block key rest
  | _ :: rest => block key rest
  end.
Definition number (text : string) : option Z :=
  match ParseUint text 8 with (n, None) => Some n | _ => None end.
Definition one_word (s : stmt) : option string := match s with Line [w] => Some w | _ => None end.

Definition read_vrrp (s : stmt) : option vrrp :=
  match s with
  | Block [k; name] body =>
      if String.eqb k "vrrp_instance" then
        iface ← field "interface" body;
        id ← field "virtual_router_id" body ≫= number;
        prio ← field "priority" body ≫= number;
        ips ← block "virtual_ipaddress" body;
        Some {| vr_name := name; vr_interface := iface; vr_id := id; vr_priority := prio;
                vr_addresses := omap one_word ips |}
      else None
  | _ => None
  end.

(** The router name and the instances of a file: a specification of the part
    of the format that the template uses, not the parser of keepalived. *)
Definition read_conf (text : string) : option (string * list vrrp) :=
  tree ← build_blocks (scan false "" [] text) [] [];
  router ← block "global_defs" tree ≫= field "router_id";
  Some (router, omap read_vrrp tree).

(** ** Words *)

(** A character that is a part of a word and that is not escaped. *)
Definition plain_char (c : ascii) : bool :=
  let n := ord c in
  negb (is_space c) && forallb (λ k, negb (n =? k)) [0; 33; 34; 35; 38; 39; 43; 60; 62; 123; 125].
Fixpoint plain_chars (s : string) : bool :=
  match s with EmptyString => true | String c s' => plain_char c && plain_chars s' end.
Definition word (s : string) : bool := negb (str_empty s) && plain_chars s.

Lemma plain_char_spec c : plain_char c = true → is_space c = false ∧ html_char c = String c "" ∧
  (ord c =? 10) = false ∧ (ord c =? 33) = false ∧ (ord c =? 35) = false ∧ (ord c =? 123) = false ∧ (ord c =? 125) = false.
Proof.
  unfold plain_char. cbn [forallb]. intros H. repeat (apply andb_prop in H as [?H H]).
  repeat match goal with H : negb _ = true |- _ => apply negb_true_iff in H end.
  split_and!; try done.
  - unfold html_char. cbv zeta. by repeat (match goal with H : (_ =? _) = false |- _ => rewrite H; clear H end).
  - destruct (ord c =? 10) eqn:E; [|done]. unfold is_space in *. apply Z.eqb_eq in E. rewrite E in *. done.
Qed.

Lemma html_escape_plain s : plain_chars s = true → html_escape s = s.
Proof.
  induction s as [|c s IH]; cbn; [done|]. intros [Hc Hs]%andb_prop.
  destruct (plain_char_spec c Hc) as (_ & -> & _). cbn. by rewrite IH.
Qed.

Lemma scan_word w : plain_chars w = true → ∀ cur ws s, scan false cur ws (w +:+ s) = scan false (cur +:+ w) ws s.
Proof.
  induction w as [|c w IH]; cbn [plain_chars String.append]; intros Hw cur ws s; [by rewrite str_app_nil_r|].
  apply andb_prop in Hw as [Hc Hw]. destruct (plain_char_spec c Hc) as (H1 & _ & H2 & H3 & H4 & _).
  cbn [scan]. rewrite H2, H3, H4. cbn [orb]. rewrite H1, IH by done. by rewrite str_app_assoc.
Qed.

Lemma word_parts w : word w = true → str_empty w = false ∧ plain_chars w = true.
Proof. unfold word. intros [H1 H2]%andb_prop. by apply negb_true_iff in H1. Qed.

(** Reading a part of a file: the lines it ends, and the state after it. *)
Fixpoint feed (com : bool) (cur : string) (ws : list string) (s : string)
    : list (list string) * (bool * string * list string) :=
  match s with
  | EmptyString => ([], (com, cur, ws))
  | String c s' =>
      if ord c =? 10 then let '(ls, st) := feed false "" [] s' in (emit (flush cur ws) ++ ls, st)
      else if com then feed true cur ws s'
      else if (ord c =? 35) || (ord c =? 33) then feed true "" (flush cur ws) s'
      else if is_space c then feed false "" (flush cur ws) s'
      else feed false (cur +:+ String c "") ws s'
  end.

Lemma scan_feed t s : ∀ com cur ws, scan com cur ws (t +:+ s) =
  let '(ls, (com', cur', ws')) := feed com cur ws t in ls ++ scan com' cur' ws' s.
Proof.
  induction t as [|c t IH]; intros com cur ws; cbn [String.append scan feed]; [done|].
  destruct (ord c =? 10).
  - rewrite IH. destruct (feed false "" [] t) as [ls [[com' cur'] ws']]. by rewrite app_assoc.
  - destruct com; [apply IH|]. destruct (_ || _); [apply IH|]. by destruct (is_space c); rewrite IH.
Qed.

(** A word at the end of a line, and before a space. *)
Lemma scan_last w ws t s : word w = true →
  scan false "" ws (w +:+ (String "010" t +:+ s)) = (ws ++ [w]) :: scan false "" [] (t +:+ s).
Proof. intros [He Hp]%word_parts. rewrite scan_word by done. cbn. unfold flush. rewrite He. by destruct ws. Qed.
Lemma scan_space w ws t s : word w = true →
  scan false "" ws (w +:+ (String " " t +:+ s)) = scan false "" (ws ++ [w]) (t +:+ s).
Proof. intros [He Hp]%word_parts. rewrite scan_word by done. cbn. unfold flush. by rewrite He. Qed.

(** Reads the literal text at the front of the file, then the word after it. *)
Ltac scan_text :=
  rewrite scan_feed;
  match goal with |- context [feed ?com ?cur ?ws ?t] =>
    let r := eval vm_compute in (feed com cur ws t) in change (feed com cur ws t) with r end;
  cbn beta iota.

Lemma word_brace w : word w = true → String.eqb w "{" = false ∧ String.eqb w "}" = false.
Proof.
  intros [_ Hp]%word_parts. split; destruct (String.eqb_spec w "{"), (String.eqb_spec w "}"); subst; done.
Qed.

Lemma Itoa_word n : 0 <= n <= 255 → word (Itoa n) = true ∧ number (Itoa n) = Some n.
Proof.
  intros Hn. destruct (Itoa_small n Hn) as (Hd & He & Hu). split; [|unfold number; by rewrite Hu].
  unfold word. rewrite He. cbn [negb andb]. clear He Hu. induction (Itoa n) as [|c s IH]; cbn in *; [done|].
  apply andb_prop in Hd as [Hc Hd]. rewrite IH by done. rewrite andb_true_r.
  unfold is_digit, plain_char, is_space in *. cbn [forallb]. bool_to_prop. lia.
Qed.

(** ** The lines of a written file *)
Definition instance_words (name : string) (i : instances) : bool :=
  word name && word (Inst_Iface i) && forallb word (Svcips i)
  && (0 <=? RouteID i) && (RouteID i <=? 255) && (0 <=? Priority i) && (Priority i <=? 255).

Definition instance_lines (name : string) (i : instances) : list (list string) :=
  [["vrrp_instance"; name; "{"]; ["state"; "BACKUP"]; ["interface"; Inst_Iface i];
   ["virtual_router_id"; Itoa (RouteID i)]; ["priority"; Itoa (Priority i)]; ["nopreempt"]; ["advert_int"; "1"];
   ["track_interface"; "{"]; [Inst_Iface i]; ["}"]; ["virtual_ipaddress"; "{"]]
  ++ ((λ ip, [ip]) <$> Svcips i) ++ [["}"]; ["notify"; "/keepalived-check.sh"]; ["}"]].

Lemma scan_ips ips : forallb word ips = true → ∀ cur ws t rest, flush cur ws ≠ [] →
  scan false cur ws (render_ips ips (String "010" t +:+ rest)) =
  flush cur ws :: ((λ ip, [ip]) <$> ips) ++ scan false "" [] (t +:+ rest).
Proof.
  induction ips as [|ip ips IH]; cbn [forallb render_ips foldr fmap list_fmap]; intros Hips cur ws t rest Hne.
  - cbn. by destruct (flush cur ws).
  - apply andb_prop in Hips as [Hip Hips]. destruct (word_parts ip Hip) as [He Hp]. rewrite html_escape_plain by done.
    transitivity (flush cur ws :: scan false "" [] (ip +:+ render_ips ips (String "010" t +:+ rest))).
    { cbn. by destruct (flush cur ws). }
    rewrite scan_word by done. rewrite IH; unfold flush; cbn; rewrite ?He; done.
Qed.

Lemma scan_instance_text name iface id priority ips rest :
  word name = true → word iface = true → word id = true → word priority = true → forallb word ips = true →
  scan false "" [] (instance_text name iface id priority (render_ips ips) rest) =
  [["vrrp_instance"; name; "{"]; ["state"; "BACKUP"]; ["interface"; iface];
   ["virtual_router_id"; id]; ["priority"; priority]; ["nopreempt"]; ["advert_int"; "1"];
   ["track_interface"; "{"]; [iface]; ["}"]; ["virtual_ipaddress"; "{"]]
  ++ ((λ ip, [ip]) <$> ips) ++ [["}"]; ["notify"; "/keepalived-check.sh"]; ["}"]] ++ scan false "" [] rest.
Proof.
  intros Hn Hf Hi Hp Hips. unfold instance_text. scan_text. rewrite scan_space by done. cbn [app].
  scan_text. rewrite scan_last by done. scan_text. rewrite scan_last by done. scan_text. rewrite scan_last by done.
  scan_text. rewrite scan_last by done. scan_text. rewrite scan_ips by done. scan_text. cbn [app flush str_empty].
  by rewrite <- ?app_assoc.
Qed.

Lemma instance_words_spec name i : instance_words name i = true →
  (word name = true ∧ word (Inst_Iface i) = true ∧ forallb word (Svcips i) = true) ∧
  (word (Itoa (RouteID i)) = true ∧ number (Itoa (RouteID i)) = Some (RouteID i)) ∧
  (word (Itoa (Priority i)) = true ∧ number (Itoa (Priority i)) = Some (Priority i)).
Proof.
  unfold instance_words. rewrite !andb_true_iff, !Z.leb_le. intros ((((((? & ?) & ?) & ?) & ?) & ?) & ?).
  split; [done|]. split; by apply Itoa_word.
Qed.

Lemma scan_instance name i rest : instance_words name i = true →
  scan false "" [] (render_instance name i rest) = instance_lines name i ++ scan false "" [] rest.
Proof.
  intros ((Hn & Hf & Hips) & (Hr & _) & (Hq & _))%instance_words_spec.
  unfold render_instance, instance_lines. rewrite !html_escape_plain by (by apply word_parts).
  rewrite scan_instance_text by done. cbn. by rewrite <- !app_assoc.
Qed.

Definition entry_lines (entry : string * instances) : list (list string) :=
  if Enabled entry.2 then instance_lines entry.1 entry.2 else [].

Lemma scan_entries es : (∀ n i, (n, i) ∈ es → Enabled i = true → instance_words n i = true) →
  scan false "" [] (foldr render_entry "" es) = concat (entry_lines <$> es).
Proof.
  induction es as [|[n i] es IH]; cbn [foldr fmap list_fmap concat]; intros Hes; [done|].
  unfold render_entry at 1, entry_lines at 1. cbn [fst snd]. cbv zeta.
  assert (scan false "" [] ("
" +:+ foldr render_entry "" es) = concat (entry_lines <$> es)) as Hrest.
  { cbn. apply IH. intros x j Hx. apply Hes. by right. }
  destruct (Enabled i) eqn:E; [|exact Hrest].
  transitivity (scan false "" [] (render_instance n i ("
" +:+ foldr render_entry "" es))); [done|].
  rewrite scan_instance, Hrest; [done|]. apply Hes; [left|done].
Qed.

(** ** Reading the lines *)
Definition instance_block (name : string) (i : instances) : stmt :=
  Block ["vrrp_instance"; name]
    [Line ["state"; "BACKUP"]; Line ["interface"; Inst_Iface i]; Line ["virtual_router_id"; Itoa (RouteID i)];
     Line ["priority"; Itoa (Priority i)]; Line ["nopreempt"]; Line ["advert_int"; "1"];
     Block ["track_interface"] [Line [Inst_Iface i]];
     Block ["virtual_ipaddress"] ((λ ip, Line [ip]) <$> Svcips i);
     Line ["notify"; "/keepalived-check.sh"]].

Lemma build_words ips : forallb word ips = true → ∀ rest stack cur,
  build_blocks (((λ ip, [ip]) <$> ips) ++ rest) stack cur = build_blocks rest stack (cur ++ ((λ ip, Line [ip]) <$> ips)).
Proof.
  induction ips as [|ip ips IH]; cbn [forallb fmap list_fmap app]; intros Hips rest stack cur; [by rewrite app_nil_r|].
  apply andb_prop in Hips as [Hip Hips]. destruct (word_brace ip Hip) as [H1 H2].
  cbn [build_blocks closes opens]. rewrite H1, H2, IH by done. by rewrite <- app_assoc.
Qed.

Lemma build_instance name i rest stack cur : instance_words name i = true →
  build_blocks (instance_lines name i ++ rest) stack cur = build_blocks rest stack (cur ++ [instance_block name i]).
Proof.
  intros ((Hn & Hf & Hips) & (Hr & _) & (Hq & _))%instance_words_spec.
  destruct (word_brace _ Hn) as [N1 N2], (word_brace _ Hf) as [F1 F2], (word_brace _ Hr) as [R1 R2], (word_brace _ Hq) as [P1 P2].
  unfold instance_lines. rewrite <- !app_assoc. cbn [app build_blocks closes opens mbind option_bind].
  cbn [String.eqb Ascii.eqb Bool.eqb]. rewrite F1, F2, R1, P1. cbn [mbind option_bind app].
  rewrite build_words by done. done.
Qed.

Lemma build_entries es : (∀ n i, (n, i) ∈ es → Enabled i = true → instance_words n i = true) → ∀ cur,
  build_blocks (concat (entry_lines <$> es)) [] cur =
  Some (cur ++ ((λ e : string * instances, instance_block e.1 e.2) <$> List.filter (λ e, Enabled e.2) es)).
Proof.
  induction es as [|[n i] es IH]; intros Hes cur; cbn [fmap list_fmap concat List.filter]; [cbn; by rewrite app_nil_r|].
  assert (∀ x j, (x, j) ∈ es → Enabled j = true → instance_words x j = true) as Hes' by (intros x j Hx; apply Hes; by right).
  unfold entry_lines at 1. cbn [fst snd]. destruct (Enabled i) eqn:E; [|by apply IH].
  rewrite build_instance by (apply Hes; [left|done]). rewrite IH by done. cbn. by rewrite <- app_assoc.
Qed.

Definition as_vrrp (e : string * instances) : vrrp :=
  {| vr_name := e.1; vr_interface := Inst_Iface e.2; vr_id := RouteID e.2; vr_priority := Priority e.2;
     vr_addresses := Svcips e.2 |}.

Lemma omap_one_word (ips : list string) : omap one_word ((λ ip, Line [ip]) <$> ips) = ips.
Proof. induction ips as [|ip ips IH]; cbn; [done|]. by f_equal. Qed.

Lemma read_instance name i : instance_words name i = true → read_vrrp (instance_block name i) = Some (as_vrrp (name, i)).
Proof.
  intros (_ & (_ & Hr) & (_ & Hq))%instance_words_spec. unfold instance_block. cbn -[omap]. rewrite Hr, Hq. cbn -[omap].
  by rewrite omap_one_word.
Qed.

Lemma by_key_perm m : by_key m ≡ₚ map_to_list m.
Proof. unfold by_key. induction (map_to_list m) as [|x l IH]; cbn; [done|]. by rewrite insert_sorted_perm, IH. Qed.

(** The instances that are written, in the order of their names. *)
Definition written (m : instance_map) : list vrrp := as_vrrp <$> List.filter (λ e, Enabled e.2) (by_key m).

(** ** Properties *)

(** C40: the configuration of keepalived says what the speaker has.  Reading the
    file that [WriteCfg] renders gives the name of the node and exactly the
    enabled instances, in the order of their names, each with its interface,
    router ID, priority and addresses; when the values are words without
    characters that the template package escapes, and the numbers are those of
    VRRP. *)
Theorem keepalived_conf_roundtrip (name : string) (m : instance_map) (Hname : word name = true)
    (Hm : ∀ n i, m !! n = Some i → Enabled i = true → instance_words n i = true) :
  read_conf (render name m) = Some (name, written m) ∧
  (∀ v, v ∈ written m ↔ ∃ n i, m !! n = Some i ∧ Enabled i = true ∧ v = as_vrrp (n, i)).
Proof.
  assert (∀ n i, (n, i) ∈ by_key m → Enabled i = true → instance_words n i = true) as Hes.
  { intros n i Hin. apply Hm. rewrite by_key_perm in Hin. by apply elem_of_map_to_list. }
  split.
  - unfold read_conf, render, written. rewrite html_escape_plain by (by apply word_parts). scan_text.
    rewrite scan_last by done. scan_text. rewrite scan_entries by done. destruct (word_brace _ Hname) as [N1 N2].
    cbn [app build_blocks closes opens mbind option_bind]. cbn [String.eqb Ascii.eqb Bool.eqb]. rewrite N1. cbn [mbind option_bind app].
    rewrite build_entries by done. cbn -[omap read_vrrp]. f_equal. f_equal.
    assert (∀ n i, (n, i) ∈ List.filter (λ e : string * instances, Enabled e.2) (by_key m) → instance_words n i = true) as Hw.
    { intros n i [Hin He]%list_elem_of_In%List.filter_In. apply Hes; [by apply list_elem_of_In|done]. }
    clear -Hw. induction (List.filter _ _) as [|[n i] es IH]; cbn -[read_vrrp]; [done|].
    rewrite read_instance by (apply Hw; left). f_equal. apply IH. intros x j Hx. apply Hw. by right.
  - intros v. unfold written. rewrite list_elem_of_fmap. split.
    + intros ([n i] & -> & [Hin He]%list_elem_of_In%List.filter_In). exists n, i. split_and!; [|done..].
      apply list_elem_of_In in Hin. rewrite by_key_perm in Hin. by apply elem_of_map_to_list.
    + intros (n & i & Hi & He & ->). exists (n, i). split; [done|]. apply list_elem_of_In, List.filter_In. split; [|done].
      apply list_elem_of_In. rewrite by_key_perm. by apply elem_of_map_to_list.
Qed.

(** In a state of the speaker ([tables_ok]) the written instances have distinct
    router IDs, and each address stands in the instance it is recorded for. *)
Theorem written_consistent m v a : tables_ok m v a →
  (∀ x y, x ∈ written m → y ∈ written m → vr_id x = vr_id y → vr_name x = vr_name y) ∧
  (∀ x ip, x ∈ written m → ip ∈ vr_addresses x → v !! ip = Some (vr_name x)).
Proof.
  intros Hok. assert (∀ x, x ∈ written m → ∃ n i, m !! n = Some i ∧ x = as_vrrp (n, i)) as Hw.
  { unfold written. intros x ([n i] & -> & [Hin _]%list_elem_of_In%List.filter_In)%list_elem_of_fmap. exists n, i.
    apply list_elem_of_In in Hin. rewrite by_key_perm in Hin. by apply elem_of_map_to_list in Hin. }
  split.
  - intros x y (n & i & Hi & ->)%Hw (n' & i' & Hi' & ->)%Hw Hid. by eapply (to_distinct _ _ _ Hok).
  - intros x ip (n & i & Hi & ->)%Hw Hip. by eapply (io_vips _ _ _ _ (to_inst _ _ _ Hok _ _ Hi)).
Qed.

(** An interface name with a plus sign is not written as it is. *)
Example escaped_interface :
  html_escape "br+0" = "br&#43;0" ∧ ∃ n, read_conf (render "node1" {["i" := {| Inst_Name := "i"; Inst_Iface := "br+0";
    RouteID := 1; Svcips := ["10.0.0.1"]; Priority := 100; Enabled := true |}]}) = Some ("node1", [n]) ∧
    vr_interface n ≠ "br+0".
Proof.
  split; [vm_compute; reflexivity|]. eexists. split; [vm_compute; reflexivity|]. vm_compute. discriminate.
Qed.

(** ** The log of keepalived *)

(** [bufio.ScanLines] drops a carriage return at the end of a line. *)
Fixpoint drop_cr (l : string) : string :=
  match l with
  | EmptyString => ""
  | String c EmptyString => if ord c =? 13 then "" else l
  | String c l' => String c (drop_cr l')
  end.

(** The lines that are logged, and whether the scanner stopped at a line that
    does not fit its buffer of [max] bytes; what comes after such a line is
    lost. *)
Fixpoint scan_lines (max : nat) (ls : list string) : list string * bool :=
  match ls with
  | [] => ([], false)
  | [l] => if Nat.leb max (String.length l) then ([], true) else (if str_empty l then [] else [drop_cr l], false)
  | l :: ls' => if Nat.leb max (String.length l) then ([], true)
               else let '(out, stopped) := scan_lines max ls' in (drop_cr l :: out, stopped)
  end.
Definition scan_log (max : nat) (output : string) : list string * bool := scan_lines max (Split "010" output).

(** Lines that fit are all logged, in order. *)
Theorem scan_log_all (max : nat) (ls : list string) :
  (∀ l, l ∈ ls → (String.length l < max)%nat ∧ str_elem "010" l = false ∧ str_elem "013" l = false) → (0 < max)%nat →
  scan_log max (Join (ls ++ [""]) (String "010" "")) = (ls, false).
Proof.
  intros Hls Hmax. unfold scan_log.
  assert (∀ l, str_elem "013" l = false → drop_cr l = l) as Hcr.
  { induction l as [|c l IH]; cbn [str_elem]; [done|]. case_decide as E; [done|]. intros Hl. cbn [drop_cr].
    destruct l; [|by rewrite IH]. destruct (ord c =? 13) eqn:Ec; [|done]. destruct E. unfold ord in Ec. apply Z.eqb_eq in Ec.
    rewrite <- (ascii_nat_embedding c). by replace (nat_of_ascii c) with 13%nat by lia. }
  rewrite (Split_Join "010" (ls ++ [""])).
  - clear -Hls Hmax Hcr. induction ls as [|l ls IH]; cbn.
    + destruct max; [lia|done].
    + destruct (Hls l) as (Hl & _ & Hc); [left|]. rewrite (proj2 (Nat.leb_gt _ _)) by done.
      rewrite IH by (intros x Hx; apply Hls; by right). rewrite Hcr by done. by destruct ls.
  - by destruct ls.
  - apply Forall_app. split; [|by constructor]. apply Forall_forall. intros l Hl. by apply Hls.
Qed.

(** A line that does not fit ends the log: nothing after it is seen, whatever
    it is. *)
Theorem scan_log_stops (max : nat) (ls more : list string) (l : string) :
  (∀ x, x ∈ ls → (String.length x < max)%nat) → (max <= String.length l)%nat → more ≠ [] →
  scan_lines max (ls ++ l :: more) = (drop_cr <$> ls, true).
Proof.
  intros Hls Hl Hm. induction ls as [|x ls IH]; cbn.
  - rewrite (proj2 (Nat.leb_le _ _)) by done. by destruct more.
  - rewrite (proj2 (Nat.leb_gt _ _)) by (apply Hls; left). rewrite IH by (intros y Hy; apply Hls; by right).
    by destruct ls.
Qed.

(** ** Witness *)
Definition two_instances : instance_map :=
  {["h1-eth0" := {| Inst_Name := "h1-eth0"; Inst_Iface := "eth0"; RouteID := 7; Svcips := ["10.0.0.1"; "10.0.0.2"];
                    Priority := 100; Enabled := true |};
    "h2-eth1" := {| Inst_Name := "h2-eth1"; Inst_Iface := "eth1"; RouteID := 9; Svcips := ["10.0.1.1"];
                    Priority := 100; Enabled := false |}]}.

Lemma keepalived_conf_roundtrip_witness :
  read_conf (render "node1" two_instances) = Some ("node1",
    [{| vr_name := "h1-eth0"; vr_interface := "eth0"; vr_id := 7; vr_priority := 100;
        vr_addresses := ["10.0.0.1"; "10.0.0.2"] |}]).
Proof.
  refine (eq_trans (proj1 (keepalived_conf_roundtrip "node1" two_instances _ _)) _).
  - vm_compute. reflexivity.
  - intros n i. unfold two_instances.
    intros [[<- <-]|[_ [<- <-]%lookup_singleton_Some]]%lookup_insert_Some _; vm_compute; reflexivity.
  - vm_compute. reflexivity.
Defined.
