(* ===== verification/Metrics.v ===== *)
(** * The metrics ([pkg/metrics/metrics.go])

    The registered vectors and the functions that write them.  The Prometheus
    client is third-party: the class [MetricVec] of the operations on a vector
    (a series per list of label values), with the documented effect of each
    ([MetricVecOk]).  A [float64] is the expression that computes it. *)
From S2P Require Import Prelude GoNet.
Local Open Scope Z_scope.

Inductive float64 :=
| FloatOfInt (z : Z)          (** [float64(z)] *)
| FloatOfText (s : string)    (** [strconv.ParseFloat(s, 64)], its error ignored *)
| FloatAdd (x y : float64).
#[export] Instance float64_eq_dec : EqDecision float64.
Proof. solve_decision. Defined.

Class MetricVec (V : Type) := {
  vec_Set : list string → float64 → V → V;   (** [WithLabelValues(ls).Set(x)] *)
  vec_Add : list string → float64 → V → V;   (** [WithLabelValues(ls).Add(x)] *)
  vec_Delete : list string → V → V;          (** [DeleteLabelValues(ls)] *)
  vec_value : V → list string → option float64;
}.

(** A series starts at zero when it is first asked for. *)
Class MetricVecOk (V : Type) `{MV : MetricVec V} : Prop := {
  vec_Set_value ls x v ls' :
    vec_value (vec_Set ls x v) ls' = if decide (ls' = ls) then Some x else vec_value v ls';
  vec_Add_value ls x v ls' :
    vec_value (vec_Add ls x v) ls' =
      if decide (ls' = ls) then Some (FloatAdd (default (FloatOfInt 0) (vec_value v ls)) x) else vec_value v ls';
  vec_Delete_value ls v ls' :
    vec_value (vec_Delete ls v) ls' = if decide (ls' = ls) then None else vec_value v ls';
}.

(** ** The registry of the package *)
Record Registry (V : Type) := {
  addressesTotal : V; addressesInUseTotal : V; servicesAllocatedTotal : V;
  requestsReceived : V; responsesSent : V; gratuitousSent : V;
  sessionUp : V; updatesTotal : V; announcedPrefixesTotal : V; pendingPrefixesTotal : V;
}.
Arguments addressesTotal {V} _.
Arguments addressesInUseTotal {V} _.
Arguments servicesAllocatedTotal {V} _.
Arguments requestsReceived {V} _.
Arguments responsesSent {V} _.
Arguments gratuitousSent {V} _.
Arguments sessionUp {V} _.
Arguments updatesTotal {V} _.
Arguments announcedPrefixesTotal {V} _.
Arguments pendingPrefixesTotal {V} _.

Section metrics.
Context {V : Type} {MV : MetricVec V}.
Implicit Types m : Registry V.

(** The same change to each vector of a group. *)
Definition on_eip (f g h : V → V) m : Registry V :=
  {| addressesTotal := f (addressesTotal m); addressesInUseTotal := g (addressesInUseTotal m);
     servicesAllocatedTotal := h (servicesAllocatedTotal m);
     requestsReceived := requestsReceived m; responsesSent := responsesSent m; gratuitousSent := gratuitousSent m;
     sessionUp := sessionUp m; updatesTotal := updatesTotal m;
     announcedPrefixesTotal := announcedPrefixesTotal m; pendingPrefixesTotal := pendingPrefixesTotal m |}.
Definition on_layer2 (f g h : V → V) m : Registry V :=
  {| addressesTotal := addressesTotal m; addressesInUseTotal := addressesInUseTotal m;
     servicesAllocatedTotal := servicesAllocatedTotal m;
     requestsReceived := f (requestsReceived m); responsesSent := g (responsesSent m);
     gratuitousSent := h (gratuitousSent m);
     sessionUp := sessionUp m; updatesTotal := updatesTotal m;
     announcedPrefixesTotal := announcedPrefixesTotal m; pendingPrefixesTotal := pendingPrefixesTotal m |}.
Definition on_bgp (f g h k : V → V) m : Registry V :=
  {| addressesTotal := addressesTotal m; addressesInUseTotal := addressesInUseTotal m;
     servicesAllocatedTotal := servicesAllocatedTotal m;
     requestsReceived := requestsReceived m; responsesSent := responsesSent m; gratuitousSent := gratuitousSent m;
     sessionUp := f (sessionUp m); updatesTotal := g (updatesTotal m);
     announcedPrefixesTotal := h (announcedPrefixesTotal m); pendingPrefixesTotal := k (pendingPrefixesTotal m) |}.

Definition UpdateEipMetrics (eipName : string) (total used svcCount : float64) : Registry V → Registry V :=
  on_eip (vec_Set [eipName] total) (vec_Set [eipName] used) (vec_Set [eipName] svcCount).
Definition DeleteEipMetrics (eip : string) : Registry V → Registry V :=
  on_layer2 (vec_Delete [eip]) (vec_Delete [eip]) (vec_Delete [eip]).

Definition InitLayer2Metrics (ip : string) : Registry V → Registry V :=
  on_layer2 (vec_Add [ip] (FloatOfInt 0)) (vec_Add [ip] (FloatOfInt 0)) (vec_Add [ip] (FloatOfInt 0)).
Definition UpdateGratuitousSentMetrics (ip : string) : Registry V → Registry V :=
  on_layer2 id id (vec_Add [ip] (FloatOfInt 1)).
Definition UpdateResponsesSentMetrics (ip : string) : Registry V → Registry V :=
  on_layer2 id (vec_Add [ip] (FloatOfInt 1)) id.
Definition UpdateRequestsReceivedMetrics (ip : string) : Registry V → Registry V :=
  on_layer2 (vec_Add [ip] (FloatOfInt 1)) id id.
Definition DeleteLayer2Metrics (ip : string) : Registry V → Registry V :=
  on_layer2 (vec_Delete [ip]) (vec_Delete [ip]) (vec_Delete [ip]).

Definition InitBGPPeerMetrics (peerIP node : string) : Registry V → Registry V :=
  let add := vec_Add [peerIP; node] (FloatOfInt 0) in on_bgp add add add add.
Definition UpdateBGPSessionMetrics (peerIP node : string) (state updateTotal : float64) : Registry V → Registry V :=
  on_bgp (vec_Set [peerIP; node] state) (vec_Set [peerIP; node] updateTotal) id id.
Definition UpdateBGPPathMetrics (peerIP node : string) (announced pending : float64) : Registry V → Registry V :=
  on_bgp id id (vec_Add [peerIP; node] announced) (vec_Add [peerIP; node] pending).
Definition DeleteBGPPeerMetrics (peerIP node : string) : Registry V → Registry V :=
  let del := vec_Delete [peerIP; node] in on_bgp del del del del.
End metrics.

(** ** What a deletion leaves

    The series of a peer, and of a pool. *)
Definition bgp_vectors {V} (m : Registry V) : list V :=
  [sessionUp m; updatesTotal m; announcedPrefixesTotal m; pendingPrefixesTotal m].
Definition eip_vectors {V} (m : Registry V) : list V :=
  [addressesTotal m; addressesInUseTotal m; servicesAllocatedTotal m].

Section facts.
Context {V : Type} {MV : MetricVec V} {MO : MetricVecOk V}.

(** A peer that was shown and is deleted leaves no series. *)
Lemma DeleteBGPPeerMetrics_gone peerIP node (m : Registry V) :
  Forall (λ v, vec_value v [peerIP; node] = None) (bgp_vectors (DeleteBGPPeerMetrics peerIP node m)).
Proof. repeat constructor; cbn; rewrite vec_Delete_value; by rewrite decide_True. Qed.

(** The deletion of a pool's metrics does not delete them.  It removes the
    layer-2 counters of an address that has the pool's name; the three gauges
    that [UpdateEipMetrics] wrote keep the values. *)
Theorem DeleteEipMetrics_keeps_pool eip total used svcs (m : Registry V) :
  (λ v, vec_value v [eip]) <$> eip_vectors (DeleteEipMetrics eip (UpdateEipMetrics eip total used svcs m))
  = [Some total; Some used; Some svcs].
Proof. cbn. by rewrite !vec_Set_value, !decide_True. Qed.
End facts.

(** ** A vector as a map *)
#[export] Instance map_vec : MetricVec (gmap (list string) float64) := {|
  vec_Set ls x v := <[ls := x]> v;
  vec_Add ls x v := <[ls := FloatAdd (default (FloatOfInt 0) (v !! ls)) x]> v;
  vec_Delete ls v := delete ls v;
  vec_value v ls := v !! ls |}.
#[export] Instance map_vec_ok : MetricVecOk (gmap (list string) float64).
Proof.
  split; intros; cbn; case_decide; subst; rewrite ?lookup_insert_eq, ?lookup_delete_eq, ?lookup_insert_ne,
    ?lookup_delete_ne; done.
Qed.
Definition no_metrics : Registry (gmap (list string) float64) :=
  Build_Registry _ ∅ ∅ ∅ ∅ ∅ ∅ ∅ ∅ ∅ ∅.
