(* ===== verification/BgpConfig.v ===== *)
(** * The policy configuration of gobgp ([pkg/speaker/bgp/bgp/config])

    The structs a policy file is read into ([bgp_configs.go]), the tables of
    their string enumerations, the defined sets in the form of gobgp's API
    ([util.go]) and the routing policy of a file ([serve.go]).  The file reader
    (viper) is a parameter of its callers. *)
From S2P Require Import Prelude GoNet Strconv.
Local Open Scope Z_scope.

(** ** Map literals

    A Go map literal with constant keys: the keys are distinct, so the first
    entry of a key is its only one. *)
Fixpoint map_get {K V} `{EqDecision K} (m : list (K * V)) (k : K) : option V :=
  match m with
  | [] => None
  | (k', v) :: m' => if decide (k = k') then Some v else map_get m' k
  end.
Definition has_key {K V} `{EqDecision K} (m : list (K * V)) (k : K) : bool :=
  match map_get m k with Some _ => true | None => false end.

(** ** The enumerations ([bgp_configs.go]) *)
(** *** [BgpOriginAttrType] *)
Definition BGP_ORIGIN_ATTR_TYPE_IGP : string := "igp".
Definition BGP_ORIGIN_ATTR_TYPE_EGP : string := "egp".
Definition BGP_ORIGIN_ATTR_TYPE_INCOMPLETE : string := "incomplete".
Definition BgpOriginAttrTypeToIntMap : list (string * Z) :=
  [(BGP_ORIGIN_ATTR_TYPE_IGP, 0);
   (BGP_ORIGIN_ATTR_TYPE_EGP, 1);
   (BGP_ORIGIN_ATTR_TYPE_INCOMPLETE, 2)].
Definition IntToBgpOriginAttrTypeMap : list (Z * string) :=
  [(0, BGP_ORIGIN_ATTR_TYPE_IGP);
   (1, BGP_ORIGIN_ATTR_TYPE_EGP);
   (2, BGP_ORIGIN_ATTR_TYPE_INCOMPLETE)].

(** *** [BgpWellKnownStdCommunity] *)
Definition BGP_WELL_KNOWN_STD_COMMUNITY_NO_EXPORT : string := "no_export".
Definition BGP_WELL_KNOWN_STD_COMMUNITY_NO_ADVERTISE : string := "no_advertise".
Definition BGP_WELL_KNOWN_STD_COMMUNITY_NO_EXPORT_SUBCONFED : string := "no_export_subconfed".
Definition BGP_WELL_KNOWN_STD_COMMUNITY_NOPEER : string := "nopeer".
Definition BgpWellKnownStdCommunityToIntMap : list (string * Z) :=
  [(BGP_WELL_KNOWN_STD_COMMUNITY_NO_EXPORT, 0);
   (BGP_WELL_KNOWN_STD_COMMUNITY_NO_ADVERTISE, 1);
   (BGP_WELL_KNOWN_STD_COMMUNITY_NO_EXPORT_SUBCONFED, 2);
   (BGP_WELL_KNOWN_STD_COMMUNITY_NOPEER, 3)].
Definition IntToBgpWellKnownStdCommunityMap : list (Z * string) :=
  [(0, BGP_WELL_KNOWN_STD_COMMUNITY_NO_EXPORT);
   (1, BGP_WELL_KNOWN_STD_COMMUNITY_NO_ADVERTISE);
   (2, BGP_WELL_KNOWN_STD_COMMUNITY_NO_EXPORT_SUBCONFED);
   (3, BGP_WELL_KNOWN_STD_COMMUNITY_NOPEER)].
Definition BgpWellKnownStdCommunity_Validate (v : string) : Result unit :=
  if has_key BgpWellKnownStdCommunityToIntMap v then Ok tt else Err (Errorf ("invalid BgpWellKnownStdCommunity: " +:+ v)).
Definition BgpWellKnownStdCommunity_ToInt (v : string) : Z :=
  default (-1) (map_get BgpWellKnownStdCommunityToIntMap v).

(** *** [MatchSetOptionsRestrictedType] *)
Definition MATCH_SET_OPTIONS_RESTRICTED_TYPE_ANY : string := "any".
Definition MATCH_SET_OPTIONS_RESTRICTED_TYPE_INVERT : string := "invert".
Definition MatchSetOptionsRestrictedTypeToIntMap : list (string * Z) :=
  [(MATCH_SET_OPTIONS_RESTRICTED_TYPE_ANY, 0);
   (MATCH_SET_OPTIONS_RESTRICTED_TYPE_INVERT, 1)].
Definition IntToMatchSetOptionsRestrictedTypeMap : list (Z * string) :=
  [(0, MATCH_SET_OPTIONS_RESTRICTED_TYPE_ANY);
   (1, MATCH_SET_OPTIONS_RESTRICTED_TYPE_INVERT)].
Definition MatchSetOptionsRestrictedType_Validate (v : string) : Result unit :=
  if has_key MatchSetOptionsRestrictedTypeToIntMap v then Ok tt else Err (Errorf ("invalid MatchSetOptionsRestrictedType: " +:+ v)).
Definition MatchSetOptionsRestrictedType_Default : string := MATCH_SET_OPTIONS_RESTRICTED_TYPE_ANY.
Definition MatchSetOptionsRestrictedType_DefaultAsNeeded (v : string) : string :=
  if str_empty v then MatchSetOptionsRestrictedType_Default else v.
Definition MatchSetOptionsRestrictedType_ToInt (v : string) : Z :=
  default (-1) (map_get MatchSetOptionsRestrictedTypeToIntMap (MatchSetOptionsRestrictedType_DefaultAsNeeded v)).

(** *** [MatchSetOptionsType] *)
Definition MATCH_SET_OPTIONS_TYPE_ANY : string := "any".
Definition MATCH_SET_OPTIONS_TYPE_ALL : string := "all".
Definition MATCH_SET_OPTIONS_TYPE_INVERT : string := "invert".
Definition MatchSetOptionsTypeToIntMap : list (string * Z) :=
  [(MATCH_SET_OPTIONS_TYPE_ANY, 0);
   (MATCH_SET_OPTIONS_TYPE_ALL, 1);
   (MATCH_SET_OPTIONS_TYPE_INVERT, 2)].
Definition IntToMatchSetOptionsTypeMap : list (Z * string) :=
  [(0, MATCH_SET_OPTIONS_TYPE_ANY);
   (1, MATCH_SET_OPTIONS_TYPE_ALL);
   (2, MATCH_SET_OPTIONS_TYPE_INVERT)].
Definition MatchSetOptionsType_Validate (v : string) : Result unit :=
  if has_key MatchSetOptionsTypeToIntMap v then Ok tt else Err (Errorf ("invalid MatchSetOptionsType: " +:+ v)).
Definition MatchSetOptionsType_Default : string := MATCH_SET_OPTIONS_TYPE_ANY.
Definition MatchSetOptionsType_DefaultAsNeeded (v : string) : string :=
  if str_empty v then MatchSetOptionsType_Default else v.
Definition MatchSetOptionsType_ToInt (v : string) : Z :=
  default (-1) (map_get MatchSetOptionsTypeToIntMap (MatchSetOptionsType_DefaultAsNeeded v)).

(** *** [InstallProtocolType] *)
Definition INSTALL_PROTOCOL_TYPE_BGP : string := "bgp".
Definition INSTALL_PROTOCOL_TYPE_ISIS : string := "isis".
Definition INSTALL_PROTOCOL_TYPE_OSPF : string := "ospf".
Definition INSTALL_PROTOCOL_TYPE_OSPF3 : string := "ospf3".
Definition INSTALL_PROTOCOL_TYPE_STATIC : string := "static".
Definition INSTALL_PROTOCOL_TYPE_DIRECTLY_CONNECTED : string := "directly-connected".
Definition INSTALL_PROTOCOL_TYPE_LOCAL_AGGREGATE : string := "local-aggregate".
Definition InstallProtocolTypeToIntMap : list (string * Z) :=
  [(INSTALL_PROTOCOL_TYPE_BGP, 0);
   (INSTALL_PROTOCOL_TYPE_ISIS, 1);
   (INSTALL_PROTOCOL_TYPE_OSPF, 2);
   (INSTALL_PROTOCOL_TYPE_OSPF3, 3);
   (INSTALL_PROTOCOL_TYPE_STATIC, 4);
   (INSTALL_PROTOCOL_TYPE_DIRECTLY_CONNECTED, 5);
   (INSTALL_PROTOCOL_TYPE_LOCAL_AGGREGATE, 6)].
Definition IntToInstallProtocolTypeMap : list (Z * string) :=
  [(0, INSTALL_PROTOCOL_TYPE_BGP);
   (1, INSTALL_PROTOCOL_TYPE_ISIS);
   (2, INSTALL_PROTOCOL_TYPE_OSPF);
   (3, INSTALL_PROTOCOL_TYPE_OSPF3);
   (4, INSTALL_PROTOCOL_TYPE_STATIC);
   (5, INSTALL_PROTOCOL_TYPE_DIRECTLY_CONNECTED);
   (6, INSTALL_PROTOCOL_TYPE_LOCAL_AGGREGATE)].
Definition InstallProtocolType_Validate (v : string) : Result unit :=
  if has_key InstallProtocolTypeToIntMap v then Ok tt else Err (Errorf ("invalid InstallProtocolType: " +:+ v)).
Definition InstallProtocolType_ToInt (v : string) : Z :=
  default (-1) (map_get InstallProtocolTypeToIntMap v).

(** *** [AttributeComparison] *)
Definition ATTRIBUTE_COMPARISON_ATTRIBUTE_EQ : string := "attribute-eq".
Definition ATTRIBUTE_COMPARISON_ATTRIBUTE_GE : string := "attribute-ge".
Definition ATTRIBUTE_COMPARISON_ATTRIBUTE_LE : string := "attribute-le".
Definition ATTRIBUTE_COMPARISON_EQ : string := "eq".
Definition ATTRIBUTE_COMPARISON_GE : string := "ge".
Definition ATTRIBUTE_COMPARISON_LE : string := "le".
Definition AttributeComparisonToIntMap : list (string * Z) :=
  [(ATTRIBUTE_COMPARISON_ATTRIBUTE_EQ, 0);
   (ATTRIBUTE_COMPARISON_ATTRIBUTE_GE, 1);
   (ATTRIBUTE_COMPARISON_ATTRIBUTE_LE, 2);
   (ATTRIBUTE_COMPARISON_EQ, 3);
   (ATTRIBUTE_COMPARISON_GE, 4);
   (ATTRIBUTE_COMPARISON_LE, 5)].
Definition IntToAttributeComparisonMap : list (Z * string) :=
  [(0, ATTRIBUTE_COMPARISON_ATTRIBUTE_EQ);
   (1, ATTRIBUTE_COMPARISON_ATTRIBUTE_GE);
   (2, ATTRIBUTE_COMPARISON_ATTRIBUTE_LE);
   (3, ATTRIBUTE_COMPARISON_EQ);
   (4, ATTRIBUTE_COMPARISON_GE);
   (5, ATTRIBUTE_COMPARISON_LE)].
Definition AttributeComparison_Validate (v : string) : Result unit :=
  if has_key AttributeComparisonToIntMap v then Ok tt else Err (Errorf ("invalid AttributeComparison: " +:+ v)).
Definition AttributeComparison_ToInt (v : string) : Z :=
  default (-1) (map_get AttributeComparisonToIntMap v).

(** *** [RouteDisposition] *)
Definition ROUTE_DISPOSITION_NONE : string := "none".
Definition ROUTE_DISPOSITION_ACCEPT_ROUTE : string := "accept-route".
Definition ROUTE_DISPOSITION_REJECT_ROUTE : string := "reject-route".
Definition RouteDispositionToIntMap : list (string * Z) :=
  [(ROUTE_DISPOSITION_NONE, 0);
   (ROUTE_DISPOSITION_ACCEPT_ROUTE, 1);
   (ROUTE_DISPOSITION_REJECT_ROUTE, 2)].
Definition IntToRouteDispositionMap : list (Z * string) :=
  [(0, ROUTE_DISPOSITION_NONE);
   (1, ROUTE_DISPOSITION_ACCEPT_ROUTE);
   (2, ROUTE_DISPOSITION_REJECT_ROUTE)].
Definition RouteDisposition_Validate (v : string) : Result unit :=
  if has_key RouteDispositionToIntMap v then Ok tt else Err (Errorf ("invalid RouteDisposition: " +:+ v)).
Definition RouteDisposition_ToInt (v : string) : Z :=
  default (-1) (map_get RouteDispositionToIntMap v).

(** *** [RouteType] *)
Definition ROUTE_TYPE_NONE : string := "none".
Definition ROUTE_TYPE_INTERNAL : string := "internal".
Definition ROUTE_TYPE_EXTERNAL : string := "external".
Definition ROUTE_TYPE_LOCAL : string := "local".
Definition RouteTypeToIntMap : list (string * Z) :=
  [(ROUTE_TYPE_NONE, 0);
   (ROUTE_TYPE_INTERNAL, 1);
   (ROUTE_TYPE_EXTERNAL, 2);
   (ROUTE_TYPE_LOCAL, 3)].
Definition IntToRouteTypeMap : list (Z * string) :=
  [(0, ROUTE_TYPE_NONE);
   (1, ROUTE_TYPE_INTERNAL);
   (2, ROUTE_TYPE_EXTERNAL);
   (3, ROUTE_TYPE_LOCAL)].
Definition RouteType_Validate (v : string) : Result unit :=
  if has_key RouteTypeToIntMap v then Ok tt else Err (Errorf ("invalid RouteType: " +:+ v)).
Definition RouteType_ToInt (v : string) : Z :=
  default (-1) (map_get RouteTypeToIntMap v).

(** *** [DefaultPolicyType] *)
Definition DEFAULT_POLICY_TYPE_ACCEPT_ROUTE : string := "accept-route".
Definition DEFAULT_POLICY_TYPE_REJECT_ROUTE : string := "reject-route".
Definition DefaultPolicyTypeToIntMap : list (string * Z) :=
  [(DEFAULT_POLICY_TYPE_ACCEPT_ROUTE, 0);
   (DEFAULT_POLICY_TYPE_REJECT_ROUTE, 1)].
Definition IntToDefaultPolicyTypeMap : list (Z * string) :=
  [(0, DEFAULT_POLICY_TYPE_ACCEPT_ROUTE);
   (1, DEFAULT_POLICY_TYPE_REJECT_ROUTE)].

(** *** [BgpSetCommunityOptionType] *)
Definition BGP_SET_COMMUNITY_OPTION_TYPE_ADD : string := "add".
Definition BGP_SET_COMMUNITY_OPTION_TYPE_REMOVE : string := "remove".
Definition BGP_SET_COMMUNITY_OPTION_TYPE_REPLACE : string := "replace".
Definition BgpSetCommunityOptionTypeToIntMap : list (string * Z) :=
  [(BGP_SET_COMMUNITY_OPTION_TYPE_ADD, 0);
   (BGP_SET_COMMUNITY_OPTION_TYPE_REMOVE, 1);
   (BGP_SET_COMMUNITY_OPTION_TYPE_REPLACE, 2)].
(** ** The structs ([bgp_configs.go]) *)
Record ApplyPolicyConfig := mkApplyPolicyConfig {
  ApplyPolicyConfig_ImportPolicyList : list string;
  ApplyPolicyConfig_DefaultImportPolicy : string;
  ApplyPolicyConfig_ExportPolicyList : list string;
  ApplyPolicyConfig_DefaultExportPolicy : string;
  ApplyPolicyConfig_InPolicyList : list string;
  ApplyPolicyConfig_DefaultInPolicy : string
}.
Record ApplyPolicy := mkApplyPolicy {
  ApplyPolicy_Config : ApplyPolicyConfig
}.
Record Global := mkGlobal {
  Global_ApplyPolicy : ApplyPolicy
}.
Record SetLargeCommunityMethod := mkSetLargeCommunityMethod {
  SetLargeCommunityMethod_CommunitiesList : list string
}.
Record SetLargeCommunity := mkSetLargeCommunity {
  SetLargeCommunity_SetLargeCommunityMethod : SetLargeCommunityMethod;
  SetLargeCommunity_Options : string
}.
Record SetExtCommunityMethod := mkSetExtCommunityMethod {
  SetExtCommunityMethod_CommunitiesList : list string;
  SetExtCommunityMethod_ExtCommunitySetRef : string
}.
Record SetExtCommunity := mkSetExtCommunity {
  SetExtCommunity_SetExtCommunityMethod : SetExtCommunityMethod;
  SetExtCommunity_Options : string
}.
Record SetCommunityMethod := mkSetCommunityMethod {
  SetCommunityMethod_CommunitiesList : list string;
  SetCommunityMethod_CommunitySetRef : string
}.
Record SetCommunity := mkSetCommunity {
  SetCommunity_SetCommunityMethod : SetCommunityMethod;
  SetCommunity_Options : string
}.
Record SetAsPathPrepend := mkSetAsPathPrepend {
  SetAsPathPrepend_RepeatN : Z;
  SetAsPathPrepend_As : string
}.
Record BgpActions := mkBgpActions {
  BgpActions_SetAsPathPrepend : SetAsPathPrepend;
  BgpActions_SetCommunity : SetCommunity;
  BgpActions_SetExtCommunity : SetExtCommunity;
  BgpActions_SetRouteOrigin : string;
  BgpActions_SetLocalPref : Z;
  BgpActions_SetNextHop : string;
  BgpActions_SetMed : string;
  BgpActions_SetLargeCommunity : SetLargeCommunity
}.
Record IgpActions := mkIgpActions {
  IgpActions_SetTag : string
}.
Record Actions := mkActions {
  Actions_RouteDisposition : string;
  Actions_IgpActions : IgpActions;
  Actions_BgpActions : BgpActions
}.
Record MatchLargeCommunitySet := mkMatchLargeCommunitySet {
  MatchLargeCommunitySet_LargeCommunitySet : string;
  MatchLargeCommunitySet_MatchSetOptions : string
}.
Record AsPathLength := mkAsPathLength {
  AsPathLength_Operator : string;
  AsPathLength_Value : Z
}.
Record CommunityCount := mkCommunityCount {
  CommunityCount_Operator : string;
  CommunityCount_Value : Z
}.
Record MatchAsPathSet := mkMatchAsPathSet {
  MatchAsPathSet_AsPathSet : string;
  MatchAsPathSet_MatchSetOptions : string
}.
Record MatchExtCommunitySet := mkMatchExtCommunitySet {
  MatchExtCommunitySet_ExtCommunitySet : string;
  MatchExtCommunitySet_MatchSetOptions : string
}.
Record MatchCommunitySet := mkMatchCommunitySet {
  MatchCommunitySet_CommunitySet : string;
  MatchCommunitySet_MatchSetOptions : string
}.
Record BgpConditions := mkBgpConditions {
  BgpConditions_MatchCommunitySet : MatchCommunitySet;
  BgpConditions_MatchExtCommunitySet : MatchExtCommunitySet;
  BgpConditions_MatchAsPathSet : MatchAsPathSet;
  BgpConditions_MedEq : Z;
  BgpConditions_OriginEq : string;
  BgpConditions_NextHopInList : list string;
  BgpConditions_AfiSafiInList : option (list string);
  BgpConditions_LocalPrefEq : Z;
  BgpConditions_CommunityCount : CommunityCount;
  BgpConditions_AsPathLength : AsPathLength;
  BgpConditions_RouteType : string;
  BgpConditions_MatchLargeCommunitySet : MatchLargeCommunitySet
}.
Record IgpConditions := mkIgpConditions { }.
Record MatchTagSet := mkMatchTagSet {
  MatchTagSet_TagSet : string;
  MatchTagSet_MatchSetOptions : string
}.
Record MatchNeighborSet := mkMatchNeighborSet {
  MatchNeighborSet_NeighborSet : string;
  MatchNeighborSet_MatchSetOptions : string
}.
Record MatchPrefixSet := mkMatchPrefixSet {
  MatchPrefixSet_PrefixSet : string;
  MatchPrefixSet_MatchSetOptions : string
}.
Record Conditions := mkConditions {
  Conditions_CallPolicy : string;
  Conditions_MatchPrefixSet : MatchPrefixSet;
  Conditions_MatchNeighborSet : MatchNeighborSet;
  Conditions_MatchTagSet : MatchTagSet;
  Conditions_InstallProtocolEq : string;
  Conditions_IgpConditions : IgpConditions;
  Conditions_BgpConditions : BgpConditions
}.
Record Statement := mkStatement {
  Statement_Name : string;
  Statement_Conditions : Conditions;
  Statement_Actions : Actions
}.
Record PolicyDefinition := mkPolicyDefinition {
  PolicyDefinition_Name : string;
  PolicyDefinition_Statements : list Statement
}.
Record LargeCommunitySet := mkLargeCommunitySet {
  LargeCommunitySet_LargeCommunitySetName : string;
  LargeCommunitySet_LargeCommunityList : list string
}.
Record AsPathSet := mkAsPathSet {
  AsPathSet_AsPathSetName : string;
  AsPathSet_AsPathList : list string
}.
Record ExtCommunitySet := mkExtCommunitySet {
  ExtCommunitySet_ExtCommunitySetName : string;
  ExtCommunitySet_ExtCommunityList : list string
}.
Record CommunitySet := mkCommunitySet {
  CommunitySet_CommunitySetName : string;
  CommunitySet_CommunityList : list string
}.
Record BgpDefinedSets := mkBgpDefinedSets {
  BgpDefinedSets_CommunitySets : list CommunitySet;
  BgpDefinedSets_ExtCommunitySets : list ExtCommunitySet;
  BgpDefinedSets_AsPathSets : list AsPathSet;
  BgpDefinedSets_LargeCommunitySets : list LargeCommunitySet
}.
Record Tag := mkTag {
  Tag_Value : string
}.
Record TagSet := mkTagSet {
  TagSet_TagSetName : string;
  TagSet_TagList : list Tag
}.
Record NeighborSet := mkNeighborSet {
  NeighborSet_NeighborSetName : string;
  NeighborSet_NeighborInfoList : list string
}.
Record Prefix := mkPrefix {
  Prefix_IpPrefix : string;
  Prefix_MasklengthRange : string
}.
Record PrefixSet := mkPrefixSet {
  PrefixSet_PrefixSetName : string;
  PrefixSet_PrefixList : list Prefix
}.
Record DefinedSets := mkDefinedSets {
  DefinedSets_PrefixSets : list PrefixSet;
  DefinedSets_NeighborSets : list NeighborSet;
  DefinedSets_TagSets : list TagSet;
  DefinedSets_BgpDefinedSets : BgpDefinedSets
}.
Record RoutingPolicy := mkRoutingPolicy {
  RoutingPolicy_DefinedSets : DefinedSets;
  RoutingPolicy_PolicyDefinitions : list PolicyDefinition
}.

(** ** The messages of gobgp's API the sets become *)
Inductive DefinedType :=
| DefinedType_PREFIX | DefinedType_NEIGHBOR | DefinedType_COMMUNITY
| DefinedType_EXT_COMMUNITY | DefinedType_LARGE_COMMUNITY | DefinedType_AS_PATH.
#[export] Instance DefinedType_eq_dec : EqDecision DefinedType.
Proof. solve_decision. Defined.
Record api_Prefix := mk_api_Prefix {
  api_IpPrefix : string; api_MaskLengthMin : Z; api_MaskLengthMax : Z
}.
Record api_DefinedSet := mk_api_DefinedSet {
  ds_DefinedType : DefinedType; ds_Name : string; ds_List : list string; ds_Prefixes : list api_Prefix
}.

(** ** [config/util.go] *)
Definition parseMaskLength (prefix mask : string) : Result (Z * Z) :=
  match ParseCIDR prefix with
  | Ok (_, ipNet) =>
      if str_empty mask then let '(l, _) := Mask_Size (IPNet_Mask ipNet) in Ok (l, l)
      else match find_mask_range mask with
           | None => Err (Errorf ("invalid mask length range: " +:+ mask))
           | Some (e1, e2) =>
               let '(min, _) := ParseUint e1 8 in
               let '(max, _) := ParseUint e2 8 in
               if max <? min then Err (Errorf ("invalid mask length range: " +:+ mask))
               else if negb (ip_nil (To4 (IPNet_IP ipNet))) then
                 if negb (min <=? 32) || negb (max <=? 32)
                 then Err (Errorf ("ipv4 mask length range outside scope :" +:+ mask))
                 else Ok (min, max)
               else
                 if negb (min <=? 128) || negb (max <=? 128)
                 then Err (Errorf ("ipv6 mask length range outside scope :" +:+ mask))
                 else Ok (min, max)
           end
  | Err _ => Err (Errorf ("invalid prefix: " +:+ prefix))
  | Panic => Panic
  end.

Definition newAPIPrefixFromConfigStruct (c : Prefix) : Result api_Prefix :=
  '(min, max) ← parseMaskLength (Prefix_IpPrefix c) (Prefix_MasklengthRange c);
  Ok (mk_api_Prefix (Prefix_IpPrefix c) (wrapU32 min) (wrapU32 max)).

(** A set that is a list of texts. *)
Definition text_set (t : DefinedType) (name : string) (l : list string) : api_DefinedSet :=
  mk_api_DefinedSet t name l [].
Definition prefix_set (ps : PrefixSet) : Result api_DefinedSet :=
  prefixes ← mapM newAPIPrefixFromConfigStruct (PrefixSet_PrefixList ps);
  Ok (mk_api_DefinedSet DefinedType_PREFIX (PrefixSet_PrefixSetName ps) [] prefixes).

Definition NewAPIDefinedSetsFromConfigStruct (t : DefinedSets) : Result (list api_DefinedSet) :=
  prefixSets ← mapM prefix_set (DefinedSets_PrefixSets t);
  let bs := DefinedSets_BgpDefinedSets t in
  Ok (prefixSets
      ++ ((λ ns, text_set DefinedType_NEIGHBOR (NeighborSet_NeighborSetName ns) (NeighborSet_NeighborInfoList ns))
          <$> DefinedSets_NeighborSets t)
      ++ ((λ cs, text_set DefinedType_COMMUNITY (CommunitySet_CommunitySetName cs) (CommunitySet_CommunityList cs))
          <$> BgpDefinedSets_CommunitySets bs)
      ++ ((λ es, text_set DefinedType_EXT_COMMUNITY (ExtCommunitySet_ExtCommunitySetName es) (ExtCommunitySet_ExtCommunityList es))
          <$> BgpDefinedSets_ExtCommunitySets bs)
      ++ ((λ ls, text_set DefinedType_LARGE_COMMUNITY (LargeCommunitySet_LargeCommunitySetName ls) (LargeCommunitySet_LargeCommunityList ls))
          <$> BgpDefinedSets_LargeCommunitySets bs)
      ++ ((λ a, text_set DefinedType_AS_PATH (AsPathSet_AsPathSetName a) (AsPathSet_AsPathList a))
          <$> BgpDefinedSets_AsPathSets bs)).

(** ** [config/serve.go] *)
Record BgpConfigSet := mkBgpConfigSet {
  BgpConfigSet_Global : Global;
  BgpConfigSet_DefinedSets : DefinedSets;
  BgpConfigSet_PolicyDefinitions : list PolicyDefinition
}.

(** viper: reading a file of a format from the file system, and decoding what
    was read exactly into the struct. *)
Class Viper (F : Type) := {
  viper_tree : Type;
  ReadInConfig : F → string → string → Result viper_tree;
  UnmarshalExact : viper_tree → Result BgpConfigSet
}.
Definition ReadConfigfile {F} `{!Viper F} (files : F) (path format : string) : Result BgpConfigSet :=
  v ← ReadInConfig files path format;
  UnmarshalExact v.

Definition ConfigSetToRoutingPolicy (c : BgpConfigSet) : RoutingPolicy :=
  mkRoutingPolicy (BgpConfigSet_DefinedSets c) (BgpConfigSet_PolicyDefinitions c).

(** ** The enumerations are types

    [Validate] and [ToInt] of an enumeration, with the tables they use; a
    defaulted enumeration reads the empty string as its first value. *)
Record Enumeration := mkEnumeration {
  enum_to_int : list (string * Z);
  enum_of_int : list (Z * string);
  enum_Validate : string → Result unit;
  enum_ToInt : string → Z;
  enum_default : option string
}.
Definition enumerations : list Enumeration :=
  [mkEnumeration BgpWellKnownStdCommunityToIntMap IntToBgpWellKnownStdCommunityMap
     BgpWellKnownStdCommunity_Validate BgpWellKnownStdCommunity_ToInt None;
   mkEnumeration MatchSetOptionsRestrictedTypeToIntMap IntToMatchSetOptionsRestrictedTypeMap
     MatchSetOptionsRestrictedType_Validate MatchSetOptionsRestrictedType_ToInt
     (Some MatchSetOptionsRestrictedType_Default);
   mkEnumeration MatchSetOptionsTypeToIntMap IntToMatchSetOptionsTypeMap
     MatchSetOptionsType_Validate MatchSetOptionsType_ToInt (Some MatchSetOptionsType_Default);
   mkEnumeration InstallProtocolTypeToIntMap IntToInstallProtocolTypeMap
     InstallProtocolType_Validate InstallProtocolType_ToInt None;
   mkEnumeration AttributeComparisonToIntMap IntToAttributeComparisonMap
     AttributeComparison_Validate AttributeComparison_ToInt None;
   mkEnumeration RouteDispositionToIntMap IntToRouteDispositionMap
     RouteDisposition_Validate RouteDisposition_ToInt None;
   mkEnumeration RouteTypeToIntMap IntToRouteTypeMap RouteType_Validate RouteType_ToInt None].

(** Two tables that are inverse to each other, decided on their entries. *)
Definition inverse_tables (to : list (string * Z)) (from : list (Z * string)) : bool :=
  forallb (λ '(v, i), bool_decide (map_get from i = Some v)) to
  && forallb (λ '(i, v), bool_decide (map_get to v = Some i)) from.

Lemma map_get_in {K V} `{EqDecision K} (m : list (K * V)) k v : map_get m k = Some v → In (k, v) m.
Proof.
  induction m as [|[k' v'] m IH]; cbn; [done|]. case_decide; intros ?; simplify_eq; eauto.
Qed.

Lemma inverse_tables_spec to from v i : inverse_tables to from = true →
  map_get to v = Some i ↔ map_get from i = Some v.
Proof.
  unfold inverse_tables. rewrite andb_true_iff, !forallb_forall. intros [H1 H2].
  split; intros H; apply map_get_in in H.
  - by specialize (H1 _ H); cbn in H1; apply bool_decide_eq_true in H1.
  - by specialize (H2 _ H); cbn in H2; apply bool_decide_eq_true in H2.
Qed.

(** [Validate] and [ToInt] are those of the tables, the tables are inverse,
    and no entry is negative. *)
Definition enumeration_ok (e : Enumeration) : Prop :=
  inverse_tables (enum_to_int e) (enum_of_int e) = true
  ∧ Forall (λ p, 0 <= p.2) (enum_to_int e)
  ∧ map_get (enum_to_int e) "" = None
  ∧ (∀ v, is_ok (enum_Validate e v) = has_key (enum_to_int e) v)
  ∧ ∀ v, enum_ToInt e v =
         default (-1) (map_get (enum_to_int e) (if str_empty v then default v (enum_default e) else v)).

Lemma enumerations_ok : Forall enumeration_ok enumerations.
Proof.
  assert (∀ (b : bool) e, is_ok (if b then Ok tt else Err e) = b) as Hb by by intros [].
  unfold enumerations.
  repeat (apply Forall_cons; split; [split_and!; [reflexivity|by repeat constructor|reflexivity|intros v; apply Hb|by intros []]|]).
  constructor.
Qed.

(** C24: the enumerations of the policy configuration are types.  For each of
    them the table from codes to strings has exactly the strings that [Validate]
    accepts, each under the code that [ToInt] gives it and under no other; on
    every other string [ToInt] is -1, but for the empty string of an enumeration
    with a default, which has the default's code although [Validate] refuses
    it. *)
Theorem enumerations_typed e : e ∈ enumerations →
  (∀ i v, map_get (enum_of_int e) i = Some v ↔ is_ok (enum_Validate e v) = true ∧ enum_ToInt e v = i)
  ∧ ∀ v, is_ok (enum_Validate e v) = false →
     enum_ToInt e v = match v, enum_default e with
                      | EmptyString, Some d => enum_ToInt e d
                      | _, _ => -1
                      end.
Proof.
  intros He. pose proof enumerations_ok as Hall. rewrite Forall_forall in Hall.
  destruct (Hall e He) as (Hinv & Hpos & Hempty & Hval & Hto).
  assert (∀ v, is_ok (enum_Validate e v) = true ↔ is_Some (map_get (enum_to_int e) v)) as Hkey.
  { intros v. rewrite Hval. unfold has_key. destruct (map_get _ v); split; (done || by intros [? ?] || eauto). }
  split.
  - intros i v. rewrite <- (inverse_tables_spec _ _ _ _ Hinv), Hkey, Hto. destruct v as [|c v]; cbn [str_empty].
    + rewrite Hempty. split; [done|]. by intros [[? ?] _].
    + destruct (map_get (enum_to_int e) (String c v)) as [j|]; cbn; [|split; [done|by intros [[? ?] _]]].
      split; [intros [= <-]; eauto|by intros [_ ->]].
  - intros v Hv. rewrite Hval in Hv. unfold has_key in Hv. rewrite Hto. destruct v as [|c v]; cbn [str_empty].
    + destruct (enum_default e) as [[|c d]|]; rewrite ?Hto; cbn; by rewrite ?Hempty.
    + by destruct (map_get (enum_to_int e) (String c v)).
Qed.
Lemma enumerations_typed_witness :
  map_get IntToRouteTypeMap 3 = Some "local" ↔ is_ok (RouteType_Validate "local") = true ∧ RouteType_ToInt "local" = 3.
Proof.
  refine (proj1 (enumerations_typed (mkEnumeration RouteTypeToIntMap IntToRouteTypeMap RouteType_Validate RouteType_ToInt None) _)
            3 "local").
  apply list_elem_of_In. cbn. tauto.
Defined.

(** ** Prefixes and their mask lengths

    The longest mask the check allows: 32 for an address that has a four-byte
    form, 128 for the others. *)
Definition mask_width (ip : IP) : Z := if ip_nil (To4 ip) then 128 else 32.
Definition range_text (a b : Z) : string := Itoa a +:+ ".." +:+ Itoa b.

(** The check of a range that was found. *)
Lemma parseMaskLength_found p mask ip n e1 e2 : ParseCIDR p = Ok (ip, n) →
  find_mask_range mask = Some (e1, e2) → mask ≠ "" →
  let a := (ParseUint e1 8).1 in let b := (ParseUint e2 8).1 in
  parseMaskLength p mask =
    if (a <=? b) && (b <=? mask_width (IPNet_IP n)) then Ok (a, b)
    else if b <? a then Err (Errorf ("invalid mask length range: " +:+ mask))
    else Err (Errorf ((if ip_nil (To4 (IPNet_IP n)) then "ipv6" else "ipv4")
                      +:+ " mask length range outside scope :" +:+ mask)).
Proof.
  intros Hp Hm Hne a b. unfold parseMaskLength. rewrite Hp. destruct mask as [|c mask]; [done|].
  cbn [str_empty]. rewrite Hm. subst a b. unfold mask_width.
  destruct (ParseUint e1 8) as [a ?], (ParseUint e2 8) as [b ?]. cbn [fst].
  assert ((a <=? b) = negb (b <? a)) as -> by (destruct (a <=? b) eqn:?, (b <? a) eqn:?; bool_to_prop; lia || done).
  destruct (b <? a) eqn:Hba; cbn [negb andb]; [done|]. bool_to_prop.
  destruct (ip_nil (To4 (IPNet_IP n))); cbn [negb].
  - destruct (b <=? 128) eqn:Hb; [|by rewrite orb_true_r].
    bool_to_prop. by rewrite (proj2 (Z.leb_le a 128)) by lia.
  - destruct (b <=? 32) eqn:Hb; [|by rewrite orb_true_r].
    bool_to_prop. by rewrite (proj2 (Z.leb_le a 32)) by lia.
Qed.

(** What is found in a text that holds nothing but a range, and in one with
    other characters around it. *)
Lemma find_mask_range_skip u s : (∀ c, str_elem c u = true → is_digit c = false ∧ c ≠ "."%char) →
  (match s with String c _ => is_digit c = true | EmptyString => True end) →
  find_mask_range (u +:+ s) = find_mask_range s.
Proof.
  induction u as [|c u IH]; intros Hu Hs; [done|].
  assert (str_elem c (String c u) = true) as Hc by (cbn; by rewrite decide_True).
  destruct (Hu c Hc) as [Hd Hdot]. cbn [String.append find_mask_range].
  assert (match_mask_range (String c (u +:+ s)) = None) as ->.
  { unfold match_mask_range. cbn [span_digits]. rewrite Hd.
    destruct (decide (c = "."%char)) as [->|]; [done|].
    destruct c as [[] [] [] [] [] [] [] []]; try done. }
  apply IH; [|done]. intros d Hd'. apply Hu. cbn. by case_decide.
Qed.

Definition no_range_chars (u : string) : Prop :=
  ∀ c, str_elem c u = true → is_digit c = false ∧ c ≠ "."%char.

(** A range between other characters is read as the range alone. *)
Lemma find_mask_range_around u a b v : 0 <= a <= 255 → 0 <= b <= 255 →
  no_range_chars u → no_digit_head v →
  find_mask_range (u +:+ Itoa a +:+ ".." +:+ Itoa b +:+ v) = Some (Itoa a, Itoa b).
Proof.
  intros Ha Hb Hu Hv. destruct (Itoa_small a Ha) as (Da & Ea & _), (Itoa_small b Hb) as (Db & Eb & _).
  rewrite find_mask_range_skip; [by apply find_mask_range_text|done|].
  destruct (Itoa a); cbn in *; [done|]. by apply andb_true_iff in Da as [? _].
Qed.

Lemma parseMaskLength_text p ip n u a b v : ParseCIDR p = Ok (ip, n) →
  0 <= a <= 255 → 0 <= b <= 255 → no_range_chars u → no_digit_head v →
  ∃ e, parseMaskLength p (u +:+ Itoa a +:+ ".." +:+ Itoa b +:+ v) =
    if (a <=? b) && (b <=? mask_width (IPNet_IP n)) then Ok (a, b) else Err e.
Proof.
  intros Hp Ha Hb Hu Hv. pose proof (find_mask_range_around u a b v Ha Hb Hu Hv) as Hf.
  eapply parseMaskLength_found in Hf; [|done|].
  - destruct (Itoa_small a Ha) as (_ & _ & Pa), (Itoa_small b Hb) as (_ & _ & Pb).
    rewrite Pa, Pb in Hf. cbn [fst] in Hf. rewrite Hf. destruct (_ && _); [by exists (Errorf "")|].
    destruct (_ <? _); eauto.
  - destruct (Itoa_small a Ha) as (_ & Ea & _). destruct u; [|done]. by destruct (Itoa a).
Qed.

(** C25: mask lengths of a readable prefix.  Without a range, both bounds are
    the length of the prefix; the range [a..b] is read back exactly when
    [a <= b] and [b] fits the address family, and is refused otherwise; any
    range that is accepted lies within the family. *)
Theorem parseMaskLength_exact p ip n : ParseCIDR p = Ok (ip, n) →
  (∃ ones, 0 <= ones <= 8 * Z.of_nat (length (IPNet_IP n))
           ∧ Mask_Size (IPNet_Mask n) = (ones, 8 * Z.of_nat (length (IPNet_IP n)))
           ∧ parseMaskLength p "" = Ok (ones, ones))
  ∧ (∀ a b, 0 <= a <= 255 → 0 <= b <= 255 →
       ∃ e, parseMaskLength p (range_text a b) =
         if (a <=? b) && (b <=? mask_width (IPNet_IP n)) then Ok (a, b) else Err e)
  ∧ (∀ mask a b, mask ≠ "" → parseMaskLength p mask = Ok (a, b) →
       0 <= a <= b ∧ b <= mask_width (IPNet_IP n)).
Proof.
  intros Hp. split_and!.
  - destruct (ParseCIDR_ok _ _ _ Hp) as (len & ones & _ & Ho & _ & Hl & _ & Hs & _).
    exists ones. rewrite Hl. split_and!; [lia..|done|]. unfold parseMaskLength. by rewrite Hp, Hs.
  - intros a b Ha Hb. destruct (parseMaskLength_text p ip n "" a b "" Hp Ha Hb) as [e He];
      [by intros c Hc|done|]. exists e. cbn [String.append] in He. by rewrite str_app_nil_r in He.
  - intros mask a b Hne H. destruct (find_mask_range mask) as [[e1 e2]|] eqn:Hf.
    + rewrite (parseMaskLength_found _ _ _ _ _ _ Hp Hf Hne) in H.
      pose proof (ParseUint_bound e1 8). pose proof (ParseUint_bound e2 8).
      destruct (_ && _) eqn:E; [bool_to_prop; simplify_eq; lia|by destruct (_ <? _)].
    + unfold parseMaskLength in H. rewrite Hp, Hf in H. by destruct mask.
Qed.
Lemma parseMaskLength_exact_witness :
  ∃ e, parseMaskLength "10.0.0.0/8" (range_text 24 32) =
    if (24 <=? 32) && (32 <=? mask_width [10;0;0;0]) then Ok (24, 32) else Err e.
Proof.
  refine (proj1 (proj2 (parseMaskLength_exact "10.0.0.0/8" [0;0;0;0;0;0;0;0;0;0;255;255;10;0;0;0]
    (Build_IPNet [10;0;0;0] [255;0;0;0]) _)) 24 32 _ _).
  - vm_compute. reflexivity.
  - lia.
  - lia.
Defined.

(** The expression of a mask range is not anchored: characters around a
    range are ignored, so a text like [x24..32y] is read as [24..32], although
    the code takes the match for a check of the whole text. *)
Theorem parseMaskLength_ignores_context p ip n u a b v : ParseCIDR p = Ok (ip, n) →
  0 <= a <= b → b <= mask_width (IPNet_IP n) → no_range_chars u → no_digit_head v →
  parseMaskLength p (u +:+ range_text a b +:+ v) = Ok (a, b).
Proof.
  intros Hp Ha Hb Hu Hv. assert (mask_width (IPNet_IP n) <= 128) by (unfold mask_width; destruct (ip_nil _); lia).
  destruct (parseMaskLength_text p ip n u a b v Hp ltac:(lia) ltac:(lia) Hu Hv) as [e He].
  unfold range_text. rewrite !str_app_assoc, He.
  by rewrite (proj2 (Z.leb_le a b)), (proj2 (Z.leb_le b _)) by lia.
Qed.
Lemma parseMaskLength_ignores_context_witness :
  parseMaskLength "10.0.0.0/8" ("x" +:+ range_text 24 32 +:+ "y") = Ok (24, 32).
Proof.
  refine (parseMaskLength_ignores_context "10.0.0.0/8" [0;0;0;0;0;0;0;0;0;0;255;255;10;0;0;0]
    (Build_IPNet [10;0;0;0] [255;0;0;0]) "x" 24 32 "y" _ _ _ _ _).
  - vm_compute. reflexivity.
  - lia.
  - vm_compute. discriminate.
  - intros c. cbn. case_decide; [subst; intros _; split; [reflexivity|discriminate]|discriminate].
  - reflexivity.
Defined.

(** ** The defined sets *)

Lemma ParseCIDR_no_panic s : ParseCIDR s ≠ Panic.
Proof. unfold ParseCIDR. go_cases; done. Qed.
Lemma parseMaskLength_no_panic p m : parseMaskLength p m ≠ Panic.
Proof.
  unfold parseMaskLength. pose proof (ParseCIDR_no_panic p). destruct (ParseCIDR p) as [[? ?]| |]; [|done..].
  destruct (str_empty m); [by destruct (Mask_Size _)|]. destruct (find_mask_range m) as [[e1 e2]|]; [|done].
  destruct (ParseUint e1 8), (ParseUint e2 8). by repeat case_match.
Qed.

Definition prefix_readable (p : Prefix) : bool :=
  is_ok (parseMaskLength (Prefix_IpPrefix p) (Prefix_MasklengthRange p)).
Lemma newAPIPrefix_is_ok p : is_ok (newAPIPrefixFromConfigStruct p) = prefix_readable p
  ∧ newAPIPrefixFromConfigStruct p ≠ Panic.
Proof.
  unfold newAPIPrefixFromConfigStruct, prefix_readable.
  pose proof (parseMaskLength_no_panic (Prefix_IpPrefix p) (Prefix_MasklengthRange p)).
  by destruct (parseMaskLength _ _) as [[? ?]| |].
Qed.
Lemma prefix_set_is_ok ps :
  is_ok (prefix_set ps) = forallb prefix_readable (PrefixSet_PrefixList ps) ∧ prefix_set ps ≠ Panic.
Proof.
  unfold prefix_set.
  destruct (mapM_is_ok newAPIPrefixFromConfigStruct (PrefixSet_PrefixList ps)) as [H1 H2];
    [intros x; apply newAPIPrefix_is_ok|].
  assert (∀ l, forallb (λ x, is_ok (newAPIPrefixFromConfigStruct x)) l = forallb prefix_readable l) as Hf.
  { induction l as [|x l IH]; cbn; [done|]. by rewrite (proj1 (newAPIPrefix_is_ok x)), IH. }
  rewrite Hf in H1. by destruct (mapM _ _).
Qed.

(** The names of the sets of a configuration, by type, in the order of the
    result. *)
Definition set_names (t : DefinedSets) : list (DefinedType * string) :=
  let bs := DefinedSets_BgpDefinedSets t in
  ((λ s, (DefinedType_PREFIX, PrefixSet_PrefixSetName s)) <$> DefinedSets_PrefixSets t)
  ++ ((λ s, (DefinedType_NEIGHBOR, NeighborSet_NeighborSetName s)) <$> DefinedSets_NeighborSets t)
  ++ ((λ s, (DefinedType_COMMUNITY, CommunitySet_CommunitySetName s)) <$> BgpDefinedSets_CommunitySets bs)
  ++ ((λ s, (DefinedType_EXT_COMMUNITY, ExtCommunitySet_ExtCommunitySetName s)) <$> BgpDefinedSets_ExtCommunitySets bs)
  ++ ((λ s, (DefinedType_LARGE_COMMUNITY, LargeCommunitySet_LargeCommunitySetName s)) <$> BgpDefinedSets_LargeCommunitySets bs)
  ++ ((λ s, (DefinedType_AS_PATH, AsPathSet_AsPathSetName s)) <$> BgpDefinedSets_AsPathSets bs).

(** The defined sets of a configuration are converted exactly when every
    prefix of every prefix set is readable; then each set but the tag sets
    has its image, with its type and name, in order.  A tag set has no image
    in gobgp's API and is dropped without an error. *)
Theorem defined_sets_exact t :
  match NewAPIDefinedSetsFromConfigStruct t with
  | Ok sets => forallb (λ ps, forallb prefix_readable (PrefixSet_PrefixList ps)) (DefinedSets_PrefixSets t) = true
               ∧ ((λ s, (ds_DefinedType s, ds_Name s)) <$> sets) = set_names t
  | Err _ => forallb (λ ps, forallb prefix_readable (PrefixSet_PrefixList ps)) (DefinedSets_PrefixSets t) = false
  | Panic => False
  end
  ∧ ∀ tags, NewAPIDefinedSetsFromConfigStruct
      (mkDefinedSets (DefinedSets_PrefixSets t) (DefinedSets_NeighborSets t) tags (DefinedSets_BgpDefinedSets t))
      = NewAPIDefinedSetsFromConfigStruct t.
Proof.
  split; [|done]. unfold NewAPIDefinedSetsFromConfigStruct.
  destruct (mapM_is_ok prefix_set (DefinedSets_PrefixSets t)) as [H1 H2]; [intros ps; apply prefix_set_is_ok|].
  assert (∀ l, forallb (λ ps, is_ok (prefix_set ps)) l
               = forallb (λ ps, forallb prefix_readable (PrefixSet_PrefixList ps)) l) as Hf.
  { induction l as [|x l IH]; cbn; [done|]. by rewrite (proj1 (prefix_set_is_ok x)), IH. }
  rewrite Hf in H1. destruct (mapM _ _) as [sets|e|] eqn:Hm; cbn [mbind Result_bind]; [|done..].
  split; [done|]. unfold set_names. rewrite !fmap_app, <- !list_fmap_compose. f_equal.
  apply mapM_Ok in Hm. clear -Hm. revert sets Hm.
  generalize (DefinedSets_PrefixSets t). intros l k. induction 1 as [|ps s l k Hs _ IH]; cbn; [done|].
  rewrite IH. f_equal. unfold prefix_set in Hs. apply Result_bind_Ok in Hs as (x & _ & [= <-]). done.
Qed.
