(* ===== verification/BgpTable.v ===== *)
(** * Policies in the form of gobgp's API ([pkg/speaker/bgp/bgp/table/table.go])

    Statements, policies and assignments of a policy file as the messages of
    gobgp's API.  A pointer to a message is an [option]; an enumeration of the
    API is its number. *)
From S2P Require Import Prelude GoNet Strconv BgpConfig.
Local Open Scope Z_scope.

(** ** The constants and types of the package *)
Definition GLOBAL_RIB_NAME : string := "global".
Inductive table_RouteType := ROUTE_TYPE_NONE_ | ROUTE_TYPE_ACCEPT | ROUTE_TYPE_REJECT.
Inductive table_PolicyDirection :=
| POLICY_DIRECTION_NONE | POLICY_DIRECTION_IMPORT | POLICY_DIRECTION_EXPORT.
Inductive MatchOption := MATCH_OPTION_ANY | MATCH_OPTION_ALL | MATCH_OPTION_INVERT.
Definition MatchOption_int (o : MatchOption) : Z :=
  match o with MATCH_OPTION_ANY => 0 | MATCH_OPTION_ALL => 1 | MATCH_OPTION_INVERT => 2 end.

Record table_Policy := mk_table_Policy { tp_Name : string }.
Record table_PolicyAssignment := mk_table_PolicyAssignment {
  pa_Name : string;
  pa_Type : table_PolicyDirection;
  pa_Policies : list table_Policy;
  pa_Default : table_RouteType
}.

(** ** The messages of gobgp's API *)
Record api_MatchSet := mk_api_MatchSet { ms_MatchType : Z; ms_Name : string }.
Record api_AsPathLength := mk_api_AsPathLength { apl_LengthType : Z; apl_Length : Z }.
Record api_Family := mk_api_Family { fam_Afi : Z; fam_Safi : Z }.
Record api_Conditions := mk_api_Conditions {
  ac_PrefixSet : option api_MatchSet;
  ac_NeighborSet : option api_MatchSet;
  ac_AsPathLength : option api_AsPathLength;
  ac_AsPathSet : option api_MatchSet;
  ac_CommunitySet : option api_MatchSet;
  ac_ExtCommunitySet : option api_MatchSet;
  ac_LargeCommunitySet : option api_MatchSet;
  ac_RouteType : Z;
  ac_NextHopInList : list string;
  ac_AfiSafiIn : option (list api_Family)
}.
Inductive api_RouteAction := RouteAction_NONE | RouteAction_ACCEPT | RouteAction_REJECT.
Inductive api_MedActionType := MED_MOD | MED_REPLACE.
Inductive api_PolicyDirection := PolicyDirection_UNKNOWN | PolicyDirection_IMPORT | PolicyDirection_EXPORT.
Record api_CommunityAction := mk_api_CommunityAction { ca_ActionType : Z; ca_Communities : list string }.
Record api_MedAction := mk_api_MedAction { ma_ActionType : api_MedActionType; ma_Value : Z }.
Record api_AsPrependAction := mk_api_AsPrependAction {
  ap_Asn : Z; ap_Repeat : Z; ap_UseLeftMost : bool
}.
Record api_NexthopAction := mk_api_NexthopAction { nh_Address : string; nh_Self : bool }.
Record api_Actions := mk_api_Actions {
  aa_RouteAction : api_RouteAction;
  aa_Community : option api_CommunityAction;
  aa_Med : option api_MedAction;
  aa_AsPrepend : option api_AsPrependAction;
  aa_ExtCommunity : option api_CommunityAction;
  aa_LargeCommunity : option api_CommunityAction;
  aa_Nexthop : option api_NexthopAction;
  aa_LocalPref : option Z
}.
Record api_Statement := mk_api_Statement {
  as_Name : string; as_Conditions : api_Conditions; as_Actions : api_Actions
}.
Record api_Policy := mk_api_Policy { apol_Name : string; apol_Statements : list api_Statement }.
Record api_PolicyAssignment := mk_api_PolicyAssignment {
  apa_Name : string;
  apa_Direction : api_PolicyDirection;
  apa_Policies : list api_Policy;
  apa_DefaultAction : api_RouteAction
}.
Record api_RoutingPolicy := mk_api_RoutingPolicy {
  arp_DefinedSets : list api_DefinedSet; arp_Policies : list api_Policy
}.

(** gobgp's table of address families and the split of a family. *)
Class AddressFamilies := {
  AddressFamilyValueMap : string → option Z;
  RouteFamilyToAfiSafi : Z → Z * Z
}.

(** ** Match options

    The dynamic type of the argument of [newMatchOption]. *)
Inductive match_argument :=
| SetOptions (t : string)
| SetOptionsRestricted (t : string)
| OtherArgument.

Definition newMatchOption (c : match_argument) : MatchOption * option error :=
  let bad := (MATCH_OPTION_ANY, Some (Errorf "invalid argument to create match option")) in
  match c with
  | SetOptions t =>
      let t := MatchSetOptionsType_DefaultAsNeeded t in
      if bool_decide (t = MATCH_SET_OPTIONS_TYPE_ANY) then (MATCH_OPTION_ANY, None)
      else if bool_decide (t = MATCH_SET_OPTIONS_TYPE_ALL) then (MATCH_OPTION_ALL, None)
      else if bool_decide (t = MATCH_SET_OPTIONS_TYPE_INVERT) then (MATCH_OPTION_INVERT, None)
      else bad
  | SetOptionsRestricted t =>
      let t := MatchSetOptionsRestrictedType_DefaultAsNeeded t in
      if bool_decide (t = MATCH_SET_OPTIONS_RESTRICTED_TYPE_ANY) then (MATCH_OPTION_ANY, None)
      else if bool_decide (t = MATCH_SET_OPTIONS_RESTRICTED_TYPE_INVERT) then (MATCH_OPTION_INVERT, None)
      else bad
  | OtherArgument => bad
  end.

(** ** Statements *)
Section statements.
Context `{!AddressFamilies}.

(** A match on a named set, if the name is not empty. *)
Definition match_set (name : string) (type : Z) : option api_MatchSet :=
  if str_empty name then None else Some (mk_api_MatchSet type name).

Definition toConditionsApi (c : Conditions) : api_Conditions :=
  let bc := Conditions_BgpConditions c in
  let mp := Conditions_MatchPrefixSet c in
  let mn := Conditions_MatchNeighborSet c in
  let apl := BgpConditions_AsPathLength bc in
  let mas := BgpConditions_MatchAsPathSet bc in
  let mc := BgpConditions_MatchCommunitySet bc in
  let me := BgpConditions_MatchExtCommunitySet bc in
  let ml := BgpConditions_MatchLargeCommunitySet bc in
  {| ac_PrefixSet := match_set (MatchPrefixSet_PrefixSet mp)
       (MatchOption_int (newMatchOption (SetOptionsRestricted (MatchPrefixSet_MatchSetOptions mp))).1);
     ac_NeighborSet := match_set (MatchNeighborSet_NeighborSet mn)
       (MatchOption_int (newMatchOption (SetOptionsRestricted (MatchNeighborSet_MatchSetOptions mn))).1);
     ac_AsPathLength :=
       if str_empty (AsPathLength_Operator apl) then None
       else Some (mk_api_AsPathLength (AttributeComparison_ToInt (AsPathLength_Operator apl))
                                      (AsPathLength_Value apl));
     ac_AsPathSet := match_set (MatchAsPathSet_AsPathSet mas)
       (MatchSetOptionsType_ToInt (MatchAsPathSet_MatchSetOptions mas));
     ac_CommunitySet := match_set (MatchCommunitySet_CommunitySet mc)
       (MatchSetOptionsType_ToInt (MatchCommunitySet_MatchSetOptions mc));
     ac_ExtCommunitySet := match_set (MatchExtCommunitySet_ExtCommunitySet me)
       (MatchSetOptionsType_ToInt (MatchExtCommunitySet_MatchSetOptions me));
     ac_LargeCommunitySet := match_set (MatchLargeCommunitySet_LargeCommunitySet ml)
       (MatchSetOptionsType_ToInt (MatchLargeCommunitySet_MatchSetOptions ml));
     ac_RouteType := if str_empty (BgpConditions_RouteType bc) then 0
                     else RouteType_ToInt (BgpConditions_RouteType bc);
     ac_NextHopInList := BgpConditions_NextHopInList bc;
     ac_AfiSafiIn :=
       match BgpConditions_AfiSafiInList bc with
       | None => None
       | Some l => Some (omap (λ t, mapped ← AddressFamilyValueMap t;
                                    let '(afi, safi) := RouteFamilyToAfiSafi mapped in
                                    Some (mk_api_Family afi safi)) l)
       end |}.

(** The actions, one function per closure of the code. *)
Definition route_action (d : string) : api_RouteAction :=
  if bool_decide (d = ROUTE_DISPOSITION_ACCEPT_ROUTE) then RouteAction_ACCEPT
  else if bool_decide (d = ROUTE_DISPOSITION_REJECT_ROUTE) then RouteAction_REJECT
  else RouteAction_NONE.

(** An option that is not in the table has the zero value of the map. *)
Definition community_action (communities : list string) (options : string) : option api_CommunityAction :=
  match communities with
  | [] => None
  | _ => Some (mk_api_CommunityAction (default 0 (map_get BgpSetCommunityOptionTypeToIntMap options)) communities)
  end.

Definition med_action (setMed : string) : option api_MedAction :=
  let medStr := TrimSpace setMed in
  if str_empty medStr then None
  else match find_med medStr with
       | None => None
       | Some (sign, digits) =>
           let action := if bool_decide (sign = "+") || bool_decide (sign = "-") then MED_MOD else MED_REPLACE in
           match ParseInt64 (sign +:+ digits) with
           | (_, Some _) => None
           | (value, None) => Some (mk_api_MedAction action value)
           end
       end.

Definition as_prepend_action (p : SetAsPathPrepend) : option api_AsPrependAction :=
  let as_ := SetAsPathPrepend_As p in
  if str_empty as_ then None
  else
    let '(asn, useleft) := if bool_decide (as_ ≠ "last-as") then ((ParseUint as_ 32).1, false) else (0, true) in
    Some (mk_api_AsPrependAction (wrapU32 asn) (wrapU32 (SetAsPathPrepend_RepeatN p)) useleft).

Definition nexthop_action (setNextHop : string) : option api_NexthopAction :=
  if str_empty setNextHop then None
  else if bool_decide (setNextHop = "self") then Some (mk_api_NexthopAction "" true)
  else Some (mk_api_NexthopAction setNextHop false).

Definition local_pref_action (setLocalPref : Z) : option Z :=
  if setLocalPref =? 0 then None else Some setLocalPref.

Definition toActionsApi (a : Actions) : api_Actions :=
  let ba := Actions_BgpActions a in
  let sc := BgpActions_SetCommunity ba in
  let se := BgpActions_SetExtCommunity ba in
  let sl := BgpActions_SetLargeCommunity ba in
  {| aa_RouteAction := route_action (Actions_RouteDisposition a);
     aa_Community := community_action (SetCommunityMethod_CommunitiesList (SetCommunity_SetCommunityMethod sc))
                                      (SetCommunity_Options sc);
     aa_Med := med_action (BgpActions_SetMed ba);
     aa_AsPrepend := as_prepend_action (BgpActions_SetAsPathPrepend ba);
     aa_ExtCommunity :=
       community_action (SetExtCommunityMethod_CommunitiesList (SetExtCommunity_SetExtCommunityMethod se))
                        (SetExtCommunity_Options se);
     aa_LargeCommunity :=
       community_action (SetLargeCommunityMethod_CommunitiesList (SetLargeCommunity_SetLargeCommunityMethod sl))
                        (SetLargeCommunity_Options sl);
     aa_Nexthop := nexthop_action (BgpActions_SetNextHop ba);
     aa_LocalPref := local_pref_action (BgpActions_SetLocalPref ba) |}.

Definition toStatementApi (s : Statement) : api_Statement :=
  mk_api_Statement (Statement_Name s) (toConditionsApi (Statement_Conditions s)) (toActionsApi (Statement_Actions s)).

Definition toPolicyApi (p : PolicyDefinition) : api_Policy :=
  mk_api_Policy (PolicyDefinition_Name p) (toStatementApi <$> PolicyDefinition_Statements p).

Definition Policy_toConfig (p : table_Policy) : PolicyDefinition := mkPolicyDefinition (tp_Name p) [].
Definition newAPIPolicyFromTableStruct (p : table_Policy) : api_Policy := toPolicyApi (Policy_toConfig p).

Definition NewAPIPolicyAssignmentFromTableStruct (t : table_PolicyAssignment) : api_PolicyAssignment :=
  {| apa_Direction := match pa_Type t with
                      | POLICY_DIRECTION_IMPORT => PolicyDirection_IMPORT
                      | POLICY_DIRECTION_EXPORT => PolicyDirection_EXPORT
                      | POLICY_DIRECTION_NONE => PolicyDirection_UNKNOWN
                      end;
     apa_DefaultAction := match pa_Default t with
                          | ROUTE_TYPE_ACCEPT => RouteAction_ACCEPT
                          | ROUTE_TYPE_REJECT => RouteAction_REJECT
                          | ROUTE_TYPE_NONE_ => RouteAction_NONE
                          end;
     apa_Name := pa_Name t;
     apa_Policies := newAPIPolicyFromTableStruct <$> pa_Policies t |}.

Definition NewAPIRoutingPolicyFromConfigStruct (c : RoutingPolicy) : Result api_RoutingPolicy :=
  definedSets ← NewAPIDefinedSetsFromConfigStruct (RoutingPolicy_DefinedSets c);
  Ok (mk_api_RoutingPolicy definedSets (toPolicyApi <$> RoutingPolicy_PolicyDefinitions c)).
End statements.

(** ** What the conversion keeps and what it drops *)
Definition signed_value (sign d : string) : Z :=
  if bool_decide (sign = "-") then - decimal 0 d else decimal 0 d.
Definition fits_int64 (v : Z) : bool := (- two63 <=? v) && (v <? two63).

Lemma ParseInt64_signed sign d : sign ∈ signs → all_digits d = true → str_empty d = false →
  ParseInt64 (sign +:+ d) =
    if fits_int64 (signed_value sign d) then (signed_value sign d, None)
    else (if bool_decide (sign = "-") then - two63 else two63 - 1, Some ErrRange).
Proof.
  intros Hs Hd He. pose proof (decimal_mono d Hd 0 ltac:(lia)).
  assert (∀ neg, (let '(un, err) := ParseUint d 64 in
     match err with
     | Some ErrSyntax => (0, Some ErrSyntax)
     | _ => if negb neg && (two63 <=? un) then (two63 - 1, Some ErrRange)
            else if neg && (two63 <? un) then (- two63, Some ErrRange)
            else if neg then (- un, None) else (un, None)
     end) = if fits_int64 (if neg then - decimal 0 d else decimal 0 d)
            then (if neg then - decimal 0 d else decimal 0 d, None)
            else (if neg then - two63 else two63 - 1, Some ErrRange)) as Hp.
  { intros neg. rewrite ParseUint_decimal by done. change (2 ^ 64) with two64.
    unfold fits_int64, two63, two64 in *.
    destruct (decimal 0 d <? 18446744073709551616) eqn:E; bool_to_prop; destruct neg; cbn [negb andb];
      repeat case_match; bool_to_prop; (reflexivity || lia). }
  unfold signs in Hs. set_unfold in Hs.
  destruct Hs as [-> | [-> | [-> | []]]]; [|apply (Hp false)|apply (Hp true)].
  unfold ParseInt64. destruct d as [|c d]; [done|]. cbn in Hd. apply andb_true_iff in Hd as [Hc _].
  destruct (is_digit_not_sign c Hc) as (H1 & H2 & _).
  assert (match "" +:+ String c d with String "+" r => (false, r) | String "-" r => (true, r) | _ => (false, "" +:+ String c d) end
          = (false, String c d)) as -> by by destruct c as [[] [] [] [] [] [] [] []].
  apply (Hp false).
Qed.

(** The MED action of a text is exact: digits with an optional sign,
    between spaces, set the discriminator to that number (modify it by the
    number when there is a sign), for every number of [int64]; a number out of
    its range gives no action. *)
Theorem med_action_exact w1 sign d w2 : spaces w1 → spaces w2 → sign ∈ signs →
  all_digits d = true → str_empty d = false →
  med_action (w1 +:+ sign +:+ d +:+ w2) =
    if fits_int64 (signed_value sign d)
    then Some (mk_api_MedAction (if str_empty sign then MED_REPLACE else MED_MOD) (signed_value sign d))
    else None.
Proof.
  intros H1 H2 Hs Hd He. unfold med_action. rewrite TrimSpace_med, find_med_text, ParseInt64_signed by done.
  assert (str_empty (sign +:+ d) = false) as ->. { destruct d; [done|]. by destruct sign. }
  destruct (fits_int64 _); [|done]. do 2 f_equal.
  unfold signs in Hs. set_unfold in Hs. by destruct Hs as [-> | [-> | [-> | []]]].
Qed.
Lemma med_action_exact_witness :
  med_action (" " +:+ "-" +:+ "100" +:+ "") =
    if fits_int64 (signed_value "-" "100")
    then Some (mk_api_MedAction (if str_empty "-" then MED_REPLACE else MED_MOD) (signed_value "-" "100"))
    else None.
Proof.
  apply (med_action_exact " " "-" "100" "").
  - intros c. cbn. case_decide; [subst; reflexivity|discriminate].
  - intros c. cbn. discriminate.
  - unfold signs. set_solver.
  - reflexivity.
  - reflexivity.
Defined.

(** The fields of a statement that the conversion reads: the others set to
    their zero values. *)
Definition read_conditions (c : Conditions) : Conditions :=
  let bc := Conditions_BgpConditions c in
  mkConditions "" (Conditions_MatchPrefixSet c) (Conditions_MatchNeighborSet c) (mkMatchTagSet "" "") ""
    (Conditions_IgpConditions c)
    (mkBgpConditions (BgpConditions_MatchCommunitySet bc) (BgpConditions_MatchExtCommunitySet bc)
       (BgpConditions_MatchAsPathSet bc) 0 "" (BgpConditions_NextHopInList bc) (BgpConditions_AfiSafiInList bc)
       0 (mkCommunityCount "" 0) (BgpConditions_AsPathLength bc) (BgpConditions_RouteType bc)
       (BgpConditions_MatchLargeCommunitySet bc)).
Definition read_actions (a : Actions) : Actions :=
  let ba := Actions_BgpActions a in
  mkActions (Actions_RouteDisposition a) (mkIgpActions "")
    (mkBgpActions (BgpActions_SetAsPathPrepend ba) (BgpActions_SetCommunity ba) (BgpActions_SetExtCommunity ba) ""
       (BgpActions_SetLocalPref ba) (BgpActions_SetNextHop ba) (BgpActions_SetMed ba) (BgpActions_SetLargeCommunity ba)).

(** Conditions and actions that are dropped.  The call of a policy, the
    tag set, the install protocol, the MED, the origin, the local preference
    and the number of communities among the conditions, and the tag and the
    origin among the actions, have no influence on the statement that reaches
    gobgp: a statement that should apply to routes with one of them applies to
    all routes the other conditions allow. *)
Theorem toStatementApi_drops `{!AddressFamilies} s :
  toStatementApi s = toStatementApi (mkStatement (Statement_Name s) (read_conditions (Statement_Conditions s))
                                       (read_actions (Statement_Actions s))).
Proof. reflexivity. Qed.

(** The options of a match: the code for a known option is the table's; an
    unknown one on a prefix or neighbor set is taken for [any], on the other
    sets it is -1. *)
Lemma newMatchOption_ToInt t :
  MatchOption_int (newMatchOption (SetOptionsRestricted t)).1 =
    match MatchSetOptionsRestrictedType_ToInt t with 1 => 2 | _ => 0 end
  ∧ MatchOption_int (newMatchOption (SetOptions t)).1 = Z.max 0 (MatchSetOptionsType_ToInt t).
Proof.
  unfold newMatchOption, MatchSetOptionsRestrictedType_ToInt, MatchSetOptionsType_ToInt.
  set (u := MatchSetOptionsRestrictedType_DefaultAsNeeded t). set (v := MatchSetOptionsType_DefaultAsNeeded t).
  unfold MatchSetOptionsRestrictedTypeToIntMap, MatchSetOptionsTypeToIntMap. cbn [map_get].
  split; repeat (case_bool_decide; [by repeat case_decide|]); by repeat case_decide.
Qed.
