(* ===== verification/BgpTypes.v ===== *)
(** * The BGP resources ([api/v1alpha2/bgppeer_types.go], [bgpconf_types.go])

    The structs of the two resources and their conversion to and from the
    messages of gobgp, which goes through JSON: [encoding/json] by the struct
    tags on one side, protobuf's [jsonpb] (third-party, the class
    [GoBgpMessages]) on the other.  A JSON text is its tree. *)
From S2P Require Import Prelude GoNet K8s.
Local Open Scope Z_scope.

(** ** JSON *)
#[warnings="-register-all"] Inductive json :=
| JNull
| JBool (b : bool)
| JNum (z : Z)
| JStr (s : string)
| JArr (l : list json)
| JObj (ms : list (string * json)).

(** [json.Marshal] of a field with the tag [omitempty]: zero numbers, empty
    strings, [false], nil pointers and empty slices and maps are left out. *)
Definition omit_str (k v : string) : list (string * json) := if str_empty v then [] else [(k, JStr v)].
Definition omit_num (k : string) (v : Z) : list (string * json) := if v =? 0 then [] else [(k, JNum v)].
Definition omit_bool (k : string) (v : bool) : list (string * json) := if v then [(k, JBool v)] else [].
Definition omit_ptr {A} (k : string) (f : A → json) (v : option A) : list (string * json) :=
  match v with None => [] | Some a => [(k, f a)] end.
Definition omit_list {A} (k : string) (f : A → json) (v : list A) : list (string * json) :=
  match v with [] => [] | _ => [(k, JArr (f <$> v))] end.
Definition omarshal {A} (f : A → json) (v : option A) : json := match v with None => JNull | Some a => f a end.
(** The members of a map come sorted by key. *)
Definition marshal_map {A} (f : A → json) (m : gmap string A) : json :=
  JObj (foldr (insert_sorted (λ x y, str_ltb x.1 y.1)) [] (prod_map id f <$> map_to_list m)).
Definition omit_map {A} (k : string) (f : A → json) (v : option (gmap string A)) : list (string * json) :=
  match v with None => [] | Some m => if decide (m = ∅) then [] else [(k, marshal_map f m)] end.

(** [json.Unmarshal] into a field: the members whose key is the field's, up to
    case, in order; null changes nothing, a value of another type is an error
    (reported at the end) that leaves the field alone. *)
Definition dec_field {A} (dec : json → A → A * bool) (k : string) (ms : list (string * json)) (x : A) : A * bool :=
  foldl (λ acc m, if bool_decide (ToLower m.1 = ToLower k)
                  then let '(y, e) := dec m.2 acc.1 in (y, acc.2 || e) else acc) (x, false) ms.
Definition dec_str (j : json) (x : string) : string * bool :=
  match j with JStr s => (s, false) | JNull => (x, false) | _ => (x, true) end.
Definition dec_bool (j : json) (x : bool) : bool * bool :=
  match j with JBool b => (b, false) | JNull => (x, false) | _ => (x, true) end.
Definition dec_uint32 (j : json) (x : Z) : Z * bool :=
  match j with
  | JNum z => if (0 <=? z) && (z <? two32) then (z, false) else (x, true)
  | JNull => (x, false)
  | _ => (x, true)
  end.
Definition dec_ptr {A} (unmarshal : list (string * json) → A → A * bool) (zero : A) (j : json) (x : option A)
    : option A * bool :=
  match j with
  | JObj ms => let '(y, e) := unmarshal ms (default zero x) in (Some y, e)
  | JNull => (None, false)
  | _ => (Some (default zero x), true)
  end.

(** ** The resources *)
Record LabelSelector := mkLabelSelector {
  MatchLabels : gomap;
  MatchExpressions : list (string * string * list string)  (* key, operator, values *)
}.
#[export] Instance LabelSelector_eq_dec : EqDecision LabelSelector.
Proof. solve_decision. Defined.
Definition marshal_expression (x : string * string * list string) : json :=
  JObj ([("key", JStr x.1.1); ("operator", JStr x.1.2)] ++ omit_list "values" JStr x.2).
Definition marshal_LabelSelector (x : LabelSelector) : json :=
  JObj (omit_map "matchLabels" JStr (MatchLabels x) ++ omit_list "matchExpressions" marshal_expression (MatchExpressions x)).

Record Message := mkMessage {
  Message_Notification : string;
  Message_Update : string;
  Message_Open : string;
  Message_Keepalive : string;
  Message_Refresh : string;
  Message_Discarded : string;
  Message_Total : string;
  Message_WithdrawUpdate : string;
  Message_WithdrawPrefix : string
}.
#[export] Instance Message_eq_dec : EqDecision Message.
Proof. solve_decision. Defined.
Record Messages := mkMessages {
  Messages_Received : option Message;
  Messages_Sent : option Message
}.
#[export] Instance Messages_eq_dec : EqDecision Messages.
Proof. solve_decision. Defined.
Record Queues := mkQueues {
  Queues_Input : Z;
  Queues_Output : Z
}.
#[export] Instance Queues_eq_dec : EqDecision Queues.
Proof. solve_decision. Defined.
Record PeerState := mkPeerState {
  PeerState_AuthPassword : string;
  PeerState_Description : string;
  PeerState_LocalAs : Z;
  PeerState_Messages : option Messages;
  PeerState_NeighborAddress : string;
  PeerState_PeerAs : Z;
  PeerState_PeerGroup : string;
  PeerState_PeerType : Z;
  PeerState_Queues : option Queues;
  PeerState_RemovePrivateAs : Z;
  PeerState_RouteFlapDamping : bool;
  PeerState_SendCommunity : Z;
  PeerState_SessionState : string;
  PeerState_AdminState : string;
  PeerState_OutQ : Z;
  PeerState_Flops : Z;
  PeerState_RouterId : string
}.
#[export] Instance PeerState_eq_dec : EqDecision PeerState.
Proof. solve_decision. Defined.
Record TimersState := mkTimersState {
  TimersState_ConnectRetry : string;
  TimersState_HoldTime : string;
  TimersState_KeepaliveInterval : string;
  TimersState_MinimumAdvertisementInterval : string;
  TimersState_NegotiatedHoldTime : string;
  TimersState_Uptime : string;
  TimersState_Downtime : string
}.
#[export] Instance TimersState_eq_dec : EqDecision TimersState.
Proof. solve_decision. Defined.
Record NodePeerStatus := mkNodePeerStatus {
  NodePeerStatus_PeerState : PeerState;
  NodePeerStatus_TimersState : TimersState
}.
#[export] Instance NodePeerStatus_eq_dec : EqDecision NodePeerStatus.
Proof. solve_decision. Defined.
Record BgpPeerStatus := mkBgpPeerStatus {
  BgpPeerStatus_NodesPeerStatus : option (gmap string NodePeerStatus)
}.
#[export] Instance BgpPeerStatus_eq_dec : EqDecision BgpPeerStatus.
Proof. solve_decision. Defined.
Record GracefulRestart := mkGracefulRestart {
  GracefulRestart_Enabled : bool;
  GracefulRestart_RestartTime : Z;
  GracefulRestart_HelperOnly : bool;
  GracefulRestart_DeferralTime : Z;
  GracefulRestart_NotificationEnabled : bool;
  GracefulRestart_LonglivedEnabled : bool;
  GracefulRestart_StaleRoutesTime : Z;
  GracefulRestart_PeerRestartTime : Z;
  GracefulRestart_PeerRestarting : bool;
  GracefulRestart_LocalRestarting : bool;
  GracefulRestart_Mode : string
}.
#[export] Instance GracefulRestart_eq_dec : EqDecision GracefulRestart.
Proof. solve_decision. Defined.
Record TimersConfig := mkTimersConfig {
  TimersConfig_ConnectRetry : string;
  TimersConfig_HoldTime : string;
  TimersConfig_KeepaliveInterval : string;
  TimersConfig_MinimumAdvertisementInterval : string
}.
#[export] Instance TimersConfig_eq_dec : EqDecision TimersConfig.
Proof. solve_decision. Defined.
Record Timers := mkTimers {
  Timers_Config : option TimersConfig
}.
#[export] Instance Timers_eq_dec : EqDecision Timers.
Proof. solve_decision. Defined.
Record PeerConf := mkPeerConf {
  PeerConf_AuthPassword : string;
  PeerConf_Description : string;
  PeerConf_LocalAs : Z;
  PeerConf_NeighborAddress : string;
  PeerConf_PeerAs : Z;
  PeerConf_PeerGroup : string;
  PeerConf_PeerType : Z;
  PeerConf_RemovePrivateAs : string;
  PeerConf_RouteFlapDamping : bool;
  PeerConf_SendCommunity : Z;
  PeerConf_NeighborInterface : string;
  PeerConf_Vrf : string;
  PeerConf_AllowOwnAs : Z;
  PeerConf_ReplacePeerAs : bool;
  PeerConf_AdminDown : bool
}.
#[export] Instance PeerConf_eq_dec : EqDecision PeerConf.
Proof. solve_decision. Defined.
Record Transport := mkTransport {
  Transport_MtuDiscovery : bool;
  Transport_PassiveMode : bool;
  Transport_RemoteAddress : string;
  Transport_RemotePort : Z;
  Transport_TcpMss : Z
}.
#[export] Instance Transport_eq_dec : EqDecision Transport.
Proof. solve_decision. Defined.
Record MpGracefulRestartConfig := mkMpGracefulRestartConfig {
  MpGracefulRestartConfig_Enabled : bool
}.
#[export] Instance MpGracefulRestartConfig_eq_dec : EqDecision MpGracefulRestartConfig.
Proof. solve_decision. Defined.
Record MpGracefulRestart := mkMpGracefulRestart {
  MpGracefulRestart_Config : option MpGracefulRestartConfig
}.
#[export] Instance MpGracefulRestart_eq_dec : EqDecision MpGracefulRestart.
Proof. solve_decision. Defined.
Record Family := mkFamily {
  Family_Afi : string;
  Family_Safi : string
}.
#[export] Instance Family_eq_dec : EqDecision Family.
Proof. solve_decision. Defined.
Record AfiSafiConfig := mkAfiSafiConfig {
  AfiSafiConfig_Family : option Family;
  AfiSafiConfig_Enabled : bool
}.
#[export] Instance AfiSafiConfig_eq_dec : EqDecision AfiSafiConfig.
Proof. solve_decision. Defined.
Record AddPathsConfig := mkAddPathsConfig {
  AddPathsConfig_Receive : bool;
  AddPathsConfig_SendMax : Z
}.
#[export] Instance AddPathsConfig_eq_dec : EqDecision AddPathsConfig.
Proof. solve_decision. Defined.
Record AddPaths := mkAddPaths {
  AddPaths_Config : option AddPathsConfig
}.
#[export] Instance AddPaths_eq_dec : EqDecision AddPaths.
Proof. solve_decision. Defined.
Record AfiSafi := mkAfiSafi {
  AfiSafi_MpGracefulRestart : option MpGracefulRestart;
  AfiSafi_Config : option AfiSafiConfig;
  AfiSafi_AddPaths : option AddPaths
}.
#[export] Instance AfiSafi_eq_dec : EqDecision AfiSafi.
Proof. solve_decision. Defined.
Record EbgpMultihop := mkEbgpMultihop {
  EbgpMultihop_Enabled : bool;
  EbgpMultihop_MultihopTtl : Z
}.
#[export] Instance EbgpMultihop_eq_dec : EqDecision EbgpMultihop.
Proof. solve_decision. Defined.
Record BgpPeerSpec := mkBgpPeerSpec {
  BgpPeerSpec_Conf : option PeerConf;
  BgpPeerSpec_EbgpMultihop : option EbgpMultihop;
  BgpPeerSpec_Timers : option Timers;
  BgpPeerSpec_Transport : option Transport;
  BgpPeerSpec_GracefulRestart : option GracefulRestart;
  BgpPeerSpec_AfiSafis : list (option AfiSafi);
  BgpPeerSpec_NodeSelector : option LabelSelector
}.
#[export] Instance BgpPeerSpec_eq_dec : EqDecision BgpPeerSpec.
Proof. solve_decision. Defined.
Record BgpPeer := mkBgpPeer {
  BgpPeer_Meta : ObjectMeta;
  BgpPeer_Spec : BgpPeerSpec;
  BgpPeer_Status : BgpPeerStatus
}.
#[export] Instance BgpPeer_eq_dec : EqDecision BgpPeer.
Proof. solve_decision. Defined.
Record NodeConfStatus := mkNodeConfStatus {
  NodeConfStatus_RouterId : string;
  NodeConfStatus_As : Z
}.
#[export] Instance NodeConfStatus_eq_dec : EqDecision NodeConfStatus.
Proof. solve_decision. Defined.
Record BgpConfStatus := mkBgpConfStatus {
  BgpConfStatus_NodesConfStatus : option (gmap string NodeConfStatus)
}.
#[export] Instance BgpConfStatus_eq_dec : EqDecision BgpConfStatus.
Proof. solve_decision. Defined.
Record BgpConfSpec := mkBgpConfSpec {
  BgpConfSpec_As : Z;
  BgpConfSpec_AsPerRack : option (gmap string Z);
  BgpConfSpec_RouterId : string;
  BgpConfSpec_ListenPort : Z;
  BgpConfSpec_ListenAddresses : list string;
  BgpConfSpec_Families : list Z;
  BgpConfSpec_UseMultiplePaths : bool;
  BgpConfSpec_GracefulRestart : option GracefulRestart;
  BgpConfSpec_Policy : string
}.
#[export] Instance BgpConfSpec_eq_dec : EqDecision BgpConfSpec.
Proof. solve_decision. Defined.
Record BgpConf := mkBgpConf {
  BgpConf_Meta : ObjectMeta;
  BgpConf_Spec : BgpConfSpec;
  BgpConf_Status : BgpConfStatus
}.
#[export] Instance BgpConf_eq_dec : EqDecision BgpConf.
Proof. solve_decision. Defined.

(** ** [json.Marshal] of the specs and the states

    The code writes the specs only; the encoders of the states serve the proofs
    about their decoders. *)
Definition marshal_Message (x : Message) : json :=
  JObj (omit_str "notification" (Message_Notification x)
        ++ omit_str "update" (Message_Update x)
        ++ omit_str "open" (Message_Open x)
        ++ omit_str "keepalive" (Message_Keepalive x)
        ++ omit_str "refresh" (Message_Refresh x)
        ++ omit_str "discarded" (Message_Discarded x)
        ++ omit_str "total" (Message_Total x)
        ++ omit_str "withdrawUpdate" (Message_WithdrawUpdate x)
        ++ omit_str "withdrawPrefix" (Message_WithdrawPrefix x)).
Definition marshal_Messages (x : Messages) : json :=
  JObj (omit_ptr "received" marshal_Message (Messages_Received x)
        ++ omit_ptr "sent" marshal_Message (Messages_Sent x)).
Definition marshal_Queues (x : Queues) : json :=
  JObj (omit_num "input" (Queues_Input x)
        ++ omit_num "output" (Queues_Output x)).
Definition marshal_PeerState (x : PeerState) : json :=
  JObj (omit_str "authPassword" (PeerState_AuthPassword x)
        ++ omit_str "description" (PeerState_Description x)
        ++ omit_num "localAs" (PeerState_LocalAs x)
        ++ omit_ptr "messages" marshal_Messages (PeerState_Messages x)
        ++ omit_str "neighborAddress" (PeerState_NeighborAddress x)
        ++ omit_num "peerAs" (PeerState_PeerAs x)
        ++ omit_str "peerGroup" (PeerState_PeerGroup x)
        ++ omit_num "peerType" (PeerState_PeerType x)
        ++ omit_ptr "queues" marshal_Queues (PeerState_Queues x)
        ++ omit_num "removePrivateAs" (PeerState_RemovePrivateAs x)
        ++ omit_bool "routeFlapDamping" (PeerState_RouteFlapDamping x)
        ++ omit_num "sendCommunity" (PeerState_SendCommunity x)
        ++ omit_str "sessionState" (PeerState_SessionState x)
        ++ omit_str "adminState" (PeerState_AdminState x)
        ++ omit_num "outQ" (PeerState_OutQ x)
        ++ omit_num "flops" (PeerState_Flops x)
        ++ omit_str "routerId" (PeerState_RouterId x)).
Definition marshal_TimersState (x : TimersState) : json :=
  JObj (omit_str "connectRetry" (TimersState_ConnectRetry x)
        ++ omit_str "holdTime" (TimersState_HoldTime x)
        ++ omit_str "keepaliveInterval" (TimersState_KeepaliveInterval x)
        ++ omit_str "minimumAdvertisementInterval" (TimersState_MinimumAdvertisementInterval x)
        ++ omit_str "negotiatedHoldTime" (TimersState_NegotiatedHoldTime x)
        ++ omit_str "uptime" (TimersState_Uptime x)
        ++ omit_str "downtime" (TimersState_Downtime x)).
Definition marshal_GracefulRestart (x : GracefulRestart) : json :=
  JObj (omit_bool "enabled" (GracefulRestart_Enabled x)
        ++ omit_num "restartTime" (GracefulRestart_RestartTime x)
        ++ omit_bool "helperOnly" (GracefulRestart_HelperOnly x)
        ++ omit_num "deferralTime" (GracefulRestart_DeferralTime x)
        ++ omit_bool "notificationEnabled" (GracefulRestart_NotificationEnabled x)
        ++ omit_bool "longlivedEnabled" (GracefulRestart_LonglivedEnabled x)
        ++ omit_num "staleRoutesTime" (GracefulRestart_StaleRoutesTime x)
        ++ omit_num "peerRestartTime" (GracefulRestart_PeerRestartTime x)
        ++ omit_bool "peerRestarting" (GracefulRestart_PeerRestarting x)
        ++ omit_bool "localRestarting" (GracefulRestart_LocalRestarting x)
        ++ omit_str "mode" (GracefulRestart_Mode x)).
Definition marshal_TimersConfig (x : TimersConfig) : json :=
  JObj (omit_str "connectRetry" (TimersConfig_ConnectRetry x)
        ++ omit_str "holdTime" (TimersConfig_HoldTime x)
        ++ omit_str "keepaliveInterval" (TimersConfig_KeepaliveInterval x)
        ++ omit_str "minimumAdvertisementInterval" (TimersConfig_MinimumAdvertisementInterval x)).
Definition marshal_Timers (x : Timers) : json :=
  JObj (omit_ptr "config" marshal_TimersConfig (Timers_Config x)).
Definition marshal_PeerConf (x : PeerConf) : json :=
  JObj (omit_str "authPassword" (PeerConf_AuthPassword x)
        ++ omit_str "description" (PeerConf_Description x)
        ++ omit_num "localAs" (PeerConf_LocalAs x)
        ++ omit_str "neighborAddress" (PeerConf_NeighborAddress x)
        ++ omit_num "peerAs" (PeerConf_PeerAs x)
        ++ omit_str "peerGroup" (PeerConf_PeerGroup x)
        ++ omit_num "peerType" (PeerConf_PeerType x)
        ++ omit_str "removePrivateAs" (PeerConf_RemovePrivateAs x)
        ++ omit_bool "routeFlapDamping" (PeerConf_RouteFlapDamping x)
        ++ omit_num "sendCommunity" (PeerConf_SendCommunity x)
        ++ omit_str "neighborInterface" (PeerConf_NeighborInterface x)
        ++ omit_str "vrf" (PeerConf_Vrf x)
        ++ omit_num "allowOwnAs" (PeerConf_AllowOwnAs x)
        ++ omit_bool "replacePeerAs" (PeerConf_ReplacePeerAs x)
        ++ omit_bool "adminDown" (PeerConf_AdminDown x)).
Definition marshal_Transport (x : Transport) : json :=
  JObj (omit_bool "mtuDiscovery" (Transport_MtuDiscovery x)
        ++ omit_bool "passiveMode" (Transport_PassiveMode x)
        ++ omit_str "remoteAddress" (Transport_RemoteAddress x)
        ++ omit_num "remotePort" (Transport_RemotePort x)
        ++ omit_num "tcpMss" (Transport_TcpMss x)).
Definition marshal_MpGracefulRestartConfig (x : MpGracefulRestartConfig) : json :=
  JObj (omit_bool "enabled" (MpGracefulRestartConfig_Enabled x)).
Definition marshal_MpGracefulRestart (x : MpGracefulRestart) : json :=
  JObj (omit_ptr "config" marshal_MpGracefulRestartConfig (MpGracefulRestart_Config x)).
Definition marshal_Family (x : Family) : json :=
  JObj (omit_str "afi" (Family_Afi x)
        ++ omit_str "safi" (Family_Safi x)).
Definition marshal_AfiSafiConfig (x : AfiSafiConfig) : json :=
  JObj (omit_ptr "family" marshal_Family (AfiSafiConfig_Family x)
        ++ omit_bool "enabled" (AfiSafiConfig_Enabled x)).
Definition marshal_AddPathsConfig (x : AddPathsConfig) : json :=
  JObj (omit_bool "receive" (AddPathsConfig_Receive x)
        ++ omit_num "sendMax" (AddPathsConfig_SendMax x)).
Definition marshal_AddPaths (x : AddPaths) : json :=
  JObj (omit_ptr "config" marshal_AddPathsConfig (AddPaths_Config x)).
Definition marshal_AfiSafi (x : AfiSafi) : json :=
  JObj (omit_ptr "mpGracefulRestart" marshal_MpGracefulRestart (AfiSafi_MpGracefulRestart x)
        ++ omit_ptr "config" marshal_AfiSafiConfig (AfiSafi_Config x)
        ++ omit_ptr "addPaths" marshal_AddPaths (AfiSafi_AddPaths x)).
Definition marshal_EbgpMultihop (x : EbgpMultihop) : json :=
  JObj (omit_bool "enabled" (EbgpMultihop_Enabled x)
        ++ omit_num "multihopTtl" (EbgpMultihop_MultihopTtl x)).
Definition marshal_BgpPeerSpec (x : BgpPeerSpec) : json :=
  JObj (omit_ptr "conf" marshal_PeerConf (BgpPeerSpec_Conf x)
        ++ omit_ptr "ebgpMultihop" marshal_EbgpMultihop (BgpPeerSpec_EbgpMultihop x)
        ++ omit_ptr "timers" marshal_Timers (BgpPeerSpec_Timers x)
        ++ omit_ptr "transport" marshal_Transport (BgpPeerSpec_Transport x)
        ++ omit_ptr "gracefulRestart" marshal_GracefulRestart (BgpPeerSpec_GracefulRestart x)
        ++ omit_list "afiSafis" (omarshal marshal_AfiSafi) (BgpPeerSpec_AfiSafis x)
        ++ omit_ptr "nodeSelector" marshal_LabelSelector (BgpPeerSpec_NodeSelector x)).
Definition marshal_BgpConfSpec (x : BgpConfSpec) : json :=
  JObj (omit_num "as" (BgpConfSpec_As x)
        ++ omit_map "asPerRack" JNum (BgpConfSpec_AsPerRack x)
        ++ omit_str "routerId" (BgpConfSpec_RouterId x)
        ++ omit_num "listenPort" (BgpConfSpec_ListenPort x)
        ++ omit_list "listenAddresses" JStr (BgpConfSpec_ListenAddresses x)
        ++ omit_list "families" JNum (BgpConfSpec_Families x)
        ++ omit_bool "useMultiplePaths" (BgpConfSpec_UseMultiplePaths x)
        ++ omit_ptr "gracefulRestart" marshal_GracefulRestart (BgpConfSpec_GracefulRestart x)
        ++ omit_str "policy" (BgpConfSpec_Policy x)).

(** ** [json.Unmarshal] of the states *)
Definition zero_Message : Message := mkMessage "" "" "" "" "" "" "" "" "".
Definition unmarshal_Message (ms : list (string * json)) (x : Message) : Message * bool :=
  let '(f0, e0) := dec_field dec_str "notification" ms (Message_Notification x) in
  let '(f1, e1) := dec_field dec_str "update" ms (Message_Update x) in
  let '(f2, e2) := dec_field dec_str "open" ms (Message_Open x) in
  let '(f3, e3) := dec_field dec_str "keepalive" ms (Message_Keepalive x) in
  let '(f4, e4) := dec_field dec_str "refresh" ms (Message_Refresh x) in
  let '(f5, e5) := dec_field dec_str "discarded" ms (Message_Discarded x) in
  let '(f6, e6) := dec_field dec_str "total" ms (Message_Total x) in
  let '(f7, e7) := dec_field dec_str "withdrawUpdate" ms (Message_WithdrawUpdate x) in
  let '(f8, e8) := dec_field dec_str "withdrawPrefix" ms (Message_WithdrawPrefix x) in
  (mkMessage f0 f1 f2 f3 f4 f5 f6 f7 f8,
   e0 || e1 || e2 || e3 || e4 || e5 || e6 || e7 || e8).
Definition zero_Messages : Messages := mkMessages None None.
Definition unmarshal_Messages (ms : list (string * json)) (x : Messages) : Messages * bool :=
  let '(f0, e0) := dec_field (dec_ptr unmarshal_Message zero_Message) "received" ms (Messages_Received x) in
  let '(f1, e1) := dec_field (dec_ptr unmarshal_Message zero_Message) "sent" ms (Messages_Sent x) in
  (mkMessages f0 f1,
   e0 || e1).
Definition zero_Queues : Queues := mkQueues 0 0.
Definition unmarshal_Queues (ms : list (string * json)) (x : Queues) : Queues * bool :=
  let '(f0, e0) := dec_field dec_uint32 "input" ms (Queues_Input x) in
  let '(f1, e1) := dec_field dec_uint32 "output" ms (Queues_Output x) in
  (mkQueues f0 f1,
   e0 || e1).
Definition zero_PeerState : PeerState := mkPeerState "" "" 0 None "" 0 "" 0 None 0 false 0 "" "" 0 0 "".
Definition unmarshal_PeerState (ms : list (string * json)) (x : PeerState) : PeerState * bool :=
  let '(f0, e0) := dec_field dec_str "authPassword" ms (PeerState_AuthPassword x) in
  let '(f1, e1) := dec_field dec_str "description" ms (PeerState_Description x) in
  let '(f2, e2) := dec_field dec_uint32 "localAs" ms (PeerState_LocalAs x) in
  let '(f3, e3) := dec_field (dec_ptr unmarshal_Messages zero_Messages) "messages" ms (PeerState_Messages x) in
  let '(f4, e4) := dec_field dec_str "neighborAddress" ms (PeerState_NeighborAddress x) in
  let '(f5, e5) := dec_field dec_uint32 "peerAs" ms (PeerState_PeerAs x) in
  let '(f6, e6) := dec_field dec_str "peerGroup" ms (PeerState_PeerGroup x) in
  let '(f7, e7) := dec_field dec_uint32 "peerType" ms (PeerState_PeerType x) in
  let '(f8, e8) := dec_field (dec_ptr unmarshal_Queues zero_Queues) "queues" ms (PeerState_Queues x) in
  let '(f9, e9) := dec_field dec_uint32 "removePrivateAs" ms (PeerState_RemovePrivateAs x) in
  let '(f10, e10) := dec_field dec_bool "routeFlapDamping" ms (PeerState_RouteFlapDamping x) in
  let '(f11, e11) := dec_field dec_uint32 "sendCommunity" ms (PeerState_SendCommunity x) in
  let '(f12, e12) := dec_field dec_str "sessionState" ms (PeerState_SessionState x) in
  let '(f13, e13) := dec_field dec_str "adminState" ms (PeerState_AdminState x) in
  let '(f14, e14) := dec_field dec_uint32 "outQ" ms (PeerState_OutQ x) in
  let '(f15, e15) := dec_field dec_uint32 "flops" ms (PeerState_Flops x) in
  let '(f16, e16) := dec_field dec_str "routerId" ms (PeerState_RouterId x) in
  (mkPeerState f0 f1 f2 f3 f4 f5 f6 f7 f8 f9 f10 f11 f12 f13 f14 f15 f16,
   e0 || e1 || e2 || e3 || e4 || e5 || e6 || e7 || e8 || e9 || e10 || e11 || e12 || e13 || e14 || e15 || e16).
Definition zero_TimersState : TimersState := mkTimersState "" "" "" "" "" "" "".
Definition unmarshal_TimersState (ms : list (string * json)) (x : TimersState) : TimersState * bool :=
  let '(f0, e0) := dec_field dec_str "connectRetry" ms (TimersState_ConnectRetry x) in
  let '(f1, e1) := dec_field dec_str "holdTime" ms (TimersState_HoldTime x) in
  let '(f2, e2) := dec_field dec_str "keepaliveInterval" ms (TimersState_KeepaliveInterval x) in
  let '(f3, e3) := dec_field dec_str "minimumAdvertisementInterval" ms (TimersState_MinimumAdvertisementInterval x) in
  let '(f4, e4) := dec_field dec_str "negotiatedHoldTime" ms (TimersState_NegotiatedHoldTime x) in
  let '(f5, e5) := dec_field dec_str "uptime" ms (TimersState_Uptime x) in
  let '(f6, e6) := dec_field dec_str "downtime" ms (TimersState_Downtime x) in
  (mkTimersState f0 f1 f2 f3 f4 f5 f6,
   e0 || e1 || e2 || e3 || e4 || e5 || e6).

(** ** The messages of gobgp

    [jsonpb]'s strict and lenient unmarshallers, the parts of [api.Peer] the
    code reads, and the JSON of its state. *)
Class GoBgpMessages := {
  api_Peer : Type;
  api_Global : Type;
  UnmarshalPeer : json → Result api_Peer;
  UnmarshalGlobal : json → Result api_Global;
  Peer_Conf : api_Peer → option (string * string);    (* NeighborAddress, NeighborInterface *)
  MarshalState : api_Peer → Result json;
  Peer_Timers : api_Peer → bool;                      (* peer.Timers is not nil *)
  MarshalTimersState : api_Peer → Result json;
}.

Section convert.
Context `{!GoBgpMessages}.

Definition without_NodeSelector (c : BgpPeerSpec) : BgpPeerSpec :=
  mkBgpPeerSpec (BgpPeerSpec_Conf c) (BgpPeerSpec_EbgpMultihop c) (BgpPeerSpec_Timers c) (BgpPeerSpec_Transport c)
    (BgpPeerSpec_GracefulRestart c) (BgpPeerSpec_AfiSafis c) None.
Definition ToGoBgpPeer (c : BgpPeerSpec) : Result api_Peer :=
  UnmarshalPeer (marshal_BgpPeerSpec (without_NodeSelector c)).

Definition without_AsPerRack (c : BgpConfSpec) : BgpConfSpec :=
  mkBgpConfSpec (BgpConfSpec_As c) None (BgpConfSpec_RouterId c) (BgpConfSpec_ListenPort c)
    (BgpConfSpec_ListenAddresses c) (BgpConfSpec_Families c) (BgpConfSpec_UseMultiplePaths c)
    (BgpConfSpec_GracefulRestart c) (BgpConfSpec_Policy c).
Definition ToGoBgpGlobalConf (c : BgpConfSpec) : Result api_Global :=
  UnmarshalGlobal (marshal_BgpConfSpec (without_AsPerRack c)).

(** [json.Unmarshal] of a whole text into a struct. *)
Definition unmarshal_struct {A} (unmarshal : list (string * json) → A → A * bool) (j : json) (x : A) : Result A :=
  match j with
  | JObj ms => let '(y, e) := unmarshal ms x in
               if e then Err (Errorf "json: cannot unmarshal value") else Ok y
  | JNull => Ok x
  | _ => Err (Errorf "json: cannot unmarshal value")
  end.

Definition GetStatusFromGoBgpPeer (peer : api_Peer) : Result NodePeerStatus :=
  jsonStr ← MarshalState peer;
  state ← unmarshal_struct unmarshal_PeerState jsonStr zero_PeerState;
  if negb (Peer_Timers peer) then Panic else
  jsonStr ← MarshalTimersState peer;
  timers ← unmarshal_struct unmarshal_TimersState jsonStr zero_TimersState;
  Ok (mkNodePeerStatus state timers).
End convert.

(** ** What is written is read back *)
Lemma dec_field_foldl {A} (dec : json → A → A * bool) k ms : ∀ x e,
  foldl (λ acc m, if bool_decide (ToLower m.1 = ToLower k)
                  then let '(y, e) := dec m.2 acc.1 in (y, acc.2 || e) else acc) (x, e) ms
  = ((dec_field dec k ms x).1, e || (dec_field dec k ms x).2).
Proof.
  unfold dec_field. induction ms as [|m ms IH]; intros x e; cbn [foldl]; [by rewrite orb_false_r|].
  case_bool_decide; [|apply IH]. cbn [fst snd]. destruct (dec m.2 x) as [y e'].
  rewrite IH, (IH y (false || e')). cbn. by rewrite orb_assoc.
Qed.

(** A part of the members that sets the field to [y] without an error. *)
Definition reads {A} (dec : json → A → A * bool) (k : string) (ms : list (string * json)) (x y : A) : Prop :=
  dec_field dec k ms x = (y, false).

Lemma reads_app {A} (dec : json → A → A * bool) k a b x y z :
  reads dec k a x y → reads dec k b y z → reads dec k (a ++ b) x z.
Proof.
  unfold reads. intros Ha Hb. unfold dec_field at 1. rewrite foldl_app.
  fold (dec_field dec k a x). by rewrite Ha, dec_field_foldl, Hb.
Qed.

(** Members of other fields. *)
Definition no_member (k : string) (ms : list (string * json)) : Prop :=
  Forall (λ m, ToLower m.1 ≠ ToLower k) ms.
Lemma reads_other {A} (dec : json → A → A * bool) k ms x : no_member k ms → reads dec k ms x x.
Proof.
  unfold reads, dec_field. induction 1 as [|m ms Hm _ IH]; cbn [foldl]; [done|]. by rewrite bool_decide_false.
Qed.
Section other.
Context (k k' : string) (Hk : bool_decide (ToLower k' = ToLower k) = false).
Local Ltac member := unfold no_member, omit_str, omit_num, omit_bool, omit_ptr; repeat case_match;
  constructor; try done; by apply bool_decide_eq_false in Hk.
Lemma no_member_str v : no_member k (omit_str k' v).
Proof. member. Qed.
Lemma no_member_num v : no_member k (omit_num k' v).
Proof. member. Qed.
Lemma no_member_bool v : no_member k (omit_bool k' v).
Proof. member. Qed.
Lemma no_member_ptr {A} (f : A → json) v : no_member k (omit_ptr k' f v).
Proof. member. Qed.
End other.

(** The member of the field itself, on a zero value. *)
Lemma reads_str k v : reads dec_str k (omit_str k v) "" v.
Proof. unfold reads, dec_field, omit_str. destruct v; cbn; [done|]. by rewrite bool_decide_true. Qed.
Lemma reads_num k v : 0 <= v < two32 → reads dec_uint32 k (omit_num k v) 0 v.
Proof.
  intros Hv. unfold reads, dec_field, omit_num. destruct (v =? 0) eqn:E; cbn.
  - apply Z.eqb_eq in E. by subst.
  - rewrite bool_decide_true by done. by rewrite (proj2 (Z.leb_le 0 v)), (proj2 (Z.ltb_lt v two32)) by lia.
Qed.
Lemma reads_bool k v : reads dec_bool k (omit_bool k v) false v.
Proof. unfold reads, dec_field. destruct v; cbn; [|done]. by rewrite bool_decide_true. Qed.
Lemma reads_ptr {A} (un : list (string * json) → A → A * bool) zero k (f : A → json) v :
  (∀ a, v = Some a → ∃ ms, f a = JObj ms ∧ un ms zero = (a, false)) →
  reads (dec_ptr un zero) k (omit_ptr k f v) None v.
Proof.
  intros Hv. unfold reads, dec_field. destruct v as [a|]; cbn; [|done]. rewrite bool_decide_true by done.
  destruct (Hv a eq_refl) as (ms & -> & Hms). cbn. by rewrite Hms.
Qed.

Ltac read_member :=
  first [apply reads_str | apply reads_bool | apply reads_num; assumption | apply reads_ptr; assumption
        | apply reads_other; first [apply no_member_str | apply no_member_num | apply no_member_bool | apply no_member_ptr];
          reflexivity].
Ltac read_members := lazymatch goal with
  | |- reads _ _ (_ ++ _) _ _ => eapply reads_app; [read_member|read_members]
  | |- _ => read_member
  end.
Ltac read_fields := repeat match goal with
  | |- (let '(_, _) := dec_field ?d ?k ?ms ?x in _) = _ =>
      let H := fresh in eassert (reads d k ms x _) as H; [read_members|]; unfold reads in H; rewrite H; clear H
  end.

Definition u32 (z : Z) : Prop := 0 <= z < two32.

Lemma unmarshal_marshal_Message m :
  ∃ ms, marshal_Message m = JObj ms ∧ unmarshal_Message ms zero_Message = (m, false).
Proof.
  eexists. split; [reflexivity|]. unfold unmarshal_Message. cbn [zero_Message]. destruct m. cbn.
  read_fields. reflexivity.
Qed.

Lemma unmarshal_marshal_Messages m :
  ∃ ms, marshal_Messages m = JObj ms ∧ unmarshal_Messages ms zero_Messages = (m, false).
Proof.
  eexists. split; [reflexivity|]. pose proof unmarshal_marshal_Message as Hm.
  assert (∀ v a, v = Some a → ∃ ms, marshal_Message a = JObj ms ∧ unmarshal_Message ms zero_Message = (a, false))
    as Hp by by intros _ a _.
  unfold unmarshal_Messages. cbn [zero_Messages]. destruct m as [r s].
  cbn [Messages_Received Messages_Sent]. pose proof (Hp r). pose proof (Hp s). read_fields. reflexivity.
Qed.

Lemma unmarshal_marshal_Queues q : u32 (Queues_Input q) → u32 (Queues_Output q) →
  ∃ ms, marshal_Queues q = JObj ms ∧ unmarshal_Queues ms zero_Queues = (q, false).
Proof.
  destruct q as [i o]. cbn. intros Hi Ho. eexists. split; [reflexivity|]. unfold unmarshal_Queues, u32 in *.
  cbn [zero_Queues Queues_Input Queues_Output]. read_fields. reflexivity.
Qed.

(** The numbers of a state fit their type. *)
Definition PeerState_typed (s : PeerState) : Prop :=
  u32 (PeerState_LocalAs s) ∧ u32 (PeerState_PeerAs s) ∧ u32 (PeerState_PeerType s) ∧
  u32 (PeerState_RemovePrivateAs s) ∧ u32 (PeerState_SendCommunity s) ∧ u32 (PeerState_OutQ s) ∧
  u32 (PeerState_Flops s) ∧
  match PeerState_Queues s with None => True | Some q => u32 (Queues_Input q) ∧ u32 (Queues_Output q) end.

Lemma unmarshal_marshal_PeerState s : PeerState_typed s →
  ∃ ms, marshal_PeerState s = JObj ms ∧ unmarshal_PeerState ms zero_PeerState = (s, false).
Proof.
  unfold PeerState_typed, u32. destruct s as [f0 f1 f2 msgs f4 f5 f6 f7 qs f9 f10 f11 f12 f13 f14 f15 f16].
  cbn [PeerState_LocalAs PeerState_PeerAs PeerState_PeerType PeerState_RemovePrivateAs PeerState_SendCommunity
       PeerState_OutQ PeerState_Flops PeerState_Queues].
  intros (H2 & H5 & H7 & H9 & H11 & H14 & H15 & Hq). eexists. split; [reflexivity|].
  assert (∀ a, msgs = Some a → ∃ ms, marshal_Messages a = JObj ms ∧ unmarshal_Messages ms zero_Messages = (a, false))
    by (intros a _; apply unmarshal_marshal_Messages).
  assert (∀ a, qs = Some a → ∃ ms, marshal_Queues a = JObj ms ∧ unmarshal_Queues ms zero_Queues = (a, false))
    by (intros a ->; destruct Hq; by apply unmarshal_marshal_Queues).
  unfold unmarshal_PeerState. cbn -[unmarshal_Messages unmarshal_Queues marshal_Messages marshal_Queues omit_str omit_num omit_bool omit_ptr app].
  read_fields. reflexivity.
Qed.

Lemma unmarshal_marshal_TimersState t :
  ∃ ms, marshal_TimersState t = JObj ms ∧ unmarshal_TimersState ms zero_TimersState = (t, false).
Proof.
  eexists. split; [reflexivity|]. unfold unmarshal_TimersState. destruct t. cbn. read_fields. reflexivity.
Qed.

(** Only the members of a field matter to it, wherever they stand. *)
Definition members (k : string) (ms : list (string * json)) : list (string * json) :=
  filter (λ m, ToLower m.1 = ToLower k) ms.
Lemma dec_field_members {A} (dec : json → A → A * bool) k ms ms' x :
  members k ms = members k ms' → dec_field dec k ms x = dec_field dec k ms' x.
Proof.
  assert (∀ ms x, dec_field dec k ms x = dec_field dec k (members k ms) x) as Hm;
    [|intros E; by rewrite Hm, E, <- Hm].
  clear. unfold dec_field, members. intros ms x. generalize (x, false). induction ms as [|m ms IH]; intros acc; [done|].
  cbn [foldl]. rewrite filter_cons. case_bool_decide; [rewrite decide_True by done|rewrite decide_False by done; apply IH].
  cbn [foldl]. rewrite bool_decide_true by done. apply IH.
Qed.
Definition PeerState_fields : list string :=
  ["authPassword"; "description"; "localAs"; "messages"; "neighborAddress"; "peerAs"; "peerGroup"; "peerType"; "queues";
   "removePrivateAs"; "routeFlapDamping"; "sendCommunity"; "sessionState"; "adminState"; "outQ"; "flops"; "routerId"].
Definition TimersState_fields : list string :=
  ["connectRetry"; "holdTime"; "keepaliveInterval"; "minimumAdvertisementInterval"; "negotiatedHoldTime"; "uptime"; "downtime"].

(** A JSON object that holds the members of [j], in any order, possibly with
    others. *)
Definition shows (fields : list string) (j j0 : json) : Prop :=
  ∃ ms ms0, j = JObj ms ∧ j0 = JObj ms0 ∧ ∀ k, k ∈ fields → members k ms = members k ms0.

Ltac same_fields H := repeat match goal with
  | |- context [dec_field ?d ?k ?ms ?x] =>
      lazymatch type of H with ∀ k, _ → members k ms = members k ?ms0 =>
        rewrite (dec_field_members d k ms ms0 x) by (apply H; set_solver) end
  end.
Lemma unmarshal_shown_PeerState ms ms0 x :
  (∀ k, k ∈ PeerState_fields → members k ms = members k ms0) → unmarshal_PeerState ms x = unmarshal_PeerState ms0 x.
Proof. intros H. unfold unmarshal_PeerState. unfold PeerState_fields in H. same_fields H. reflexivity. Qed.
Lemma unmarshal_shown_TimersState ms ms0 x :
  (∀ k, k ∈ TimersState_fields → members k ms = members k ms0) → unmarshal_TimersState ms x = unmarshal_TimersState ms0 x.
Proof. intros H. unfold unmarshal_TimersState. unfold TimersState_fields in H. same_fields H. reflexivity. Qed.

(** ** What jsonpb promises

    A peer's configuration is the one of the JSON; an absent field is the
    empty string. *)
Fixpoint member (k : string) (ms : list (string * json)) : option json :=
  match ms with [] => None | (k', v) :: rest => if decide (k' = k) then Some v else member k rest end.
Definition json_member (k : string) (j : json) : option json :=
  match j with JObj ms => member k ms | _ => None end.
Definition json_text (j : option json) : string := match j with Some (JStr s) => s | _ => "" end.
Definition conf_of_json (j : json) : option (string * string) :=
  (λ c, (json_text (json_member "neighborAddress" c), json_text (json_member "neighborInterface" c)))
  <$> json_member "conf" j.

Class GoBgpMessagesOk `{GM : GoBgpMessages} : Prop := {
  UnmarshalPeer_conf j p : UnmarshalPeer j = Ok p → Peer_Conf p = conf_of_json j;
  UnmarshalPeer_panic j : UnmarshalPeer j ≠ Panic;
  UnmarshalGlobal_panic j : UnmarshalGlobal j ≠ Panic;
  MarshalState_panic p : MarshalState p ≠ Panic;
  MarshalTimersState_panic p : MarshalTimersState p ≠ Panic;
}.

Definition spec_conf (c : BgpPeerSpec) : option (string * string) :=
  (λ p, (PeerConf_NeighborAddress p, PeerConf_NeighborInterface p)) <$> BgpPeerSpec_Conf c.

Lemma member_app k a b : member k (a ++ b) = match member k a with Some v => Some v | None => member k b end.
Proof. induction a as [|[k' v] a IH]; cbn; [done|]. by case_decide. Qed.
Lemma member_other k ms : no_member k ms → member k ms = None.
Proof. induction 1 as [|[k' v] ms Hk _ IH]; cbn; [done|]. rewrite decide_False; [done|]. by intros ->. Qed.
Lemma member_str k v : json_text (member k (omit_str k v)) = v.
Proof. unfold omit_str. destruct v; cbn; [done|]. by rewrite decide_True. Qed.
Ltac skip_members := rewrite member_app; rewrite (member_other _ (_ _ _)) by
  (first [apply no_member_str | apply no_member_num | apply no_member_bool]; reflexivity).
Lemma text_member_app k v rest : member k rest = None → json_text (member k (omit_str k v ++ rest)) = v.
Proof.
  intros H. rewrite member_app. pose proof (member_str k v) as Hv. destruct (member k (omit_str k v)); [done|]. by rewrite H.
Qed.

Lemma conf_of_marshal c : conf_of_json (marshal_BgpPeerSpec c) = spec_conf c.
Proof.
  unfold spec_conf, conf_of_json, json_member, marshal_BgpPeerSpec. destruct (BgpPeerSpec_Conf c) as [p|].
  - cbn [omit_ptr app member]. rewrite decide_True by done. cbn [fmap option_fmap option_map]. unfold marshal_PeerConf.
    do 2 f_equal; repeat skip_members; apply text_member_app; repeat skip_members;
      apply member_other, no_member_bool; reflexivity.
  - unfold omit_ptr, omit_list, omit_map. repeat case_match; done.
Qed.

Section convert_facts.
Context `{GM : GoBgpMessages} {GO : GoBgpMessagesOk}.

(** The peer gobgp is given has the neighbour of the resource. *)
Lemma ToGoBgpPeer_conf c p : ToGoBgpPeer c = Ok p → Peer_Conf p = spec_conf c.
Proof. intros H. apply UnmarshalPeer_conf in H. by rewrite H, conf_of_marshal. Qed.
End convert_facts.

(** ** The JSON of gobgp's messages

    How protobuf writes a message as JSON (the proto3 mapping): the member of a
    field is named by the field's name in lower camel case, and left out when
    the field has its default; a 64-bit number is a decimal string, an
    enumeration the name of its value, a timestamp its text. *)
#[warnings="-register-all"] Inductive pb_value :=
| PbString (s : string)
| PbUint32 (z : Z)
| PbUint64 (z : Z)
| PbBool (b : bool)
| PbEnum (name : option string)       (* the name of a value other than the default *)
| PbTimestamp (text : option string)
| PbMessage (fields : option (list (string * pb_value))).

Definition upper_ascii (c : ascii) : ascii :=
  let n := nat_of_ascii c in if (97 <=? n)%nat && (n <=? 122)%nat then ascii_of_nat (n - 32) else c.
Fixpoint lower_camel (s : string) : string :=
  match s with
  | EmptyString => EmptyString
  | String c s' =>
      if decide (c = "_"%char)
      then match s' with
           | EmptyString => EmptyString
           | String d s'' => String (upper_ascii d) (lower_camel s'')
           end
      else String c (lower_camel s')
  end.

Fixpoint pb_json (v : pb_value) : option json :=
  match v with
  | PbString s => if str_empty s then None else Some (JStr s)
  | PbUint32 z => if z =? 0 then None else Some (JNum z)
  | PbUint64 z => if z =? 0 then None else Some (JStr (Itoa z))
  | PbBool b => if b then Some (JBool true) else None
  | PbEnum name => JStr <$> name
  | PbTimestamp text => JStr <$> text
  | PbMessage fields => (λ fs, JObj (flat_map (λ f, match pb_json f.2 with
                                                    | Some j => [(lower_camel f.1, j)]
                                                    | None => []
                                                    end) fs)) <$> fields
  end.
Definition pb_member (name : string) (v : pb_value) : list (string * json) :=
  match pb_json v with Some j => [(lower_camel name, j)] | None => [] end.

(** The messages of gobgp that the status is read from. *)
Record api_Message := mk_api_Message {
  am_notification : Z; am_update : Z; am_open : Z; am_keepalive : Z; am_refresh : Z; am_discarded : Z; am_total : Z;
  am_withdraw_update : Z; am_withdraw_prefix : Z }.
Record api_PeerState := mk_api_PeerState {
  as_auth_password : string; as_description : string; as_local_as : Z;
  as_messages : option (option api_Message * option api_Message);   (* received, sent *)
  as_neighbor_address : string; as_peer_as : Z; as_peer_group : string; as_peer_type : Z;
  as_queues : option (Z * Z);                                       (* input, output *)
  as_remove_private_as : Z; as_route_flap_damping : bool; as_send_community : Z;
  as_session_state : option string; as_admin_state : option string; as_out_q : Z; as_flops : Z; as_router_id : string }.
Record api_TimersState := mk_api_TimersState {
  at_connect_retry : Z; at_hold_time : Z; at_keepalive_interval : Z; at_minimum_advertisement_interval : Z;
  at_negotiated_hold_time : Z; at_uptime : option string; at_downtime : option string }.

Definition pb_Message (m : api_Message) : list (string * pb_value) :=
  [("notification", PbUint64 (am_notification m)); ("update", PbUint64 (am_update m)); ("open", PbUint64 (am_open m));
   ("keepalive", PbUint64 (am_keepalive m)); ("refresh", PbUint64 (am_refresh m)); ("discarded", PbUint64 (am_discarded m));
   ("total", PbUint64 (am_total m)); ("withdraw_update", PbUint64 (am_withdraw_update m));
   ("withdraw_prefix", PbUint64 (am_withdraw_prefix m))].
Definition pb_Messages (m : option api_Message * option api_Message) : list (string * pb_value) :=
  [("received", PbMessage (pb_Message <$> m.1)); ("sent", PbMessage (pb_Message <$> m.2))].
Definition pb_Queues (q : Z * Z) : list (string * pb_value) := [("input", PbUint32 q.1); ("output", PbUint32 q.2)].
Definition pb_PeerState (a : api_PeerState) : list (string * pb_value) :=
  [("auth_password", PbString (as_auth_password a)); ("description", PbString (as_description a));
   ("local_as", PbUint32 (as_local_as a)); ("messages", PbMessage (pb_Messages <$> as_messages a));
   ("neighbor_address", PbString (as_neighbor_address a)); ("peer_as", PbUint32 (as_peer_as a));
   ("peer_group", PbString (as_peer_group a)); ("peer_type", PbUint32 (as_peer_type a));
   ("queues", PbMessage (pb_Queues <$> as_queues a)); ("remove_private_as", PbUint32 (as_remove_private_as a));
   ("route_flap_damping", PbBool (as_route_flap_damping a)); ("send_community", PbUint32 (as_send_community a));
   ("session_state", PbEnum (as_session_state a)); ("admin_state", PbEnum (as_admin_state a));
   ("out_q", PbUint32 (as_out_q a)); ("flops", PbUint32 (as_flops a)); ("router_id", PbString (as_router_id a))].
Definition pb_TimersState (t : api_TimersState) : list (string * pb_value) :=
  [("connect_retry", PbUint64 (at_connect_retry t)); ("hold_time", PbUint64 (at_hold_time t));
   ("keepalive_interval", PbUint64 (at_keepalive_interval t));
   ("minimum_advertisement_interval", PbUint64 (at_minimum_advertisement_interval t));
   ("negotiated_hold_time", PbUint64 (at_negotiated_hold_time t)); ("uptime", PbTimestamp (at_uptime t));
   ("downtime", PbTimestamp (at_downtime t))].

(** The JSON [j] has the members of the message, in any order, possibly among
    others. *)
Definition shows_message (j : json) (fields : list (string * pb_value)) : Prop :=
  ∃ j0, pb_json (PbMessage (Some fields)) = Some j0 ∧ shows (lower_camel <$> fields.*1) j j0.

(** The status that these messages stand for: a counter as its decimal text,
    empty when it is 0; an enumeration as its name, empty for the default. *)
Definition counter (z : Z) : string := if z =? 0 then "" else Itoa z.
Definition status_Message (m : api_Message) : Message :=
  mkMessage (counter (am_notification m)) (counter (am_update m)) (counter (am_open m)) (counter (am_keepalive m))
    (counter (am_refresh m)) (counter (am_discarded m)) (counter (am_total m)) (counter (am_withdraw_update m))
    (counter (am_withdraw_prefix m)).
Definition status_of (a : api_PeerState) : PeerState :=
  mkPeerState (as_auth_password a) (as_description a) (as_local_as a)
    ((λ m, mkMessages (status_Message <$> m.1) (status_Message <$> m.2)) <$> as_messages a)
    (as_neighbor_address a) (as_peer_as a) (as_peer_group a) (as_peer_type a)
    ((λ q, mkQueues q.1 q.2) <$> as_queues a)
    (as_remove_private_as a) (as_route_flap_damping a) (as_send_community a)
    (default "" (as_session_state a)) (default "" (as_admin_state a)) (as_out_q a) (as_flops a) (as_router_id a).
Definition timers_of (t : api_TimersState) : TimersState :=
  mkTimersState (counter (at_connect_retry t)) (counter (at_hold_time t)) (counter (at_keepalive_interval t))
    (counter (at_minimum_advertisement_interval t)) (counter (at_negotiated_hold_time t))
    (default "" (at_uptime t)) (default "" (at_downtime t)).

(** The 32-bit fields are 32 bits wide; names and timestamps have a text. *)
Definition api_PeerState_typed (a : api_PeerState) : Prop :=
  PeerState_typed (status_of a) ∧ as_session_state a ≠ Some "" ∧ as_admin_state a ≠ Some "".
Definition api_TimersState_typed (t : api_TimersState) : Prop := at_uptime t ≠ Some "" ∧ at_downtime t ≠ Some "".

(** The proto3 JSON of the messages is the encoding of the status. *)
Lemma pretty_go_nonempty x : ∀ s, str_empty s = false → str_empty (pretty_N_go x s) = false.
Proof.
  induction (N.lt_wf_0 x) as [x _ IH]. intros s Hs. destruct (decide (x = 0%N)) as [->|Hx]; [by rewrite pretty_N_go_0|].
  rewrite pretty_N_go_step by lia. apply IH; [by apply N.div_lt; lia|done].
Qed.
Lemma Itoa_nonempty z : str_empty (Itoa z) = false.
Proof.
  destruct z as [|p|p]; [done| |done]. change (Itoa (Zpos p)) with (pretty_N_go (Npos p) "").
  rewrite pretty_N_go_step by done. by apply pretty_go_nonempty.
Qed.
Lemma pb_member_string name v : pb_member name (PbString v) = omit_str (lower_camel name) v.
Proof. unfold pb_member, omit_str. cbn. by destruct (str_empty v). Qed.
Lemma pb_member_uint32 name z : pb_member name (PbUint32 z) = omit_num (lower_camel name) z.
Proof. unfold pb_member, omit_num. cbn. by destruct (z =? 0). Qed.
Lemma pb_member_uint64 name z : pb_member name (PbUint64 z) = omit_str (lower_camel name) (counter z).
Proof. unfold pb_member, omit_str, counter. cbn. destruct (z =? 0); [done|]. by rewrite Itoa_nonempty. Qed.
Lemma pb_member_bool name b : pb_member name (PbBool b) = omit_bool (lower_camel name) b.
Proof. by destruct b. Qed.
Lemma pb_member_enum name v : v ≠ Some "" → pb_member name (PbEnum v) = omit_str (lower_camel name) (default "" v).
Proof. destruct v as [[|c v]|]; [|done..]. by intros []. Qed.
Lemma pb_member_timestamp name v : v ≠ Some "" → pb_member name (PbTimestamp v) = omit_str (lower_camel name) (default "" v).
Proof. destruct v as [[|c v]|]; [|done..]. by intros []. Qed.
Lemma pb_json_fields fs : pb_json (PbMessage (Some fs)) = Some (JObj (flat_map (λ f, pb_member f.1 f.2) fs)).
Proof. done. Qed.
Lemma pb_member_message {A B} name (f : A → list (string * pb_value)) (g : A → B) (marshal : B → json) (v : option A) :
  (∀ a, v = Some a → JObj (flat_map (λ x, pb_member x.1 x.2) (f a)) = marshal (g a)) →
  pb_member name (PbMessage (f <$> v)) = omit_ptr (lower_camel name) marshal (g <$> v).
Proof. intros Hv. destruct v as [a|]; [|done]. cbn. by rewrite <- (Hv a eq_refl). Qed.

Lemma pb_Message_json m : JObj (flat_map (λ x, pb_member x.1 x.2) (pb_Message m)) = marshal_Message (status_Message m).
Proof. cbn [pb_Message flat_map fst snd]. rewrite !pb_member_uint64, app_nil_r. reflexivity. Qed.
Lemma pb_Messages_json m : JObj (flat_map (λ x, pb_member x.1 x.2) (pb_Messages m)) =
  marshal_Messages (mkMessages (status_Message <$> m.1) (status_Message <$> m.2)).
Proof.
  cbn [pb_Messages flat_map fst snd]. rewrite !(pb_member_message _ _ status_Message marshal_Message), app_nil_r
    by (intros; apply pb_Message_json). reflexivity.
Qed.
Lemma pb_Queues_json q : JObj (flat_map (λ x, pb_member x.1 x.2) (pb_Queues q)) = marshal_Queues (mkQueues q.1 q.2).
Proof. cbn [pb_Queues flat_map fst snd]. rewrite !pb_member_uint32, app_nil_r. reflexivity. Qed.

Lemma pb_PeerState_json a : api_PeerState_typed a →
  pb_json (PbMessage (Some (pb_PeerState a))) = Some (marshal_PeerState (status_of a)).
Proof.
  intros (_ & H1 & H2). rewrite pb_json_fields. cbn [pb_PeerState flat_map fst snd].
  rewrite !pb_member_string, !pb_member_uint32, !pb_member_bool, !pb_member_enum, app_nil_r by done.
  rewrite (pb_member_message _ _ (λ m, mkMessages (status_Message <$> m.1) (status_Message <$> m.2)) marshal_Messages) by (intros; apply pb_Messages_json).
  rewrite (pb_member_message _ _ (λ q, mkQueues q.1 q.2) marshal_Queues) by (intros; apply pb_Queues_json).
  reflexivity.
Qed.
Lemma pb_TimersState_json t : api_TimersState_typed t →
  pb_json (PbMessage (Some (pb_TimersState t))) = Some (marshal_TimersState (timers_of t)).
Proof.
  intros [H1 H2]. rewrite pb_json_fields. cbn [pb_TimersState flat_map fst snd].
  rewrite !pb_member_uint64, !pb_member_timestamp, app_nil_r by done. reflexivity.
Qed.

(** C26: the status of a peer is gobgp's.  When the JSON of a peer's state and
    timers shows two messages of gobgp by the proto3 mapping (fields named in
    lower camel case, 64-bit numbers as strings, enumerations by name), in any
    order and among other members, [GetStatusFromGoBgpPeer] gives every field of
    these messages: numbers as they are, counters as their text, empty for 0. *)
Theorem GetStatus_exact `{GM : GoBgpMessages} peer j jt (a : api_PeerState) (t : api_TimersState) :
  MarshalState peer = Ok j → shows_message j (pb_PeerState a) → api_PeerState_typed a →
  Peer_Timers peer = true →
  MarshalTimersState peer = Ok jt → shows_message jt (pb_TimersState t) → api_TimersState_typed t →
  GetStatusFromGoBgpPeer peer = Ok (mkNodePeerStatus (status_of a) (timers_of t)).
Proof.
  intros Hj (j0 & Ej & ms & ms0 & -> & E0 & Hms) Hty Hti Hjt (jt0 & Ejt & mt & mt0 & -> & Et & Hmt) Htt.
  pose proof (Some_inj _ _ (eq_trans (eq_sym Ej) (pb_PeerState_json a Hty))) as ->.
  pose proof (Some_inj _ _ (eq_trans (eq_sym Ejt) (pb_TimersState_json t Htt))) as ->. clear Ej Ejt.
  destruct (unmarshal_marshal_PeerState (status_of a) (proj1 Hty)) as (ms1 & E1 & Hs), (unmarshal_marshal_TimersState (timers_of t)) as (mt1 & Et1 & Ht).
  rewrite E1 in E0. rewrite Et1 in Et. injection E0 as <-. injection Et as <-.
  unfold GetStatusFromGoBgpPeer. rewrite Hj. cbn [mbind Result_bind unmarshal_struct].
  rewrite (unmarshal_shown_PeerState ms ms1 _ Hms), Hs. cbn [mbind Result_bind].
  rewrite Hti, Hjt. cbn [negb mbind Result_bind unmarshal_struct].
  by rewrite (unmarshal_shown_TimersState mt mt1 _ Hmt), Ht.
Qed.

(** ** A gobgp to evaluate

    A peer is the JSON it was made of and the messages it shows. *)
Record demo_Peer := mk_demo_Peer { demo_json : json; demo_state : api_PeerState; demo_timers : api_TimersState }.
Definition state_of_conf (j : json) : api_PeerState :=
  let a := match conf_of_json j with Some c => c.1 | None => "" end in
  mk_api_PeerState "" "" 0 (Some (Some (mk_api_Message 0 12 1 30 0 0 43 0 0), None)) a 0 "" 0 None 0 false 0
    (Some "ESTABLISHED") None 0 0 "".
Definition no_timers : api_TimersState := mk_api_TimersState 0 90 30 0 90 None None.
Definition pb_text (fields : list (string * pb_value)) : Result json :=
  match pb_json (PbMessage (Some fields)) with Some j => Ok j | None => Err (Errorf "nil message") end.
Lemma pb_text_ok fields : pb_text fields ≠ Panic.
Proof. by unfold pb_text; destruct (pb_json _). Qed.
#[export] Instance demo_messages : GoBgpMessages := {|
  api_Peer := demo_Peer;
  api_Global := json;
  UnmarshalPeer j := Ok (mk_demo_Peer j (state_of_conf j) no_timers);
  UnmarshalGlobal j := Ok j;
  Peer_Conf p := conf_of_json (demo_json p);
  MarshalState p := pb_text (pb_PeerState (demo_state p));
  Peer_Timers p := true;
  MarshalTimersState p := pb_text (pb_TimersState (demo_timers p)) |}.
#[export] Instance demo_messages_ok : GoBgpMessagesOk.
Proof. split; [by intros j p [= <-]|done|done|intros p; apply pb_text_ok..]. Qed.

Definition demo_peer_spec (addr : string) : BgpPeerSpec :=
  mkBgpPeerSpec (Some (mkPeerConf "" "" 0 addr 65001 "" 0 "" false 0 "" "" 0 false false)) None None None None [] None.

Definition demo_peer_json : json := marshal_BgpPeerSpec (demo_peer_spec "10.0.0.1").
Definition demo_peer_shown : demo_Peer := mk_demo_Peer demo_peer_json (state_of_conf demo_peer_json) no_timers.
Lemma GetStatus_exact_witness :
  GetStatusFromGoBgpPeer demo_peer_shown = Ok (mkNodePeerStatus (status_of (state_of_conf demo_peer_json)) (timers_of no_timers)).
Proof.
  refine (GetStatus_exact demo_peer_shown _ _ (state_of_conf demo_peer_json) no_timers eq_refl _ _ eq_refl eq_refl _ _).
  - eexists. split; [reflexivity|]. do 2 eexists. split; [reflexivity|]. split; reflexivity.
  - split_and!; [repeat split; discriminate || reflexivity|discriminate|discriminate].
  - eexists. split; [reflexivity|]. do 2 eexists. split; [reflexivity|]. split; reflexivity.
  - split; discriminate.
Defined.
