(* ===== verification/BgpDaemon.v ===== *)
(** * Configuring gobgp ([pkg/speaker/bgp/bgp]: conf.go, peers.go, policy.go)

    The speaker's calls to the embedded gobgp server for its global
    configuration, peers and policies.  The calls are the class [BgpDaemon]
    (gobgp is third-party), with the running configuration, the peers and the
    policies as its observable state ([BgpDaemonOk] is the documented effect
    of the calls); the temporary file of a policy goes through the class
    [TempFiles]. *)
From S2P Require Import Prelude GoNet K8s Speaker Metrics BgpConfig BgpTable BgpTypes BgpPath.
Local Open Scope Z_scope.

(** ** gobgp and the file system *)
Record DaemonView `{GM : GoBgpMessages} := mkDaemonView {
  dv_global : option api_Global;              (* the running configuration *)
  dv_peers : gmap string api_Peer;
  dv_policies : option api_RoutingPolicy;
  dv_import : option api_PolicyAssignment;
  dv_export : option api_PolicyAssignment
}.
Arguments mkDaemonView {GM} _ _ _ _ _.

Class BgpDaemon (G : Type) `{GM : GoBgpMessages} := {
  StartBgp : api_Global → ST G ();
  StopBgp : ST G ();
  GetBgpGlobal : ST G (string * Z);          (* RouterId, As *)
  AddPeer : api_Peer → ST G ();
  UpdatePeer : api_Peer → ST G ();
  DeletePeer : string → string → ST G ();    (* Address, Interface *)
  ListPeer : ST G (list api_Peer);
  SetPolicies : api_RoutingPolicy → ST G ();
  SetPolicyAssignment : api_PolicyAssignment → ST G ();
  (** What is observed, and the neighbour an address and interface stand for. *)
  dm_view : G → DaemonView;
  neighbor_key : string * string → string;
}.

Class TempFiles (F : Type) := {
  CreateTemp : ST F string;
  WriteFile : string → string → ST F ();
  Abs : string → Result string;
  RemoveAll : string → ST F ();
  tf_files : F → gmap string string;
}.

Record ConfigMap := mkConfigMap { ConfigMap_Name : string; ConfigMap_Namespace : string; ConfigMap_Data : gomap }.
Definition OpenELBBgpName : string := "gobgp.conf".

(** What the speaker's process reaches: gobgp, the metrics, the files. *)
Record BgpProcess (G V F : Type) := mkBgpProcess { bp_bgp : Bgp G; bp_metrics : Registry V; bp_files : F }.
Arguments mkBgpProcess {G V F} _ _ _.
Arguments bp_bgp {G V F} _.
Arguments bp_metrics {G V F} _.
Arguments bp_files {G V F} _.

Section daemon.
Context {R : GoRange} {G V F : Type} `{GM : GoBgpMessages} {BD : BgpDaemon G} {MV : MetricVec V} {TF : TempFiles F}
  {VP : Viper F} {AF : AddressFamilies}.
(** [util.GetNodeName()] *)
Context (nodeName : string).
Abbreviation W := (BgpProcess G V F).

Definition on_daemon {A} (call : ST G A) : ST W A := λ w,
  let b := bp_bgp w in
  let '(g, r) := call (bgpServer b) in
  (mkBgpProcess {| rack := rack b; bgpServer := g |} (bp_metrics w) (bp_files w), r).
Definition on_files {A} (call : ST F A) : ST W A := λ w,
  let '(f, r) := call (bp_files w) in (mkBgpProcess (bp_bgp w) (bp_metrics w) f, r).
Definition on_metrics (f : Registry V → Registry V) : ST W () := λ w,
  (mkBgpProcess (bp_bgp w) (f (bp_metrics w)) (bp_files w), Ok ()).
Definition set_rack (rk : string) : ST W () := λ w,
  (mkBgpProcess {| rack := rk; bgpServer := bgpServer (bp_bgp w) |} (bp_metrics w) (bp_files w), Ok ()).
(** A call whose error is ignored. *)
Definition ignore_err {A} (call : ST W A) : ST W () := st_try call;; mret ().

(** ** [policy.go] *)
Definition toDefaultTable (r : string) : table_RouteType :=
  if bool_decide (r = DEFAULT_POLICY_TYPE_ACCEPT_ROUTE) then ROUTE_TYPE_ACCEPT
  else if bool_decide (r = DEFAULT_POLICY_TYPE_REJECT_ROUTE) then ROUTE_TYPE_REJECT
  else ROUTE_TYPE_NONE_.
Definition toPolicies (r : list string) : list table_Policy := mk_table_Policy <$> r.

Definition import_assignment (a : ApplyPolicyConfig) : api_PolicyAssignment :=
  NewAPIPolicyAssignmentFromTableStruct
    (mk_table_PolicyAssignment GLOBAL_RIB_NAME POLICY_DIRECTION_IMPORT
       (toPolicies (ApplyPolicyConfig_ImportPolicyList a)) (toDefaultTable (ApplyPolicyConfig_DefaultImportPolicy a))).
Definition export_assignment (a : ApplyPolicyConfig) : api_PolicyAssignment :=
  NewAPIPolicyAssignmentFromTableStruct
    (mk_table_PolicyAssignment GLOBAL_RIB_NAME POLICY_DIRECTION_EXPORT
       (toPolicies (ApplyPolicyConfig_ExportPolicyList a)) (toDefaultTable (ApplyPolicyConfig_DefaultExportPolicy a))).
Definition assignGlobalpolicy (a : ApplyPolicyConfig) : ST W () :=
  on_daemon (SetPolicyAssignment (import_assignment a));;
  on_daemon (SetPolicyAssignment (export_assignment a)).

(** The path is empty when an error came before it was known. *)
Definition writeToTempFile (val : string) : ST W (string * option error) :=
  temp ← st_try (on_files CreateTemp);
  match temp with
  | Err e => mret ("", Some e)
  | Panic => st_lift Panic
  | Ok name =>
      r ← st_try (on_files (WriteFile name val));
      match r with
      | Err e => mret ("", Some e)
      | Panic => st_lift Panic
      | Ok _ => match Abs name with
                | Ok path => mret (path, None)
                | Err e => mret ("", Some e)
                | Panic => st_lift Panic
                end
      end
  end.

(** The body of [updatePolicy] once the file is written. *)
Definition applyPolicyFile (path : string) : ST W () :=
  newConfig ← st_read (λ w, ReadConfigfile (bp_files w) path "toml");
  rp ← st_lift (NewAPIRoutingPolicyFromConfigStruct (ConfigSetToRoutingPolicy newConfig));
  on_daemon (SetPolicies rp);;
  assignGlobalpolicy (ApplyPolicy_Config (Global_ApplyPolicy (BgpConfigSet_Global newConfig))).

Definition policy_body (file : string * option error) : ST W (Result ()) :=
  match file.2 with
  | Some e => mret (Err e)
  | None => st_try (applyPolicyFile file.1)
  end.

(** [defer os.RemoveAll(path)] runs whatever the body returns. *)
Definition updatePolicy (cm : option ConfigMap) : ST W () :=
  match cm with
  | None => mret ()
  | Some cm =>
      match mget (ConfigMap_Data cm) OpenELBBgpName with
      | None => mret ()
      | Some policyConf =>
          file ← writeToTempFile policyConf;
          r ← policy_body file;
          ignore_err (on_files (RemoveAll file.1));;
          st_lift r
      end
  end.

(** ** [conf.go] *)
Definition HandleBgpGlobalConfig (global : BgpConf) (rk : string) (delete : bool) (cm : option ConfigMap) : ST W () :=
  set_rack rk;;
  if delete then on_daemon StopBgp
  else
    request ← st_lift (ToGoBgpGlobalConf (BgpConf_Spec global));
    ignore_err (on_daemon StopBgp);;
    on_daemon (StartBgp request);;
    updatePolicy cm.

(** ** [peers.go] *)
Definition defaultFamily (ip : IP) : Family :=
  if ip_nil (To4 ip) then mkFamily "AFI_IP6" "SAFI_UNICAST" else mkFamily "AFI_IP" "SAFI_UNICAST".

(** [net.ParseIP(neighbor.Spec.Conf.NeighborAddress)] and its check. *)
Definition neighbor_ip (spec : BgpPeerSpec) : Result IP :=
  match BgpPeerSpec_Conf spec with
  | None => Panic
  | Some conf =>
      let ip := ParseIP (PeerConf_NeighborAddress conf) in
      if ip_nil ip then Err (Errorf "field Spec.Conf.NeighborAddress invalid") else Ok ip
  end.
Definition default_config (ip : IP) : AfiSafiConfig := mkAfiSafiConfig (Some (defaultFamily ip)) true.

(** The loop over [AfiSafis]: a nil element is a nil dereference. *)
Fixpoint default_configs (spec : BgpPeerSpec) (l : list (option AfiSafi)) : Result (list (option AfiSafi)) :=
  match l with
  | [] => Ok []
  | None :: _ => Panic
  | Some a :: rest =>
      a' ← match AfiSafi_Config a with
           | Some _ => Ok a
           | None => ip ← neighbor_ip spec;
                     Ok (mkAfiSafi (AfiSafi_MpGracefulRestart a) (Some (default_config ip)) (AfiSafi_AddPaths a))
           end;
      rest' ← default_configs spec rest;
      Ok (Some a' :: rest')
  end.
Definition default_afisafis (spec : BgpPeerSpec) : Result (list (option AfiSafi)) :=
  match BgpPeerSpec_AfiSafis spec with
  | [] => ip ← neighbor_ip spec;
          Ok [Some (mkAfiSafi None (Some (default_config ip)) (Some (mkAddPaths (Some (mkAddPathsConfig false 10)))))]
  | l => default_configs spec l
  end.
Definition with_AfiSafis (spec : BgpPeerSpec) (l : list (option AfiSafi)) : BgpPeerSpec :=
  mkBgpPeerSpec (BgpPeerSpec_Conf spec) (BgpPeerSpec_EbgpMultihop spec) (BgpPeerSpec_Timers spec)
    (BgpPeerSpec_Transport spec) (BgpPeerSpec_GracefulRestart spec) l (BgpPeerSpec_NodeSelector spec).

Definition session_state (s : string) : Z :=
  if bool_decide (s = "IDLE") then 0 else if bool_decide (s = "CONNECT") then 1
  else if bool_decide (s = "ACTIVE") then 2 else if bool_decide (s = "OPENSENT") then 3
  else if bool_decide (s = "OPENCONFIRM") then 4 else if bool_decide (s = "ESTABLISHED") then 5 else 0.

(** One turn of the loop of [UpdatePeerMetrics]. *)
Definition peer_metrics (spec : BgpPeerSpec) (delete : bool) (entry : string * NodePeerStatus) : ST W () :=
  let '(node, peerStatus) := entry in
  match BgpPeerSpec_Conf spec with
  | None => st_lift Panic
  | Some conf =>
      let peerIP := PeerConf_NeighborAddress conf in
      if negb (bool_decide (node = nodeName)) then mret ()
      else if delete then on_metrics (DeleteBGPPeerMetrics peerIP node)
      else
        let ps := NodePeerStatus_PeerState peerStatus in
        match PeerState_Messages ps ≫= Messages_Received with
        | None => st_lift Panic
        | Some received =>
            on_metrics (UpdateBGPSessionMetrics peerIP node (FloatOfInt (session_state (PeerState_SessionState ps)))
                          (FloatOfText (Message_Update received)))
        end
  end.
Fixpoint peers_metrics (spec : BgpPeerSpec) (delete : bool) (entries : list (string * NodePeerStatus)) : ST W () :=
  match entries with
  | [] => mret ()
  | e :: rest => peer_metrics spec delete e;; peers_metrics spec delete rest
  end.
Definition UpdatePeerMetrics (peer : BgpPeer) (delete : bool) : ST W () :=
  peers_metrics (BgpPeer_Spec peer) delete (range_map (default ∅ (BgpPeerStatus_NodesPeerStatus (BgpPeer_Status peer)))).

Definition with_spec (peer : BgpPeer) (spec : BgpPeerSpec) : BgpPeer := mkBgpPeer (BgpPeer_Meta peer) spec (BgpPeer_Status peer).

(** The peer as [HandleBgpPeer] leaves it: it writes the defaults into it. *)
Definition defaulted (neighbor : BgpPeer) : BgpPeer :=
  match default_afisafis (BgpPeer_Spec neighbor) with
  | Ok l => with_spec neighbor (with_AfiSafis (BgpPeer_Spec neighbor) l)
  | _ => neighbor
  end.
Definition HandleBgpPeer (neighbor : BgpPeer) (delete : bool) : ST W () :=
  afisafis ← st_lift (default_afisafis (BgpPeer_Spec neighbor));
  let neighbor := with_spec neighbor (with_AfiSafis (BgpPeer_Spec neighbor) afisafis) in
  request ← st_lift (ToGoBgpPeer (BgpPeer_Spec neighbor));
  UpdatePeerMetrics neighbor delete;;
  if delete then
    match Peer_Conf request with
    | None => st_lift Panic
    | Some (address, interface) => ignore_err (on_daemon (DeletePeer address interface))
    end
  else
    e ← st_try (on_daemon (UpdatePeer request));
    match e with
    | Ok _ => mret ()
    | Err _ => on_daemon (AddPeer request)
    | Panic => st_lift Panic
    end.

(** The resource a listed peer belongs to: the first with its address. *)
Fixpoint find_peer (bgpPeers : list BgpPeer) (address : string) : Result (option BgpPeer) :=
  match bgpPeers with
  | [] => Ok None
  | p :: rest =>
      match BgpPeerSpec_Conf (BgpPeer_Spec p) with
      | None => Panic
      | Some conf => if bool_decide (PeerConf_NeighborAddress conf = address) then Ok (Some p) else find_peer rest address
      end
  end.
Definition set_node_status (p : BgpPeer) (st : NodePeerStatus) : BgpPeer :=
  mkBgpPeer (BgpPeer_Meta p) (BgpPeer_Spec p)
    (mkBgpPeerStatus (Some (<[nodeName := st]> (default ∅ (BgpPeerStatus_NodesPeerStatus (BgpPeer_Status p)))))).

(** The callback over the listed peers: the resources with their new status,
    and the peers without a resource. *)
Fixpoint sort_peers (bgpPeers : list BgpPeer) (listed : list api_Peer) : Result (list BgpPeer * list api_Peer) :=
  match listed with
  | [] => Ok ([], [])
  | peer :: rest =>
      match GetStatusFromGoBgpPeer peer with
      | Panic => Panic
      | Err _ => sort_peers bgpPeers rest
      | Ok tmp =>
          found ← find_peer bgpPeers (PeerState_NeighborAddress (NodePeerStatus_PeerState tmp));
          '(result, dels) ← sort_peers bgpPeers rest;
          match found with
          | None => Ok (result, peer :: dels)
          | Some p => Ok (set_node_status p tmp :: result, dels)
          end
      end
  end.
Fixpoint delete_peers (dels : list api_Peer) : ST W () :=
  match dels with
  | [] => mret ()
  | del :: rest =>
      match Peer_Conf del with
      | None => st_lift Panic
      | Some (address, interface) => ignore_err (on_daemon (DeletePeer address interface));; delete_peers rest
      end
  end.
Definition HandleBgpPeerStatus (bgpPeers : list BgpPeer) : ST W (list BgpPeer) :=
  listed ← st_try (on_daemon ListPeer);
  sorted ← st_lift (match listed with
                    | Ok l => sort_peers bgpPeers l
                    | Err _ => Ok ([], [])
                    | Panic => Panic
                    end);
  delete_peers sorted.2;;
  mret sorted.1.

Definition GetBgpConfStatus : ST W (gmap string NodeConfStatus) :=
  r ← st_try (on_daemon GetBgpGlobal);
  match r with
  | Ok (routerId, as_) => mret {[nodeName := mkNodeConfStatus routerId as_]}
  | Err _ => mret {[nodeName := mkNodeConfStatus "" 0]}
  | Panic => st_lift Panic
  end.
End daemon.

(** ** What gobgp and the file system promise *)
Section laws.
Context `{GM : GoBgpMessages}.
Definition started (req : api_Global) : DaemonView := mkDaemonView (Some req) ∅ None None None.
Definition stopped : DaemonView := mkDaemonView None ∅ None None None.
Definition with_peers (v : DaemonView) (m : gmap string api_Peer) : DaemonView :=
  mkDaemonView (dv_global v) m (dv_policies v) (dv_import v) (dv_export v).
Definition with_policies (v : DaemonView) (p : api_RoutingPolicy) : DaemonView :=
  mkDaemonView (dv_global v) (dv_peers v) (Some p) (dv_import v) (dv_export v).
Definition with_assignment (v : DaemonView) (a : api_PolicyAssignment) : DaemonView :=
  match apa_Direction a with
  | PolicyDirection_IMPORT => mkDaemonView (dv_global v) (dv_peers v) (dv_policies v) (Some a) (dv_export v)
  | PolicyDirection_EXPORT => mkDaemonView (dv_global v) (dv_peers v) (dv_policies v) (dv_import v) (Some a)
  | PolicyDirection_UNKNOWN => v
  end.

(** What a call does when it succeeds and when it fails. *)
Definition call_rel {G A} `{BD : BgpDaemon G} (call : ST G A) (effect : DaemonView → A → DaemonView → Prop)
    (failed : DaemonView → DaemonView → Prop) : Prop :=
  ∀ g g' r, call g = (g', r) →
    match r with
    | Ok a => effect (dm_view g) a (dm_view g')
    | Err _ => failed (dm_view g) (dm_view g')
    | Panic => False
    end.

(** A call that succeeds has its effect; one that fails has none. *)
Definition call_law {G A} `{BD : BgpDaemon G} (call : ST G A) (effect : DaemonView → A → DaemonView → Prop)
    (refused : DaemonView → Prop) : Prop := call_rel call effect (λ v v', v' = v ∧ refused v).

(** What gobgp documents about its calls, as far as the code relies on it: a
    successful call has its effect on the peers, the configuration or the
    policies; a failed one has none, but that a failed [UpdatePeer] may lose the
    peer it was to change. *)
Class BgpDaemonOk (G : Type) `{BD : !BgpDaemon G} : Prop := {
  StartBgp_law req : call_law (StartBgp req) (λ _ _ v', v' = started req) (λ _, True);
  StopBgp_law : call_law StopBgp (λ _ _ v', v' = stopped) (λ _, True);
  GetBgpGlobal_law : call_law GetBgpGlobal (λ v _ v', v' = v) (λ _, True);
  AddPeer_law p : call_law (AddPeer p)
    (λ v _ v', ∃ c, Peer_Conf p = Some c ∧ dv_peers v !! neighbor_key c = None
                    ∧ v' = with_peers v (<[neighbor_key c := p]> (dv_peers v))) (λ _, True);
  (** An update may delete the neighbour and add it again; if it fails in
      between, the neighbour is lost. *)
  UpdatePeer_law p : call_rel (UpdatePeer p)
    (λ v _ v', ∃ c, Peer_Conf p = Some c ∧ is_Some (dv_peers v !! neighbor_key c)
                    ∧ v' = with_peers v (<[neighbor_key c := p]> (dv_peers v)))
    (λ v v', v' = v ∨ ∃ c, Peer_Conf p = Some c ∧ v' = with_peers v (delete (neighbor_key c) (dv_peers v)));
  (** Deleting by address fails for an unknown neighbour only. *)
  DeletePeer_law a i : call_law (DeletePeer a i)
    (λ v _ v', v' = with_peers v (delete (neighbor_key (a, i)) (dv_peers v)))
    (λ v, i = "" → dv_peers v !! neighbor_key (a, i) = None);
  ListPeer_law : call_law ListPeer
    (λ v l v', v' = v ∧ Forall (λ p, is_Some (Peer_Conf p)) l
               ∧ (neighbor_key <$> omap Peer_Conf l) ≡ₚ (map_to_list (dv_peers v)).*1) (λ _, True);
  SetPolicies_law rp : call_law (SetPolicies rp) (λ v _ v', v' = with_policies v rp) (λ _, True);
  SetPolicyAssignment_law a : call_law (SetPolicyAssignment a) (λ v _ v', v' = with_assignment v a) (λ _, True);
}.

(** A freshly started server has no routes, and configuring policies and peers
    gives it none. *)
Class BgpRestartOk (G : Type) `{BD : !BgpDaemon G} {BS : BgpServer G} : Prop := {
  StartBgp_routes req g g' : StartBgp req g = (g', Ok ()) → rib g' = ∅;
  SetPolicies_routes rp g g' r : SetPolicies rp g = (g', r) → rib g' = rib g;
  SetPolicyAssignment_routes a g g' r : SetPolicyAssignment a g = (g', r) → rib g' = rib g;
  AddPeer_routes p g g' r : AddPeer p g = (g', r) → rib g' = rib g;
  UpdatePeer_routes p g g' r : UpdatePeer p g = (g', r) → rib g' = rib g;
  ListPeer_routes g g' r : ListPeer g = (g', r) → rib g' = rib g;
}.
End laws.

Class TempFilesOk (F : Type) `{TF : TempFiles F} : Prop := {
  CreateTemp_law f f' r : CreateTemp f = (f', r) →
    match r with
    | Ok name => tf_files f !! name = None ∧ tf_files f' = <[name := ""]> (tf_files f) ∧ name ≠ ""
                 ∧ (Abs name = Ok name ∨ ∃ e, Abs name = Err e)   (* TMPDIR is absolute *)
    | Err _ => tf_files f' = tf_files f
    | Panic => False
    end;
  WriteFile_law name val f f' r : WriteFile name val f = (f', r) →
    match r with
    | Ok _ => tf_files f' = <[name := val]> (tf_files f)
    | Err _ => tf_files f' = tf_files f ∨ ∃ val', tf_files f' = <[name := val']> (tf_files f)
    | Panic => False
    end;
  (** The empty path names no file. *)
  RemoveAll_law name f f' r : RemoveAll name f = (f', r) →
    match r with Ok _ => tf_files f' = delete name (tf_files f) | Err _ => True | Panic => False end;
  no_empty_path f : tf_files f !! "" = None;
}.

(** ** The calls on the process *)
Section process.
Context {R : GoRange} {G V F : Type} `{GM : GoBgpMessages} {BD : BgpDaemon G} {MV : MetricVec V}.
Context (nodeName : string).
Implicit Types w : BgpProcess G V F.

Definition wview w : DaemonView := dm_view (bgpServer (bp_bgp w)).
(** Nothing but gobgp's own state changed. *)
Definition same_rest w w' : Prop :=
  rack (bp_bgp w') = rack (bp_bgp w) ∧ bp_metrics w' = bp_metrics w ∧ bp_files w' = bp_files w.

Lemma on_daemon_rel {A} (call : ST G A) effect failed w w' r :
  call_rel call effect failed → on_daemon call w = (w', r) →
  same_rest w w' ∧
  match r with
  | Ok a => effect (wview w) a (wview w')
  | Err _ => failed (wview w) (wview w')
  | Panic => False
  end.
Proof.
  intros Hc. unfold on_daemon. destruct (call _) as [g r1] eqn:E. intros [= <- <-].
  split; [done|]. exact (Hc _ _ _ E).
Qed.
Lemma on_daemon_law {A} (call : ST G A) effect refused w w' r :
  call_law call effect refused → on_daemon call w = (w', r) →
  same_rest w w' ∧
  match r with
  | Ok a => effect (wview w) a (wview w')
  | Err _ => wview w' = wview w ∧ refused (wview w)
  | Panic => False
  end.
Proof. apply on_daemon_rel. Qed.

Lemma ignore_err_spec {A} (c : ST (BgpProcess G V F) A) w w' r : ignore_err c w = (w', r) →
  ∃ r1, c w = (w', r1) ∧ r = match r1 with Panic => Panic | _ => Ok () end.
Proof.
  unfold ignore_err, st_try, mbind, ST_bind. destruct (c w) as [w1 [a|e|]]; intros [= <- <-]; eauto.
Qed.
Lemma st_try_spec {A} (c : ST (BgpProcess G V F) A) w w' r : st_try c w = (w', r) →
  ∃ r1, c w = (w', r1) ∧ r = match r1 with Panic => Panic | _ => Ok r1 end.
Proof. unfold st_try. destruct (c w) as [w1 [a|e|]]; intros [= <- <-]; eauto. Qed.

(** Metrics are only metrics. *)
Definition only_metrics w w' : Prop := bp_bgp w' = bp_bgp w ∧ bp_files w' = bp_files w.
Lemma peer_metrics_only spec delete e w w' r :
  peer_metrics nodeName spec delete e w = (w', r) → only_metrics w w'.
Proof.
  unfold peer_metrics. destruct e as [node st]. destruct (BgpPeerSpec_Conf spec); [|by intros [= <- <-]].
  repeat case_match; by intros [= <- <-].
Qed.
Lemma UpdatePeerMetrics_only peer delete w w' r :
  UpdatePeerMetrics nodeName peer delete w = (w', r) → only_metrics w w'.
Proof.
  unfold UpdatePeerMetrics. generalize (range_map (default ∅ (BgpPeerStatus_NodesPeerStatus (BgpPeer_Status peer)))).
  intros l. revert w. induction l as [|e l IH]; intros w; cbn [peers_metrics]; [by intros [= <- <-]|].
  unfold mbind, ST_bind. destruct (peer_metrics _ _ _ e w) as [w1 r1] eqn:E1.
  destruct (peer_metrics_only _ _ _ _ _ _ E1) as [H1 H2].
  destruct r1; [|intros [= <- <-]; by split..]. intros [H3 H4]%IH. split; congruence.
Qed.

(** The metrics of a peer that is deleted are gone, when its status names the
    node. *)
Lemma default_afisafis_conf neighbor : spec_conf (BgpPeer_Spec (defaulted neighbor)) = spec_conf (BgpPeer_Spec neighbor).
Proof. unfold defaulted. by destruct (default_afisafis _). Qed.
End process.

(** ** Peers *)
Section peers.
Context {R : GoRange} {G V F : Type} `{GM : GoBgpMessages} {GO : GoBgpMessagesOk} {BD : BgpDaemon G}
  {BO : BgpDaemonOk G} {MV : MetricVec V}.
Context (nodeName : string).
Implicit Types w : BgpProcess G V F.

(** The peers but those of the resource's neighbour are the same. *)
Definition other_peers_kept (neighbor : BgpPeer) (ps ps' : gmap string api_Peer) : Prop :=
  ∀ k, (∀ c, spec_conf (BgpPeer_Spec neighbor) = Some c → k ≠ neighbor_key c) → ps' !! k = ps !! k.

Lemma HandleBgpPeer_spec neighbor delete w w' r : HandleBgpPeer nodeName neighbor delete w = (w', r) →
  rack (bp_bgp w') = rack (bp_bgp w) ∧ bp_files w' = bp_files w ∧
  (∃ ps, wview w' = with_peers (wview w) ps ∧ other_peers_kept neighbor (dv_peers (wview w)) ps) ∧
  (r = Ok () → ∃ c req, spec_conf (BgpPeer_Spec neighbor) = Some c ∧
     ToGoBgpPeer (BgpPeer_Spec (defaulted neighbor)) = Ok req ∧
     if delete then (wview w' = with_peers (wview w) (base.delete (neighbor_key c) (dv_peers (wview w)))
                     ∨ (c.2 ≠ "" ∧ wview w' = wview w))
     else wview w' = with_peers (wview w) (<[neighbor_key c := req]> (dv_peers (wview w)))).
Proof.
  assert (∀ w', wview w' = wview w → ∃ ps, wview w' = with_peers (wview w) ps ∧ other_peers_kept neighbor (dv_peers (wview w)) ps) as Hsame.
  { intros w1 ->. exists (dv_peers (wview w)). split; [by destruct (wview w)|by intros k _]. }
  assert (∀ c o w', spec_conf (BgpPeer_Spec neighbor) = Some c →
    wview w' = with_peers (wview w) (partial_alter (λ _, o) (neighbor_key c) (dv_peers (wview w))) →
    ∃ ps, wview w' = with_peers (wview w) ps ∧ other_peers_kept neighbor (dv_peers (wview w)) ps) as Hone.
  { intros c o w1 Hc ->. eexists. split; [done|]. intros k Hk. rewrite lookup_partial_alter_ne; [done|]. intros E. by apply (Hk c Hc). }
  unfold HandleBgpPeer. unfold mbind at 1, ST_bind at 1, st_lift at 1.
  pose proof (default_afisafis_conf neighbor) as Hconf. unfold defaulted in *.
  destruct (default_afisafis (BgpPeer_Spec neighbor)) as [l| |]; [|intros [= <- <-]; split_and!; (done || by apply Hsame)..].
  unfold mbind at 1, ST_bind at 1, st_lift at 1.
  set (n' := with_spec neighbor _) in *.
  destruct (ToGoBgpPeer (BgpPeer_Spec n')) as [req| |] eqn:Ereq; [|intros [= <- <-]; split_and!; (done || by apply Hsame)..].
  pose proof (ToGoBgpPeer_conf _ _ Ereq) as Hrc. rewrite Hconf in Hrc.
  unfold mbind at 1, ST_bind at 1. destruct (UpdatePeerMetrics nodeName n' delete w) as [w1 r1] eqn:E1.
  destruct (UpdatePeerMetrics_only _ _ _ _ _ _ E1) as [Hb Hf].
  assert (wview w1 = wview w) as Hv by (unfold wview; by rewrite Hb).
  assert (rack (bp_bgp w1) = rack (bp_bgp w)) as Hk by by rewrite Hb.
  destruct r1 as [[]| |]; [|intros [= <- <-]; split_and!; (done || by apply Hsame)..].
  destruct delete.
  - destruct (Peer_Conf req) as [[a i]|]; [|intros [= <- <-]; split_and!; (done || by apply Hsame)].
    intros (r2 & E2 & ->)%ignore_err_spec. destruct (on_daemon_law _ _ _ _ _ _ (DeletePeer_law a i) E2) as [(H1 & H2 & H3) Hr].
    rewrite Hv, Hk, Hf in *. destruct r2 as [[]|e|]; [| |done].
    + split_and!; [done|done|by eapply (Hone (a, i) None)|intros _]. exists (a, i), req. split_and!; [done|done|]. by left.
    + destruct Hr as [Hr Href]. split_and!; [done|done|by apply Hsame|intros _]. exists (a, i), req. split_and!; [done|done|].
      destruct (decide (i = "")) as [Hi|]; [left|by right]. rewrite delete_id by auto. rewrite Hr. by destruct (wview w).
  - unfold mbind, ST_bind. destruct (st_try _ w1) as [w2 r2] eqn:E2.
    apply st_try_spec in E2 as (r3 & E3 & ->).
    destruct (on_daemon_rel _ _ _ _ _ _ (UpdatePeer_law req) E3) as [(H1 & H2 & H3) Hr].
    rewrite Hv, Hk, Hf in *. destruct r3 as [[]|e|]; [| |done].
    + destruct Hr as (c & Hc & _ & Hr). rewrite Hc in Hrc. intros [= <- <-].
      split_and!; [done|done|by eapply (Hone c (Some req))|eauto 6].
    + intros E4. destruct (on_daemon_law _ _ _ _ _ _ (AddPeer_law req) E4) as [(H4 & H5 & H6) Hr4].
      rewrite H1, H3 in *. destruct r as [[]|e'|]; [| |done].
      * destruct Hr4 as (c & Hc & _ & Hr4). rewrite Hc in Hrc.
        assert (wview w' = with_peers (wview w) (<[neighbor_key c := req]> (dv_peers (wview w)))) as Hw.
        { destruct Hr as [Hr|(c' & Hc' & Hr)]; [by rewrite Hr4, Hr|]. rewrite Hc in Hc'. injection Hc' as <-.
          rewrite Hr4, Hr. cbn. by rewrite insert_delete_eq. }
        split_and!; [done|done|by eapply (Hone c (Some req))|eauto 6].
      * destruct Hr4 as [Hr4 _]. split_and!; [done|done| |done]. rewrite <- Hr4 in Hr.
        destruct Hr as [Hr|(c' & Hc' & Hr)]; [by apply Hsame|]. rewrite Hc' in Hrc. by eapply (Hone c' None).
Qed.
End peers.

(** ** Policies and the global configuration *)
Definition policy_text (cm : option ConfigMap) : option string :=
  c ← cm; mget (ConfigMap_Data c) OpenELBBgpName.

Section policy.
Context {G V F : Type} `{GM : GoBgpMessages} {BD : BgpDaemon G} {BO : BgpDaemonOk G} {TF : TempFiles F}
  {TO : TempFilesOk F} {VP : Viper F} {AF : AddressFamilies}.
Implicit Types w : BgpProcess G V F.

(** The policies of a configuration file, set in gobgp. *)
Definition with_policy (v : DaemonView) (conf : BgpConfigSet) (rp : api_RoutingPolicy) : DaemonView :=
  let a := ApplyPolicy_Config (Global_ApplyPolicy (BgpConfigSet_Global conf)) in
  with_assignment (with_assignment (with_policies v rp) (import_assignment a)) (export_assignment a).
Definition policy_of (v : DaemonView) (text : string) (v' : DaemonView) : Prop :=
  ∃ files path conf rp, tf_files files !! path = Some text ∧ ReadConfigfile files path "toml" = Ok conf ∧
    NewAPIRoutingPolicyFromConfigStruct (ConfigSetToRoutingPolicy conf) = Ok rp ∧ v' = with_policy v conf rp.

(** The parts of gobgp's state that policies do not touch. *)
Definition same_sessions (v v' : DaemonView) : Prop := dv_global v' = dv_global v ∧ dv_peers v' = dv_peers v.
Lemma same_sessions_trans v1 v2 v3 : same_sessions v1 v2 → same_sessions v2 v3 → same_sessions v1 v3.
Proof. intros [] []. split; congruence. Qed.
Lemma with_assignment_sessions v a : same_sessions v (with_assignment v a).
Proof. unfold with_assignment. by destruct (apa_Direction a). Qed.

Lemma on_assignment a w w' r : on_daemon (SetPolicyAssignment a) w = (w', r) →
  same_rest w w' ∧ same_sessions (wview w) (wview w') ∧ (r = Ok () → wview w' = with_assignment (wview w) a) ∧ r ≠ Panic.
Proof.
  intros [Hs Hr]%(on_daemon_law _ _ _ _ _ _ (SetPolicyAssignment_law a)).
  destruct r as [[]|e|]; [rewrite Hr; split_and!; try done; apply with_assignment_sessions|destruct Hr as [-> _]; done|done].
Qed.
Lemma same_rest_trans w1 w2 w3 : same_rest w1 w2 → same_rest w2 w3 → same_rest w1 w3.
Proof. intros (?&?&?) (?&?&?). split_and!; congruence. Qed.

Lemma assignGlobalpolicy_spec a w w' r : assignGlobalpolicy a w = (w', r) →
  same_rest w w' ∧ same_sessions (wview w) (wview w') ∧ r ≠ Panic ∧
  (r = Ok () → wview w' = with_assignment (with_assignment (wview w) (import_assignment a)) (export_assignment a)).
Proof.
  unfold assignGlobalpolicy, mbind, ST_bind. destruct (on_daemon _ w) as [w1 r1] eqn:E1.
  destruct (on_assignment _ _ _ _ E1) as (Hs1 & Hp1 & Ho1 & Hn1).
  destruct r1 as [[]|e|]; [|by intros [= <- <-]|done].
  intros (Hs2 & Hp2 & Ho2 & Hn2)%on_assignment. split_and!; [by eapply same_rest_trans|by eapply same_sessions_trans|done|].
  intros Hr. by rewrite Ho2, Ho1.
Qed.

Lemma applyPolicyFile_spec path text w w' r : tf_files (bp_files w) !! path = Some text →
  applyPolicyFile path w = (w', r) →
  same_rest w w' ∧ same_sessions (wview w) (wview w') ∧ (r = Ok () → policy_of (wview w) text (wview w')).
Proof.
  intros Hp. unfold applyPolicyFile. unfold mbind at 1, ST_bind at 1, st_read.
  destruct (ReadConfigfile _ _ _) as [conf| |] eqn:Ec; [|by intros [= <- <-]..].
  unfold mbind at 1, ST_bind at 1, st_lift.
  destruct (NewAPIRoutingPolicyFromConfigStruct _) as [rp| |] eqn:Erp; [|by intros [= <- <-]..].
  unfold mbind, ST_bind. destruct (on_daemon _ w) as [w1 r1] eqn:E1.
  destruct (on_daemon_law _ _ _ _ _ _ (SetPolicies_law rp) E1) as [Hs1 Hr1].
  destruct r1 as [[]|e|]; [|destruct Hr1 as [Hr1 _]; intros [= <- <-]; by rewrite Hr1|done].
  intros (Hs2 & Hp2 & _ & Ho2)%assignGlobalpolicy_spec. rewrite Hr1 in *.
  split_and!; [by eapply same_rest_trans|done|]. intros Hr. exists (bp_files w), path, conf, rp.
  split_and!; try done. by apply Ho2.
Qed.

(** A call on the files leaves the rest. *)
Definition only_files w w' : Prop := bp_bgp w' = bp_bgp w ∧ bp_metrics w' = bp_metrics w.
Lemma on_files_only {A} (c : ST F A) w w' r : on_files c w = (w', r) →
  only_files w w' ∧ c (bp_files w) = (bp_files w', r).
Proof. unfold on_files. destruct (c _) as [f r1]. by intros [= <- <-]. Qed.

Lemma writeToTempFile_spec val w w' r : writeToTempFile val w = (w', r) →
  only_files w w' ∧ ∃ path err, r = Ok (path, err) ∧
    (err = None → tf_files (bp_files w) !! path = None ∧ path ≠ "" ∧
       tf_files (bp_files w') = <[path := val]> (tf_files (bp_files w))).
Proof.
  unfold writeToTempFile. unfold mbind at 1, ST_bind at 1. destruct (st_try _ w) as [w1 r1] eqn:E1.
  apply st_try_spec in E1 as (r2 & E2 & ->). apply on_files_only in E2 as [[H1 H2] E2].
  apply CreateTemp_law in E2. destruct r2 as [name|e|]; [|intros [= <- <-]; split; [split; congruence|]; by eexists _, _|done].
  destruct E2 as (Hnew & Hf1 & Hne & Habs).
  unfold mbind, ST_bind. destruct (st_try _ w1) as [w2 r3] eqn:E3.
  apply st_try_spec in E3 as (r4 & E4 & ->). apply on_files_only in E4 as [[H3 H4] E4].
  apply WriteFile_law in E4. rewrite Hf1 in E4.
  assert (only_files w w2) by (split; congruence).
  destruct r4 as [[]|e|]; [|intros [= <- <-]; split; [split; congruence|]; by eexists _, _|done].
  destruct Habs as [-> | [e ->]]; intros [= <- <-]; (split; [done|]); [|by eexists _, _].
  exists name, None. rewrite insert_insert_eq in E4. done.
Qed.

Lemma updatePolicy_spec cm w w' r : updatePolicy cm w = (w', r) →
  rack (bp_bgp w') = rack (bp_bgp w) ∧ bp_metrics w' = bp_metrics w ∧
  same_sessions (wview w) (wview w') ∧
  (r = Ok () → match policy_text cm with
               | None => wview w' = wview w
               | Some text => policy_of (wview w) text (wview w')
               end).
Proof.
  unfold updatePolicy, policy_text. destruct cm as [cm|]; [|by intros [= <- <-]]. cbn [mbind option_bind].
  destruct (mget _ _) as [text|]; [|by intros [= <- <-]].
  unfold mbind at 1, ST_bind at 1. destruct (writeToTempFile text w) as [w1 r1] eqn:E1.
  apply writeToTempFile_spec in E1 as ([Hb1 Hm1] & path & err & -> & Hok). cbn [fst snd].
  assert (wview w1 = wview w) as Hv1 by (unfold wview; by rewrite Hb1).
  unfold mbind at 1, ST_bind at 1.
  destruct (policy_body (path, err) w1) as [w2 r2] eqn:E2.
  assert (same_rest w1 w2 ∧ same_sessions (wview w1) (wview w2) ∧ r2 ≠ Ok Panic ∧
          (r2 = Ok (Ok ()) → policy_of (wview w1) text (wview w2))) as ((Hk2 & Hm2 & Hf2) & Hs2 & _ & Hp2).
  { unfold policy_body in E2. cbn [fst snd] in E2. destruct err as [e|]; [by injection E2 as <- <-|]. destruct (Hok eq_refl) as (_ & _ & Hf).
    apply st_try_spec in E2 as (r3 & E3 & ->). eapply applyPolicyFile_spec in E3 as (? & ? & ?);
      [|rewrite Hf; apply lookup_insert_eq]. split_and!; [done|done|by destruct r3|]. by destruct r3 as [[]| |]; intros [= ]; auto. }
  rewrite Hb1, Hm1, Hv1 in *. destruct r2 as [r2| |]; [|intros [= <- <-]; by rewrite Hk2, Hm2..].
  unfold mbind, ST_bind. destruct (ignore_err _ w2) as [w3 r3] eqn:E3.
  apply ignore_err_spec in E3 as (r4 & E4 & ->). apply on_files_only in E4 as [[Hb4 Hm4] _].
  assert (wview w3 = wview w2) as Hv3 by (unfold wview; by rewrite Hb4).
  rewrite <- Hb4 in Hk2. rewrite <- Hv3 in *. destruct r4; (intros [= <- <-]; split_and!; [done|congruence|done|]);
    try done; intros ->; by apply Hp2.
Qed.
End policy.

Section global.
Context {G V F : Type} `{GM : GoBgpMessages} {BD : BgpDaemon G} {BO : BgpDaemonOk G} {TF : TempFiles F}
  {TO : TempFilesOk F} {VP : Viper F} {AF : AddressFamilies}.
Implicit Types w : BgpProcess G V F.

Lemma stop_ignored w w' r : ignore_err (on_daemon StopBgp) w = (w', r) →
  same_rest w w' ∧ (wview w' = wview w ∨ wview w' = stopped) ∧ r = Ok ().
Proof.
  intros (r1 & E & ->)%ignore_err_spec. destruct (on_daemon_law _ _ _ _ _ _ StopBgp_law E) as [Hs Hr].
  destruct r1 as [[]|e|]; [by split_and!; [|right|]|by destruct Hr; split_and!; [|left|]|done].
Qed.

Lemma HandleBgpGlobalConfig_spec global rk cm w w' r : HandleBgpGlobalConfig global rk false cm w = (w', r) →
  rack (bp_bgp w') = rk ∧ bp_metrics w' = bp_metrics w ∧
  (wview w' = wview w ∨ wview w' = stopped ∨
   ∃ req, ToGoBgpGlobalConf (BgpConf_Spec global) = Ok req ∧ same_sessions (started req) (wview w')) ∧
  (r = Ok () → ∃ req, ToGoBgpGlobalConf (BgpConf_Spec global) = Ok req ∧
     match policy_text cm with
     | None => wview w' = started req
     | Some text => policy_of (started req) text (wview w')
     end).
Proof.
  unfold HandleBgpGlobalConfig. unfold mbind at 1, ST_bind at 1, set_rack.
  set (w0 := mkBgpProcess _ _ _). assert (wview w0 = wview w) as Hv0 by done.
  assert (rack (bp_bgp w0) = rk ∧ bp_metrics w0 = bp_metrics w) as [Hk0 Hm0] by done. clearbody w0.
  unfold mbind at 1, ST_bind at 1, st_lift. destruct (ToGoBgpGlobalConf _) as [req| |] eqn:Ereq;
    [|intros [= <- <-]; split_and!; try done; by left..].
  unfold mbind at 1, ST_bind at 1. destruct (ignore_err _ w0) as [w1 r1] eqn:E1.
  apply stop_ignored in E1 as ((Hk1 & Hm1 & _) & Hv1 & ->). rewrite Hv0, Hk0, Hm0 in *.
  unfold mbind, ST_bind. destruct (on_daemon (StartBgp req) w1) as [w2 r2] eqn:E2.
  destruct (on_daemon_law _ _ _ _ _ _ (StartBgp_law req) E2) as [(Hk2 & Hm2 & _) Hr2]. rewrite Hk1, Hm1 in *.
  destruct r2 as [[]|e|]; [| |done].
  - intros (Hk & Hm & Hs & Hok)%updatePolicy_spec. rewrite Hr2 in *. split_and!; [congruence|congruence| |].
    + right; right. eauto.
    + intros Hr. exists req. split; [done|]. by apply Hok.
  - destruct Hr2 as [Hr2 _]. intros [= <- <-]. rewrite Hr2. split_and!; try done. destruct Hv1; auto.
Qed.

Lemma policy_of_sessions v text v' : policy_of v text v' → same_sessions v v'.
Proof.
  intros (? & ? & ? & ? & _ & _ & _ & ->). unfold with_policy.
  eapply same_sessions_trans; [|apply with_assignment_sessions].
  by eapply same_sessions_trans; [|apply with_assignment_sessions].
Qed.

Lemma HandleBgpGlobalConfig_Ok global rk cm w w' : HandleBgpGlobalConfig global rk false cm w = (w', Ok ()) →
  rack (bp_bgp w') = rk ∧ ∃ req, ToGoBgpGlobalConf (BgpConf_Spec global) = Ok req ∧
    same_sessions (started req) (wview w') ∧
    match policy_text cm with
    | None => wview w' = started req
    | Some text => policy_of (started req) text (wview w')
    end.
Proof.
  intros (Hk & _ & _ & Hok)%HandleBgpGlobalConfig_spec. split; [done|].
  destruct (Hok eq_refl) as (req & Hreq & Hp). exists req. split_and!; try done.
  destruct (policy_text cm); [by eapply policy_of_sessions|by rewrite Hp].
Qed.
End global.

(** ** The peers gobgp has *)
Section status.
Context {R : GoRange} {G V F : Type} `{GM : GoBgpMessages} {BD : BgpDaemon G} {BO : BgpDaemonOk G}.
Context (nodeName : string).
Implicit Types w : BgpProcess G V F.

(** The address gobgp shows for a peer, and whether a resource has it. *)
Definition shown_address (p : api_Peer) : option string :=
  match GetStatusFromGoBgpPeer p with
  | Ok st => Some (PeerState_NeighborAddress (NodePeerStatus_PeerState st))
  | _ => None
  end.
Definition has_address (a : string) (q : BgpPeer) : bool :=
  match BgpPeerSpec_Conf (BgpPeer_Spec q) with
  | Some conf => bool_decide (PeerConf_NeighborAddress conf = a)
  | None => false
  end.
Definition unowned (bgpPeers : list BgpPeer) (p : api_Peer) : bool :=
  match shown_address p with Some a => negb (existsb (has_address a) bgpPeers) | None => false end.

Lemma find_peer_spec ps a r : find_peer ps a = Ok r →
  match r with
  | Some q => q ∈ ps ∧ has_address a q = true
  | None => existsb (has_address a) ps = false
  end.
Proof.
  revert r. induction ps as [|p ps IH]; intros r; cbn [find_peer existsb]; [by intros [= <-]|].
  unfold has_address at 2. destruct (BgpPeerSpec_Conf (BgpPeer_Spec p)) as [conf|] eqn:Ec; [|done].
  case_bool_decide as Ha.
  - intros [= <-]. split; [left|]. unfold has_address. rewrite Ec. by apply bool_decide_eq_true.
  - intros H%IH. destruct r as [q|]; [|done]. destruct H. split; [by right|done].
Qed.

Lemma sort_peers_spec ps l res dels : sort_peers nodeName ps l = Ok (res, dels) →
  dels = List.filter (unowned ps) l ∧
  ∀ q, q ∈ res → ∃ q0 p st, q0 ∈ ps ∧ p ∈ l ∧ GetStatusFromGoBgpPeer p = Ok st ∧
    has_address (PeerState_NeighborAddress (NodePeerStatus_PeerState st)) q0 = true ∧ q = set_node_status nodeName q0 st.
Proof.
  revert res dels. induction l as [|p l IH]; intros res dels; cbn [sort_peers List.filter].
  { intros [= <- <-]. split; [done|]. by intros q ?%not_elem_of_nil. }
  unfold unowned at 1, shown_address. destruct (GetStatusFromGoBgpPeer p) as [st| |] eqn:Est; [| |done].
  - intros (found & Hf & ([res' dels'] & Hs & H)%Result_bind_Ok)%Result_bind_Ok.
    destruct (IH _ _ Hs) as [-> Hres]. apply find_peer_spec in Hf. destruct found as [q0|]; injection H as <- <-.
    + destruct Hf as [Hin Ha]. rewrite (proj2 (existsb_elem _ _)) by eauto. split; [done|].
      intros q [-> | Hq]%elem_of_cons; [exists q0, p, st; split_and!; [done|left|..]; done|].
      destruct (Hres q Hq) as (q1 & p1 & st1 & ? & ? & ?). exists q1, p1, st1. split; [done|]. split; [by right|done].
    + rewrite Hf. split; [done|]. intros q Hq. destruct (Hres q Hq) as (q1 & p1 & st1 & ? & ? & ?).
      exists q1, p1, st1. split; [done|]. split; [by right|done].
  - intros [-> Hres]%IH. split; [done|]. intros q Hq. destruct (Hres q Hq) as (q1 & p1 & st1 & ? & ? & ?).
    exists q1, p1, st1. split; [done|]. split; [by right|done].
Qed.

(** Deleting a list of peers by address. *)
Lemma delete_peers_spec dels : ∀ w w' r, delete_peers dels w = (w', r) →
  Forall (λ p, ∃ a, Peer_Conf p = Some (a, "")) dels →
  same_rest w w' ∧ r = Ok () ∧ ∀ k, dv_peers (wview w') !! k =
    if decide (k ∈ neighbor_key <$> omap Peer_Conf dels) then None else dv_peers (wview w) !! k.
Proof.
  induction dels as [|p dels IH]; intros w w' r; cbn [delete_peers].
  { intros [= <- <-] _. by split_and!. }
  intros H [(a & Hp) Hall]%Forall_cons. rewrite Hp in H. revert H.
  unfold mbind, ST_bind. destruct (ignore_err _ w) as [w1 r1] eqn:E1.
  apply ignore_err_spec in E1 as (r2 & E2 & ->).
  destruct (on_daemon_law _ _ _ _ _ _ (DeletePeer_law a "") E2) as [Hs1 Hr].
  assert (dv_peers (wview w1) = base.delete (neighbor_key (a, "")) (dv_peers (wview w)) ∧ r2 ≠ Panic) as [Hd Hnp].
  { destruct r2 as [[]|e|]; [by rewrite Hr|destruct Hr as [-> Href]; by rewrite delete_id by by apply Href|done]. }
  destruct r2; [..|done]; intros (Hs2 & -> & Hk)%IH; try done; (split_and!; [by eapply same_rest_trans|done|]);
    intros k; rewrite Hk, Hd; cbn [omap list_omap]; rewrite Hp; cbn [fmap list_fmap]; rewrite lookup_delete;
    repeat case_decide; try done; set_solver.
Qed.
End status.

(** ** Properties *)

(** C14: configuring and removing a peer.  When [HandleBgpPeer] succeeds, gobgp
    has the peer of the resource, with its address families filled in, whether
    or not it had one before; or, when the resource goes or no longer selects
    the node, it has no such peer (a neighbour given by its interface may stay,
    since the error of [DeletePeer] is dropped).  However the call ends, every
    other peer, the configuration and the policies are untouched. *)
Theorem HandleBgpPeer_configures `{R : GoRange} {G V F : Type} `{GM : GoBgpMessages} `{GO : !GoBgpMessagesOk}
    `{BD : !BgpDaemon G} `{BO : !BgpDaemonOk G} `{MV : MetricVec V} nodeName neighbor (delete : bool)
    (w w' : BgpProcess G V F) r :
  HandleBgpPeer nodeName neighbor delete w = (w', r) →
  (r = Ok () → ∃ c req, spec_conf (BgpPeer_Spec neighbor) = Some c ∧
     ToGoBgpPeer (BgpPeer_Spec (defaulted neighbor)) = Ok req ∧
     if delete then (wview w' = with_peers (wview w) (base.delete (neighbor_key c) (dv_peers (wview w)))
                     ∨ (c.2 ≠ "" ∧ wview w' = wview w))
     else wview w' = with_peers (wview w) (<[neighbor_key c := req]> (dv_peers (wview w)))) ∧
  ∃ ps, wview w' = with_peers (wview w) ps ∧
    ∀ k, (∀ c, spec_conf (BgpPeer_Spec neighbor) = Some c → k ≠ neighbor_key c) → ps !! k = dv_peers (wview w) !! k.
Proof. intros (_ & _ & Hv & Hok)%HandleBgpPeer_spec. split; [done|]. exact Hv. Qed.

(** A new global configuration restarts gobgp.  On success it runs with
    the configuration of the resource, without any peer, and with the policies
    of the config map, if it has some; the speaker's rack is the given one,
    also after an error, when gobgp runs as before, is stopped, or runs with
    the new configuration and without peers. *)
Theorem HandleBgpGlobalConfig_restarts {G V F : Type} `{GM : GoBgpMessages} `{BD : !BgpDaemon G} `{BO : !BgpDaemonOk G}
    `{TF : TempFiles F} `{TO : !TempFilesOk F} `{VP : !Viper F} `{AF : AddressFamilies}
    global rk cm (w w' : BgpProcess G V F) r :
  HandleBgpGlobalConfig global rk false cm w = (w', r) →
  rack (bp_bgp w') = rk ∧
  (r = Ok () → dv_peers (wview w') = ∅ ∧ ∃ req, ToGoBgpGlobalConf (BgpConf_Spec global) = Ok req ∧
     dv_global (wview w') = Some req ∧
     match policy_text cm with
     | None => wview w' = started req
     | Some text => policy_of (started req) text (wview w')
     end) ∧
  (wview w' = wview w ∨ wview w' = stopped ∨
   ∃ req, ToGoBgpGlobalConf (BgpConf_Spec global) = Ok req ∧ dv_global (wview w') = Some req ∧ dv_peers (wview w') = ∅).
Proof.
  intros H. destruct (HandleBgpGlobalConfig_spec _ _ _ _ _ _ H) as (Hk & _ & Hv & _). split_and!; [done| |].
  - intros ->. apply HandleBgpGlobalConfig_Ok in H as (_ & req & Hreq & [Hg Hps] & Hp). split; [done|]. eauto.
  - destruct Hv as [-> | [-> | (req & Hreq & Hg & Hps)]]; [by left|by right; left|right; right; eauto].
Qed.

(** The status pass prunes gobgp's peers.  A listed peer (by address)
    whose address no resource has is deleted and no other is; the resources
    returned are resources of the list with this node's entry of the status
    set to what gobgp shows for their address. *)
Theorem HandleBgpPeerStatus_prunes `{R : GoRange} {G V F : Type} `{GM : GoBgpMessages} `{BD : !BgpDaemon G}
    `{BO : !BgpDaemonOk G} nodeName ps l g (w w' : BgpProcess G V F) res :
  ListPeer (bgpServer (bp_bgp w)) = (g, Ok l) → Forall (λ p, ∃ a, Peer_Conf p = Some (a, "")) l →
  HandleBgpPeerStatus nodeName ps w = (w', Ok res) →
  (∀ k, dv_peers (wview w') !! k =
     if decide (k ∈ neighbor_key <$> omap Peer_Conf (List.filter (unowned ps) l)) then None
     else dv_peers (wview w) !! k) ∧
  (∀ q, q ∈ res → ∃ q0 p st, q0 ∈ ps ∧ p ∈ l ∧ GetStatusFromGoBgpPeer p = Ok st ∧
     has_address (PeerState_NeighborAddress (NodePeerStatus_PeerState st)) q0 = true ∧ q = set_node_status nodeName q0 st).
Proof.
  intros Hl Hall. unfold HandleBgpPeerStatus, mbind, ST_bind, st_try.
  destruct (on_daemon ListPeer w) as [w1 r1] eqn:E1.
  destruct (on_daemon_law _ _ _ _ _ _ ListPeer_law E1) as [_ Hr1].
  unfold on_daemon in E1. rewrite Hl in E1. injection E1 as <- <-. cbn [st_lift] in *. destruct Hr1 as [Hv _].
  set (w1 := mkBgpProcess _ _ _) in *. change (st_lift (sort_peers nodeName ps l) w1) with (w1, sort_peers nodeName ps l).
  destruct (sort_peers nodeName ps l) as [[res1 dels]| |] eqn:Es; [|done..]. apply sort_peers_spec in Es as [-> Hres].
  destruct (delete_peers _ w1) as [w2 r2] eqn:E2. apply delete_peers_spec in E2 as (_ & -> & Hk).
  - intros [= <- <-]. split; [|done]. intros k. by rewrite Hk, Hv.
  - cbn [snd]. apply Forall_forall. intros p Hp. rewrite Forall_forall in Hall. apply Hall.
    apply list_elem_of_In in Hp. apply filter_In in Hp as [Hp _]. by apply list_elem_of_In.
Qed.

(** ** Witnesses: a daemon that is its view, and files in a map *)
Record demo_daemon := mk_demo_daemon { dd_view : DaemonView; dd_rib : gmap path_key Path }.
Definition dd_ok (v : DaemonView) (g : demo_daemon) : demo_daemon * Result () := (mk_demo_daemon v (dd_rib g), Ok ()).
Definition peer_entry (kp : string * api_Peer) : bool :=
  match Peer_Conf kp.2 with Some c => bool_decide (c.1 = kp.1) | None => false end.

#[export] Instance demo_bgp_daemon : BgpDaemon demo_daemon := {|
  StartBgp req g :=
    match dv_global (dd_view g) with
    | Some _ => (g, Err (Errorf "gobgp is already started"))
    | None => (mk_demo_daemon (started req) ∅, Ok ())
    end;
  StopBgp g := (mk_demo_daemon stopped ∅, Ok ());
  GetBgpGlobal g := (g, Ok ("1.1.1.1", 65000));
  AddPeer p g :=
    match Peer_Conf p with
    | None => (g, Err (Errorf "invalid peer"))
    | Some c => match dv_peers (dd_view g) !! c.1 with
                | Some _ => (g, Err (Errorf "peer exists"))
                | None => dd_ok (with_peers (dd_view g) (<[c.1 := p]> (dv_peers (dd_view g)))) g
                end
    end;
  UpdatePeer p g :=
    match Peer_Conf p with
    | None => (g, Err (Errorf "invalid peer"))
    | Some c => match dv_peers (dd_view g) !! c.1 with
                | Some _ => dd_ok (with_peers (dd_view g) (<[c.1 := p]> (dv_peers (dd_view g)))) g
                | None => (g, Err (Errorf "no such peer"))
                end
    end;
  DeletePeer a i g :=
    match dv_peers (dd_view g) !! a with
    | Some _ => dd_ok (with_peers (dd_view g) (delete a (dv_peers (dd_view g)))) g
    | None => (g, Err (Errorf "no such peer"))
    end;
  ListPeer g :=
    let l := map_to_list (dv_peers (dd_view g)) in
    (g, if forallb peer_entry l then Ok l.*2 else Err (Errorf "inconsistent peers"));
  SetPolicies rp g := dd_ok (with_policies (dd_view g) rp) g;
  SetPolicyAssignment a g := dd_ok (with_assignment (dd_view g) a) g;
  dm_view := dd_view;
  neighbor_key := fst |}.

Lemma peer_entries_keys l : forallb peer_entry l = true →
  Forall (λ p, is_Some (Peer_Conf p)) l.*2 ∧ fst <$> omap Peer_Conf l.*2 = l.*1.
Proof.
  induction l as [|[k p] l IH]; intros H; [by split; [constructor|]|]. cbn [forallb] in H.
  apply andb_true_iff in H as [Hp Hl]. destruct (IH Hl) as [H1 H2]. unfold peer_entry in Hp. cbn [snd fst] in Hp.
  cbn. destruct (conf_of_json (demo_json p)) as [c|] eqn:Ec; [|by cbn in Hp; rewrite Ec in Hp].
  cbn in Hp. rewrite Ec in Hp. apply bool_decide_eq_true in Hp. split.
  - constructor; [by rewrite Ec|done].
  - cbn. rewrite Hp. f_equal. exact H2.
Qed.

#[export] Instance demo_bgp_daemon_ok : BgpDaemonOk demo_daemon.
Proof.
  split; intros; intros g g' r H; cbn in H; unfold dd_ok in H; repeat case_match; simplify_eq; cbn;
    try (split; [done|]; by auto); eauto 10.
  split_and!; [done|by apply peer_entries_keys|]. apply reflexive_eq. by apply peer_entries_keys.
Qed.

#[export] Instance demo_files : TempFiles (gmap string string) := {|
  CreateTemp f := (if decide (f !! "/tmp/temp" = None) then <["/tmp/temp" := ""]> f else f,
                   if decide (f !! "/tmp/temp" = None) then Ok "/tmp/temp" else Err (Errorf "file exists"));
  WriteFile name val f := if str_empty name then (f, Err (Errorf "no such file")) else (<[name := val]> f, Ok ());
  Abs name := Ok name;
  RemoveAll name f := (delete name f, Ok ());
  tf_files f := delete "" f |}.
#[export] Instance demo_files_ok : TempFilesOk (gmap string string).
Proof.
  split; cbn.
  - intros f f' r [= <- <-]. case_decide as Hd; [|done]. rewrite lookup_delete_ne, delete_insert_ne by done. by auto.
  - intros name val f f' r. destruct name as [|c name]; cbn; intros [= <- <-]; [by left|]. by rewrite delete_insert_ne.
  - intros name f f' r [= <- <-]. by rewrite delete_delete.
  - intros f. apply lookup_delete_eq.
Qed.

(** A reader that knows one file. *)
Definition no_sets : DefinedSets := mkDefinedSets [] [] [] (mkBgpDefinedSets [] [] [] []).
Definition demo_config : BgpConfigSet :=
  mkBgpConfigSet (mkGlobal (mkApplyPolicy (mkApplyPolicyConfig [] "" ["drop"] "reject-route" [] "")))
    no_sets [mkPolicyDefinition "drop" []].
#[export] Instance demo_viper : Viper (gmap string string) := {|
  viper_tree := string;
  ReadInConfig f path format := match f !! path with Some t => Ok t | None => Err (Errorf "no such file") end;
  UnmarshalExact t := if bool_decide (t = "policy") then Ok demo_config else Err (Errorf "invalid toml") |}.
#[export] Instance demo_families : AddressFamilies := {|
  AddressFamilyValueMap s := None; RouteFamilyToAfiSafi z := (Z.shiftr z 16, Z.land z 255) |}.

#[local] Existing Instance canonical_range.
Definition no_meta (name : string) : ObjectMeta :=
  {| Name := name; Namespace := ""; Labels := None; Annotations := None; Finalizers := []; DeletionTimestamp := None |}.
Definition demo_bgppeer (addr : string) : BgpPeer :=
  mkBgpPeer (no_meta ("peer-" +:+ addr)) (demo_peer_spec addr) (mkBgpPeerStatus None).
Definition demo_conf : BgpConf :=
  mkBgpConf (no_meta "default") (mkBgpConfSpec 65000 None "1.1.1.1" 179 [] [] false None "policies") (mkBgpConfStatus None).
Definition demo_cm : ConfigMap := mkConfigMap "policies" "openelb-system" (Some {[OpenELBBgpName := "policy"]}).
Definition demo_process : BgpProcess demo_daemon (gmap (list string) float64) (gmap string string) :=
  mkBgpProcess {| rack := ""; bgpServer := mk_demo_daemon stopped ∅ |} no_metrics ∅.
Definition demo_running : BgpProcess demo_daemon (gmap (list string) float64) (gmap string string) :=
  fst (HandleBgpGlobalConfig demo_conf "" false (Some demo_cm) demo_process).
Definition demo_peered : BgpProcess demo_daemon (gmap (list string) float64) (gmap string string) :=
  fst (HandleBgpPeer "node1" (demo_bgppeer "10.0.0.1") false demo_running).

Lemma HandleBgpGlobalConfig_restarts_witness :
  rack (bp_bgp (fst (HandleBgpGlobalConfig demo_conf "left" false (Some demo_cm) demo_peered))) = "left".
Proof.
  refine (proj1 (HandleBgpGlobalConfig_restarts demo_conf "left" (Some demo_cm) demo_peered _ (Ok ()) _)).
  apply pair_result. vm_compute. reflexivity.
Defined.

Lemma HandleBgpPeer_configures_witness :
  (∃ c req, spec_conf (demo_peer_spec "10.0.0.2") = Some c ∧
     ToGoBgpPeer (BgpPeer_Spec (defaulted (demo_bgppeer "10.0.0.2"))) = Ok req ∧
     wview (fst (HandleBgpPeer "node1" (demo_bgppeer "10.0.0.2") false demo_peered))
     = with_peers (wview demo_peered) (<[neighbor_key c := req]> (dv_peers (wview demo_peered)))) ∧
  ∃ c req, spec_conf (demo_peer_spec "10.0.0.1") = Some c ∧
    ToGoBgpPeer (BgpPeer_Spec (defaulted (demo_bgppeer "10.0.0.1"))) = Ok req ∧
    (wview (fst (HandleBgpPeer "node1" (demo_bgppeer "10.0.0.1") true demo_peered))
     = with_peers (wview demo_peered) (delete (neighbor_key c) (dv_peers (wview demo_peered)))
     ∨ (c.2 ≠ "" ∧ wview (fst (HandleBgpPeer "node1" (demo_bgppeer "10.0.0.1") true demo_peered)) = wview demo_peered)).
Proof.
  split.
  - refine (proj1 (HandleBgpPeer_configures "node1" (demo_bgppeer "10.0.0.2") false demo_peered _ (Ok ()) _) eq_refl).
    apply pair_result. vm_compute. reflexivity.
  - refine (proj1 (HandleBgpPeer_configures "node1" (demo_bgppeer "10.0.0.1") true demo_peered _ (Ok ()) _) eq_refl).
    apply pair_result. vm_compute. reflexivity.
Defined.

Lemma HandleBgpPeerStatus_prunes_witness :
  is_Some (dv_peers (wview demo_peered) !! "10.0.0.1") ∧
  dv_peers (wview (fst (HandleBgpPeerStatus "node1" [] demo_peered))) !! "10.0.0.1" = None.
Proof.
  split; [vm_compute; eexists; reflexivity|].
  etransitivity; [refine (proj1 (HandleBgpPeerStatus_prunes "node1" [] (map_to_list (dv_peers (wview demo_peered))).*2
    (bgpServer (bp_bgp demo_peered)) demo_peered (fst (HandleBgpPeerStatus "node1" [] demo_peered)) [] _ _ _) "10.0.0.1")|].
  - vm_compute. reflexivity.
  - vm_compute. repeat econstructor.
  - apply pair_result. vm_compute. reflexivity.
  - vm_compute. reflexivity.
Defined.
