(* ===== verification/BgpControllers.v ===== *)
(** * The BGP reconcilers ([pkg/speaker/bgp]: bgpconf_controller.go,
    bgppeer_controller.go, eventhandler.go)

    The reconcilers run on every node: they watch the cluster's [BgpConf] and
    [BgpPeer] objects and configure the node's gobgp.  The API server is the
    class [BgpKube] with the laws of [Kube] ([BgpKubeOk]). *)
From S2P Require Import Prelude GoNet K8s EipTypes Kube Speaker Metrics BgpConfig BgpTable BgpTypes BgpPath BgpDaemon.
Local Open Scope Z_scope.

(** ** The API server *)
Record BgpStore := mkBgpStore {
  bs_confs : gmap string BgpConf;
  bs_peers : gmap string BgpPeer;
  bs_nodes : gmap string Node;
  bs_cms : gmap (string * string) ConfigMap    (* name and namespace *)
}.
Definition with_confs (v : BgpStore) (m : gmap string BgpConf) : BgpStore :=
  mkBgpStore m (bs_peers v) (bs_nodes v) (bs_cms v).
Definition with_bgppeers (v : BgpStore) (m : gmap string BgpPeer) : BgpStore :=
  mkBgpStore (bs_confs v) m (bs_nodes v) (bs_cms v).
Definition BgpConf_Name (c : BgpConf) : string := Name (BgpConf_Meta c).
Definition BgpPeer_Name (p : BgpPeer) : string := Name (BgpPeer_Meta p).

(** Updates keep the stored status and deletion time, and remove an object
    whose last finalizer goes; status updates change the status only. *)
Definition srv_update_conf (v : BgpStore) (c : BgpConf) : option (BgpStore * BgpConf) :=
  old ← bs_confs v !! BgpConf_Name c;
  let c' := mkBgpConf (set_DeletionTimestamp (BgpConf_Meta c) (DeletionTimestamp (BgpConf_Meta old)))
              (BgpConf_Spec c) (BgpConf_Status old) in
  Some (with_confs v (if is_gone (BgpConf_Meta c') then delete (BgpConf_Name c) (bs_confs v)
                      else <[BgpConf_Name c := c']> (bs_confs v)), c').
Definition srv_status_conf (v : BgpStore) (c : BgpConf) : option (BgpStore * BgpConf) :=
  old ← bs_confs v !! BgpConf_Name c;
  let c' := mkBgpConf (BgpConf_Meta old) (BgpConf_Spec old) (BgpConf_Status c) in
  Some (with_confs v (<[BgpConf_Name c := c']> (bs_confs v)), c').
Definition srv_update_peer (v : BgpStore) (p : BgpPeer) : option (BgpStore * BgpPeer) :=
  old ← bs_peers v !! BgpPeer_Name p;
  let p' := mkBgpPeer (set_DeletionTimestamp (BgpPeer_Meta p) (DeletionTimestamp (BgpPeer_Meta old)))
              (BgpPeer_Spec p) (BgpPeer_Status old) in
  Some (with_bgppeers v (if is_gone (BgpPeer_Meta p') then delete (BgpPeer_Name p) (bs_peers v)
                         else <[BgpPeer_Name p := p']> (bs_peers v)), p').
Definition srv_status_peer (v : BgpStore) (p : BgpPeer) : option (BgpStore * BgpPeer) :=
  old ← bs_peers v !! BgpPeer_Name p;
  let p' := mkBgpPeer (BgpPeer_Meta old) (BgpPeer_Spec old) (BgpPeer_Status p) in
  Some (with_bgppeers v (<[BgpPeer_Name p := p']> (bs_peers v)), p').

Class BgpKube (S : Type) := {
  GetBgpConf : S → string → Result BgpConf;
  ListBgpConfs : S → string → Result (list BgpConf);     (* by the field .spec.policy *)
  UpdateBgpConf : S → BgpConf → S * Result BgpConf;
  StatusUpdateBgpConf : S → BgpConf → S * Result BgpConf;
  GetBgpPeer : S → string → Result BgpPeer;
  ListBgpPeers : S → Result (list BgpPeer);
  UpdateBgpPeer : S → BgpPeer → S * Result BgpPeer;
  StatusUpdateBgpPeer : S → BgpPeer → S * Result BgpPeer;
  GetNode : S → string → Result Node;
  GetConfigMap : S → string * string → Result ConfigMap;
}.
Class BgpKubeOk (S : Type) `{K : BgpKube S} (view : S → BgpStore) : Prop := {
  GetBgpConf_law s n : read_law (GetBgpConf s n) (bs_confs (view s) !! n);
  GetBgpPeer_law s n : read_law (GetBgpPeer s n) (bs_peers (view s) !! n);
  GetNode_law s n : read_law (GetNode s n) (bs_nodes (view s) !! n);
  GetConfigMap_law s k : read_law (GetConfigMap s k) (bs_cms (view s) !! k);
  ListBgpPeers_law s : match ListBgpPeers s with
    | Ok l => l ≡ₚ (map_to_list (bs_peers (view s))).*2 | Err _ => True | Panic => False end;
  UpdateBgpConf_law : write_law view srv_update_conf UpdateBgpConf;
  StatusUpdateBgpConf_law : write_law view srv_status_conf StatusUpdateBgpConf;
  UpdateBgpPeer_law : write_law view srv_update_peer UpdateBgpPeer;
  StatusUpdateBgpPeer_law : write_law view srv_status_peer StatusUpdateBgpPeer;
}.

(** [metav1.LabelSelectorAsSelector] and [Matches]. *)
Class NodeSelectors := { LabelSelectorAsSelector : LabelSelector → Result (smap → bool) }.

(** The world of a reconciler: the API server and the speaker's process. *)
Record BgpWorld (S G V F : Type) := mkBgpWorld { bw_kube : S; bw_proc : BgpProcess G V F }.
Arguments mkBgpWorld {S G V F} _ _.
Arguments bw_kube {S G V F} _.
Arguments bw_proc {S G V F} _.

(** ** The objects *)
Definition set_conf_meta (c : BgpConf) (m : ObjectMeta) : BgpConf := mkBgpConf m (BgpConf_Spec c) (BgpConf_Status c).
Definition set_conf_spec (c : BgpConf) (s : BgpConfSpec) : BgpConf := mkBgpConf (BgpConf_Meta c) s (BgpConf_Status c).
Definition set_conf_status (c : BgpConf) (s : BgpConfStatus) : BgpConf := mkBgpConf (BgpConf_Meta c) (BgpConf_Spec c) s.
Definition set_peer_meta (p : BgpPeer) (m : ObjectMeta) : BgpPeer := mkBgpPeer m (BgpPeer_Spec p) (BgpPeer_Status p).
Definition set_peer_status (p : BgpPeer) (s : BgpPeerStatus) : BgpPeer := mkBgpPeer (BgpPeer_Meta p) (BgpPeer_Spec p) s.
Definition with_As_RouterId (s : BgpConfSpec) (as_ : Z) (routerId : string) : BgpConfSpec :=
  mkBgpConfSpec as_ (BgpConfSpec_AsPerRack s) routerId (BgpConfSpec_ListenPort s) (BgpConfSpec_ListenAddresses s)
    (BgpConfSpec_Families s) (BgpConfSpec_UseMultiplePaths s) (BgpConfSpec_GracefulRestart s) (BgpConfSpec_Policy s).

Section reconcilers.
Context {R : GoRange} {S G V F : Type} {K : BgpKube S} `{GM : GoBgpMessages} {BD : BgpDaemon G} {MV : MetricVec V}
  {TF : TempFiles F} {VP : Viper F} {AF : AddressFamilies} {NS : NodeSelectors}.
(** [util.GetNodeName()], the namespace of the environment, [time.Now()]. *)
Context (nodeName envNamespace now : string).
Abbreviation W := (BgpWorld S G V F).

Definition kread {A} (f : S → Result A) : ST W A := λ w, (w, f (bw_kube w)).
Definition kwrite {A} (f : S → A → S * Result A) (a : A) : ST W A := λ w,
  let '(s, r) := f (bw_kube w) a in (mkBgpWorld s (bw_proc w), r).
Definition on_proc {A} (c : ST (BgpProcess G V F) A) : ST W A := λ w,
  let '(p, r) := c (bw_proc w) in (mkBgpWorld (bw_kube w) p, r).

(** A read of an object; [None] when it is not found. *)
Definition get_or_none {A} (r : Result A) : Result (option A) :=
  match r with
  | Ok a => Ok (Some a)
  | Err e => if IsNotFound e then Ok None else Err e
  | Panic => Panic
  end.

(** ** [bgppeer_controller.go]: peerMatchNode *)
Definition peerMatchNode (peer : BgpPeer) (node : Node) : Result bool :=
  match BgpPeerSpec_NodeSelector (BgpPeer_Spec peer) with
  | None => Ok true
  | Some sel =>
      match LabelSelectorAsSelector sel with
      | Ok matches => Ok (matches (default ∅ (Labels (Node_Meta node))))
      | Err e => Err (Errorf ("BgpPeer " +:+ BgpPeer_Name peer +:+ " spec.NodeSelector invalid, err=" +:+ err_text e))
      | Panic => Panic
      end
  end.

(** ** [bgpconf_controller.go] *)

(** The rack of the node and the configuration gobgp gets: the AS number of
    the rack when there is one, and the node's address as router ID unless the
    resource gives one to nodes without a rack. *)
Definition rack_conf (spec : BgpConfSpec) (node : Node) : string * BgpConfSpec :=
  let label := mget0 (Labels (Node_Meta node)) constant.OpenELBNodeRack in
  let '(rk, spec) :=
    match BgpConfSpec_AsPerRack spec with
    | Some perRack =>
        if str_empty label then ("", spec)
        else let as_ := default 0 (perRack !! label) in
             (label, with_As_RouterId spec (if 0 <? as_ then as_ else BgpConfSpec_As spec) "")
    | None => ("", spec)
    end in
  (rk, if str_empty (BgpConfSpec_RouterId spec)
       then with_As_RouterId spec (BgpConfSpec_As spec) (IP_String (GetNodeIP node)) else spec).

Definition getPolicyConfigMap (c : BgpConf) : ST W (option ConfigMap) :=
  let policyName := BgpConfSpec_Policy (BgpConf_Spec c) in
  if str_empty policyName then mret None
  else kread (λ s, get_or_none (GetConfigMap s (policyName, EnvNamespace envNamespace))).

Fixpoint reconfig_loop (node : Node) (peers : list BgpPeer) : ST W () :=
  match peers with
  | [] => mret ()
  | peer :: rest =>
      matches ← st_lift (peerMatchNode peer node);
      (if matches : bool then on_proc (HandleBgpPeer nodeName peer false) else mret ());;
      reconfig_loop node rest
  end.
Definition reconfigPeers : ST W () :=
  peers ← kread ListBgpPeers;
  node ← kread (λ s, GetNode s nodeName);
  reconfig_loop node peers.

(** The finalizer, and the object as the server returns it. *)
Definition add_conf_finalizer (clone : BgpConf) : ST W BgpConf :=
  if NeedToAddFinalizer (BgpConf_Meta clone) constant.FinalizerName
  then kwrite UpdateBgpConf (set_conf_meta clone (AddFinalizer (BgpConf_Meta clone) constant.FinalizerName))
  else mret clone.

(** Reconciling a resource that is not being deleted. *)
Definition configure (instance clone : BgpConf) : ST W () :=
  clone ← add_conf_finalizer clone;
  node ← kread (λ s, GetNode s nodeName);
  let rc := rack_conf (BgpConf_Spec clone) node in
  let effective := set_conf_spec clone rc.2 in
  cm ← getPolicyConfigMap effective;
  on_proc (HandleBgpGlobalConfig effective rc.1 false cm);;
  let meta := BgpConf_Meta clone in
  let annotated := set_Annotations meta
    (Some (<[constant.OpenELBAnnotationKey := now]> (default ∅ (Annotations meta)))) in
  kwrite UpdateBgpConf (mkBgpConf annotated (BgpConf_Spec instance) (BgpConf_Status clone));;
  reconfigPeers.

Definition BgpConf_Reconcile (req : string) : ST W () :=
  found ← kread (λ s, get_or_none (GetBgpConf s req));
  match found with
  | None => mret ()
  | Some instance =>
      if IsDeletionCandidate (BgpConf_Meta instance) constant.FinalizerName then
        r ← st_try (on_proc (HandleBgpGlobalConfig instance "" true None));
        kwrite UpdateBgpConf (set_conf_meta instance (RemoveFinalizer (BgpConf_Meta instance) constant.FinalizerName));;
        mret ()
      else configure instance instance
  end.

(** [Map]: the configurations that name a config map. *)
Definition BgpConf_Map (s : S) (configMap : string) : list string :=
  match ListBgpConfs s configMap with Ok l => BgpConf_Name <$> l | _ => [] end.

Definition shouldReconcile (c : BgpConf) : bool := bool_decide (BgpConf_Name c = "default").
Definition conf_CreateFunc (c : BgpConf) : bool :=
  if DutyOfCNI None (BgpConf_Meta c) then false else shouldReconcile c.
Definition conf_UpdateFunc (oldConf newConf : BgpConf) : bool :=
  shouldReconcile newConf && negb (DutyOfCNI (Some (BgpConf_Meta oldConf)) (BgpConf_Meta newConf)) &&
  (negb (bool_decide (DeletionTimestamp (BgpConf_Meta oldConf) = DeletionTimestamp (BgpConf_Meta newConf)))
   || negb (bool_decide (BgpConf_Spec oldConf = BgpConf_Spec newConf))).

(** The index of the field [.spec.policy]. *)
Definition policy_index (c : BgpConf) : list string :=
  if str_empty (BgpConfSpec_Policy (BgpConf_Spec c)) then [] else [BgpConfSpec_Policy (BgpConf_Spec c)].

(** The filter of node updates, reading the maps the code reads. *)
Definition node_UpdateFunc (old new : Node) : bool :=
  let oldHaveLabel := mhas (Labels (Node_Meta old)) constant.OpenELBNodeRack in
  let newHaveLabel := match Labels (Node_Meta new) with
                      | Some _ => mhas (Labels (Node_Meta old)) constant.OpenELBNodeRack
                      | None => false
                      end in
  negb (Bool.eqb oldHaveLabel newHaveLabel).

Definition CleanBgpConfStatus : ST W () :=
  found ← kread (λ s, get_or_none (GetBgpConf s "default"));
  match found with
  | None => mret ()
  | Some instance =>
      let clone := set_conf_status instance (mkBgpConfStatus None) in
      if decide (BgpConf_Status clone = BgpConf_Status instance) then mret ()
      else kwrite StatusUpdateBgpConf clone;; mret ()
  end.

Definition updateConfStatus : ST W () :=
  r ← st_try (kread (λ s, GetBgpConf s "default"));
  match r with
  | Err _ => mret ()
  | Panic => st_lift Panic
  | Ok instance =>
      result ← on_proc (GetBgpConfStatus nodeName);
      let nodes := default ∅ (BgpConfStatus_NodesConfStatus (BgpConf_Status instance)) in
      let clone := set_conf_status instance
        (mkBgpConfStatus (Some (<[nodeName := default (mkNodeConfStatus "" 0) (result !! nodeName)]> nodes))) in
      if decide (BgpConf_Status clone = BgpConf_Status instance) then mret ()
      else st_try (kwrite StatusUpdateBgpConf clone);; mret ()
  end.

(** ** [bgppeer_controller.go] *)
Definition node_matches (peer : BgpPeer) : ST W bool :=
  match BgpPeerSpec_NodeSelector (BgpPeer_Spec peer) with
  | None => mret true
  | Some _ => node ← kread (λ s, GetNode s nodeName); st_lift (peerMatchNode peer node)
  end.
Definition add_peer_finalizer (clone : BgpPeer) : ST W BgpPeer :=
  if NeedToAddFinalizer (BgpPeer_Meta clone) constant.FinalizerName then
    match BgpPeerSpec_Conf (BgpPeer_Spec clone) with
    | None => st_lift Panic
    | Some conf =>
        on_proc (on_metrics (InitBGPPeerMetrics (PeerConf_NeighborAddress conf) nodeName));;
        kwrite UpdateBgpPeer (set_peer_meta clone (AddFinalizer (BgpPeer_Meta clone) constant.FinalizerName))
    end
  else mret clone.

Definition BgpPeer_Reconcile (req : string) : ST W () :=
  found ← kread (λ s, get_or_none (GetBgpPeer s req));
  match found with
  | None => mret ()
  | Some bgpPeer =>
      matchNode ← node_matches bgpPeer;
      if IsDeletionCandidate (BgpPeer_Meta bgpPeer) constant.FinalizerName then
        r ← st_try (on_proc (HandleBgpPeer nodeName bgpPeer true));
        let clone := defaulted bgpPeer in
        kwrite UpdateBgpPeer (set_peer_meta clone (RemoveFinalizer (BgpPeer_Meta clone) constant.FinalizerName));;
        mret ()
      else
        clone ← add_peer_finalizer bgpPeer;
        on_proc (HandleBgpPeer nodeName clone (negb matchNode))
  end.

(** The first of the returned resources with the peer's address. *)
Fixpoint find_status (peer : BgpPeer) (status : list BgpPeer) : Result (option BgpPeerStatus) :=
  match status with
  | [] => Ok None
  | tmp :: rest =>
      match BgpPeerSpec_Conf (BgpPeer_Spec peer), BgpPeerSpec_Conf (BgpPeer_Spec tmp) with
      | Some c, Some c' =>
          if bool_decide (PeerConf_NeighborAddress c = PeerConf_NeighborAddress c')
          then Ok (Some (BgpPeer_Status tmp)) else find_status peer rest
      | _, _ => Panic
      end
  end.
Fixpoint status_loop (status : list BgpPeer) (peers : list BgpPeer) : ST W () :=
  match peers with
  | [] => mret ()
  | peer :: rest =>
      found ← st_lift (find_status peer status);
      let newStatus := match found with
                       | Some st => st
                       | None => mkBgpPeerStatus (delete nodeName <$> BgpPeerStatus_NodesPeerStatus (BgpPeer_Status peer))
                       end in
      (if decide (newStatus = BgpPeer_Status peer) then mret ()
       else st_try (kwrite StatusUpdateBgpPeer (set_peer_status peer newStatus));; mret ());;
      on_proc (UpdatePeerMetrics nodeName peer (match found with Some _ => false | None => true end));;
      status_loop status rest
  end.
Definition updatePeerStatus : ST W () :=
  r ← st_try (kread ListBgpPeers);
  match r with
  | Err _ => mret ()
  | Panic => st_lift Panic
  | Ok peers => status ← on_proc (HandleBgpPeerStatus nodeName peers); status_loop status peers
  end.

Definition peer_CreateFunc (p : BgpPeer) : bool := negb (DutyOfCNI None (BgpPeer_Meta p)).
Definition peer_UpdateFunc (oldPeer newPeer : BgpPeer) : bool :=
  negb (DutyOfCNI (Some (BgpPeer_Meta oldPeer)) (BgpPeer_Meta newPeer)) &&
  (negb (bool_decide (DeletionTimestamp (BgpPeer_Meta oldPeer) = DeletionTimestamp (BgpPeer_Meta newPeer)))
   || negb (bool_decide (BgpPeer_Spec oldPeer = BgpPeer_Spec newPeer))).

(** The loop of [CleanBgpPeerStatus]: the update sends [peer]. *)
Fixpoint clean_loop (peers : list BgpPeer) : ST W () :=
  match peers with
  | [] => mret ()
  | peer :: rest =>
      let clone := set_peer_status peer (mkBgpPeerStatus None) in
      (if decide (BgpPeer_Status clone = BgpPeer_Status peer) then mret ()
       else kwrite StatusUpdateBgpPeer peer;; mret ());;
      clean_loop rest
  end.
Definition CleanBgpPeerStatus : ST W () :=
  peers ← kread (λ s, get_or_none (ListBgpPeers s));
  match peers with None => mret () | Some l => clean_loop l end.

(** ** [eventhandler.go] *)
Definition getDefaultBgpConf (s : S) : list BgpConf :=
  match GetBgpConf s "default" with Ok def => [def] | _ => [] end.
Definition getBgpPeers (s : S) : list BgpPeer :=
  match ListBgpPeers s with Ok l => l | _ => [] end.
(** The requests a node update adds to the queue. *)
Definition EnqueueRequestForNode_Update (peer : bool) (s : S) : list (string * string) :=
  if negb peer then (λ c, (Name (BgpConf_Meta c), Namespace (BgpConf_Meta c))) <$> getDefaultBgpConf s
  else (λ p, (Name (BgpPeer_Meta p), Namespace (BgpPeer_Meta p))) <$> getBgpPeers s.
End reconcilers.

(** ** Reads, writes and the process *)
Section steps.
Context {R : GoRange} {S G V F : Type} {K : BgpKube S} {view : S → BgpStore} {KO : BgpKubeOk S view}
  `{GM : GoBgpMessages} {GO : GoBgpMessagesOk} {BD : BgpDaemon G} {BO : BgpDaemonOk G} {MV : MetricVec V}.
Context (nodeName : string).
Implicit Types w : BgpWorld S G V F.

(** What the reconcilers are judged by: the objects and gobgp's state. *)
Definition kview w : BgpStore := view (bw_kube w).
Definition gview w : DaemonView := wview (bw_proc w).

Lemma kread_Ok {A} (f : S → Result A) w w' a : kread f w = (w', Ok a) → w' = w ∧ f (bw_kube w) = Ok a.
Proof. unfold kread. by intros [= <- ->]. Qed.
Lemma get_or_none_Some {A} (r : Result A) a : get_or_none r = Ok (Some a) → r = Ok a.
Proof. destruct r as [x|e|]; cbn; [congruence|by destruct (IsNotFound e)|done]. Qed.
Lemma get_or_none_law {A} (r : Result A) stored a : read_law r stored → stored = Some a →
  get_or_none r ≠ Ok None ∧ ∀ b, get_or_none r = Ok (Some b) → b = a.
Proof.
  unfold read_law, get_or_none. intros Hr ->. destruct r as [x|e|]; [|destruct (IsNotFound e) eqn:E; [by specialize (Hr eq_refl)|done]|done].
  split; [done|]. intros b [= <-]. by injection Hr.
Qed.

Lemma kwrite_Ok {A} (f : S → A → S * Result A) effect a w w' a' : write_law view effect f →
  kwrite f a w = (w', Ok a') → effect (kview w) a = Some (kview w', a') ∧ bw_proc w' = bw_proc w.
Proof.
  intros Hl. unfold kwrite. destruct (f _ a) as [s r] eqn:E. intros [= <- ->]. split; [|done]. exact (Hl _ _ _ _ E).
Qed.
Lemma on_proc_inv {A} (c : ST (BgpProcess G V F) A) w w' r : on_proc c w = (w', r) →
  c (bw_proc w) = (bw_proc w', r) ∧ bw_kube w' = bw_kube w.
Proof. unfold on_proc. destruct (c _) as [p r1]. by intros [= <- <-]. Qed.

(** ** Configuring the peers again *)
Section reconfig.
Context {NS : NodeSelectors}.

(** The peers the resources [l] give to a node: [k] stands for the neighbour
    of one of them that matches the node, with its request. *)
Definition wanted_peer (node : Node) (l : list BgpPeer) (k : string) (req : api_Peer) : Prop :=
  ∃ p c, p ∈ l ∧ peerMatchNode p node = Ok true ∧ spec_conf (BgpPeer_Spec p) = Some c ∧ neighbor_key c = k ∧
    ToGoBgpPeer (BgpPeer_Spec (defaulted p)) = Ok req.

Lemma wanted_peer_cons node p l k req : wanted_peer node l k req → wanted_peer node (p :: l) k req.
Proof. intros (q & c & ? & ?). exists q, c. split; [by right|done]. Qed.

(** The rest of gobgp's state and of the process. *)
Definition only_peers w w' : Prop :=
  bw_kube w' = bw_kube w ∧ rack (bp_bgp (bw_proc w')) = rack (bp_bgp (bw_proc w)) ∧
  ∃ m, gview w' = with_peers (gview w) m.
Lemma only_peers_refl w : only_peers w w.
Proof. split_and!; [done..|]. exists (dv_peers (gview w)). by destruct (gview w). Qed.
Lemma only_peers_trans w1 w2 w3 : only_peers w1 w2 → only_peers w2 w3 → only_peers w1 w3.
Proof.
  intros (? & ? & m & Hm) (? & ? & m' & Hm'). split_and!; [congruence..|]. exists m'. by rewrite Hm', Hm.
Qed.

Lemma handle_peer p w w' : on_proc (HandleBgpPeer nodeName p false) w = (w', Ok ()) →
  only_peers w w' ∧ ∃ c req, spec_conf (BgpPeer_Spec p) = Some c ∧
    ToGoBgpPeer (BgpPeer_Spec (defaulted p)) = Ok req ∧
    gview w' = with_peers (gview w) (<[neighbor_key c := req]> (dv_peers (gview w))).
Proof.
  intros [E Hk]%on_proc_inv. destruct (HandleBgpPeer_spec _ _ _ _ _ _ E) as (Hr & _ & _ & Hok).
  destruct (Hok eq_refl) as (c & req & Hc & Hreq & Hv). split; [split_and!; [done|done|by eexists]|eauto].
Qed.

Lemma reconfig_loop_spec node l : ∀ w w', reconfig_loop nodeName node l w = (w', Ok ()) →
  only_peers w w' ∧
  (∀ k req, dv_peers (gview w') !! k = Some req → dv_peers (gview w) !! k = Some req ∨ wanted_peer node l k req) ∧
  (∀ p c, p ∈ l → peerMatchNode p node = Ok true → spec_conf (BgpPeer_Spec p) = Some c →
     is_Some (dv_peers (gview w') !! neighbor_key c)) ∧
  (∀ k, is_Some (dv_peers (gview w) !! k) → is_Some (dv_peers (gview w') !! k)).
Proof.
  induction l as [|p l IH]; intros w w'; cbn [reconfig_loop].
  { intros [= <-]. split_and!; [apply only_peers_refl|by left|by intros p c ?%not_elem_of_nil|done]. }
  intros (w1 & m & Hm & H)%ST_bind_Ok. unfold st_lift in Hm. injection Hm as <- Hm.
  apply ST_bind_Ok in H as (w2 & [] & H1 & H2). destruct (IH _ _ H2) as (Ho & Hin & Hall & Hkeep).
  destruct m.
  - destruct (handle_peer _ _ _ H1) as (Ho1 & c & req & Hc & Hreq & Hv). rewrite Hv in *. cbn [with_peers dv_peers] in *.
    split_and!; [by eapply only_peers_trans| | |].
    + intros k r [Hk|Hk]%Hin; [|right; by apply wanted_peer_cons]. apply lookup_insert_Some in Hk as [[<- <-]|[_ Hk]]; [|by left].
      right. exists p, c. split_and!; [left|done..].
    + intros q c' [-> | Hq]%elem_of_cons Hqm Hqc; [|by eapply Hall]. simplify_eq. apply Hkeep. by rewrite lookup_insert_eq.
    + intros k Hk. apply Hkeep. destruct (decide (k = neighbor_key c)) as [->|]; [by rewrite lookup_insert_eq|by rewrite lookup_insert_ne].
  - injection H1 as <-. split_and!; [done| | |done].
    + intros k r [Hk|Hk]%Hin; [by left|right; by apply wanted_peer_cons].
    + intros q c' [-> | Hq]%elem_of_cons Hqm Hqc; [congruence|by eapply Hall].
Qed.
End reconfig.
End steps.

(** ** The configuration *)
Section configuration.
Context {R : GoRange} {S G V F : Type} {K : BgpKube S} {view : S → BgpStore} {KO : BgpKubeOk S view}
  `{GM : GoBgpMessages} {GO : GoBgpMessagesOk} {BD : BgpDaemon G} {BO : BgpDaemonOk G} {MV : MetricVec V}
  {TF : TempFiles F} {TO : TempFilesOk F} {VP : Viper F} {AF : AddressFamilies} {NS : NodeSelectors}.
Context (nodeName envNamespace now : string).
Implicit Types w : BgpWorld S G V F.
Abbreviation kview := (@kview S G V F view).

(** An update of a configuration that is not being deleted: it is stored with
    its own metadata and spec, and the peers, nodes and config maps stay. *)
Lemma update_conf_live w w' c c' old : kwrite UpdateBgpConf c w = (w', Ok c') →
  bs_confs (kview w) !! BgpConf_Name c = Some old → IsZero (DeletionTimestamp (BgpConf_Meta old)) = true →
  bw_proc w' = bw_proc w ∧ BgpConf_Spec c' = BgpConf_Spec c ∧ BgpConf_Name c' = BgpConf_Name c ∧
  Finalizers (BgpConf_Meta c') = Finalizers (BgpConf_Meta c) ∧
  DeletionTimestamp (BgpConf_Meta c') = DeletionTimestamp (BgpConf_Meta old) ∧
  kview w' = with_confs (kview w) (<[BgpConf_Name c := c']> (bs_confs (kview w))).
Proof.
  intros [E Hp]%(kwrite_Ok _ _ _ _ _ _ UpdateBgpConf_law) Hold Hz. unfold srv_update_conf in E.
  fold (kview w) in E. rewrite Hold in E. cbn in E. unfold is_gone in E. cbn in E. rewrite Hz in E. cbn in E.
  injection E as E <-. split_and!; try done.
Qed.

(** The write of the finalizer. *)
Lemma add_conf_finalizer_spec w w' conf clone : add_conf_finalizer conf w = (w', Ok clone) →
  bs_confs (kview w) !! BgpConf_Name conf = Some conf → IsZero (DeletionTimestamp (BgpConf_Meta conf)) = true →
  bw_proc w' = bw_proc w ∧ BgpConf_Spec clone = BgpConf_Spec conf ∧ BgpConf_Name clone = BgpConf_Name conf ∧
  constant.FinalizerName ∈ Finalizers (BgpConf_Meta clone) ∧
  DeletionTimestamp (BgpConf_Meta clone) = DeletionTimestamp (BgpConf_Meta conf) ∧
  kview w' = with_confs (kview w) (<[BgpConf_Name conf := clone]> (bs_confs (kview w))).
Proof.
  unfold add_conf_finalizer. intros H Hst Hz. unfold NeedToAddFinalizer in H. rewrite Hz in H. cbn [andb] in H.
  destruct (ContainsString (Finalizers (BgpConf_Meta conf)) constant.FinalizerName) eqn:Hf; cbn [negb] in H.
  - injection H as <- <-. apply ContainsString_elem in Hf. split_and!; try done.
    rewrite insert_id by done. by destruct (kview w).
  - set (c := set_conf_meta _ _) in H.
    assert (BgpConf_Name c = BgpConf_Name conf) as Hn by (unfold c, BgpConf_Name, AddFinalizer; cbn; by rewrite Hf).
    destruct (update_conf_live _ _ _ _ conf H) as (H1 & H2 & H3 & H4 & H5 & H6); [by rewrite Hn|done|].
    rewrite Hn in *. split_and!; try done.
    rewrite H4. unfold c, AddFinalizer. rewrite Hf. cbn. set_solver.
Qed.

Lemma getPolicyConfigMap_kview c w w' cm : getPolicyConfigMap envNamespace c w = (w', Ok cm) → w' = w.
Proof. unfold getPolicyConfigMap. destruct (str_empty _); [by intros [= <-]|]. by intros [-> _]%kread_Ok. Qed.

Lemma reconfigPeers_spec w w' : reconfigPeers nodeName w = (w', Ok ()) →
  only_peers w w' ∧ ∃ node l, bs_nodes (kview w) !! nodeName = Some node ∧
    l ≡ₚ (map_to_list (bs_peers (kview w))).*2 ∧
    (∀ k req, dv_peers (gview w') !! k = Some req → dv_peers (gview w) !! k = Some req ∨ wanted_peer node l k req) ∧
    (∀ p c, p ∈ l → peerMatchNode p node = Ok true → spec_conf (BgpPeer_Spec p) = Some c →
       is_Some (dv_peers (gview w') !! neighbor_key c)).
Proof.
  intros H. apply ST_bind_Ok in H as (w1 & l & [-> Hl]%kread_Ok & H).
  apply ST_bind_Ok in H as (w2 & node & [-> Hnode]%kread_Ok & H).
  pose proof (ListBgpPeers_law (bw_kube w)) as Hll. rewrite Hl in Hll.
  pose proof (GetNode_law (bw_kube w) nodeName) as Hnl. rewrite Hnode in Hnl.
  destruct (reconfig_loop_spec _ _ _ _ _ H) as (Ho & Hin & Hall & _). split; [done|]. by exists node, l.
Qed.

(** A reconciliation of a configuration that is not being deleted, call by
    call. *)
Lemma configure_spec conf w w' : configure nodeName envNamespace now conf conf w = (w', Ok ()) →
  bs_confs (kview w) !! BgpConf_Name conf = Some conf → IsZero (DeletionTimestamp (BgpConf_Meta conf)) = true →
  ∃ node l greq conf',
    bs_nodes (kview w) !! nodeName = Some node ∧ l ≡ₚ (map_to_list (bs_peers (kview w))).*2 ∧
    ToGoBgpGlobalConf (rack_conf (BgpConf_Spec conf) node).2 = Ok greq ∧
    dv_global (gview w') = Some greq ∧ rack (bp_bgp (bw_proc w')) = (rack_conf (BgpConf_Spec conf) node).1 ∧
    (∀ k req, dv_peers (gview w') !! k = Some req → wanted_peer node l k req) ∧
    (∀ p c, p ∈ l → peerMatchNode p node = Ok true → spec_conf (BgpPeer_Spec p) = Some c →
       is_Some (dv_peers (gview w') !! neighbor_key c)) ∧
    BgpConf_Spec conf' = BgpConf_Spec conf ∧ constant.FinalizerName ∈ Finalizers (BgpConf_Meta conf') ∧
    DeletionTimestamp (BgpConf_Meta conf') = DeletionTimestamp (BgpConf_Meta conf) ∧
    kview w' = with_confs (kview w) (<[BgpConf_Name conf := conf']> (bs_confs (kview w))).
Proof.
  intros H Hst Hz. apply ST_bind_Ok in H as (w1 & clone & H1 & H).
  destruct (add_conf_finalizer_spec _ _ _ _ H1 Hst Hz) as (Hp1 & Hs1 & Hn1 & Hf1 & Hz1 & Hk1).
  apply ST_bind_Ok in H as (w2 & node & [-> Hnode]%kread_Ok & H).
  pose proof (GetNode_law (bw_kube w1) nodeName) as Hnl. rewrite Hnode in Hnl. cbn in Hnl. fold (kview w1) in Hnl.
  apply ST_bind_Ok in H as (w3 & cm & ->%getPolicyConfigMap_kview & H).
  apply ST_bind_Ok in H as (w4 & [] & [H4 Hk4]%on_proc_inv & H).
  apply HandleBgpGlobalConfig_Ok in H4 as (Hr4 & greq & Hgreq & [Hg Hps] & _). cbn [BgpConf_Spec set_conf_spec] in Hgreq.
  fold (gview w4) in Hg, Hps.
  assert (kview w4 = kview w1) as Hkv4 by (unfold kview; by rewrite Hk4).
  apply ST_bind_Ok in H as (w5 & c5 & H5 & H). set (c := mkBgpConf _ _ _) in H5.
  assert (BgpConf_Name c = BgpConf_Name conf) as Hnc by (rewrite <- Hn1; done).
  eapply (update_conf_live _ _ _ _ clone) in H5 as (Hp5 & Hs5 & Hn5 & Hf5 & Hd5 & Hk5);
    [|rewrite Hkv4, Hk1, Hnc; apply lookup_insert_eq|by rewrite Hz1].
  assert (gview w5 = gview w4) as Hg5 by (unfold gview; by rewrite Hp5).
  destruct (reconfigPeers_spec _ _ H) as ((Hkw & Hrk & m & Hm) & node' & l & Hnl' & Hll & Hin & Hall).
  rewrite Hk5, Hkv4, Hk1 in Hll, Hnl'. rewrite Hk1 in Hnl. cbn in Hll, Hnl, Hnl'.
  assert (node' = node) as -> by congruence. rewrite Hg5 in *.
  exists node, l, greq, c5. rewrite <- Hs1. split_and!; try done.
  - by rewrite Hm.
  - by rewrite Hrk, Hp5.
  - intros k req [Hk|Hk]%Hin; [|done]. rewrite Hps in Hk. cbn in Hk. by rewrite lookup_empty in Hk.
  - by rewrite Hs5, Hs1.
  - by rewrite Hf5.
  - by rewrite Hd5.
  - unfold kview at 1. rewrite Hkw. fold (kview w5). rewrite Hk5, Hkv4, Hk1, Hnc. unfold with_confs. cbn.
    by rewrite insert_insert_eq.
Qed.
End configuration.

(** ** The peers *)
Section peer_reconcile.
Context {R : GoRange} {S G V F : Type} {K : BgpKube S} {view : S → BgpStore} {KO : BgpKubeOk S view}
  `{GM : GoBgpMessages} {GO : GoBgpMessagesOk} {BD : BgpDaemon G} {BO : BgpDaemonOk G} {MV : MetricVec V}
  {NS : NodeSelectors}.
Context (nodeName : string).
Implicit Types w : BgpWorld S G V F.
Abbreviation kview := (@kview S G V F view).

(** Whether the resource is for this node. *)
Definition for_node (v : BgpStore) (p : BgpPeer) (m : bool) : Prop :=
  match BgpPeerSpec_NodeSelector (BgpPeer_Spec p) with
  | None => m = true
  | Some _ => ∃ node, bs_nodes v !! nodeName = Some node ∧ peerMatchNode p node = Ok m
  end.
Lemma node_matches_spec p w w' m : node_matches nodeName p w = (w', Ok m) → w' = w ∧ for_node (kview w) p m.
Proof.
  unfold node_matches, for_node. destruct (BgpPeerSpec_NodeSelector _); [|by intros [= <- <-]].
  intros (w1 & node & [-> Hn]%kread_Ok & H)%ST_bind_Ok. pose proof (GetNode_law (bw_kube w) nodeName) as Hl.
  rewrite Hn in Hl. unfold st_lift in H. injection H as <- H. split; [done|]. by exists node.
Qed.

Lemma update_peer_live w w' p p' old : kwrite UpdateBgpPeer p w = (w', Ok p') →
  bs_peers (kview w) !! BgpPeer_Name p = Some old → IsZero (DeletionTimestamp (BgpPeer_Meta old)) = true →
  bw_proc w' = bw_proc w ∧ BgpPeer_Spec p' = BgpPeer_Spec p ∧
  Finalizers (BgpPeer_Meta p') = Finalizers (BgpPeer_Meta p) ∧
  kview w' = with_bgppeers (kview w) (<[BgpPeer_Name p := p']> (bs_peers (kview w))).
Proof.
  intros [E Hp]%(kwrite_Ok _ _ _ _ _ _ UpdateBgpPeer_law) Hold Hz. unfold srv_update_peer in E.
  fold (kview w) in E. rewrite Hold in E. cbn in E. unfold is_gone in E. cbn in E. rewrite Hz in E. cbn in E.
  injection E as E <-. split_and!; try done.
Qed.

Lemma add_peer_finalizer_spec w w' p clone : add_peer_finalizer nodeName p w = (w', Ok clone) →
  bs_peers (kview w) !! BgpPeer_Name p = Some p → IsZero (DeletionTimestamp (BgpPeer_Meta p)) = true →
  bp_bgp (bw_proc w') = bp_bgp (bw_proc w) ∧ BgpPeer_Spec clone = BgpPeer_Spec p ∧
  constant.FinalizerName ∈ Finalizers (BgpPeer_Meta clone) ∧
  kview w' = with_bgppeers (kview w) (<[BgpPeer_Name p := clone]> (bs_peers (kview w))).
Proof.
  unfold add_peer_finalizer. intros H Hst Hz. unfold NeedToAddFinalizer in H. rewrite Hz in H. cbn [andb] in H.
  destruct (ContainsString (Finalizers (BgpPeer_Meta p)) constant.FinalizerName) eqn:Hf; cbn [negb] in H.
  - injection H as <- <-. apply ContainsString_elem in Hf. split_and!; try done.
    rewrite insert_id by done. by destruct (kview w).
  - destruct (BgpPeerSpec_Conf (BgpPeer_Spec p)) as [conf|]; [|done].
    apply ST_bind_Ok in H as (w1 & [] & H1 & H). apply on_proc_inv in H1 as [H1 Hk1]. unfold on_metrics in H1.
    injection H1 as H1. assert (kview w1 = kview w) as Hkv by (unfold kview; by rewrite Hk1).
    set (c := set_peer_meta _ _) in H.
    assert (BgpPeer_Name c = BgpPeer_Name p) as Hn by (unfold c, BgpPeer_Name, AddFinalizer; cbn; by rewrite Hf).
    destruct (update_peer_live _ _ _ _ p H) as (H2 & H3 & H4 & H5); [by rewrite Hn, Hkv|done|].
    rewrite Hn, Hkv in *. split_and!; try done; [by rewrite H2, <- H1|].
    rewrite H4. unfold c, AddFinalizer. rewrite Hf. cbn. set_solver.
Qed.

(** Deleting fails only before gobgp is asked. *)
Lemma HandleBgpPeer_delete_err p (q q' : BgpProcess G V F) e : HandleBgpPeer nodeName p true q = (q', Err e) →
  default_afisafis (BgpPeer_Spec p) = Err e ∨ ToGoBgpPeer (BgpPeer_Spec (defaulted p)) = Err e.
Proof.
  unfold HandleBgpPeer, defaulted. unfold mbind at 1, ST_bind at 1, st_lift at 1.
  destruct (default_afisafis (BgpPeer_Spec p)) as [l|e1|]; [|intros [= <- <-]; by left|done].
  unfold mbind at 1, ST_bind at 1, st_lift at 1. set (n' := with_spec _ _).
  destruct (ToGoBgpPeer (BgpPeer_Spec n')) as [req|e1|] eqn:Ereq; [|intros [= <- <-]; by right|done].
  unfold mbind, ST_bind. destruct (UpdatePeerMetrics nodeName n' true q) as [q1 r1] eqn:E1.
  assert (∀ x, r1 ≠ Err x) as Hne.
  { intros x ->. revert q E1. unfold UpdatePeerMetrics. generalize (BgpPeer_Spec n').
    generalize (range_map (default ∅ (BgpPeerStatus_NodesPeerStatus (BgpPeer_Status n')))).
    intros l0 sp. induction l0 as [|[nd st] l0 IH]; intros q; [done|]. cbn [peers_metrics peer_metrics].
    unfold mbind, ST_bind. destruct (BgpPeerSpec_Conf sp); [|done]. destruct (negb _); [apply IH|]. apply IH. }
  destruct r1 as [[]|x|]; [|by destruct (Hne x)|done].
  destruct (Peer_Conf req) as [[a i]|]; [|done]. intros (r2 & _ & H)%ignore_err_spec. by destruct r2.
Qed.
End peer_reconcile.

(** ** The routes across a restart *)
Section routes.
Context {R : GoRange} {S G V F : Type} {K : BgpKube S} `{GM : GoBgpMessages} {BD : BgpDaemon G} {BS : BgpServer G}
  {BR : BgpRestartOk G} {MV : MetricVec V} {TF : TempFiles F} {VP : Viper F} {AF : AddressFamilies} {NS : NodeSelectors}.
Context (nodeName envNamespace now : string).
Abbreviation P := (BgpProcess G V F).

Definition proc_routes (w : P) : gmap path_key Path := rib (bgpServer (bp_bgp w)).
(** A computation that leaves the routes alone, whatever it returns. *)
Definition keeps_routes {A} (c : ST P A) : Prop := ∀ w w' r, c w = (w', r) → proc_routes w' = proc_routes w.

Lemma keeps_bind {A B} (c : ST P A) (f : A → ST P B) : keeps_routes c → (∀ a, keeps_routes (f a)) → keeps_routes (c ≫= f).
Proof.
  intros Hc Hf w w' r. unfold mbind, ST_bind. destruct (c w) as [w1 r1] eqn:E. apply Hc in E.
  destruct r1; [intros H; by rewrite (Hf _ _ _ _ H)|by intros [= <- <-]..].
Qed.
Lemma keeps_try {A} (c : ST P A) : keeps_routes c → keeps_routes (st_try c).
Proof. intros Hc w w' r (r1 & E & _)%st_try_spec. by apply Hc in E. Qed.
Lemma keeps_ret {A} (a : A) : keeps_routes (mret a).
Proof. by intros w w' r [= <- <-]. Qed.
Lemma keeps_lift {A} (a : Result A) : keeps_routes (st_lift a).
Proof. by intros w w' r [= <- <-]. Qed.
Lemma keeps_read {A} (f : P → Result A) : keeps_routes (st_read f).
Proof. by intros w w' r [= <- <-]. Qed.
Lemma keeps_files {A} (c : ST F A) : keeps_routes (on_files c).
Proof. intros w w' r [[H _] _]%on_files_only. unfold proc_routes. by rewrite H. Qed.
Lemma keeps_daemon {A} (c : ST G A) : (∀ g g' r, c g = (g', r) → rib g' = rib g) → keeps_routes (on_daemon c).
Proof. intros Hc w w' r. unfold on_daemon. destruct (c _) as [g r1] eqn:E. intros [= <- <-]. exact (Hc _ _ _ E). Qed.
Lemma keeps_metrics peer d : keeps_routes (UpdatePeerMetrics nodeName peer d).
Proof. intros w w' r [H _]%UpdatePeerMetrics_only. unfold proc_routes. by rewrite H. Qed.
Ltac keep_routes := repeat (case_match || (apply keeps_bind; [|intros ?]) || apply keeps_try);
  first [apply keeps_ret | apply keeps_lift | apply keeps_read | apply keeps_files | apply keeps_metrics
        | apply keeps_daemon; first [apply SetPolicies_routes | apply SetPolicyAssignment_routes
                                    | apply AddPeer_routes | apply UpdatePeer_routes]].

Lemma updatePolicy_keeps cm : keeps_routes (updatePolicy cm).
Proof.
  unfold updatePolicy, writeToTempFile, policy_body, applyPolicyFile, assignGlobalpolicy, ignore_err.
  keep_routes.
Qed.
Lemma HandleBgpPeer_keeps p : keeps_routes (HandleBgpPeer nodeName p false).
Proof. unfold HandleBgpPeer. keep_routes. Qed.

Lemma HandleBgpGlobalConfig_routes global rk cm w w' :
  HandleBgpGlobalConfig global rk false cm w = (w', Ok ()) → proc_routes w' = ∅.
Proof.
  unfold HandleBgpGlobalConfig. intros H. repeat apply ST_bind_Ok in H as (? & ? & ? & H).
  match goal with E : on_daemon (StartBgp _) _ = _ |- _ => revert E end.
  unfold on_daemon. destruct (StartBgp _ _) as [g [[]| |]] eqn:E; intros [= <- _].
  rewrite (updatePolicy_keeps _ _ _ _ H). by apply StartBgp_routes in E.
Qed.

Definition world_routes (w : BgpWorld S G V F) : gmap path_key Path := proc_routes (bw_proc w).
Lemma reconfig_loop_routes node l : ∀ w w', reconfig_loop nodeName node l w = (w', Ok ()) →
  world_routes w' = world_routes w.
Proof.
  induction l as [|p l IH]; intros w w'; cbn [reconfig_loop]; [by intros [= <-]|].
  intros (w1 & m & Hm & (w2 & [] & H1 & H2)%ST_bind_Ok)%ST_bind_Ok. injection Hm as <- _. rewrite (IH _ _ H2).
  destruct m; [|by injection H1 as <-]. apply on_proc_inv in H1 as [H1 _]. by apply HandleBgpPeer_keeps in H1.
Qed.
Lemma configure_routes conf (w w' : BgpWorld S G V F) : configure nodeName envNamespace now conf conf w = (w', Ok ()) →
  world_routes w' = ∅.
Proof.
  intros (w1 & clone & _ & (w2 & node & _ & (w3 & cm & _ & (w4 & [] & H4 & H)%ST_bind_Ok)%ST_bind_Ok)%ST_bind_Ok)%ST_bind_Ok.
  apply ST_bind_Ok in H as (w5 & c5 & H5 & (w6 & l & [-> _]%kread_Ok & (w7 & node' & [-> _]%kread_Ok & H)%ST_bind_Ok)%ST_bind_Ok).
  rewrite (reconfig_loop_routes _ _ _ _ H). unfold kwrite in H5. destruct (UpdateBgpConf _ _). injection H5 as <- _.
  apply on_proc_inv in H4 as [H4 _]. by apply HandleBgpGlobalConfig_routes in H4.
Qed.
End routes.

(** ** Properties *)
Section properties.
Context {R : GoRange} {S G V F : Type} {K : BgpKube S} {view : S → BgpStore} {KO : BgpKubeOk S view}
  `{GM : GoBgpMessages} {GO : GoBgpMessagesOk} {BD : BgpDaemon G} {BO : BgpDaemonOk G} {MV : MetricVec V}
  {TF : TempFiles F} {TO : TempFilesOk F} {VP : Viper F} {AF : AddressFamilies} {NS : NodeSelectors}.
Context (nodeName envNamespace now : string).
Implicit Types w : BgpWorld S G V F.
Abbreviation kview := (@kview S G V F view).

(** A stored configuration that is not being deleted is configured. *)
Lemma BgpConf_Reconcile_live req conf w w' : bs_confs (kview w) !! req = Some conf →
  IsZero (DeletionTimestamp (BgpConf_Meta conf)) = true →
  BgpConf_Reconcile nodeName envNamespace now req w = (w', Ok ()) →
  configure nodeName envNamespace now conf conf w = (w', Ok ()).
Proof.
  intros Hst Hz (w1 & found & [-> Hf]%kread_Ok & H)%ST_bind_Ok.
  destruct (get_or_none_law _ _ conf (GetBgpConf_law (bw_kube w) req) Hst) as [Hn Hs].
  destruct found as [c|]; [|done]. rewrite (Hs _ Hf) in *. unfold IsDeletionCandidate in H. by rewrite Hz in H.
Qed.

(** C13: a successful reconciliation of the BGP configuration leaves the node
    configured exactly: gobgp runs with the resource's configuration as the
    node's rack changes it, the speaker's rack is the node's, the peers of
    gobgp are those of the [BgpPeer] resources that match the node, none
    missing and none left over; on the API server only the configuration
    itself changed: it has the finalizer and keeps its spec, although the code
    changes the spec it works on. *)
Theorem BgpConf_Reconcile_configures conf w w' :
  bs_confs (kview w) !! BgpConf_Name conf = Some conf → IsZero (DeletionTimestamp (BgpConf_Meta conf)) = true →
  BgpConf_Reconcile nodeName envNamespace now (BgpConf_Name conf) w = (w', Ok ()) →
  ∃ node l greq conf',
    bs_nodes (kview w) !! nodeName = Some node ∧ l ≡ₚ (map_to_list (bs_peers (kview w))).*2 ∧
    ToGoBgpGlobalConf (rack_conf (BgpConf_Spec conf) node).2 = Ok greq ∧
    dv_global (gview w') = Some greq ∧ rack (bp_bgp (bw_proc w')) = (rack_conf (BgpConf_Spec conf) node).1 ∧
    (∀ k req, dv_peers (gview w') !! k = Some req → wanted_peer node l k req) ∧
    (∀ p c, p ∈ l → peerMatchNode p node = Ok true → spec_conf (BgpPeer_Spec p) = Some c →
       is_Some (dv_peers (gview w') !! neighbor_key c)) ∧
    BgpConf_Spec conf' = BgpConf_Spec conf ∧ constant.FinalizerName ∈ Finalizers (BgpConf_Meta conf') ∧
    kview w' = with_confs (kview w) (<[BgpConf_Name conf := conf']> (bs_confs (kview w))).
Proof.
  intros Hst Hz H. eapply BgpConf_Reconcile_live in H; [|done..].
  destruct (configure_spec _ _ _ _ _ _ H Hst Hz) as (node & l & greq & conf' & ?). exists node, l, greq, conf'. tauto.
Qed.

(** Reconciling a peer.  When it succeeds for a resource that is not being
    deleted, the resource has the finalizer and keeps its spec, and gobgp has
    the peer if the resource is for this node, and lacks it (for a peer given
    by address) if it is not; other peers stay. *)
Theorem BgpPeer_Reconcile_follows p w w' :
  bs_peers (kview w) !! BgpPeer_Name p = Some p → IsZero (DeletionTimestamp (BgpPeer_Meta p)) = true →
  BgpPeer_Reconcile nodeName (BgpPeer_Name p) w = (w', Ok ()) →
  ∃ m c p', for_node nodeName (kview w) p m ∧ spec_conf (BgpPeer_Spec p) = Some c ∧
    (if m : bool then ∃ req, ToGoBgpPeer (BgpPeer_Spec (defaulted p)) = Ok req ∧
                      gview w' = with_peers (gview w) (<[neighbor_key c := req]> (dv_peers (gview w)))
     else c.2 = "" → dv_peers (gview w') = delete (neighbor_key c) (dv_peers (gview w))) ∧
    BgpPeer_Spec p' = BgpPeer_Spec p ∧ constant.FinalizerName ∈ Finalizers (BgpPeer_Meta p') ∧
    kview w' = with_bgppeers (kview w) (<[BgpPeer_Name p := p']> (bs_peers (kview w))).
Proof.
  intros Hst Hz (w1 & found & [-> Hf]%kread_Ok & H)%ST_bind_Ok.
  destruct (get_or_none_law _ _ p (GetBgpPeer_law (bw_kube w) (BgpPeer_Name p)) Hst) as [Hn Hs].
  destruct found as [q|]; [|done]. rewrite (Hs _ Hf) in *.
  apply ST_bind_Ok in H as (w2 & m & [-> Hm]%node_matches_spec & H).
  unfold IsDeletionCandidate in H. rewrite Hz in H. cbn [negb andb] in H.
  apply ST_bind_Ok in H as (w3 & clone & H3 & [H Hk]%on_proc_inv).
  destruct (add_peer_finalizer_spec _ _ _ _ _ H3 Hst Hz) as (Hb & Hsp & Hfin & Hkv).
  destruct (HandleBgpPeer_spec _ _ _ _ _ _ H) as (_ & _ & _ & Hok). destruct (Hok eq_refl) as (c & req & Hc & Hreq & Hv).
  assert (wview (bw_proc w3) = gview w) as Hg by (unfold gview, wview; by rewrite Hb).
  assert (BgpPeer_Spec (defaulted clone) = BgpPeer_Spec (defaulted p)) as Hdef.
  { unfold defaulted. rewrite Hsp. by destruct (default_afisafis _). }
  rewrite Hg, Hsp, Hdef in *. exists m, c, clone. split_and!; try done.
  - destruct m; cbn [negb] in Hv; [by exists req|]. intros Hi. destruct Hv as [Hv|[]]; [unfold gview; by rewrite Hv|done].
  - unfold kview at 1. by rewrite Hk.
Qed.

(** C27: a deleted peer goes away.  When the reconciliation of a resource that
    is being deleted and has no other finalizer succeeds, the resource is gone
    from the API server, and gobgp no longer has the peer (given by address),
    unless its address families cannot be completed or the request cannot be
    made. *)
Theorem BgpPeer_Reconcile_deletes p w w' :
  bs_peers (kview w) !! BgpPeer_Name p = Some p → IsZero (DeletionTimestamp (BgpPeer_Meta p)) = false →
  Finalizers (BgpPeer_Meta p) = [constant.FinalizerName] →
  BgpPeer_Reconcile nodeName (BgpPeer_Name p) w = (w', Ok ()) →
  bs_peers (kview w') = delete (BgpPeer_Name p) (bs_peers (kview w)) ∧
  ((∃ e, default_afisafis (BgpPeer_Spec p) = Err e) ∨ (∃ e, ToGoBgpPeer (BgpPeer_Spec (defaulted p)) = Err e) ∨
   ∃ c, spec_conf (BgpPeer_Spec p) = Some c ∧
     (c.2 = "" → dv_peers (gview w') = delete (neighbor_key c) (dv_peers (gview w)))).
Proof.
  intros Hst Hz Hfin (w1 & found & [-> Hf]%kread_Ok & H)%ST_bind_Ok.
  destruct (get_or_none_law _ _ p (GetBgpPeer_law (bw_kube w) (BgpPeer_Name p)) Hst) as [Hn Hs].
  destruct found as [q|]; [|done]. rewrite (Hs _ Hf) in *.
  apply ST_bind_Ok in H as (w2 & m & [-> Hm]%node_matches_spec & H).
  unfold IsDeletionCandidate in H. rewrite Hz, Hfin in H. cbn [negb andb ContainsString] in H. rewrite decide_True in H by done.
  apply ST_bind_Ok in H as (w3 & r & H3 & (w4 & p' & H4 & H)%ST_bind_Ok). injection H as <-.
  assert (∃ r1, on_proc (HandleBgpPeer nodeName p true) w = (w3, r1) ∧ r = r1 ∧ r1 ≠ Panic) as (r1 & H1 & -> & Hnp).
  { unfold st_try in H3. destruct (on_proc _ w) as [w5 [a|e|]]; simplify_eq; eauto. }
  apply on_proc_inv in H1 as [H1 Hk1].
  apply (kwrite_Ok _ _ _ _ _ _ UpdateBgpPeer_law) in H4 as [E Hp4].
  assert (kview w3 = kview w) as Hkv by (unfold kview; by rewrite Hk1). fold (kview w3) in E. rewrite Hkv in E.
  set (q' := set_peer_meta _ _) in E.
  assert (BgpPeer_Name q' = BgpPeer_Name p ∧ Finalizers (BgpPeer_Meta q') = []) as [Hnq Hfq].
  { unfold q', defaulted. destruct (default_afisafis _); cbn; by rewrite Hfin. }
  unfold srv_update_peer in E. rewrite Hnq, Hst in E. cbn in E. unfold is_gone in E. cbn in E.
  cbn in Hfq. rewrite Hz, Hfq in E. cbn in E. injection E as E _. split; [by rewrite <- E|].
  assert (gview w4 = gview w3) as Hg by (unfold gview; by rewrite Hp4). rewrite Hg.
  destruct (HandleBgpPeer_spec _ _ _ _ _ _ H1) as (_ & _ & _ & Hok). destruct r1 as [[]|e|]; [| |done].
  - right; right. destruct (Hok eq_refl) as (c & req & Hc & _ & Hd). exists c. split; [done|].
    intros Hi. destruct Hd as [Hd|[]]; [unfold gview; by rewrite Hd|done].
  - destruct (HandleBgpPeer_delete_err _ _ _ _ _ H1); eauto.
Qed.
End properties.

(** ** Where the code does not do what it means to *)

(** The filter of node updates misses the rack label.  It means to notice
    that the label appears or disappears, but reads the old labels for the new
    node: a node that has any label after the update never passes, whatever
    happened to its rack, and the configuration is not reconciled. *)
Theorem node_UpdateFunc_misses_rack old new :
  Labels (Node_Meta new) ≠ None → node_UpdateFunc old new = false.
Proof.
  unfold node_UpdateFunc. intros Hl. destruct (Labels (Node_Meta new)); [|done]. by rewrite eqb_reflx.
Qed.
Lemma node_UpdateFunc_misses_rack_witness :
  node_UpdateFunc (bgp_node "node1" "192.168.0.1" "left")
    {| Node_Meta := no_meta "node1"; Node_Addresses := []; Node_Conditions := [] |} = true ∧
  node_UpdateFunc {| Node_Meta := no_meta "node1"; Node_Addresses := []; Node_Conditions := [] |}
    (bgp_node "node1" "192.168.0.1" "left") = false.
Proof.
  split; [vm_compute; reflexivity|]. apply node_UpdateFunc_misses_rack. discriminate.
Defined.

Section flaws.
Context {R : GoRange} {S G V F : Type} {K : BgpKube S} {view : S → BgpStore} {KO : BgpKubeOk S view}
  `{GM : GoBgpMessages} {BD : BgpDaemon G} {MV : MetricVec V} {NS : NodeSelectors}.
Context (nodeName : string).
Implicit Types w : BgpWorld S G V F.
Abbreviation kview := (@kview S G V F view).

Lemma clean_loop_keeps l : ∀ w w' r, (∀ p, p ∈ l → bs_peers (kview w) !! BgpPeer_Name p = Some p) →
  clean_loop l w = (w', r) → kview w' = kview w.
Proof.
  induction l as [|p l IH]; intros w w' r Hl; cbn [clean_loop]; [by intros [= <- <-]|].
  unfold mbind at 1, ST_bind at 1.
  set (c := if decide _ then _ else _). destruct (c w) as [w1 r1] eqn:E1.
  assert (kview w1 = kview w) as H1.
  { revert E1. unfold c. case_decide; [by intros [= <- <-]|]. unfold mbind, ST_bind, kwrite.
    destruct (StatusUpdateBgpPeer (bw_kube w) p) as [s r2] eqn:E2. apply StatusUpdateBgpPeer_law in E2.
    assert (∀ v', (∃ a', srv_status_peer (kview w) p = Some (v', a')) → v' = kview w) as Hsame.
    { intros v' [a' Hs]. unfold srv_status_peer in Hs. rewrite (Hl p) in Hs by left. cbn in Hs. injection Hs as <- _.
      destruct p as [mt sp st]. rewrite insert_id by (apply Hl; left). by destruct (kview w). }
    destruct r2 as [a|e|]; [..|done]; intros [= <- <-]; [apply Hsame; eauto|destruct E2 as [E2|E2]; [done|by apply Hsame]]. }
  destruct r1 as [[]| |]; [|by intros [= <- <-]..]. intros H. rewrite <- H1. eapply IH; [|exact H].
  intros q Hq. rewrite H1. apply Hl. by right.
Qed.

(** The cleaning of the peers' status at the start cleans nothing.  It
    means to empty the status of every [BgpPeer], but sends the object with
    the status it has: every object of the API server is as before, also when
    an update fails. *)
Theorem CleanBgpPeerStatus_keeps w w' r :
  (∀ n p, bs_peers (kview w) !! n = Some p → BgpPeer_Name p = n) →
  CleanBgpPeerStatus w = (w', r) → kview w' = kview w.
Proof.
  intros Hn. unfold CleanBgpPeerStatus, mbind, ST_bind, kread.
  pose proof (ListBgpPeers_law (bw_kube w)) as Hl. destruct (ListBgpPeers (bw_kube w)) as [l|e|]; cbn; [| |done].
  - intros H. eapply clean_loop_keeps; [|exact H]. intros p Hp. rewrite Hl in Hp.
    apply list_elem_of_fmap in Hp as ([n q] & -> & Hq%elem_of_map_to_list). cbn. by rewrite (Hn _ _ Hq).
  - destruct (IsNotFound e); by intros [= <- <-].
Qed.

(** A peer whose node selector is not valid cannot be deleted.  The
    selector is looked at before the deletion: the reconciliation fails each
    time, changes nothing, and the finalizer stays. *)
Theorem BgpPeer_Reconcile_stuck p sel e w w' r :
  bs_peers (kview w) !! BgpPeer_Name p = Some p → IsDeletionCandidate (BgpPeer_Meta p) constant.FinalizerName = true →
  BgpPeerSpec_NodeSelector (BgpPeer_Spec p) = Some sel → LabelSelectorAsSelector sel = Err e →
  BgpPeer_Reconcile nodeName (BgpPeer_Name p) w = (w', r) → w' = w ∧ is_ok r = false.
Proof.
  intros Hst _ Hsel He. unfold BgpPeer_Reconcile, mbind, ST_bind, kread.
  destruct (get_or_none_law _ _ p (GetBgpPeer_law (bw_kube w) (BgpPeer_Name p)) Hst) as [Hn Hs].
  destruct (get_or_none _) as [[q|]| |]; [|done|by intros [= <- <-]..]. rewrite (Hs q eq_refl).
  unfold node_matches. rewrite Hsel. unfold mbind, ST_bind, kread, peerMatchNode.
  destruct (GetNode _ _) as [node| |]; [|by intros [= <- <-]..]. rewrite Hsel, He. by intros [= <- <-].
Qed.
End flaws.

(** C28: a new configuration loses the announced routes.  Restarting gobgp
    empties its table, and the reconciliation puts back the peers only: after
    it no address is announced until its service or its pool changes. *)
Theorem BgpConf_Reconcile_loses_routes `{R : GoRange} {S G V F : Type} `{K : BgpKube S} {view : S → BgpStore}
    `{KO : !BgpKubeOk S view} `{GM : GoBgpMessages} `{BD : !BgpDaemon G} `{BS : !BgpServer G} `{BR : !BgpRestartOk G}
    `{MV : MetricVec V} `{TF : TempFiles F} `{VP : !Viper F} `{AF : AddressFamilies} `{NS : NodeSelectors}
    nodeName envNamespace now conf (w w' : BgpWorld S G V F) :
  bs_confs (view (bw_kube w)) !! BgpConf_Name conf = Some conf → IsZero (DeletionTimestamp (BgpConf_Meta conf)) = true →
  BgpConf_Reconcile nodeName envNamespace now (BgpConf_Name conf) w = (w', Ok ()) →
  bgp_announced (bp_bgp (bw_proc w')) = ∅.
Proof.
  intros Hst Hz H. eapply BgpConf_Reconcile_live in H; [|done..]. apply configure_routes in H.
  unfold bgp_announced, brib. unfold world_routes, proc_routes in H. rewrite H, dom_empty_L. apply set_map_empty.
Qed.

(** ** Witnesses *)
#[export] Instance store_bgp : BgpKube BgpStore := {|
  GetBgpConf v n := store_get (bs_confs v) n;
  ListBgpConfs v policy :=
    Ok (filter (λ c, policy ∈ policy_index c) (map_to_list (bs_confs v)).*2);
  UpdateBgpConf := store_write srv_update_conf;
  StatusUpdateBgpConf := store_write srv_status_conf;
  GetBgpPeer v n := store_get (bs_peers v) n;
  ListBgpPeers v := Ok (map_to_list (bs_peers v)).*2;
  UpdateBgpPeer := store_write srv_update_peer;
  StatusUpdateBgpPeer := store_write srv_status_peer;
  GetNode v n := store_get (bs_nodes v) n;
  GetConfigMap v k := store_get (bs_cms v) k |}.
#[export] Instance store_bgp_ok : BgpKubeOk BgpStore (λ v, v).
Proof. constructor; intros; try apply store_get_law; try apply store_write_law; cbn; reflexivity. Qed.

#[export] Instance demo_selectors : NodeSelectors := {|
  LabelSelectorAsSelector sel :=
    match MatchExpressions sel with
    | [] => Ok (λ labels, bool_decide (default ∅ (MatchLabels sel) ⊆ labels))
    | _ => Err (Errorf "not a valid selector operator")
    end |}.
#[export] Instance demo_daemon_routes : BgpServer demo_daemon := {|
  GetBgp g := (g, Ok 65000);
  ListPath f ip g := let '(_, r) := ListPath f ip (dd_rib g) in (g, r);
  AddPath p g := (mk_demo_daemon (dd_view g) (<[key_of p := p]> (dd_rib g)), Ok ());
  DeletePath p g := (mk_demo_daemon (dd_view g) (delete (key_of p) (dd_rib g)), Ok ());
  rib := dd_rib |}.
#[export] Instance demo_restart_ok : BgpRestartOk demo_daemon.
Proof. split; cbn; intros; unfold dd_ok in *; repeat case_match; simplify_eq; done. Qed.

#[local] Existing Instance canonical_range.
Definition stored (meta : ObjectMeta) (spec : BgpPeerSpec) : BgpPeer := mkBgpPeer meta spec (mkBgpPeerStatus None).
Definition peer_meta (name : string) (deleted : bool) : ObjectMeta :=
  {| Name := name; Namespace := ""; Labels := None; Annotations := None; Finalizers := [constant.FinalizerName];
     DeletionTimestamp := if deleted then Some 1 else None |}.
Definition with_selector (spec : BgpPeerSpec) (sel : LabelSelector) : BgpPeerSpec :=
  mkBgpPeerSpec (BgpPeerSpec_Conf spec) (BgpPeerSpec_EbgpMultihop spec) (BgpPeerSpec_Timers spec)
    (BgpPeerSpec_Transport spec) (BgpPeerSpec_GracefulRestart spec) (BgpPeerSpec_AfiSafis spec) (Some sel).
Definition here_peer : BgpPeer := demo_bgppeer "10.0.0.1".
Definition leaving_peer : BgpPeer := stored (peer_meta "leaving" true) (demo_peer_spec "10.0.0.3").
Definition broken_selector : LabelSelector := mkLabelSelector None [("rack", "Inn", ["left"])].
Definition broken_peer : BgpPeer :=
  stored (peer_meta "broken" true) (with_selector (demo_peer_spec "10.0.0.4") broken_selector).

Definition bgp_store : BgpStore :=
  mkBgpStore {["default" := demo_conf]} (list_to_map [(BgpPeer_Name here_peer, here_peer)])
    {["node1" := bgp_node "node1" "192.168.0.1" "left"]} {[("policies", "openelb-system") := demo_cm]}.
(** gobgp runs with a route of an announced address. *)
Definition routed_process : BgpProcess demo_daemon (gmap (list string) float64) (gmap string string) :=
  mkBgpProcess {| rack := ""; bgpServer := mk_demo_daemon (wview demo_peered) {[key_of old_route := old_route]} |}
    no_metrics ∅.
Definition bgp_world : BgpWorld BgpStore demo_daemon (gmap (list string) float64) (gmap string string) :=
  mkBgpWorld bgp_store routed_process.
Definition world_with (p : BgpPeer) : BgpWorld BgpStore demo_daemon (gmap (list string) float64) (gmap string string) :=
  mkBgpWorld (with_bgppeers bgp_store {[BgpPeer_Name p := p]}) demo_peered.
Abbreviation conf_run := (BgpConf_Reconcile "node1" "" "now" (BgpConf_Name demo_conf) bgp_world).

Lemma conf_run_Ok : conf_run = (fst conf_run, Ok ()).
Proof. apply pair_result. vm_compute. reflexivity. Qed.

Lemma conf_stored : bs_confs (kview (view := λ v, v) bgp_world) !! BgpConf_Name demo_conf = Some demo_conf.
Proof. vm_compute. reflexivity. Qed.

Lemma BgpConf_Reconcile_configures_witness : ∃ node greq,
  bs_nodes bgp_store !! "node1" = Some node ∧ ToGoBgpGlobalConf (rack_conf (BgpConf_Spec demo_conf) node).2 = Ok greq ∧
  dv_global (gview (fst conf_run)) = Some greq.
Proof.
  destruct (BgpConf_Reconcile_configures "node1" "" "now" demo_conf bgp_world (fst conf_run) conf_stored eq_refl conf_run_Ok)
    as (node & l & greq & conf' & H1 & _ & H2 & H3 & _). exists node, greq. exact (conj H1 (conj H2 H3)).
Defined.

Lemma BgpConf_Reconcile_loses_routes_witness :
  bgp_announced (bp_bgp (bw_proc bgp_world)) = {["10.0.0.1"]} ∧
  bgp_announced (bp_bgp (bw_proc (fst conf_run))) = ∅.
Proof.
  split; [vm_compute; reflexivity|].
  exact (BgpConf_Reconcile_loses_routes "node1" "" "now" demo_conf bgp_world (fst conf_run) conf_stored eq_refl conf_run_Ok).
Defined.

Abbreviation peer_run p := (BgpPeer_Reconcile "node1" (BgpPeer_Name p) (world_with p)).
Lemma peer_stored p : bs_peers (kview (view := λ v, v) (world_with p)) !! BgpPeer_Name p = Some p.
Proof. apply lookup_singleton_eq. Qed.

Lemma here_run_Ok : peer_run here_peer = (fst (peer_run here_peer), Ok ()).
Proof. apply pair_result. vm_compute. reflexivity. Qed.
Lemma BgpPeer_Reconcile_follows_witness : ∃ p', BgpPeer_Spec p' = BgpPeer_Spec here_peer ∧
  constant.FinalizerName ∈ Finalizers (BgpPeer_Meta p').
Proof.
  destruct (BgpPeer_Reconcile_follows "node1" here_peer (world_with here_peer) (fst (peer_run here_peer))
    (peer_stored here_peer) eq_refl here_run_Ok) as (m & c & p' & _ & _ & _ & H1 & H2 & _).
  exists p'. exact (conj H1 H2).
Defined.

Lemma leaving_run_Ok : peer_run leaving_peer = (fst (peer_run leaving_peer), Ok ()).
Proof. apply pair_result. vm_compute. reflexivity. Qed.
Lemma BgpPeer_Reconcile_deletes_witness :
  bs_peers (kview (view := λ v, v) (fst (peer_run leaving_peer))) =
    delete (BgpPeer_Name leaving_peer) (bs_peers (kview (view := λ v, v) (world_with leaving_peer))).
Proof.
  exact (proj1 (BgpPeer_Reconcile_deletes "node1" leaving_peer (world_with leaving_peer) (fst (peer_run leaving_peer))
    (peer_stored leaving_peer) eq_refl eq_refl leaving_run_Ok)).
Defined.

Lemma BgpPeer_Reconcile_stuck_witness :
  fst (peer_run broken_peer) = world_with broken_peer ∧ is_ok (snd (peer_run broken_peer)) = false.
Proof.
  exact (BgpPeer_Reconcile_stuck "node1" broken_peer broken_selector (Errorf "not a valid selector operator")
    (world_with broken_peer) (fst (peer_run broken_peer)) (snd (peer_run broken_peer))
    (peer_stored broken_peer) eq_refl eq_refl eq_refl (surjective_pairing _)).
Defined.

Definition shown_peer : BgpPeer :=
  mkBgpPeer (no_meta "shown") (demo_peer_spec "10.0.0.1")
    (mkBgpPeerStatus (Some {["node1" := mkNodePeerStatus zero_PeerState zero_TimersState]})).
Lemma CleanBgpPeerStatus_keeps_witness :
  kview (view := λ v, v) (fst (CleanBgpPeerStatus (world_with shown_peer))) = kview (view := λ v, v) (world_with shown_peer).
Proof.
  refine (CleanBgpPeerStatus_keeps (world_with shown_peer) (fst (CleanBgpPeerStatus (world_with shown_peer)))
    (snd (CleanBgpPeerStatus (world_with shown_peer))) _ (surjective_pairing _)).
  intros n p H. destruct (proj1 (lookup_singleton_Some _ _ _ _) H) as [<- <-]. reflexivity.
Defined.
