(* ===== verification/HttpServer.v ===== *)
(** * The HTTP front end ([pkg/server])

    Requests on the three resources: the endpoints ([internal/lib]), the
    handlers ([internal/handler]) and the routers ([internal/router]).  The
    API server is the class [ApiClient] over the type of a resource, with its
    errors by reason; reading a body is a function from its text, writing one
    a function to it ([encoding/json]), and a [ResponseWriter] keeps the status
    of its first write, as [net/http] does. *)
From S2P Require Import Prelude GoNet BgpTypes.
Local Open Scope Z_scope.

(** ** [net/http]: the response *)
Record ResponseWriter := mkResponseWriter { rw_status : option Z; rw_content_type : string; rw_body : string }.
Definition fresh_writer : ResponseWriter := mkResponseWriter None "" "".
(** The status can be set once. *)
Definition WriteHeader (code : Z) (w : ResponseWriter) : ResponseWriter :=
  match rw_status w with
  | None => mkResponseWriter (Some code) (rw_content_type w) (rw_body w)
  | Some _ => w
  end.
(** Writing a body sends the header first, with status 200 unless it was set. *)
Definition Write (data : string) (w : ResponseWriter) : ResponseWriter :=
  let w := WriteHeader 200 w in mkResponseWriter (rw_status w) (rw_content_type w) (rw_body w +:+ data).
Definition Header_Set (ct : string) (w : ResponseWriter) : ResponseWriter := mkResponseWriter (rw_status w) ct (rw_body w).

(** ** Errors of the API server, by reason *)
Inductive Reason :=
| ReasonTimeout | ReasonServerTimeout | ReasonNotFound | ReasonAlreadyExists | ReasonConflict
| ReasonBadRequest | ReasonTooManyRequests | ReasonNotAcceptable | ReasonOther.
#[export] Instance Reason_eq_dec : EqDecision Reason.
Proof. solve_decision. Defined.
Record ApiError := mkApiError { ae_reason : Reason; ae_message : string }.

(** A call of the API server. *)
Definition Api (S A : Type) : Type := S → S * (A + ApiError).
Definition api_ret {S A} (a : A) : Api S A := λ s, (s, inl a).
Definition api_fail {S A} (e : ApiError) : Api S A := λ s, (s, inr e).
Definition api_bind {S A B} (c : Api S A) (f : A → Api S B) : Api S B := λ s,
  match c s with (s', inl a) => f a s' | (s', inr e) => (s', inr e) end.
Notation "x <- c ; d" := (api_bind c (λ x, d)) (at level 20, c at level 100, d at level 200, only parsing) : go_scope.
Local Open Scope go_scope.

(** ** [handler/types.go] *)
Record Create := { Created : bool }.
Record Update := { Updated : bool }.
Record Delete := { Deleted : bool }.

(** A resource type: its name and version, and the calls on its objects. *)
Class Resource (T : Type) := {
  res_Name : T → string;
  res_ResourceVersion : T → string;
  with_ResourceVersion : T → string → T;
}.
Class ApiClient (S T : Type) := {
  cl_Create : T → Api S ();
  cl_Get : string → Api S T;
  cl_List : Api S (list T);
  cl_Patch : T → string → Api S ();       (* a merge patch of the object *)
  cl_Update : T → Api S ();
  cl_Delete : T → Api S ();
}.

(** ** The handlers: eip.go and bgppeer.go *)
Section handlers.
Context {S T : Type} {RT : Resource T} {AC : ApiClient S T}.

Definition handler_Create (obj : T) : Api S Create :=
  _ <- cl_Create obj; api_ret {| Created := true |}.
Definition handler_Get (name : string) : Api S T := cl_Get name.
Definition handler_List : Api S (list T) := cl_List.
Definition handler_Patch (name patch : string) : Api S Update :=
  obj <- handler_Get name;
  _ <- cl_Patch obj patch;
  api_ret {| Updated := true |}.
Definition handler_Update (name : string) (newObj : T) : Api S Update :=
  obj <- handler_Get name;
  _ <- cl_Update (if str_empty (res_ResourceVersion newObj)
                  then with_ResourceVersion newObj (res_ResourceVersion obj) else newObj);
  api_ret {| Updated := true |}.
Definition handler_Delete (name : string) : Api S Delete :=
  obj <- handler_Get name;
  _ <- cl_Delete obj;
  api_ret {| Deleted := true |}.

(** [bgpconf.go]: one object with a fixed name. *)
Context (conf_ListenPort : T → Z).
Definition conf_Create (obj : T) : Api S Create :=
  if negb (bool_decide (res_Name obj = "default"))
  then api_fail (mkApiError ReasonBadRequest "BgpConf name must be default")
  else if conf_ListenPort obj =? 0
  then api_fail (mkApiError ReasonBadRequest "BgpConf listen port must be set")
  else handler_Create obj.
Definition conf_Get : Api S T := cl_Get "default".
Definition conf_Patch (patch : string) : Api S Update :=
  obj <- conf_Get;
  _ <- cl_Patch obj patch;
  api_ret {| Updated := true |}.
Definition conf_Update (newObj : T) : Api S Update :=
  obj <- conf_Get;
  _ <- cl_Update (if str_empty (res_ResourceVersion newObj)
                  then with_ResourceVersion newObj (res_ResourceVersion obj) else newObj);
  api_ret {| Updated := true |}.
Definition conf_Delete : Api S Delete :=
  obj <- conf_Get;
  _ <- cl_Delete obj;
  api_ret {| Deleted := true |}.
End handlers.

(** ** [lib/endpoints.go] *)

(** What is written as JSON: the result of an endpoint or an error; [None]
    when it cannot be encoded. *)
Inductive Body (A : Type) := BodyOf (a : A) | BodyError (e : ApiError) | BodyReadError (msg : string).
Arguments BodyOf {A} a.
Arguments BodyError {A} e.
Arguments BodyReadError {A} msg.

Definition writeResponse {A} (encode : Body A → option string) (statusCode : Z) (resp : option (Body A))
    (w : ResponseWriter) : ResponseWriter :=
  let statusCode := if statusCode =? 0 then 200 else statusCode in
  let w := Header_Set "application/json" w in
  match resp with
  | Some b =>
      match encode b with
      | Some text => WriteHeader statusCode (Write text w)
      | None => WriteHeader 500 w
      end
  | None => WriteHeader statusCode w
  end.

(** The status the code means an error to have. *)
Definition error_status (e : ApiError) : Z :=
  match ae_reason e with
  | ReasonTimeout | ReasonServerTimeout => 504
  | ReasonNotFound => 404
  | ReasonAlreadyExists | ReasonConflict => 409
  | ReasonBadRequest => 400
  | ReasonTooManyRequests => 429
  | ReasonNotAcceptable => 406
  | ReasonOther => 500
  end.

(** [InboundRequest] with [ReqBody] read by [read] from the text of the body
    ([None] when there is none to read), and [ServeRequest]. *)
Record InboundRequest (S B A : Type) := mkInboundRequest {
  ir_read : Result B;              (* [readRequestBody], or the absent body *)
  ir_EndpointLogic : B → Api S A;
  ir_StatusCode : Z
}.
Arguments mkInboundRequest {S B A} _ _ _.
Arguments ir_read {S B A} _.
Arguments ir_EndpointLogic {S B A} _ _ _.
Arguments ir_StatusCode {S B A} _.

Definition ServeRequest {S B A} (encode : Body A → option string) (req : InboundRequest S B A)
    (w : ResponseWriter) (s : S) : S * Result ResponseWriter :=
  match ir_read req with
  | Err e => (s, Ok (writeResponse encode 400 (Some (BodyReadError (err_text e))) w))
  | Panic => (s, Panic)
  | Ok body =>
      match ir_EndpointLogic req body s with
      | (s', inr err) => (s', Ok (writeResponse encode (error_status err) (Some (BodyError err)) w))
      | (s', inl resp) => (s', Ok (writeResponse encode (ir_StatusCode req) (Some (BodyOf resp)) w))
      end
  end.

(** ** The routers: the endpoint of each route, with the body it reads and the
    status it asks for *)
Section routers.
Context {S T : Type} {RT : Resource T} {AC : ApiClient S T}.
(** [json.Unmarshal] of a body into the resource. *)
Context (decode : string → Result T).
Context (body name : string).

Definition route_create : InboundRequest S T Create := mkInboundRequest (decode body) handler_Create 201.
Definition route_get : InboundRequest S () T := mkInboundRequest (Ok ()) (λ _, handler_Get name) 200.
Definition route_list : InboundRequest S () (list T) := mkInboundRequest (Ok ()) (λ _, handler_List) 200.
Definition route_patch : InboundRequest S string Update := mkInboundRequest (Ok body) (handler_Patch name) 200.
Definition route_update : InboundRequest S T Update := mkInboundRequest (decode body) (handler_Update name) 200.
Definition route_delete : InboundRequest S () Delete := mkInboundRequest (Ok ()) (λ _, handler_Delete name) 204.

Context (conf_ListenPort : T → Z).
Definition conf_route_create : InboundRequest S T Create :=
  mkInboundRequest (decode body) (conf_Create conf_ListenPort) 201.
Definition conf_route_get : InboundRequest S () T := mkInboundRequest (Ok ()) (λ _, conf_Get) 200.
Definition conf_route_patch : InboundRequest S string Update := mkInboundRequest (Ok body) conf_Patch 200.
Definition conf_route_update : InboundRequest S T Update := mkInboundRequest (decode body) conf_Update 200.
Definition conf_route_delete : InboundRequest S () Delete := mkInboundRequest (Ok ()) (λ _, conf_Delete) 204.
End routers.

(** The code of [bgppeer.go] repeats the one of [eip.go] for another resource:
    the same handlers and routes at the type of a peer. *)
Section bgppeers.
Context {S : Type} {RT : Resource BgpPeer} {AC : ApiClient S BgpPeer}.
Definition bgpPeerHandler_Create : BgpPeer → Api S Create := handler_Create.
Definition bgpPeerHandler_Get : string → Api S BgpPeer := handler_Get.
Definition bgpPeerHandler_List : Api S (list BgpPeer) := handler_List.
Definition bgpPeerHandler_Patch : string → string → Api S Update := handler_Patch.
Definition bgpPeerHandler_Update : string → BgpPeer → Api S Update := handler_Update.
Definition bgpPeerHandler_Delete : string → Api S Delete := handler_Delete.

Context (decode : string → Result BgpPeer) (body name : string).
Definition bgpPeerRouter_create : InboundRequest S BgpPeer Create := route_create decode body.
Definition bgpPeerRouter_get : InboundRequest S () BgpPeer := route_get name.
Definition bgpPeerRouter_list : InboundRequest S () (list BgpPeer) := route_list.
Definition bgpPeerRouter_patch : InboundRequest S string Update := route_patch body name.
Definition bgpPeerRouter_update : InboundRequest S BgpPeer Update := route_update decode body name.
Definition bgpPeerRouter_delete : InboundRequest S () Delete := route_delete name.
End bgppeers.

(** ** What the API server promises *)
Class ApiClientOk (S T : Type) `{RT : Resource T} `{AC : !ApiClient S T} (store : S → gmap string T) : Prop := {
  cl_Get_law n s s' r : cl_Get n s = (s', r) → store s' = store s ∧
    match r with inl o => store s !! n = Some o | inr e => ae_reason e = ReasonNotFound → store s !! n = None end;
  cl_Create_law o s s' r : cl_Create o s = (s', r) →
    match r with
    | inl _ => store s !! res_Name o = None ∧ ∃ o', res_Name o' = res_Name o ∧ store s' = <[res_Name o := o']> (store s)
    | inr _ => store s' = store s
    end;
  (** An update is of the object with its name, at its version. *)
  cl_Update_law o s s' r : cl_Update o s = (s', r) →
    match r with
    | inl _ => ∃ old o', store s !! res_Name o = Some old ∧ res_ResourceVersion old = res_ResourceVersion o ∧
                 res_Name o' = res_Name o ∧ store s' = <[res_Name o := o']> (store s)
    | inr _ => store s' = store s
    end;
  cl_Delete_law o s s' r : cl_Delete o s = (s', r) →
    match r with inl _ => store s' = delete (res_Name o) (store s) | inr _ => store s' = store s end;
  with_version_name o v : res_Name (with_ResourceVersion o v) = res_Name o;
  with_version_version o v : res_ResourceVersion (with_ResourceVersion o v) = v;
}.

(** ** Properties *)
Lemma writeResponse_status {A} (encode : Body A → option string) code b w text :
  rw_status w = None → encode b = Some text →
  rw_status (writeResponse encode code (Some b) w) = Some 200 ∧
  rw_body (writeResponse encode code (Some b) w) = rw_body w +:+ text.
Proof.
  intros Hw He. unfold writeResponse. rewrite He. unfold WriteHeader, Write, WriteHeader, Header_Set. cbn. by rewrite Hw.
Qed.

Lemma ServeRequest_writes {S B A} (encode : Body A → option string) (req : InboundRequest S B A) w0 s :
  match snd (ServeRequest encode req w0 s) with
  | Ok w => ∃ code b, w = writeResponse encode code (Some b) w0
  | _ => True
  end.
Proof.
  unfold ServeRequest. destruct (ir_read req) as [body|e|]; [|by eexists _, _|done].
  destruct (ir_EndpointLogic req body s) as [s1 [a|err]]; by eexists _, _.
Qed.

(** Every answered request has status 200.  The body is written before the
    status, which sends the header with the default: whatever the endpoint
    asked for (201, 204) and whatever the error (400, 404, 409 and the others),
    the client sees 200 and a JSON body. *)
Theorem ServeRequest_status_200 {S B A} (encode : Body A → option string) (req : InboundRequest S B A) s s' w :
  (∀ b, is_Some (encode b)) → ServeRequest encode req fresh_writer s = (s', Ok w) → rw_status w = Some 200.
Proof.
  intros He H. pose proof (ServeRequest_writes encode req fresh_writer s) as Hw. rewrite H in Hw.
  destruct Hw as (code & b & ->).
  destruct (He b) as [text Ht]. exact (proj1 (writeResponse_status encode code b fresh_writer text eq_refl Ht)).
Qed.

(** An update by URL changes the object named in the body.  When
    [PUT /apis/v1/<resource>/name] succeeds, the object of the URL existed, and
    the object that changed is the one with the name of the body, at its
    version; the two need not be the same, and if they are not, the object of
    the URL is untouched. *)
Theorem handler_Update_target {S T} `{RT : Resource T} `{AC : !ApiClient S T} {store : S → gmap string T}
    `{AO : !ApiClientOk S T store} name newObj (s s' : S) u :
  handler_Update name newObj s = (s', inl u) →
  is_Some (store s !! name) ∧ is_Some (store s !! res_Name newObj) ∧
  (∃ o', res_Name o' = res_Name newObj ∧ store s' = <[res_Name newObj := o']> (store s)) ∧
  (name ≠ res_Name newObj → store s' !! name = store s !! name).
Proof.
  unfold handler_Update, handler_Get, api_bind. destruct (cl_Get name s) as [s1 [obj|e]] eqn:Hg; [|done].
  apply cl_Get_law in Hg as [Hs1 Hobj]. set (o := if str_empty _ then _ else _).
  assert (res_Name o = res_Name newObj) as Hn by (unfold o; destruct (str_empty _); [apply with_version_name|done]).
  destruct (cl_Update o s1) as [s2 [[]|e]] eqn:Hu; [|done]. apply cl_Update_law in Hu as (old & o' & Hold & _ & Hn' & Hs2).
  intros [= <- <-]. rewrite Hn, Hs1 in *. split_and!; [eauto..| |]; [by exists o'|].
  intros Hne. by rewrite Hs2, lookup_insert_ne.
Qed.

(** Deleting by URL deletes that object and no other. *)
Lemma handler_Delete_exact {S T} `{RT : Resource T} `{AC : !ApiClient S T} {store : S → gmap string T}
    `{AO : !ApiClientOk S T store} name (s s' : S) d :
  (∀ n o, store s !! n = Some o → res_Name o = n) →
  handler_Delete name s = (s', inl d) → is_Some (store s !! name) ∧ store s' = delete name (store s).
Proof.
  intros Hok. unfold handler_Delete, handler_Get, api_bind. destruct (cl_Get name s) as [s1 [obj|e]] eqn:Hg; [|done].
  apply cl_Get_law in Hg as [Hs1 Hobj]. destruct (cl_Delete obj s1) as [s2 [[]|e]] eqn:Hd; [|done].
  apply cl_Delete_law in Hd. intros [= <- <-]. rewrite Hd, Hs1, (Hok _ _ Hobj). eauto.
Qed.

(** ** Witnesses: objects with a name and a version, in a map *)
Record demo_object := mk_demo_object { do_name : string; do_version : string; do_value : string }.
#[export] Instance demo_resource : Resource demo_object := {|
  res_Name := do_name;
  res_ResourceVersion := do_version;
  with_ResourceVersion o v := mk_demo_object (do_name o) v (do_value o) |}.
Definition refused (r : Reason) : () + ApiError := inr (mkApiError r "refused").
#[export] Instance demo_api : ApiClient (gmap string demo_object) demo_object := {|
  cl_Create o m := match m !! do_name o with
                   | Some _ => (m, refused ReasonAlreadyExists)
                   | None => (<[do_name o := o]> m, inl ())
                   end;
  cl_Get n m := (m, match m !! n with Some o => inl o | None => inr (mkApiError ReasonNotFound "not found") end);
  cl_List m := (m, inl (map_to_list m).*2);
  cl_Patch o p m := (<[do_name o := mk_demo_object (do_name o) (do_version o) p]> m, inl ());
  cl_Update o m := match m !! do_name o with
                   | Some old => if decide (do_version old = do_version o)
                                 then (<[do_name o := mk_demo_object (do_name o) (do_version o +:+ "'") (do_value o)]> m, inl ())
                                 else (m, refused ReasonConflict)
                   | None => (m, refused ReasonNotFound)
                   end;
  cl_Delete o m := (delete (do_name o) m, inl ()) |}.
#[export] Instance demo_api_ok : ApiClientOk (gmap string demo_object) demo_object (λ m, m).
Proof.
  split; cbn; try done.
  - intros n s s' r [= <- <-]. destruct (s !! n); split; done.
  - intros o s s' r. destruct (s !! do_name o) eqn:E; intros [= <- <-]; [done|]. split; [done|]. by exists o.
  - intros o s s' r. destruct (s !! do_name o) as [old|] eqn:E; [case_decide|]; intros [= <- <-]; try done.
    exists old, (mk_demo_object (do_name o) (do_version o +:+ "'") (do_value o)). done.
  - intros o s s' r. by intros [= <- <-].
Qed.

Definition two_objects : gmap string demo_object :=
  list_to_map [("a", mk_demo_object "a" "1" "x"); ("b", mk_demo_object "b" "7" "y")].
Definition encode_demo {A} (b : Body A) : option string :=
  Some (match b with BodyOf _ => "{}" | BodyError e => ae_message e | BodyReadError m => m end).

(** The request names [a], the body is [b]. *)
Lemma handler_Update_target_witness :
  let s' := fst (handler_Update "a" (mk_demo_object "b" "7" "z") two_objects) in
  is_Some (two_objects !! "a") ∧ is_Some (two_objects !! "b") ∧
  (∃ o', res_Name o' = "b" ∧ s' = <["b" := o']> two_objects) ∧ ("a" ≠ "b" → s' !! "a" = two_objects !! "a").
Proof.
  intros s'. refine (handler_Update_target (store := λ m, m) "a" (mk_demo_object "b" "7" "z") two_objects s' {| Updated := true |} _).
  vm_compute. reflexivity.
Defined.

(** A missing object is answered with 200. *)
Lemma ServeRequest_status_200_witness :
  rw_status (writeResponse (A := demo_object) encode_demo 404 (Some (BodyError (mkApiError ReasonNotFound "not found"))) fresh_writer)
  = Some 200.
Proof.
  refine (ServeRequest_status_200 encode_demo (route_get "c") two_objects two_objects _ _ _).
  - intros b. exact (ex_intro _ _ eq_refl).
  - vm_compute. reflexivity.
Defined.
