(* ===== verification/GoSet.v ===== *)
(** * Sets and the fake speaker ([pkg/util/set/set.go], [pkg/speaker/fake.go])

    The set type of Project Calico that the fake speaker uses: a Go map from
    its members, mutable and possibly nil, and the fake speaker that records
    the next hops of each address for the tests. *)
From S2P Require Import Prelude GoNet K8s.
Local Open Scope Z_scope.

(** ** [mapSet]

    The nil map ([Empty]) is [None]: it reads as empty and panics when
    written.  The members are strings here (the only use). *)
Abbreviation mapSet := (option (gset string)).

Definition set_New : mapSet := Some ∅.
Definition set_Empty : mapSet := None.
Definition set_elems (s : mapSet) : gset string := default ∅ s.
Definition set_Len (s : mapSet) : Z := Z.of_nat (size (set_elems s)).
Definition set_Add (s : mapSet) (item : string) : Result mapSet :=
  match s with None => Panic | Some m => Ok (Some ({[item]} ∪ m)) end.
Fixpoint set_AddAll (s : mapSet) (items : list string) : Result mapSet :=
  match items with [] => Ok s | x :: rest => s' ← set_Add s x; set_AddAll s' rest end.
Definition set_FromArray (members : list string) : Result mapSet := set_AddAll set_New members.
Definition set_Discard (s : mapSet) (item : string) : mapSet := (λ m, m ∖ {[item]}) <$> s.
Definition set_Contains (s : mapSet) (item : string) : bool := bool_decide (item ∈ set_elems s).

(** [for item := range set], in the order the map gives. *)
Class SetRange := {
  range_set : gset string → list string;
  range_set_perm m : range_set m ≡ₚ elements m;
}.

Section sets.
Context {SR : SetRange}.

Fixpoint clear_loop (items : list string) (s : mapSet) : mapSet :=
  match items with [] => s | x :: rest => clear_loop rest (set_Discard s x) end.
Definition set_Clear (s : mapSet) : mapSet := clear_loop (range_set (set_elems s)) s.

(** What a visitor returns. *)
Inductive visit := VisitNext | VisitStop | VisitRemove | VisitError.
(** [Iter]: a visitor with a state [A]; the deletion of a visited item does
    not change what is visited. *)
Fixpoint iter_loop {A} (visitor : string → A → A * visit) (items : list string) (a : A) (s : mapSet) : Result (A * mapSet) :=
  match items with
  | [] => Ok (a, s)
  | x :: rest =>
      let '(a', v) := visitor x a in
      match v with
      | VisitStop => Ok (a', s)
      | VisitRemove => iter_loop visitor rest a' (set_Discard s x)
      | VisitNext => iter_loop visitor rest a' s
      | VisitError => Panic
      end
  end.
Definition set_Iter {A} (visitor : string → A → A * visit) (a : A) (s : mapSet) : Result (A * mapSet) :=
  iter_loop visitor (range_set (set_elems s)) a s.

Definition set_Copy (s : mapSet) : Result mapSet := set_AddAll set_New (range_set (set_elems s)).

Definition set_Equals (s other : mapSet) : bool :=
  if negb (set_Len s =? set_Len other) then false
  else forallb (set_Contains other) (range_set (set_elems s)).

Definition set_ContainsAll (s other : mapSet) : Result bool :=
  r ← set_Iter (λ item result, if negb (set_Contains s item) then (false, VisitStop) else (result, VisitNext)) true other;
  Ok r.1.

(** ** [speaker/fake.go] *)
Record Fake := mkFake { nextHops : gmap string mapSet }.
Definition NewFake : Fake := mkFake ∅.

(** A nil set is an interface without value: [Equal] tells it from a set. *)
Definition Fake_SetBalancer (f : Fake) (ip : string) (nexthops : list Node) : Result Fake :=
  let names := (λ n, Name (Node_Meta n)) <$> nexthops in
  match names with
  | [] => Ok (mkFake (<[ip := None]> (nextHops f)))
  | _ => s ← set_FromArray names; Ok (mkFake (<[ip := s]> (nextHops f)))
  end.
Definition Fake_Equal (f : Fake) (ip : string) (nexthops : list string) : Result bool :=
  match nextHops f !! ip with
  | Some tmp =>
      match tmp, nexthops with
      | None, [] => Ok true
      | None, _ | _, [] => Ok false
      | _, _ => s ← set_FromArray nexthops; Ok (set_Equals s tmp)
      end
  | None => match nexthops with [] => Ok true | _ => Ok false end
  end.
Definition Fake_DelBalancer (f : Fake) (ip : string) : Fake := mkFake (delete ip (nextHops f)).
End sets.

(** ** The operations are those of sets *)
Section facts.
Context {SR : SetRange}.

Lemma elem_of_range_set m x : x ∈ range_set m ↔ x ∈ m.
Proof. rewrite range_set_perm. apply elem_of_elements. Qed.

Lemma set_AddAll_elems l : ∀ m, set_AddAll (Some m) l = Ok (Some (list_to_set l ∪ m)).
Proof.
  induction l as [|x l IH]; intros m; cbn; [by rewrite union_empty_l_L|]. rewrite IH. do 2 f_equal. set_solver.
Qed.
Lemma set_FromArray_elems l : set_FromArray l = Ok (Some (list_to_set l)).
Proof. unfold set_FromArray, set_New. rewrite set_AddAll_elems. do 2 f_equal. set_solver. Qed.
Lemma set_Copy_elems s : set_Copy s = Ok (Some (set_elems s)).
Proof.
  unfold set_Copy, set_New. rewrite set_AddAll_elems. do 2 f_equal. apply set_eq. intros x.
  rewrite elem_of_union, elem_of_list_to_set, elem_of_range_set. set_solver.
Qed.
Lemma set_Clear_elems s : set_elems (set_Clear s) = ∅.
Proof.
  assert (∀ l s, set_elems (clear_loop l s) = set_elems s ∖ list_to_set l) as H.
  { induction l as [|x l IH]; intros t; cbn [clear_loop]; [set_solver|]. rewrite IH.
    destruct t; cbn; set_solver. }
  unfold set_Clear. rewrite H. apply set_eq. intros x.
  rewrite elem_of_difference, elem_of_list_to_set, elem_of_range_set. set_solver.
Qed.

(** [Equals] compares the members, in any order of the iteration. *)
Lemma set_Equals_spec s t : set_Equals s t = true ↔ set_elems s = set_elems t.
Proof.
  unfold set_Equals, set_Len. destruct (Z.eqb_spec (Z.of_nat (size (set_elems s))) (Z.of_nat (size (set_elems t)))) as [E|E]; cbn [negb].
  - rewrite forallb_forall. split.
    + intros H. apply set_subseteq_size_eq; [|lia]. intros x Hx. specialize (H x).
      unfold set_Contains in H. rewrite bool_decide_eq_true in H. apply H, list_elem_of_In, elem_of_range_set, Hx.
    + intros H x Hx. apply bool_decide_eq_true. rewrite <- H. by apply elem_of_range_set, list_elem_of_In.
  - split; [done|]. intros H. by rewrite H in E.
Qed.

Lemma set_ContainsAll_spec s t : set_ContainsAll s t = Ok (bool_decide (set_elems t ⊆ set_elems s)).
Proof.
  unfold set_ContainsAll, set_Iter.
  assert (∀ l, ∃ t', iter_loop (λ item result, if negb (set_Contains s item) then (false, VisitStop) else (result, VisitNext))
                     l true t = Ok (forallb (set_Contains s) l, t')) as H.
  { induction l as [|x l [t' IH]]; cbn; [by eexists|]. destruct (set_Contains s x); cbn; eauto. }
  destruct (H (range_set (set_elems t))) as [t' ->]. cbn. f_equal. apply Bool.eq_iff_eq_true.
  rewrite forallb_forall, bool_decide_eq_true. split.
  - intros Hall x Hx. specialize (Hall x). unfold set_Contains in Hall. rewrite bool_decide_eq_true in Hall.
    apply Hall, list_elem_of_In, elem_of_range_set, Hx.
  - intros Hsub x Hx. apply bool_decide_eq_true, Hsub, elem_of_range_set, list_elem_of_In, Hx.
Qed.

(** The fake speaker's comparison is that of sets: after [SetBalancer], an
    address is [Equal] to a list of names exactly when the list has the same
    members as the names of the nodes, whatever order and repetitions, and
    the other addresses answer as before. *)
Theorem Fake_Equal_exact f f' ip nodes : Fake_SetBalancer f ip nodes = Ok f' →
  (∀ names, Fake_Equal f' ip names =
     Ok (bool_decide (list_to_set names =@{gset string} list_to_set ((λ n, Name (Node_Meta n)) <$> nodes)))) ∧
  (∀ ip' names, ip' ≠ ip → Fake_Equal f' ip' names = Fake_Equal f ip' names) ∧
  (∀ names, Fake_Equal (Fake_DelBalancer f' ip) ip names = Ok (bool_decide (names = []))).
Proof.
  assert (∀ x (l : list string), list_to_set (x :: l) ≠@{gset string} ∅) as Hne by (intros x l E; set_solver).
  intros H. assert (∃ s, nextHops f' = <[ip := s]> (nextHops f) ∧
    set_elems s = list_to_set ((λ n, Name (Node_Meta n)) <$> nodes) ∧ (s = None ↔ nodes = [])) as (s & Hf & Hs & Hnil).
  { unfold Fake_SetBalancer in H. destruct nodes as [|n nodes]; cbn [fmap list_fmap] in H.
    - injection H as <-. by exists None.
    - rewrite set_FromArray_elems in H. injection H as <-. by eexists. }
  split_and!.
  - intros names. unfold Fake_Equal. rewrite Hf, lookup_insert_eq. rewrite <- Hs. destruct s as [m|].
    + destruct names as [|x names]; [rewrite bool_decide_false; [done|]|].
      * intros E. destruct nodes; [by destruct Hnil as [_ ?]; naive_solver|]. cbn in Hs, E. rewrite Hs in E. by apply (Hne (Name (Node_Meta n)) ((λ n, Name (Node_Meta n)) <$> nodes)).
      * rewrite set_FromArray_elems. cbn [mbind Result_bind]. f_equal. apply Bool.eq_iff_eq_true.
        rewrite set_Equals_spec, bool_decide_eq_true. done.
    + destruct names as [|x names]; [by rewrite bool_decide_true|]. rewrite bool_decide_false; [done|]. apply Hne.
  - intros ip' names Hip. unfold Fake_Equal. by rewrite Hf, lookup_insert_ne.
  - intros names. unfold Fake_Equal, Fake_DelBalancer. cbn. rewrite Hf, delete_insert_eq, lookup_delete_eq. by destruct names.
Qed.
End facts.

#[refine] Definition canonical_set_range : SetRange := {| range_set := elements |}.
Proof. intros m. reflexivity. Defined.

Definition fake_node (n : string) : Node :=
  {| Node_Meta := {| Name := n; Namespace := ""; Labels := None; Annotations := None; Finalizers := [];
                     DeletionTimestamp := None |}; Node_Addresses := []; Node_Conditions := [] |}.
Lemma Fake_Equal_exact_witness :
  Fake_Equal (SR := canonical_set_range) (mkFake {["10.0.0.1" := Some (list_to_set ["a"; "b"])]}) "10.0.0.1" ["b"; "a"; "b"] =
  Ok (bool_decide (list_to_set ["b"; "a"; "b"] =@{gset string} list_to_set ["a"; "b"])).
Proof.
  refine (proj1 (Fake_Equal_exact (SR := canonical_set_range) NewFake _ "10.0.0.1" [fake_node "a"; fake_node "b"] _) ["b"; "a"; "b"]).
  vm_compute. reflexivity.
Defined.
