(* ===== verification/Nettool.v ===== *)
(** * Port forwarding of BGP ([pkg/nettool])

    The rule that forwards the BGP port to gobgp, added and removed through
    the interface of iptables ([iptables/interface.go], the class
    [IptablesIface]), and the in-memory iptables of the tests
    ([iptables/fake.go]), which satisfies the laws of the interface. *)
From S2P Require Import Prelude GoNet.
Local Open Scope Z_scope.

(** ** [iptables/interface.go] *)
Record IptablesRule := mkIptablesRule {
  Rule_Name : string; ShouldExist : bool; Rule_Table : string; Rule_Chain : string; Rule_Rule : list string
}.
Definition IptablesRule_String (r : IptablesRule) : string :=
  Rule_Table r +:+ "/" +:+ Rule_Chain r +:+ " rule " +:+ Rule_Name r.

(** The calls the forwarding uses, and the rules of a chain as they are
    observed. *)
Class IptablesIface (I : Type) := {
  Exists : string → string → list string → ST I bool;
  Append : string → string → list string → ST I ();
  Iptables_Delete : string → string → list string → ST I ();
  chain_rules : I → string → string → list (list string);
}.
Class IptablesOk (I : Type) `{IP : IptablesIface I} : Prop := {
  Exists_law t c rule i i' b : Exists t c rule i = (i', Ok b) →
    (∀ t' c', chain_rules i' t' c' = chain_rules i t' c') ∧ (b = true ↔ rule ∈ chain_rules i t c);
  Append_law t c rule i i' : Append t c rule i = (i', Ok ()) →
    chain_rules i' t c = chain_rules i t c ++ [rule] ∧
    ∀ t' c', (t', c') ≠ (t, c) → chain_rules i' t' c' = chain_rules i t' c';
  (** The first occurrence of the rule. *)
  Iptables_Delete_law t c rule i i' : Iptables_Delete t c rule i = (i', Ok ()) →
    (∀ before after, chain_rules i t c = before ++ rule :: after → rule ∉ before → chain_rules i' t c = before ++ after) ∧
    (rule ∉ chain_rules i t c → chain_rules i' t c = chain_rules i t c) ∧
    ∀ t' c', (t', c') ≠ (t, c) → chain_rules i' t' c' = chain_rules i t' c';
}.

(** ** [iptables.go] *)
Definition BGPPort : string := "179".
Definition BgpNatChain : string := "PREROUTING-OPENELB".
Definition GenerateCretiriaAndAction (routerIP localIP : string) (gobgpPort : Z) : list string :=
  ["-s"; routerIP; "-p"; "tcp"; "--dport"; BGPPort; "-j"; "DNAT"; "--to-destination"; localIP +:+ ":" +:+ Itoa gobgpPort].

Section forward.
Context {I : Type} {IP : IptablesIface I}.
Definition AddPortForwardOfBGP (routerIP localIP : string) (gobgpPort : Z) : ST I () :=
  let rule := GenerateCretiriaAndAction routerIP localIP gobgpPort in
  ok ← Exists "nat" BgpNatChain rule;
  if ok : bool then mret () else Append "nat" BgpNatChain rule.
Definition DeletePortForwardOfBGP (routerIP localIP : string) (gobgpPort : Z) : ST I () :=
  Iptables_Delete "nat" BgpNatChain (GenerateCretiriaAndAction routerIP localIP gobgpPort).

Context {IO : IptablesOk I}.
Lemma AddPortForwardOfBGP_spec routerIP localIP port i i' : AddPortForwardOfBGP routerIP localIP port i = (i', Ok ()) →
  let rule := GenerateCretiriaAndAction routerIP localIP port in
  let rules := chain_rules i "nat" BgpNatChain in
  chain_rules i' "nat" BgpNatChain = if decide (rule ∈ rules) then rules else rules ++ [rule].
Proof.
  intros (i1 & b & He & H)%ST_bind_Ok rule rules. apply Exists_law in He as [Hs Hb]. destruct b.
  - injection H as <-. rewrite decide_True by (by apply Hb). apply Hs.
  - rewrite decide_False by (intros Hin; by apply Hb in Hin). apply Append_law in H as [H _]. unfold rules. by rewrite H, Hs.
Qed.
End forward.

(** Forwarding is idempotent and is undone.  Adding the forward of a
    router a second time changes nothing, and deleting it after adding it to
    a chain without it restores the chain. *)
Theorem PortForward_roundtrip {I : Type} `{IP : IptablesIface I} `{IO : !IptablesOk I} r l port (i i1 i2 i3 : I) :
  AddPortForwardOfBGP r l port i = (i1, Ok ()) →
  (AddPortForwardOfBGP r l port i1 = (i2, Ok ()) → chain_rules i2 "nat" BgpNatChain = chain_rules i1 "nat" BgpNatChain) ∧
  (GenerateCretiriaAndAction r l port ∉ chain_rules i "nat" BgpNatChain →
   DeletePortForwardOfBGP r l port i1 = (i3, Ok ()) → chain_rules i3 "nat" BgpNatChain = chain_rules i "nat" BgpNatChain).
Proof.
  intros H1%AddPortForwardOfBGP_spec. split.
  - intros H2%AddPortForwardOfBGP_spec. rewrite H2. case_decide as Hd; [done|]. destruct Hd. rewrite H1.
    case_decide; [done|]. apply elem_of_app. right. by apply list_elem_of_singleton.
  - intros Hn (Hd & _)%Iptables_Delete_law. rewrite decide_False in H1 by done.
    rewrite (Hd _ _ H1) by done. apply app_nil_r.
Qed.

(** ** [iptables/fake.go] *)
Module fake.
Record FakeIPTables := mkFakeIPTables {
  EnableRandomFully : bool;
  Data : gmap string (gmap string (list IptablesRule))
}.
Definition NewFakeIPTables : FakeIPTables :=
  mkFakeIPTables true (<["nat" := ∅]> (<["filter" := ∅]> {["mangle" := ∅]})).

Fixpoint rule_loop (rule spec : list string) : bool :=
  match rule, spec with
  | x :: rule', y :: spec' => if bool_decide (x ≠ y) then false else rule_loop rule' spec'
  | _, _ => true
  end.
Definition ruleEqual (rule : IptablesRule) (rulespec : list string) : bool :=
  if Nat.eqb (length (Rule_Rule rule)) (length rulespec) then rule_loop (Rule_Rule rule) rulespec else false.

(** [f.Data[table][chain]]: a missing table or chain reads as empty. *)
Definition rules_of (f : FakeIPTables) (table chain : string) : list IptablesRule :=
  default [] (default ∅ (Data f !! table) !! chain).
(** A write to a chain of a missing table panics. *)
Definition put (f : FakeIPTables) (table chain : string) (rules : list IptablesRule) : FakeIPTables * Result () :=
  match Data f !! table with
  | None => (f, Panic)
  | Some chains => (mkFakeIPTables (EnableRandomFully f) (<[table := <[chain := rules]> chains]> (Data f)), Ok ())
  end.

Definition fake_Exists (table chain : string) (rulespec : list string) (f : FakeIPTables) : FakeIPTables * Result bool :=
  (f, Ok (existsb (λ r, ruleEqual r rulespec) (rules_of f table chain))).
Definition fake_Insert (table chain : string) (pos : Z) (rulespec : list string) (f : FakeIPTables) : FakeIPTables * Result () :=
  put f table chain (mkIptablesRule "" false table chain rulespec :: rules_of f table chain).
Definition fake_Append (table chain : string) (rulespec : list string) (f : FakeIPTables) : FakeIPTables * Result () :=
  put f table chain (rules_of f table chain ++ [mkIptablesRule "" false table chain rulespec]).
(** The first equal rule is cut out. *)
Fixpoint cut_rule (rulespec : list string) (rules : list IptablesRule) : option (list IptablesRule) :=
  match rules with
  | [] => None
  | r :: rest => if ruleEqual r rulespec then Some rest else (λ l, r :: l) <$> cut_rule rulespec rest
  end.
Definition fake_Delete (table chain : string) (rulespec : list string) (f : FakeIPTables) : FakeIPTables * Result () :=
  match cut_rule rulespec (rules_of f table chain) with
  | Some rules => put f table chain rules
  | None => (f, Ok ())
  end.
Definition fake_List (table chain : string) (f : FakeIPTables) : list string :=
  IptablesRule_String <$> rules_of f table chain.
Definition fake_NewChain (table chain : string) (f : FakeIPTables) : FakeIPTables * Result () :=
  match default ∅ (Data f !! table) !! chain with
  | Some _ => (f, Ok ())
  | None => put f table chain []
  end.
Definition fake_ClearChain (table chain : string) (f : FakeIPTables) : FakeIPTables * Result () := put f table chain [].
Definition fake_DeleteChain (table chain : string) (f : FakeIPTables) : FakeIPTables :=
  mkFakeIPTables (EnableRandomFully f) (alter (delete chain) table (Data f)).
(** The order of the chains is the one of the iteration over the map. *)
Definition fake_ListChains `{R : GoRange} (table : string) (f : FakeIPTables) : list string :=
  (range_map (default ∅ (Data f !! table))).*1.
Definition fake_HasRandomFully (f : FakeIPTables) : bool := EnableRandomFully f.

Definition specs (l : list IptablesRule) : list (list string) := Rule_Rule <$> l.

#[global] Instance fake_iptables : IptablesIface FakeIPTables := {|
  Exists := fake_Exists; Append := fake_Append; Iptables_Delete := fake_Delete;
  chain_rules f t c := specs (rules_of f t c) |}.

Lemma rule_loop_spec a b : length a = length b → rule_loop a b = true ↔ a = b.
Proof.
  revert b. induction a as [|x a IH]; intros [|y b] Hl; cbn in *; try done. injection Hl as Hl.
  destruct (decide (x = y)) as [->|Hne].
  - rewrite bool_decide_false by tauto. rewrite IH by done. split; [by intros ->|by intros [= ]].
  - rewrite bool_decide_true by done. split; [done|]. by intros [= ].
Qed.
Lemma ruleEqual_spec r spec : ruleEqual r spec = true ↔ Rule_Rule r = spec.
Proof.
  unfold ruleEqual. destruct (Nat.eqb_spec (length (Rule_Rule r)) (length spec)); [by apply rule_loop_spec|].
  split; [done|]. by intros <-.
Qed.
Lemma cut_rule_specs spec l before after : specs l = before ++ spec :: after → spec ∉ before →
  ∃ l', cut_rule spec l = Some l' ∧ specs l' = before ++ after.
Proof.
  revert l. induction before as [|x before IH]; intros [|r l] Hl Hn; cbn in Hl; try done; injection Hl as Hr Hl.
  - exists l. cbn. by rewrite (proj2 (ruleEqual_spec r spec) Hr).
  - destruct (IH l Hl) as (l' & Hc & Hs); [set_solver|]. exists (r :: l'). cbn.
    destruct (ruleEqual r spec) eqn:E; [apply ruleEqual_spec in E; set_solver|]. rewrite Hc. cbn. unfold specs in Hs. by rewrite Hr, Hs.
Qed.
Lemma cut_rule_none spec l : spec ∉ specs l → cut_rule spec l = None.
Proof.
  induction l as [|r l IH]; cbn; intros Hn; [done|].
  destruct (ruleEqual r spec) eqn:E; [apply ruleEqual_spec in E; set_solver|]. rewrite IH; [done|set_solver].
Qed.
Lemma put_rules f t c l f' : put f t c l = (f', Ok ()) →
  rules_of f' t c = l ∧ ∀ t' c', (t', c') ≠ (t, c) → rules_of f' t' c' = rules_of f t' c'.
Proof.
  unfold put. destruct (Data f !! t) as [chains|] eqn:E; intros [= <-]. unfold rules_of. cbn. split.
  - by rewrite lookup_insert_eq; cbn; rewrite lookup_insert_eq.
  - intros t' c' Hne. destruct (decide (t' = t)) as [->|]; [|by rewrite lookup_insert_ne].
    rewrite lookup_insert_eq, E. cbn. rewrite lookup_insert_ne; [done|congruence].
Qed.

#[global] Instance fake_iptables_ok : IptablesOk FakeIPTables.
Proof.
  split; cbn; unfold specs.
  - intros t c rule i i' b [= <- <-]. split; [done|]. rewrite existsb_elem, list_elem_of_fmap.
    setoid_rewrite ruleEqual_spec. split; [intros (r & ? & ?); eauto|intros (r & -> & ?); eauto].
  - intros t c rule i i' [H1 H2]%put_rules. split; [by rewrite H1, fmap_app|]. intros t' c' Hne. by rewrite H2.
  - intros t c rule i i' H. unfold fake_Delete in H. split_and!.
    + intros before after Hl Hn. destruct (cut_rule_specs rule _ before after Hl Hn) as (l' & Hc & Hs).
      rewrite Hc in H. apply put_rules in H as [-> _]. exact Hs.
    + intros Hn. rewrite cut_rule_none in H by done. by injection H as <-.
    + intros t' c' Hne. destruct (cut_rule _ _); [|by injection H as <-]. apply put_rules in H as [_ H]. by rewrite H.
Qed.
End fake.

Lemma PortForward_roundtrip_witness :
  let i1 := fst (AddPortForwardOfBGP "10.10.12.1" "10.10.12.2" 17900 fake.NewFakeIPTables) in
  chain_rules (fst (DeletePortForwardOfBGP "10.10.12.1" "10.10.12.2" 17900 i1)) "nat" BgpNatChain
  = chain_rules fake.NewFakeIPTables "nat" BgpNatChain.
Proof.
  intros i1. refine (proj2 (PortForward_roundtrip "10.10.12.1" "10.10.12.2" 17900 fake.NewFakeIPTables i1 i1 _ _) _ _).
  - vm_compute. reflexivity.
  - apply not_elem_of_nil.
  - vm_compute. reflexivity.
Defined.
