(* ===== verification/System.v ===== *)
(** * The controllers together, on one API server

    The reconciler of services ([LbController]), the reconciler of pools
    ([IpamController]) and the users of the cluster, whose changes to pools
    pass the webhook ([EipTypes]), all act on the objects of one server.  A
    run is any sequence of their steps ([sys_step]): a whole reconciliation,
    whatever its result, or one change by a user.  A reconciliation may fail
    at any call, and a write that failed may have happened.  The reconcilers
    run one at a time, as the work queues of the manager do for one key, and
    read what the server stores.

    [sys_ok] is what every such run preserves: each pool sys_keeps exact records
    ([pool_inv]), the pools are disjoint ([cluster_ok]), and no service is
    recorded twice by the pools that are not being deleted. *)
From S2P Require Import Prelude GoNet Cnet Iprange K8s EipTypes Kube Ipam IpamController NodeProxy LbController.
Local Open Scope Z_scope.

(** The calls on nodes and workloads leave pools and services alone. *)
Class ProxyFrame (W : Type) `{P : ProxyClient W} (view : W → Server) : Prop := {
  UpdateNode_frame w n w' r : UpdateNode w n = (w', r) → view w' = view w;
  CreateWorkload_frame w x w' r : CreateWorkload w x = (w', r) → view w' = view w;
  UpdateWorkload_frame w x w' r : UpdateWorkload w x = (w', r) → view w' = view w;
  DeleteWorkload_frame w x w' r : DeleteWorkload w x = (w', r) → view w' = view w;
}.

(** ** The invariant *)
Definition live (e : Eip) : Prop := IsZero (DeletionTimestamp (Eip_Meta e)) = true.
Definition records (e : Eip) (addr key : string) : Prop := key ∈ holders (Eip_Status e) addr.

(** The services are stored under their keys, and their names (DNS labels)
    hold no separator of the records. *)
Definition svcs_ok (v : Server) : Prop := ∀ k s, srv_svcs v !! k = Some s →
  Svc_Key s = k ∧ str_elem ";" (NamespacedName k.1 k.2) = false.

(** The pool has addresses of one family: the text of an IPv6 address in the
    block [::ffff:0:0/96] is the one of an IPv4 address. *)
Definition mapped : Z := 281470681743360.
Definition one_family (e : Eip) : Prop := ∀ base size, GetSize e = Ok (base, size) →
  length (canon base) = 4%nat ∨ IPToBigInt base + size <= mapped ∨ mapped + two32 <= IPToBigInt base.

Definition sized (e : Eip) : Prop := ∃ base size, pool_ok base size ∧ pool_inv base size e.

Record sys_ok (v : Server) : Prop := {
  sys_pools : ∀ n e, srv_eips v !! n = Some e → sized e;
  sys_family : ∀ n e, srv_eips v !! n = Some e → one_family e;
  sys_cluster : cluster_ok (srv_eips v);
  sys_names : ∀ n e, srv_eips v !! n = Some e → n ≠ "";
  sys_once : ∀ n1 n2 e1 e2 a1 a2 key, srv_eips v !! n1 = Some e1 → srv_eips v !! n2 = Some e2 →
    live e1 → live e2 → records e1 a1 key → records e2 a2 key → n1 = n2 ∧ a1 = a2;
  sys_svcs : svcs_ok v;
}.

Lemma sys_server_ok v : sys_ok v → server_ok v.
Proof. intros H. split; [apply (ok_name _ (sys_cluster _ H))|]. intros k s Hs. by apply (sys_svcs _ H). Qed.

Lemma svc_key_ok v k s : svcs_ok v → srv_svcs v !! k = Some s → str_elem ";" (svc_key s) = false.
Proof. intros H Hs. destruct (H k s Hs) as [<- Hk]. exact Hk. Qed.

(** No pool that is not being deleted records the service. *)
Definition unrecorded (v : Server) (key : string) : Prop :=
  ∀ n e a, srv_eips v !! n = Some e → live e → ¬ records e a key.

(** ** One pool written *)
Definition same_pool (e e' : Eip) : Prop :=
  Eip_Name e' = Eip_Name e ∧ Annotations (Eip_Meta e') = Annotations (Eip_Meta e) ∧ Eip_Spec e' = Eip_Spec e ∧
  (live e' → live e).

(** A pool put under a name: what it records was recorded there before, or is
    one more record of a service recorded nowhere. *)
Lemma sys_ok_insert v n e' : sys_ok v → cluster_ok (<[n := e']> (srv_eips v)) → n ≠ "" → sized e' → one_family e' →
  (∃ new, (∀ key, new = Some key → unrecorded v key.1) ∧
     ∀ a key, live e' → records e' a key →
       (∃ e, srv_eips v !! n = Some e ∧ live e ∧ records e a key) ∨ new = Some (key, a)) →
  sys_ok (with_eips v (<[n := e']> (srv_eips v))).
Proof.
  intros Hv Hc Hne Hsz Hfam (new & Hnew & Hrec). constructor; cbn [srv_eips srv_svcs with_eips].
  - intros m x [[<- <-]|[_ Hx]]%lookup_insert_Some; [done|by eapply sys_pools].
  - intros m x [[<- <-]|[_ Hx]]%lookup_insert_Some; [done|by eapply sys_family].
  - done.
  - intros m x [[<- <-]|[_ Hx]]%lookup_insert_Some; [done|by eapply sys_names].
  - assert (∀ m x a k b, srv_eips v !! m = Some x → live x → records x b k → live e' → records e' a k → m = n ∧ b = a)
      as Hone.
    { intros m x a k b Hx Hlx Hb Hl Ha. destruct (Hrec a k Hl Ha) as [(e & He & Hle & Hea)|Heq].
      - by destruct (sys_once _ Hv m n x e b a k Hx He Hlx Hle Hb Hea).
      - by destruct (Hnew _ Heq m x b Hx Hlx). }
    intros n1 n2 e1 e2 a1 a2 key [[<- <-]|[H1 Hx]]%lookup_insert_Some [[<- <-]|[H2 Hy]]%lookup_insert_Some L1 L2 R1 R2.
    + split; [done|]. destruct (Hrec _ _ L2 R2) as [(e & He & Hle & Hr)|N2].
      * destruct (Hone n e a1 key a2 He Hle Hr L1 R1). done.
      * destruct (Hrec _ _ L1 R1) as [(e & He & Hle & Hr)|N1]; [|by simplify_eq].
        by destruct (Hnew _ N2 n e a1 He Hle).
    + destruct (Hone n2 e2 a1 key a2 Hy L2 R2 L1 R1). done.
    + destruct (Hone n1 e1 a2 key a1 Hx L1 R1 L2 R2). done.
    + by apply (sys_once _ Hv _ _ e1 e2 a1 a2 key).
  - exact (sys_svcs _ Hv).
Qed.

(** Replacing a pool by one with the same object. *)
Lemma sys_ok_replace v e e' : sys_ok v → srv_eips v !! Eip_Name e = Some e →
  same_pool e e' → sized e' →
  (live e → ∃ new, (∀ key, new = Some key → unrecorded v key.1) ∧
     ∀ a key, records e' a key → records e a key ∨ new = Some (key, a)) →
  sys_ok (with_eips v (<[Eip_Name e := e']> (srv_eips v))).
Proof.
  intros Hv He (Hn & Han & Hsp & Hlv) Hsz Hrec. pose proof (sys_cluster _ Hv) as Hc.
  apply sys_ok_insert; [done| |by eapply sys_names|done| |].
  - rewrite <- Hn. apply cluster_ok_insert; [done| | | |]; rewrite ?Hn.
    + rewrite (GetSize_address e' e) by congruence. by eapply (ok_size _ Hc).
    + unfold needs_interface. rewrite Hsp. by eapply (ok_interface _ Hc).
    + intros n x ip Hx Hne C1 C2. rewrite (Contains_address e' e) in C1 by congruence.
      by apply (ok_disjoint _ Hc _ _ _ _ ip He Hx).
    + unfold is_default_pool. rewrite Han. intros Hd n x Hx Hne Hdx. by apply Hne, (ok_default _ Hc _ _ _ _ Hx He).
  - intros base size. rewrite (GetSize_address e' e) by congruence. by eapply sys_family.
  - destruct (IsZero (DeletionTimestamp (Eip_Meta e))) eqn:Ez.
    + destruct (Hrec Ez) as (new & Hnew & Hcase). exists new. split; [done|]. intros a k _ Hr.
      destruct (Hcase a k Hr); [left; by exists e|by right].
    + exists None. split; [done|]. intros a k Hl%Hlv. unfold live in Hl. congruence.
Qed.

Lemma sys_ok_delete v n : sys_ok v → sys_ok (with_eips v (delete n (srv_eips v))).
Proof.
  intros Hv. pose proof (sys_cluster _ Hv) as Hc.
  constructor; cbn [srv_eips srv_svcs with_eips]; [| | | | |exact (sys_svcs _ Hv)].
  - intros m x [_ Hx]%lookup_delete_Some. by eapply sys_pools.
  - intros m x [_ Hx]%lookup_delete_Some. by eapply sys_family.
  - constructor; intros *; rewrite !lookup_delete_Some; intros [? ?]; eauto using ok_name, ok_size, ok_interface;
      intros [? ?]; eauto using ok_disjoint, ok_default.
  - intros m x [_ Hx]%lookup_delete_Some. by eapply sys_names.
  - intros n1 n2 e1 e2 a1 a2 key [_ H1]%lookup_delete_Some [_ H2]%lookup_delete_Some. by apply (sys_once _ Hv).
Qed.

(** ** What the address manager does to a pool *)
Section pool_writes.
Context {R : GoRange}.

Lemma release_same key e : same_pool e (releaseIPFromEip key e).
Proof. unfold releaseIPFromEip. by destruct (negb _). Qed.

Lemma release_sized key e : sized e → sized (releaseIPFromEip key e).
Proof.
  intros (base & size & Hp & Hi). exists base, size. split; [done|].
  by apply (pool_step_inv (λ v : Server, v) base size e); [|apply ps_release|].
Qed.

Lemma release_records key e a k : sized e → records (releaseIPFromEip key e) a k → records e a k.
Proof.
  intros (base & size & Hp & _ & [Hf|[Hok Hnd]]); [by rewrite release_fresh|].
  destruct (IsZero (DeletionTimestamp (Eip_Meta e))) eqn:Ez.
  - destruct (release_holders _ _ key e Hok Hnd Ez) as (_ & _ & Hh). unfold records. rewrite Hh, elem_of_RemoveString.
    tauto.
  - unfold releaseIPFromEip. by rewrite Ez.
Qed.

Lemma release_removes key e a : sized e → live e → ¬ records (releaseIPFromEip key e) a key.
Proof.
  intros (base & size & Hp & _ & [Hf|[Hok Hnd]]) Hl.
  - rewrite release_fresh by done. unfold records, holders. rewrite Hf. apply not_elem_of_nil.
  - destruct (release_holders _ _ key e Hok Hnd Hl) as (_ & _ & Hh). unfold records. rewrite Hh, elem_of_RemoveString.
    tauto.
Qed.

Lemma assign_writes a e addr e' : sized e → str_elem ";" (Key a) = false →
  (∀ x, ¬ records e x (Key a)) → assignIPFromEip (Some a) e = Ok (addr, e') →
  same_pool e e' ∧ Eip_Meta e' = Eip_Meta e ∧ sized e' ∧
  records e' addr (Key a) ∧ addr ≠ "" ∧ ∀ x k, records e' x k → records e x k ∨ (k, x) = (Key a, addr).
Proof.
  intros (base & size & Hp & Hi) Hkey Hnew Ha. pose proof (assign_available _ _ _ Ha) as Hav.
  assert (pool_inv base size e') as Hi'.
  { apply (pool_step_inv (λ v : Server, v) base size e); [done|by eapply ps_assign|done]. }
  destruct Hi as [Hg [Hf|[Hok Hnd]]]; [by destruct (assign_fresh e a (addr, e') Hf)|].
  destruct (assign_ok _ _ e a addr e' Hok Hav Hkey Ha) as [_ [(_ & _ & Hh)|(k & Hk & -> & (Hm & Hs & Hat & Hrest))]];
    [by destruct (Hnew addr)|].
  split; [|split; [done|split; [by exists base, size|split; [|split]]]].
  - unfold same_pool, Eip_Name, live. by rewrite Hm, Hs.
  - unfold records. rewrite Hat. set_solver.
  - intros E. apply (addr_at_parses (canon base) size (pool_ok_fits _ _ Hp) k Hk). by rewrite E.
  - intros x y. unfold records. destruct (decide (x = addr_at (canon base) k)) as [->|Hne].
    + rewrite Hat. intros [?|?%list_elem_of_singleton]%elem_of_app; [by left|]. right. congruence.
    + rewrite Hrest by done. by left.
Qed.
End pool_writes.

Lemma update_writes `{R : GoRange} {W : Type} `{K : KubeClient W} (view : W → Server)
    `{KO : !KubeClientOk W view} w e e' : sized e → updateEip w e = Ok e' →
  Eip_Meta e' = Eip_Meta e ∧ Eip_Spec e' = Eip_Spec e ∧ sized e' ∧ ∀ x k, records e' x k → records e x k.
Proof.
  intros (base & size & Hp & Hi) Hu.
  assert (pool_inv base size e') as Hi'.
  { apply (pool_step_inv view base size e); [done|by eapply (ps_update e w)|done]. }
  destruct Hi as [Hg [Hf|[Hok Hnd]]].
  - destruct (updateEip_fresh view w e base size Hf Hg Hp) as (e1 & He1 & Hs & Hm & _ & Hemp & _).
    rewrite Hu in He1. simplify_eq. split_and!; [done..|by exists base, size|].
    intros x k. unfold records, holders. rewrite Hemp, lookup_empty. by intros ?%not_elem_of_nil.
  - destruct (updateEip_ok view _ _ w e e' Hok Hu) as (_ & Hs & Hm & Hh). split_and!; [done..|by exists base, size|].
    intros x k. unfold records. rewrite Hh, !list_elem_of_In. by intros [? _]%List.filter_In.
Qed.

(** ** Every call sys_keeps the invariant *)
Lemma write_cases {S T A} (view : S → T) (f : T → A → option (T * A)) op w a w' r :
  write_law view f op → op w a = (w', r) → view w' = view w ∨ ∃ a', f (view w) a = Some (view w', a').
Proof. intros H Hop. apply H in Hop. destruct r; eauto; done. Qed.

Section calls.
Context {R : GoRange} {W : Type} {K : KubeClient W} (view : W → Server) {KO : KubeClientOk W view}.

Definition sys_keeps {A} (c : ST W A) : Prop := ∀ w w' r, sys_ok (view w) → c w = (w', r) → sys_ok (view w').

Lemma sys_keeps_bind {A B} (c : ST W A) (f : A → ST W B) : sys_keeps c → (∀ a, sys_keeps (f a)) → sys_keeps (mbind (M := ST W) f c).
Proof.
  intros Hc Hf w w' r Hw. unfold mbind, ST_bind. destruct (c w) as [w1 [a|e|]] eqn:E; specialize (Hc _ _ _ Hw E);
    [by apply Hf|by intros [= <- <-]..].
Qed.
Lemma sys_keeps_view {A} (c : ST W A) : (∀ w w' r, c w = (w', r) → view w' = view w) → sys_keeps c.
Proof. intros H w w' r Hw E. by rewrite (H _ _ _ E). Qed.
Lemma sys_keeps_same {A} (c : ST W A) : (∀ w, fst (c w) = w) → sys_keeps c.
Proof. intros H. apply sys_keeps_view. intros w w' r E. specialize (H w). rewrite E in H. cbn in H. by subst. Qed.
Lemma sys_keeps_try {A} (c : ST W A) : sys_keeps c → sys_keeps (st_try c).
Proof.
  intros H w w' r Hw. unfold st_try. destruct (c w) as [w1 [a|e|]] eqn:E; intros [= <- <-]; by eapply H.
Qed.

Lemma sys_ok_svcs v v' : sys_ok v → srv_eips v' = srv_eips v → svcs_ok v' → sys_ok v'.
Proof. intros [H1 H2 H3 H4 H5 H6] He Hs. constructor; rewrite ?He; done. Qed.

Lemma keeps_UpdateService s : sys_keeps (λ w, UpdateService w s).
Proof.
  intros w w' r Hw Hu. apply (write_cases view srv_update_svc) in Hu as [->|(s' & Hu)]; [done| |apply UpdateService_law].
  unfold srv_update_svc in Hu. destruct (srv_svcs (view w) !! Svc_Key s) as [old|] eqn:E; [|done].
  cbn [mbind option_bind] in Hu. injection Hu as <- <-. apply (sys_ok_svcs (view w)); [done|done|].
  pose proof (sys_svcs _ Hw) as Hs. intros k x. cbn [srv_svcs with_svcs]. destruct (is_gone _).
  - intros [_ Hx]%lookup_delete_Some. by apply Hs.
  - intros [[<- <-]|[_ Hx]]%lookup_insert_Some; [|by apply Hs]. split; [done|]. by apply (Hs _ old).
Qed.

Lemma keeps_StatusUpdateService s : sys_keeps (λ w, StatusUpdateService w s).
Proof.
  intros w w' r Hw Hu. apply (write_cases view srv_status_svc) in Hu as [->|(s' & Hu)]; [done| |apply StatusUpdateService_law].
  unfold srv_status_svc in Hu. destruct (srv_svcs (view w) !! Svc_Key s) as [old|] eqn:E; [|done].
  cbn [mbind option_bind] in Hu. injection Hu as <- <-. apply (sys_ok_svcs (view w)); [done|done|].
  pose proof (sys_svcs _ Hw) as Hs. intros k x. cbn [srv_svcs with_svcs].
  intros [[<- <-]|[_ Hx]]%lookup_insert_Some; [|by apply Hs]. by apply (Hs _ old).
Qed.

(** Writing the status of a stored pool. *)
Lemma status_write w e e' w' r : sys_ok (view w) → srv_eips (view w) !! Eip_Name e = Some e →
  same_pool e e' → Eip_Meta e' = Eip_Meta e → sized e' →
  (live e → ∃ new, (∀ key, new = Some key → unrecorded (view w) key.1) ∧
     ∀ a key, records e' a key → records e a key ∨ new = Some (key, a)) →
  StatusUpdateEip w e' = (w', r) →
  sys_ok (view w') ∧ (r ≠ Panic) ∧ (∀ x, r = Ok x → view w' = with_eips (view w) (<[Eip_Name e := e']> (srv_eips (view w)))) ∧
  (view w' = view w ∨ view w' = with_eips (view w) (<[Eip_Name e := e']> (srv_eips (view w)))).
Proof.
  intros Hw He Hsame Hm Hsz Hrec Hu.
  assert (∀ x, srv_status_eip (view w) e' = Some (view w', x) →
    view w' = with_eips (view w) (<[Eip_Name e := e']> (srv_eips (view w)))) as Hstored.
  { intros x (old & Hold & Hx & Hv)%srv_status_eip_spec. destruct Hsame as (Hn & _ & Hsp & _).
    rewrite Hn in Hold, Hv. rewrite He in Hold. injection Hold as <-. rewrite Hv, Hx. f_equal. f_equal.
    rewrite <- Hm, <- Hsp. by destruct e'. }
  pose proof (sys_ok_replace (view w) e e' Hw He Hsame Hsz Hrec) as Hnew.
  apply StatusUpdateEip_law in Hu. destruct r as [x|err|]; [| |done].
  - apply Hstored in Hu. rewrite Hu. split_and!; [done..|by right].
  - assert (view w' = view w ∨ view w' = with_eips (view w) (<[Eip_Name e := e']> (srv_eips (view w)))) as Hcases
      by (destruct Hu as [?|[x Hx]]; [by left|right; by eapply Hstored]).
    split_and!; [|done..]. by destruct Hcases as [-> | ->].
Qed.

(** Writing the metadata of a stored pool: it sys_keeps its records, or goes. *)
Lemma meta_write w e m w' r : sys_ok (view w) → srv_eips (view w) !! Eip_Name e = Some e →
  Name m = Eip_Name e → Annotations m = Annotations (Eip_Meta e) →
  UpdateEip w (set_EipMeta e m) = (w', r) →
  sys_ok (view w') ∧ (∀ x, r = Ok x → Eip_Name x = Eip_Name e ∧ Eip_Spec x = Eip_Spec e ∧ Eip_Status x = Eip_Status e ∧
    (live e → srv_eips (view w') !! Eip_Name e = Some x)).
Proof.
  intros Hw He Hn Ha Hu.
  assert (∀ x, srv_update_eip (view w) (set_EipMeta e m) = Some (view w', x) →
    sys_ok (view w') ∧ Eip_Name x = Eip_Name e ∧ Eip_Spec x = Eip_Spec e ∧ Eip_Status x = Eip_Status e ∧
    (live e → srv_eips (view w') !! Eip_Name e = Some x)) as Hstored.
  { intros x (old & Hold & Hx & Hv)%srv_update_eip_spec.
    assert (Eip_Name (set_EipMeta e m) = Eip_Name e) as Hn' by exact Hn. rewrite Hn', He in Hold. injection Hold as <-.
    rewrite Hn' in Hv. assert (same_pool e x) as Hs by (rewrite Hx; by split_and!).
    assert (Eip_Status x = Eip_Status e) as Hst by (by rewrite Hx).
    assert (sized x) as Hsz.
    { destruct (sys_pools _ Hw _ _ He) as (base & size & Hp & Hi). exists base, size. split; [done|].
      apply (pool_step_inv (λ v : Server, v) base size e); [done| |done].
      apply ps_object; [|done]. by rewrite (proj1 (proj2 (proj2 Hs))). }
    assert (live e → is_gone (Eip_Meta x) = false) as Hg.
    { intros Hl. rewrite Hx. unfold is_gone. cbn [Eip_Meta set_DeletionTimestamp DeletionTimestamp].
      unfold live in Hl. by rewrite Hl. }
    rewrite Hv. split; [|split_and!; try apply Hs; try done].
    - destruct (is_gone (Eip_Meta x)); [by apply sys_ok_delete|]. apply sys_ok_replace; try done.
      intros _. exists None. split; [done|]. intros a k. unfold records. rewrite Hst. by left.
    - intros Hl. rewrite (Hg Hl). apply lookup_insert_eq. }
  apply UpdateEip_law in Hu. destruct r as [x|err|]; [| |done].
  - destruct (Hstored x Hu) as [? ?]. split; [done|]. by intros y [= <-].
  - split; [|done]. destruct Hu as [->|[x Hx]]; [done|]. by apply (Hstored x).
Qed.
End calls.

(** ** The reconciler of pools *)
Section pool_reconciler.
Context {R : GoRange} {W : Type} {K : KubeClient W} (view : W → Server) {KO : KubeClientOk W view}.

Lemma stored_name w n e : sys_ok (view w) → GetEip w n = Ok e → Eip_Name e = n ∧ srv_eips (view w) !! Eip_Name e = Some e.
Proof.
  intros Hw Hg%(GetEip_ok view). assert (Eip_Name e = n) as Hn by (by apply (ok_name _ (sys_cluster _ Hw))).
  by rewrite Hn.
Qed.

Lemma remove_labels_keeps l : ∀ w w' r, sys_ok (view w) → remove_labels w l = (w', r) →
  sys_ok (view w') ∧ srv_eips (view w') = srv_eips (view w).
Proof.
  induction l as [|s l IH]; intros w w' r Hw; cbn [remove_labels]; [by intros [= <- _]|].
  destruct (UpdateService w _) as [w1 [x|e|]] eqn:Eu;
    assert (sys_ok (view w1)) as Hw1 by (eapply (keeps_UpdateService view); [exact Hw|exact Eu]);
    assert (srv_eips (view w1) = srv_eips (view w)) as He1;
    try (apply (write_cases view srv_update_svc) in Eu as [->|(s' & Eu)]; [done| |apply UpdateService_law];
         unfold srv_update_svc in Eu; destruct (srv_svcs (view w) !! _); [|done]; cbn [mbind option_bind] in Eu;
         injection Eu as <- _; done).
  - intros Hr. destruct (IH w1 w' r Hw1 Hr) as [? ->]. done.
  - by intros [= <- _].
  - by intros [= <- _].
Qed.

Lemma removeEip_keeps w e w' r : sys_ok (view w) → removeEip w e = (w', r) →
  sys_ok (view w') ∧ srv_eips (view w') = srv_eips (view w).
Proof.
  intros Hw. unfold removeEip. destruct (ListServices _ _); [by apply remove_labels_keeps|by intros [= <- _]..].
Qed.

Lemma AddFinalizer_annotations m f : Annotations (AddFinalizer m f) = Annotations m.
Proof. unfold AddFinalizer. by destruct (ContainsString _ _). Qed.

(** Synchronising a stored pool and writing its status. *)
Lemma sync_write w e w' r : sys_ok (view w) → srv_eips (view w) !! Eip_Name e = Some e →
  match updateEip w e with
  | Err err => (w, Err err)
  | Panic => (w, Panic)
  | Ok clone => if decide (Eip_Status clone = Eip_Status e) then (w, Ok ()) else forget (StatusUpdateEip w clone)
  end = (w', r) → sys_ok (view w').
Proof.
  intros Hw He. destruct (updateEip w e) as [clone|err|] eqn:Eu; [|by intros [= <- _]..].
  destruct (decide _); [by intros [= <- _]|].
  destruct (update_writes view w e clone (sys_pools _ Hw _ _ He) Eu) as (Hm & Hs & Hsz & Hrec).
  destruct (StatusUpdateEip w clone) as [w1 r1] eqn:Es. unfold forget. intros [= <- _].
  assert (same_pool e clone) as Hsame by (unfold same_pool, Eip_Name, live; by rewrite Hm, Hs).
  eapply (status_write view w e clone); try done.
  intros _. exists None. split; [done|]. intros a k. by left; apply Hrec.
Qed.

Lemma pool_Reconcile_keeps name w w' r : sys_ok (view w) →
  IpamController.Reconcile w name = (w', r) → sys_ok (view w').
Proof.
  intros Hw. unfold IpamController.Reconcile.
  destruct (GetEip w name) as [e|err|] eqn:Eg; [|by intros [= <- _]..].
  destruct (stored_name w name e Hw Eg) as [Hn He]. destruct (IsDeletionCandidate _ _) eqn:Ed.
  - destruct (removeEip w e) as [w1 [[]|err|]] eqn:Er; destruct (removeEip_keeps w e w1 _ Hw Er) as [Hw1 He1];
      [|by intros [= <- _]..].
    destruct (UpdateEip w1 _) as [w2 r2] eqn:Eu. unfold forget. intros [= <- _]. rewrite <- He1 in He.
    by apply (meta_write view w1 e (RemoveFinalizer (Eip_Meta e) constant.IPAMFinalizerName) w2 r2 Hw1 He eq_refl eq_refl Eu).
  - destruct (NeedToAddFinalizer _ _) eqn:Ef; [|by apply sync_write].
    destruct (UpdateEip w _) as [w1 got] eqn:Eu.
    destruct (AddFinalizer_other (Eip_Meta e) constant.IPAMFinalizerName) as [HN _].
    destruct (meta_write view w e _ w1 got Hw He HN (AddFinalizer_annotations _ _) Eu) as [Hw1 Hx].
    destruct got as [x|err|]; [|by intros [= <- _]..].
    assert (live e) as Hl by (unfold live, NeedToAddFinalizer in *; by destruct (IsZero _)).
    destruct (Hx x eq_refl) as (Hxn & _ & _ & Hst). apply sync_write; [done|]. rewrite Hxn. by apply Hst.
Qed.
End pool_reconciler.

(** ** The reconciler of services *)
Section service_reconciler.
Context {R : GoRange} {GS : GoSort} {L : CidrLib} {LL : LabelLib}.
Context {W : Type} {K : KubeClient W} {P : ProxyClient W} (view : W → Server).
Context {KO : KubeClientOk W view} {PF : ProxyFrame W view}.
Abbreviation keeps := (sys_keeps view).

Lemma sys_keeps_ret {A} (a : A) : keeps (mret (M := ST W) a).
Proof. by apply sys_keeps_same. Qed.
Lemma sys_keeps_lift {A} (a : Result A) : keeps (st_lift a).
Proof. by apply sys_keeps_same. Qed.

Lemma updateReconcileResult_keeps s r : keeps (updateReconcileResult s r).
Proof.
  apply sys_keeps_bind; [destruct (decide _); [apply sys_keeps_ret|apply keeps_UpdateService; done]|]. intros c.
  destruct (decide _); [apply sys_keeps_ret|]. apply sys_keeps_bind; [by apply keeps_StatusUpdateService|].
  intros x. apply sys_keeps_ret.
Qed.

(** *** Node-proxy services *)
Lemma node_addrs_keeps addrs : ∀ node ext int, keeps (node_addrs node addrs ext int).
Proof.
  induction addrs as [|[t a] addrs IH]; intros node ext int; cbn [node_addrs]; [apply sys_keeps_ret|].
  destruct (decide _); [|by destruct (decide _)]. destruct (mhas _ _); [done|].
  apply sys_keeps_bind; [apply sys_keeps_lift|]. intros labels. apply sys_keeps_bind; [|done].
  apply sys_keeps_view. intros w w' r. apply UpdateNode_frame.
Qed.
Lemma nodes_addrs_keeps nodes : ∀ ext int, keeps (nodes_addrs nodes ext int).
Proof.
  induction nodes as [|node nodes IH]; intros ext int; cbn [nodes_addrs]; [apply sys_keeps_ret|].
  apply sys_keeps_bind; [apply node_addrs_keeps|done].
Qed.
Lemma find_workload_keeps k : keeps (find_workload k).
Proof. apply sys_keeps_same. intros w. unfold find_workload. by destruct (GetWorkload w k). Qed.
Lemma proxy_pods_keeps env s : keeps (proxy_pods env s).
Proof. apply sys_keeps_same. intros w. unfold proxy_pods. by destruct (ListRunningPods _ _ _). Qed.

Lemma ensure_proxy_keeps env kind s addrs : keeps (ensure_proxy env kind s addrs).
Proof.
  apply sys_keeps_bind; [apply find_workload_keeps|]. intros [x|].
  - apply sys_keeps_bind; [by apply sys_keeps_same|]. intros resc.
    apply sys_keeps_bind; [apply sys_keeps_view; intros ? ? ?; apply UpdateWorkload_frame|]. intros _.
    apply sys_keeps_bind; [apply proxy_pods_keeps|]. intros [[|p pods] e]; [destruct e; [apply sys_keeps_lift|apply sys_keeps_ret]|].
    do 2 (apply sys_keeps_bind; [apply sys_keeps_lift|]; intros ?).
    apply sys_keeps_bind; [by apply keeps_UpdateService|]. intros _. apply sys_keeps_ret.
  - apply sys_keeps_bind; [by apply sys_keeps_same|]. intros resc.
    apply sys_keeps_bind; [apply sys_keeps_view; intros ? ? ?; apply CreateWorkload_frame|]. intros _. apply sys_keeps_ret.
Qed.

Lemma reconcileNP_keeps env s : keeps (reconcileNP env s).
Proof.
  unfold reconcileNP. destruct (IsZero _).
  - apply sys_keeps_bind; [destruct (ContainsString _ _); [apply sys_keeps_ret|by apply keeps_UpdateService]|]. intros s'.
    apply sys_keeps_bind; [by apply sys_keeps_same|]. intros nodes.
    apply sys_keeps_bind; [apply nodes_addrs_keeps|]. intros addrs. cbv zeta. destruct (proxy_kind s'); [|apply sys_keeps_ret].
    apply sys_keeps_bind; [apply find_workload_keeps|]. intros other.
    apply sys_keeps_bind; [|intros _; apply ensure_proxy_keeps]. destruct other as [x|]; [|apply sys_keeps_ret].
    apply sys_keeps_view. intros ? ? ?. apply DeleteWorkload_frame.
  - unfold reconcileNPDelete. destruct (ContainsString _ _); [|apply sys_keeps_ret]. cbv zeta.
    destruct (proxy_kind s); [|apply sys_keeps_ret]. apply sys_keeps_bind; [apply find_workload_keeps|].
    intros [x|]; [|apply sys_keeps_ret].
    apply sys_keeps_bind; [apply sys_keeps_view; intros ? ? ?; apply DeleteWorkload_frame|]. intros _.
    apply sys_keeps_bind; [by apply keeps_UpdateService|]. intros _. apply sys_keeps_ret.
Qed.

(** *** Release and assignment *)
Definition recorded_at (v : Server) (key pool : string) : Prop :=
  ∀ n e a, srv_eips v !! n = Some e → live e → records e a key → n = pool.

(** After the release of a service in the only pool that may record it, no
    live pool does. *)
Lemma release_unrecorded v v' key pool e : sized e → srv_eips v' !! pool = Some (releaseIPFromEip key e) →
  (∀ n, n ≠ pool → srv_eips v' !! n = srv_eips v !! n) → recorded_at v key pool → unrecorded v' key.
Proof.
  intros Hsz Hv Hother Hat n x a Hx Hlx Hrx. destruct (decide (n = pool)) as [->|Hne].
  - rewrite Hv in Hx. injection Hx as <-. destruct (release_same key e) as (_ & _ & _ & Hle).
    by apply (release_removes key e a Hsz (Hle Hlx)).
  - rewrite Hother in Hx by done. by apply Hne, (Hat n x a).
Qed.

Lemma ReleaseIP_keeps r w w' res : sys_ok (view w) → ReleaseIP w (Some r) = (w', res) →
  sys_ok (view w') ∧ srv_svcs (view w') = srv_svcs (view w) ∧
  (res = Ok () → recorded_at (view w) (Key r) (Rec_Eip r) → unrecorded (view w') (Key r)).
Proof.
  intros Hw. unfold ReleaseIP. pose proof (GetEip_law w (Rec_Eip r)) as Hl.
  destruct (GetEip w (Rec_Eip r)) as [e|err|] eqn:Eg; cbn in Hl; [|destruct (IsNotFound err) eqn:En|done].
  - destruct (stored_name view w _ e Hw Eg) as [Hn He]. pose proof (sys_pools _ Hw _ _ He) as Hsz.
    assert (∀ v', srv_eips v' !! Rec_Eip r = Some (releaseIPFromEip (Key r) e) →
      (∀ n, n ≠ Rec_Eip r → srv_eips v' !! n = srv_eips (view w) !! n) →
      recorded_at (view w) (Key r) (Rec_Eip r) → unrecorded v' (Key r)) as Hun
      by (intros v'; by apply release_unrecorded).
    destruct (decide _) as [Heq|Hne].
    + intros [= <- <-]. split; [done|]. split; [done|]. intros _. apply Hun; [by rewrite Heq|done].
    + destruct (StatusUpdateEip w _) as [w1 r1] eqn:Es.
      destruct (status_write view w e (releaseIPFromEip (Key r) e) w1 r1) as (Hw1 & _ & Hst & Hcases);
        [done|done|apply release_same|unfold releaseIPFromEip; by destruct (negb _)|by apply release_sized| |done|].
      { intros _. exists None. split; [done|]. intros a k Hr. left. by apply (release_records (Key r)). }
      assert (srv_svcs (view w1) = srv_svcs (view w)) as Hsv by (by destruct Hcases as [-> | ->]).
      destruct r1 as [x|err|]; intros [= <- <-]; (split; [done|]; split; [done|]); [|done..].
      intros _. apply Hun; rewrite (Hst x eq_refl); cbn [srv_eips with_eips]; rewrite Hn.
      * apply lookup_insert_eq.
      * intros n Hnn. by rewrite lookup_insert_ne.
  - assert (releaseIPFromEip (Key r) zero_Eip = zero_Eip) as -> by by apply release_fresh.
    rewrite decide_True by done. intros [= <- <-]. split; [done|]. split; [done|]. intros _ Hat n e a He Hle Hr.
    rewrite (Hat n e a He Hle Hr) in He. by rewrite Hl in He.
  - by intros [= <- <-].
Qed.

(** The pool the assignment is made in records it and is not being deleted. *)
Definition assigned_in (v : Server) (a a' : svcRecord) : Prop :=
  Rec_Eip a' = Rec_Eip a ∧ Rec_IP a' ≠ "" ∧
  ∃ e, srv_eips v !! Rec_Eip a = Some e ∧ live e ∧ records e (Rec_IP a') (Key a).

Lemma AssignIP_keeps fams a w w' res : sys_ok (view w) → str_elem ";" (Key a) = false →
  unrecorded (view w) (Key a) → AssignIP w fams (Some a) = (w', res) →
  sys_ok (view w') ∧ srv_svcs (view w') = srv_svcs (view w) ∧
  ∀ a', res = Ok (Some a') → assigned_in (view w') a a'.
Proof.
  intros Hw Hkey Hun. unfold AssignIP. destruct (GetEip w (Rec_Eip a)) as [e|err|] eqn:Eg; [|by intros [= <- <-]..].
  destruct (stored_name view w _ e Hw Eg) as [Hn He]. pose proof (sys_pools _ Hw _ _ He) as Hsz.
  destruct (ParseRange _) as [[rg|]|err|]; [|by intros [= <- <-]..]. destruct (negb _); [by intros [= <- <-]|].
  destruct (assignIPFromEip (Some a) e) as [[addr e']|err|] eqn:Ea; [|by intros [= <- <-]..].
  assert (live e) as Hlive by (by apply assign_available in Ea as []).
  destruct (assign_writes a e addr e' Hsz Hkey) as (Hsame & Hm & Hsz' & Hin & Haddr & Hrec); [|done|].
  { intros x. by apply (Hun _ e x He). }
  destruct (decide _) as [->|Hne]; [by destruct (Hun _ e addr He Hlive)|].
  destruct (StatusUpdateEip w e') as [w1 r1] eqn:Es.
  destruct (status_write view w e e' w1 r1) as (Hw1 & _ & Hst & Hcases); [done..| |done|].
  { intros _. exists (Some (Key a, addr)). split; [by intros k [= <-]|].
    intros x k Hr. destruct (Hrec x k Hr) as [?|?]; [by left|right; congruence]. }
  assert (srv_svcs (view w1) = srv_svcs (view w)) as Hsv by (by destruct Hcases as [-> | ->]).
  destruct r1 as [x|err|]; intros [= <- <-]; (split; [done|]; split; [done|]); [|done..].
  intros a' [= <-]. split; [done|]. split; [done|]. exists e'. rewrite (Hst x eq_refl). cbn [srv_eips with_eips].
  rewrite Hn, lookup_insert_eq. split; [done|]. split; [|done]. unfold live. by rewrite Hm.
Qed.

(** What is released for a service found in a list of the pools: there is no
    other live pool that records it. *)
Lemma constructRelease_covers v items key n ip i : sys_ok v → listing (srv_eips v) items →
  find_eip key items = (n, ip) → Ipam.svcName i = key → allocatedEip i = n → allocatedIP i = ip →
  match constructRelease i with
  | Some r => Key r = key ∧ recorded_at v key (Rec_Eip r)
  | None => unrecorded v key
  end.
Proof.
  intros Hv Hl Hfind Hk Hie Hii. pose proof (find_eip_spec key items) as Hf. rewrite Hfind in Hf.
  assert (∀ m e, srv_eips v !! m = Some e → e ∈ items) as Hin by (intros m e He; by eapply listing_elem).
  unfold constructRelease. rewrite Hie, Hii, Hk. destruct Hf as [(e & He & Hz & Hn & Hh)|([= -> ->] & Hno)]; cbn [fst snd] in *.
  - assert (srv_eips v !! n = Some e) as Hst.
    { rewrite Hl in He. apply list_elem_of_fmap in He as ([m x] & -> & Hx%elem_of_map_to_list).
      cbn in *. rewrite Hn. by rewrite (ok_name _ (sys_cluster _ Hv) m x Hx). }
    assert (str_empty n = false) as ->.
    { destruct (str_empty n) eqn:E; [|done]. apply str_empty_spec in E. by destruct (sys_names _ Hv n e Hst). }
    cbn [andb Key Rec_Eip]. split; [done|]. intros m x y Hx Hlx Hrx.
    by destruct (sys_once _ Hv m n x e y ip key Hx Hst Hlx Hz Hrx Hh).
  - assert (unrecorded v key) as Hun.
    { intros m e x He Hle. apply Hno; [by eapply Hin|done]. }
    cbn [str_empty andb]. destruct (str_empty (svcStatusLBIP i)); [exact Hun|]. cbn [Key Rec_Eip]. split; [done|].
    intros m e x He Hle Hr. by destruct (Hun m e x He Hle).
Qed.

(** A request that allocates also releases the service wherever it is
    recorded. *)
Lemma ConstructRequest_frees w s req a : sys_ok (view w) → ConstructRequest w (Some s) = Ok req →
  Req_Allocate req = Some a →
  match Req_Release req with
  | Some r => Key r = svc_key s ∧ recorded_at (view w) (svc_key s) (Rec_Eip r)
  | None => unrecorded (view w) (svc_key s)
  end.
Proof.
  intros Hw. unfold ConstructRequest. destruct (Annotations (Svc_Meta s)) as [annotations|]; [|by intros; simplify_eq].
  unfold getAllocatedEIPInfo. fold (svc_key s). pose proof (ListEips_law w) as Hl.
  destruct (ListEips w) as [items|?|]; [|done..]. cbn [mbind Result_bind].
  destruct (find_eip (svc_key s) items) as [n ip] eqn:Hf. set (rel := constructRelease _). intros Hreq Ha.
  assert (Req_Release req = rel) as ->; [|by eapply (constructRelease_covers (view w) items)].
  destruct (needRelease _); [by simplify_eq|].
  destruct (if str_empty _ then _ else _) as [[en|]|?|]; [| |done..]; [|by simplify_eq].
  destruct (_ && _); by simplify_eq.
Qed.

Lemma reconcile_request_keeps s req w w' r : sys_ok (view w) → str_elem ";" (svc_key s) = false →
  ConstructRequest w (Some s) = Ok req → reconcile_request s req w = (w', r) → sys_ok (view w').
Proof.
  intros Hw Hkey Hreq.
  assert (∀ a clone ips w1 res, Req_Allocate req = Some a → sys_ok (view w1) → unrecorded (view w1) (svc_key s) →
    (got ← st_try (λ w, AssignIP w (Spec_IPFamilies (Svc_Spec s)) (Some a));
     match got with
     | Ok (Some a') => updateReconcileResult s (set_Ingress (assigned_svc clone (Rec_Eip a'))
         (Some [{| Ingress_IP := Rec_IP a'; Ingress_Hostname := "" |}]))
     | Ok None => st_lift Panic
     | Err e => _ ← st_try (updateReconcileResult s (set_Ingress clone ips)); st_lift (Err e)
     | Panic => st_lift Panic
     end) w1 = (w', res) → sys_ok (view w')) as Hassign.
  { intros a clone ips w1 res Ha Hw1 Hun.
    destruct (ConstructRequest_allocate w s req a Hreq Ha) as [HK _].
    assert (sys_ok (view (fst (AssignIP w1 (Spec_IPFamilies (Svc_Spec s)) (Some a))))) as Hw2.
    { destruct (AssignIP w1 _ _) as [w2 r2] eqn:E. eapply (AssignIP_keeps _ a w1 w2 r2); rewrite ?HK; done. }
    unfold mbind at 1, ST_bind, st_try at 1. destruct (AssignIP w1 _ _) as [w2 [[a'|]|e|]]; cbn [fst] in Hw2.
    - by apply updateReconcileResult_keeps.
    - by intros [= <- _].
    - apply sys_keeps_bind; [apply sys_keeps_try, updateReconcileResult_keeps|intros _; apply sys_keeps_lift|done].
    - by intros [= <- _]. }
  unfold reconcile_request. pose proof (ConstructRequest_frees w s req) as Hfree.
  destruct (Req_Release req) as [rl|] eqn:Er, (Req_Allocate req) as [a|] eqn:Ea; [| | |by intros [= <- _]].
  - unfold mbind at 1, ST_bind at 1. unfold mbind at 1, ST_bind at 1.
    destruct (ReleaseIP w (Some rl)) as [w1 res] eqn:Erel.
    destruct (ReleaseIP_keeps rl w w1 res Hw Erel) as (Hw1 & _ & Hun). destruct res as [[]|e|]; [|by intros [= <- _]..].
    cbn [mret ST_ret]. apply (Hassign a); [done..|]. destruct (Hfree a Hw Hreq eq_refl) as [Hk Hat]. rewrite <- Hk in *. by apply Hun.
  - unfold mbind at 1, ST_bind at 1. unfold mbind at 1, ST_bind at 1.
    destruct (ReleaseIP w (Some rl)) as [w1 res] eqn:Erel.
    destruct (ReleaseIP_keeps rl w w1 res Hw Erel) as [Hw1 _]. destruct res as [[]|e|]; [|by intros [= <- _]..].
    cbn [mret ST_ret]. by apply updateReconcileResult_keeps.
  - cbn [mbind ST_bind mret ST_ret]. apply (Hassign a); [done..|]. by apply (Hfree a Hw Hreq eq_refl).
Qed.

(** The outcome of a successful request that allocates. *)
Lemma reconcile_request_done s req a w w' : sys_ok (view w) → str_elem ";" (svc_key s) = false →
  ConstructRequest w (Some s) = Ok req → Req_Allocate req = Some a → reconcile_request s req w = (w', Ok ()) →
  ∃ w2 clone a', Svc_Key clone = Svc_Key s ∧ Svc_Spec clone = Svc_Spec s ∧
    Annotations (Svc_Meta clone) = Annotations (Svc_Meta s) ∧
    sys_ok (view w2) ∧ srv_svcs (view w2) = srv_svcs (view w) ∧ assigned_in (view w2) a a' ∧
    updateReconcileResult s (set_Ingress (assigned_svc clone (Rec_Eip a'))
      (Some [{| Ingress_IP := Rec_IP a'; Ingress_Hostname := "" |}])) w2 = (w', Ok ()).
Proof.
  intros Hw Hkey Hreq Ha. destruct (ConstructRequest_allocate w s req a Hreq Ha) as [HK _].
  pose proof (ConstructRequest_frees w s req a Hw Hreq Ha) as Hfree.
  unfold reconcile_request. rewrite Ha. intros HR.
  assert (∃ w1 clone ips, Svc_Key clone = Svc_Key s ∧ Svc_Spec clone = Svc_Spec s ∧
    Annotations (Svc_Meta clone) = Annotations (Svc_Meta s) ∧
    sys_ok (view w1) ∧ srv_svcs (view w1) = srv_svcs (view w) ∧ unrecorded (view w1) (svc_key s) ∧
    (got ← st_try (λ w, AssignIP w (Spec_IPFamilies (Svc_Spec s)) (Some a));
     match got with
     | Ok (Some a') => updateReconcileResult s (set_Ingress (assigned_svc clone (Rec_Eip a'))
         (Some [{| Ingress_IP := Rec_IP a'; Ingress_Hostname := "" |}]))
     | Ok None => st_lift Panic
     | Err e => _ ← st_try (updateReconcileResult s (set_Ingress clone ips)); st_lift (Err e)
     | Panic => st_lift Panic
     end) w1 = (w', Ok ())) as (w1 & clone & ips & Hck & Hcs & Hca & Hw1 & Hsv1 & Hun & H).
  { destruct (Req_Release req) as [rl|]; [|by exists w, s, (Svc_Ingress s)].
    apply ST_bind_Ok in HR as (w1 & [clone ips] & Hrel & HR).
    apply ST_bind_Ok in Hrel as (w2 & [] & Hrel & Hret). injection Hret as -> <- <-.
    destruct (ReleaseIP_keeps rl w w1 (Ok ()) Hw Hrel) as (Hw1 & Hsv & Hun). destruct Hfree as [Hk Hat].
    rewrite <- Hk in *. specialize (Hun eq_refl Hat). by exists w1, (released_svc s), (Some []). }
  apply ST_bind_Ok in H as (w2 & got & Htry & H). unfold st_try in Htry.
  destruct (AssignIP w1 _ (Some a)) as [w2' res] eqn:Eas.
  destruct (AssignIP_keeps _ a w1 w2' res Hw1 ltac:(by rewrite HK) ltac:(by rewrite HK) Eas) as (Hw2 & Hsv2 & Hin).
  destruct res as [[a'|]|err|]; [| | |done]; injection Htry as -> <-.
  - exists w2, clone, a'. rewrite Hsv2, Hsv1. by eauto 10.
  - by injection H.
  - apply ST_bind_Ok in H as (? & ? & _ & H). by injection H.
Qed.

Lemma service_Reconcile_keeps env key w w' r : sys_ok (view w) →
  LbController.Reconcile env key w = (w', r) → sys_ok (view w').
Proof.
  intros Hw. unfold LbController.Reconcile. pose proof (GetService_law w key) as Hl.
  destruct (GetService w key) as [s|e|]; cbn in Hl; [|by intros [= <- _]|done].
  destruct (HasOpenELBNPAnnotation _); [by apply reconcileNP_keeps|].
  destruct (ConstructRequest w (Some s)) as [req|e|] eqn:Ereq; [|by intros [= <- _]..].
  apply reconcile_request_keeps; [done| |done]. by apply (svc_key_ok (view w) key); [apply sys_svcs|].
Qed.
End service_reconciler.

(** ** The users, and runs *)

(** A pool whose addresses lie in one address space; the webhook does not
    check it. *)
Definition well_sized (e : Eip) : Prop :=
  (∃ base size, GetSize e = Ok (base, size) ∧ pool_ok base size) ∧ one_family e.

(** What a user does to the server: pools through the webhook (a new one has
    no status, an object with finalizers is only marked by a deletion),
    services and namespaces as the API admits them.  The check of the webhook
    and the write are one step; new pools are well sized, which the webhook does
    not check (for others see [GetSize_overflow] and
    [updateEip_panics_on_mixed_range]). *)
Inductive user_step (v : Server) : Server → Prop :=
| us_create e items :
    srv_eips v !! Eip_Name e = None → Eip_Name e ≠ "" → fresh e → well_sized e →
    listing (srv_eips v) items → ValidateCreate (Ok items) e = Ok () →
    user_step v (with_eips v (<[Eip_Name e := e]> (srv_eips v)))
| us_update e old e' v' items :
    srv_eips v !! Eip_Name e = Some old → srv_update_eip v e = Some (v', e') →
    listing (srv_eips v) items → ValidateUpdate (Ok items) e' old = Ok () → user_step v v'
| us_delete e t :
    srv_eips v !! Eip_Name e = Some e → live e → IsZero (Some t) = false → ValidateDelete e = Ok () →
    user_step v (with_eips v
      (if decide (Finalizers (Eip_Meta e) = []) then delete (Eip_Name e) (srv_eips v)
       else <[Eip_Name e := set_EipMeta e (set_DeletionTimestamp (Eip_Meta e) (Some t))]> (srv_eips v)))
| us_services v' : srv_eips v' = srv_eips v → svcs_ok v' → user_step v v'.

Lemma ValidateUpdate_address items e old : ValidateUpdate (Ok items) e old = Ok () →
  Address (Eip_Spec e) = Address (Eip_Spec old).
Proof.
  unfold ValidateUpdate. intros (? & _ & (? & Ha & _)%Result_bind_Ok)%Result_bind_Ok.
  destruct (decide (Eip_Spec e = _)) as [->|]; [done|]. by destruct (decide (Address _ = _)).
Qed.

Lemma user_step_ok v v' : sys_ok v → user_step v v' → sys_ok v'.
Proof.
  intros Hv [e items Hn Hne Hf [(base & size & Hg & Hp) Hfam] Hl Hval|e old e' v1 items Hold Hu Hl Hval
            |e t He Hlive Ht _|v1 He Hs].
  - apply sys_ok_insert; [done| |done|exists base, size; by split; [|split; [|left]]|done|].
    + apply (cluster_step_ok (srv_eips v)); [apply Hv|by eapply step_create].
    + exists None. split; [done|]. intros a k _. unfold records, holders. rewrite Hf. by intros ?%not_elem_of_nil.
  - apply srv_update_eip_spec in Hu as (old' & Hold' & Hx & ->). rewrite Hold in Hold'. injection Hold' as <-.
    destruct (is_gone (Eip_Meta e')); [by apply sys_ok_delete|].
    assert (Eip_Name e' = Eip_Name e) as Hn by (by rewrite Hx).
    assert (Eip_Status e' = Eip_Status old) as Hst by (by rewrite Hx).
    apply sys_ok_insert; [done| |by eapply sys_names| | |].
    + rewrite <- Hn. apply (cluster_step_ok (srv_eips v)); [apply Hv|]. eapply step_update; [by rewrite Hn|done..].
    + destruct (sys_pools _ Hv _ _ Hold) as (base & size & Hp & Hi). exists base, size. split; [done|].
      apply (pool_step_inv (R := canonical_range) (λ v : Server, v) base size old); [done| |done].
      apply ps_object; [by eapply ValidateUpdate_address|done].
    + intros base size. rewrite (GetSize_address e' old) by (by eapply ValidateUpdate_address). by eapply sys_family.
    + exists None. split; [done|]. intros a k Hl' Hr. left. exists old. split; [done|]. unfold records in *.
      rewrite <- Hst. split; [|done]. unfold live in *. by rewrite Hx in Hl'.
  - case_decide; [by apply sys_ok_delete|].
    apply sys_ok_replace; [done|done| | |].
    + by split_and!.
    + destruct (sys_pools _ Hv _ _ He) as (base & size & Hp & Hi). exists base, size. split; [done|].
      apply (pool_step_inv (R := canonical_range) (λ v : Server, v) base size e); [done|by apply ps_object|done].
    + intros _. exists None. split; [done|]. intros a k Hr. by left.
  - by apply (sys_ok_svcs v).
Qed.

Section runs.
Context {R : GoRange} {GS : GoSort} {L : CidrLib} {LL : LabelLib}.
Context {W : Type} {K : KubeClient W} {P : ProxyClient W} (view : W → Server).
Context {KO : KubeClientOk W view} {PF : ProxyFrame W view} (env : string).

Inductive sys_step (w : W) : W → Prop :=
| st_service key w' r : LbController.Reconcile env key w = (w', r) → sys_step w w'
| st_pool name w' r : IpamController.Reconcile w name = (w', r) → sys_step w w'
| st_user w' : user_step (view w) (view w') → sys_step w w'.

Lemma sys_step_ok w w' : sys_ok (view w) → sys_step w w' → sys_ok (view w').
Proof.
  intros Hw [key w1 r H|name w1 r H|w1 H];
    [by eapply service_Reconcile_keeps|by eapply pool_Reconcile_keeps|by eapply user_step_ok].
Qed.

Lemma sys_run_ok w0 w : srv_eips (view w0) = ∅ → svcs_ok (view w0) → rtc sys_step w0 w → sys_ok (view w).
Proof.
  intros He Hs Hrun. assert (sys_ok (view w0)) as H0.
  { constructor; rewrite ?He; try done; try constructor; intros *; rewrite ?lookup_empty; done. }
  clear He Hs. induction Hrun as [|x y z Hstep _ IH]; [done|]. by apply IH, (sys_step_ok x).
Qed.
End runs.

(** The records of a pool are texts of its own addresses. *)
Lemma mapped_block x : length x = 16%nat → bytes_ok x → To4 x ≠ [] → mapped <= SetBytes x < mapped + two32.
Proof.
  intros Hl Hb. unfold To4. rewrite Hl. cbn [Nat.eqb andb]. case_bool_decide as Ht; [|done]. intros _.
  rewrite <- (take_drop 12 x), Ht. assert (length (drop 12 x) = 4%nat) as Hd by (by rewrite length_drop, Hl).
  assert (bytes_ok (drop 12 x)) as Hbd by by apply Forall_drop.
  destruct (drop 12 x) as [|a [|b [|c [|d [|? ?]]]]]; try done.
  do 4 (apply Forall_cons in Hbd as [? Hbd]). unfold SetBytes, mapped, two32, is_byte in *. cbn. lia.
Qed.

Lemma addr_at_Contains base size e k : GetSize e = Ok (base, size) → pool_ok base size → one_family e →
  0 <= k < size → Contains e (ParseIP (addr_at (canon base) k)) = true.
Proof.
  intros Hg Hp Hfam Hk. pose proof (pool_ok_fits base size Hp) as Hfit. destruct Hp as (Hb & Hs & _).
  apply (Contains_spec e base size); [done|done|].
  set (x := be_bytes (length (canon base)) (IPToBigInt (canon base) + k)).
  assert (canonical (canon base)) as Hcb by apply Hfit.
  assert (length x = length (canon base)) as Hlx by apply length_be_bytes.
  assert (bytes_ok x) as Hbx by apply be_bytes_ok.
  assert (ip_ok x) as Hok by (split; [done|]; rewrite Hlx; by apply canonical_ip_ok).
  assert (SetBytes x = IPToBigInt base + k) as Hx.
  { unfold x. rewrite SetBytes_be_bytes, canon_IPToBigInt by (by apply (first_bound _ size Hfit)). done. }
  assert (canonical x) as Hcx.
  { split; [done|]. rewrite Hlx. destruct Hcb as [_ [H4|[H16 _]]]; [by left|right]. split; [done|].
    destruct (To4 x) eqn:E; [done|]. exfalso.
    pose proof (mapped_block x ltac:(congruence) Hbx ltac:(by rewrite E)) as Hm. rewrite Hx in Hm.
    destruct (Hfam base size Hg) as [?|[?|?]]; [congruence|lia..]. }
  unfold addr_at. fold x. rewrite ParseIP_String by done.
  rewrite <- (canon_IPToBigInt (To16 x)), canon_To16, canon_IPToBigInt by done.
  rewrite (IPToBigInt_canonical x), Hx by done. lia.
Qed.

(** ** Properties *)

(** A record of a pool is the text of an address in the pool. *)
Lemma recorded_address v n e addr : sys_ok v → srv_eips v !! n = Some e →
  is_Some (used_map (Eip_Status e) !! addr) → Contains e (ParseIP addr) = true.
Proof.
  intros Hv He [x Hx]. destruct (sys_pools _ Hv n e He) as (base & size & Hp & Hg & [Hf|[Hok _]]).
  - rewrite Hf in Hx. cbn in Hx. by rewrite lookup_empty in Hx.
  - destruct (so_keys _ _ _ (eo_status _ _ _ Hok) addr x Hx) as (k & Hk & ->).
    apply (addr_at_Contains base size); [done|done|by eapply sys_family|done].
Qed.

(** C2: the whole system keeps its addresses apart.  In every state that
    reconciliations of services and of pools, whatever their outcome, and
    changes by users that the webhook admits can produce from a cluster
    without pools: no address is recorded by two pools; the pools that are not
    being deleted record a service at most once, in one pool and for one
    address; and every pool is either new or has exact counters: its size is
    the number of its addresses, the usage the number of its records, at most
    the size, and it is marked occupied exactly when full. *)
Theorem system_invariant `{R : GoRange} `{GS : GoSort} `{L : CidrLib} `{LL : LabelLib} {W : Type}
    `{K : KubeClient W} `{P : ProxyClient W} (view : W → Server) `{KO : !KubeClientOk W view}
    `{PF : !ProxyFrame W view} (env : string) (w0 w : W)
    (Hempty : srv_eips (view w0) = ∅) (Hsvcs : svcs_ok (view w0))
    (Hrun : rtc (sys_step view env) w0 w) :
  (∀ n1 n2 e1 e2 addr, srv_eips (view w) !! n1 = Some e1 → srv_eips (view w) !! n2 = Some e2 →
     is_Some (used_map (Eip_Status e1) !! addr) → is_Some (used_map (Eip_Status e2) !! addr) → n1 = n2) ∧
  (∀ n1 n2 e1 e2 a1 a2 key, srv_eips (view w) !! n1 = Some e1 → srv_eips (view w) !! n2 = Some e2 →
     live e1 → live e2 → key ∈ holders (Eip_Status e1) a1 → key ∈ holders (Eip_Status e2) a2 →
     n1 = n2 ∧ a1 = a2) ∧
  (∀ n e, srv_eips (view w) !! n = Some e → fresh e ∨
     ∃ base size, GetSize e = Ok (base, size) ∧ PoolSize (Eip_Status e) = size ∧
       Usage (Eip_Status e) = go_len (used_map (Eip_Status e)) ∧ 0 <= Usage (Eip_Status e) <= size ∧
       (Occupied (Eip_Status e) = true ↔ Usage (Eip_Status e) = size)).
Proof.
  pose proof (sys_run_ok view env w0 w Hempty Hsvcs Hrun) as Hok. split; [|split].
  - intros n1 n2 e1 e2 addr H1 H2 U1 U2. destruct (decide (n1 = n2)) as [|Hne]; [done|exfalso].
    apply (ok_disjoint _ (sys_cluster _ Hok) n1 n2 e1 e2 (ParseIP addr) H1 H2 Hne); by eapply recorded_address.
  - apply (sys_once _ Hok).
  - intros n e He. destruct (sys_pools _ Hok n e He) as (base & size & _ & Hg & [Hf|[[Hfit Hst _] _]]); [by left|right].
    pose proof (keys_ok_size _ _ Hfit _ (so_keys _ _ _ Hst)). pose proof (so_usage _ _ _ Hst) as Hu.
    exists base, size. split_and!; [done|apply Hst|done|unfold go_len in *; lia|lia|].
    rewrite (so_occupied _ _ _ Hst). apply bool_decide_eq_true.
Qed.

(** What the pools record for a service is what the address manager finds. *)
Lemma sys_allocated `{R : GoRange} {W : Type} `{K : KubeClient W} (view : W → Server) `{KO : !KubeClientOk W view}
    (w : W) (items : list Eip) (n : string) (e : Eip) (addr key : string) :
  sys_ok (view w) → ListEips w = Ok items → srv_eips (view w) !! n = Some e → live e → records e addr key →
  getAllocatedEIPInfo w key = Ok (n, addr).
Proof.
  intros Hw Hl He Hlive Hrec. pose proof (ListEips_law w) as Hlist. rewrite Hl in Hlist.
  assert (∀ x, x ∈ items → srv_eips (view w) !! Eip_Name x = Some x) as Hst.
  { intros x Hx. rewrite Hlist in Hx. apply list_elem_of_fmap in Hx as ([m y] & -> & Hy%elem_of_map_to_list). cbn in *.
    by rewrite (ok_name _ (sys_cluster _ Hw) m y Hy). }
  assert (e ∈ items) as Hin.
  { rewrite Hlist. apply list_elem_of_fmap. exists (n, e). split; [done|]. by apply elem_of_map_to_list. }
  unfold getAllocatedEIPInfo. rewrite Hl. cbn [mbind Result_bind]. f_equal.
  destruct (find_eip_spec key items) as [(x & Hx & Hz & Hn & Hh)|(_ & Hno)]; [|by destruct (Hno e addr Hin Hlive)].
  destruct (sys_once _ Hw _ _ x e _ addr key (Hst x Hx) He Hz Hlive Hh Hrec) as [Hxe Ha].
  destruct (find_eip key items). cbn in *. congruence.
Qed.


Lemma ConstructRequest_named `{R : GoRange} `{GS : GoSort} `{LL : LabelLib} {W : Type} `{K : KubeClient W}
    w s annotations req a : Annotations (Svc_Meta s) = Some annotations →
  ConstructRequest w (Some s) = Ok req → Req_Allocate req = Some a → asked_eip annotations ≠ "" →
  Rec_Eip a = asked_eip annotations ∧ needRelease (Some s) = false.
Proof.
  intros Hann. unfold ConstructRequest. rewrite Hann. intros ([aEip aIP] & _ & H)%Result_bind_Ok Ha Hne.
  fold (asked_eip annotations) in H. destruct (needRelease _); [by simplify_eq|].
  destruct (str_empty (asked_eip annotations)) eqn:E; [by apply str_empty_spec in E|].
  destruct (_ && _); simplify_eq. cbn in Ha. by simplify_eq.
Qed.


(** C30: reconciliation settles.  When a reconciliation assigns an address to a
    service that names its pool, then (if it asked for an address, in the form
    the pool writes it) the next reconciliation of the service finds nothing to
    do and changes nothing. *)
Theorem reconcile_settles `{R : GoRange} `{GS : GoSort} `{L : CidrLib} `{LL : LabelLib} {W : Type}
    `{K : KubeClient W} `{P : ProxyClient W} (view : W → Server) `{KO : !KubeClientOk W view}
    `{PF : !ProxyFrame W view} (env : string) (key : string * string) (s : Service) (annotations : smap)
    (req : Request) (a : svcRecord) (w w' : W)
    (Hw : sys_ok (view w)) (Hst : srv_svcs (view w) !! key = Some s)
    (Hann : Annotations (Svc_Meta s) = Some annotations)
    (Hnp : HasOpenELBNPAnnotation (Annotations (Svc_Meta s)) = false)
    (Hreq : ConstructRequest w (Some s) = Ok req) (Ha : Req_Allocate req = Some a)
    (Hpool : asked_eip annotations ≠ "") (HR : LbController.Reconcile env key w = (w', Ok ())) :
  ∃ s', srv_svcs (view w') !! key = Some s' ∧
    (asked_ip s annotations = "" ∨
     Svc_Ingress s' = Some [{| Ingress_IP := asked_ip s annotations; Ingress_Hostname := "" |}] →
     is_ok (ListEips w') = true → GetService w' key = Ok s' → LbController.Reconcile env key w' = (w', Ok ())).
Proof.
  pose proof (service_Reconcile_keeps view env key w w' (Ok ()) Hw HR) as Hw'.
  destruct (sys_svcs _ Hw key s Hst) as [Hk _].
  destruct (ConstructRequest_allocate w s req a Hreq Ha) as [HK Hz].
  destruct (ConstructRequest_named w s annotations req a Hann Hreq Ha Hpool) as [Hae Hneed].
  apply (Reconcile_request view env key s req) in HR; [|done..].
  destruct (reconcile_request_done view s req a w w' Hw (svc_key_ok _ _ _ (sys_svcs _ Hw) Hst) Hreq Ha HR)
    as (w2 & clone & a' & Hck & Hcs & Hca & Hw2 & Hsv2 & (Hpe & Hne & e & He & Hl & Hr) & H).
  assert (srv_svcs (view w2) !! Svc_Key s = Some s) as Hst2 by (rewrite Hsv2; congruence).
  set (r' := set_Ingress (assigned_svc clone (Rec_Eip a')) _) in H.
  assert (Svc_Key r' = Svc_Key s ∧ Svc_Spec r' = Svc_Spec s ∧ Annotations (Svc_Meta r') = Annotations (Svc_Meta s) ∧
    mhas (Labels (Svc_Meta r')) constant.OpenELBEIPAnnotationKeyV1Alpha2 = true) as (Hr' & Hrs & Hra & Hrl).
  { unfold r', set_Ingress, assigned_svc, AddFinalizer. rewrite <- Hck, <- Hcs, <- Hca.
    destruct (ContainsString _ _); (split_and!; [done..|]); apply bool_decide_eq_true_2; eexists; apply lookup_insert_eq. }
  destruct (updateReconcileResult_ok view s r' w2 w' Hst2 Hr' H) as (He' & _ & Hs' & Hsome).
  destruct (Hsome (or_intror Hz)) as [s' Hx]. destruct (Hs' s' Hx) as (Hing & Hmeta & Hspec). specialize (Hspec Hrs).
  exists s'. split; [by rewrite <- Hk|]. intros Hip Hlist Hget. unfold LbController.Reconcile. rewrite Hget.
  assert (Annotations (Svc_Meta s') = Some annotations ∧ DeletionTimestamp (Svc_Meta s') = DeletionTimestamp (Svc_Meta s) ∧
    mhas (Labels (Svc_Meta s')) constant.OpenELBEIPAnnotationKeyV1Alpha2 = true) as (Han' & Hd' & Hlab').
  { rewrite Hmeta. destruct (decide _) as [Heq|]; [rewrite Heq; done|]. by rewrite <- Hann, <- Hra. }
  assert (svc_key s' = svc_key s) as Hkey'.
  { unfold svc_key. rewrite Hmeta. injection Hr' as Hr1 Hr2. destruct (decide _); [done|]. cbn. by rewrite Hr1, Hr2. }
  rewrite Han', <- Hann, Hnp.
  rewrite (ConstructRequest_none w' s' annotations (Rec_Eip a) (Rec_IP a')); [done|..].
  - done.
  - unfold needRelease in *. rewrite Hann in Hneed. by rewrite Han', Hd', Hspec.
  - rewrite Hkey', <- HK. destruct (ListEips w') as [items|?|] eqn:El; [|done..].
    eapply sys_allocated; eauto. by rewrite He'.
  - unfold status_lbip. by rewrite Hing.
  - done.
  - unfold asked_ip in *. rewrite Hspec. destruct Hip as [|Hip]; [by left|right]. rewrite Hing in Hip. by injection Hip.
  - left. by rewrite Hae.
  - done.
Qed.

(** ** Witnesses: two pools of one address bound to a namespace, one service *)
#[export] Instance pw_frame : ProxyFrame ProxyWorld pw_server.
Proof. by constructor; intros w x w' r [= <- _]. Qed.

Definition bound_pool (name addr : string) (priority : Z) : Eip :=
  {| Eip_Meta := Eip_Meta (mk_eip name addr);
     Eip_Spec := {| Address := addr; Protocol := "layer2"; Interface := "eth0"; Disable := false;
                    UsingKnownIPs := false; Priority := priority; Namespaces := ["ns"]; NamespaceSelector := None |};
     Eip_Status := Eip_Status zero_Eip |}.
Definition pool_a : Eip := bound_pool "a" "10.0.0.1" 0.
Definition pool_b : Eip := bound_pool "b" "10.0.1.1" 1.
Definition plain_service : Service :=
  {| Svc_Meta := {| Name := "s1"; Namespace := "ns"; Labels := None;
                    Annotations := Some {[constant.OpenELBAnnotationKey := "openelb"]};
                    Finalizers := []; DeletionTimestamp := None |};
     Svc_Spec := Svc_Spec (sample_service None ""); Svc_Ingress := None |}.
Definition on_server (v : Server) : ProxyWorld :=
  {| pw_server := v; pw_nodes := []; pw_workloads := ∅; pw_pods := [] |}.

Definition run0 : ProxyWorld := on_server {| srv_eips := ∅; srv_svcs := ∅; srv_nss := ∅ |}.
Definition run1 : ProxyWorld :=
  on_server {| srv_eips := ∅; srv_svcs := {[("ns", "s1") := plain_service]}; srv_nss := {["ns" := None]} |}.
Definition with_pools (m : gmap string Eip) : ProxyWorld := on_server (with_eips (pw_server run1) m).
Definition run2 : ProxyWorld := with_pools (<["a" := pool_a]> ∅).
Definition run3 : ProxyWorld := with_pools (<["b" := pool_b]> (<["a" := pool_a]> ∅)).
Abbreviation sync_pool := (@IpamController.Reconcile canonical_range ProxyWorld pw_client).
Definition run4 : ProxyWorld := (sync_pool run3 "a").1.
Definition run5 : ProxyWorld := (sync_pool run4 "b").1.
Definition run6 : ProxyWorld := (lb_reconcile run5).1.
Definition run7 : ProxyWorld := (lb_reconcile run6).1.
Definition run8 : ProxyWorld := (lb_reconcile run7).1.
Definition address_of (w : ProxyWorld) : option (option (list Ingress)) := Svc_Ingress <$> (srv_svcs (pw_server w) !! ("ns", "s1")).

Abbreviation demo_step := (@sys_step canonical_range insertion_sort go_cidr subset_labels ProxyWorld pw_client pw_proxy pw_server "").

Lemma single_sized e ip : ParseIP (Address (Eip_Spec e)) = ip → ip_ok ip → length (canon ip) = 4%nat →
  IPToBigInt ip + 1 <= 256 ^ 4 → well_sized e.
Proof.
  intros Hip Hok H4 Hle. assert (GetSize e = Ok (ip, 1)) as Hg.
  { unfold GetSize. rewrite Hip. destruct ip; [|done]. by destruct Hok as [_ [?|?]]. }
  split; [exists ip, 1; split; [done|]; split; [done|]; split; [done|]; by rewrite H4|].
  intros base size. rewrite Hg. intros [= <- <-]. by left.
Qed.

Lemma demo_pools : rtc demo_step run0 run5.
Proof.
  eapply rtc_l; [apply (st_user _ _ _ run1), us_services; [done|]|].
  { intros k s. cbn [pw_server run1 on_server srv_svcs]. intros [<- <-]%lookup_singleton_Some. done. }
  eapply rtc_l; [refine (st_user _ _ _ run2 (us_create (pw_server run1) pool_a [] _ _ _ _ _ _))|].
  { done. } { done. } { done. }
  { eapply (single_sized _ (ParseIP "10.0.0.1")); [done| |by vm_compute..].
    split; [by apply bytes_ok_eval|]. right. by vm_compute. }
  { unfold listing. vm_compute. reflexivity. }
  { by vm_compute. }
  eapply rtc_l; [refine (st_user _ _ _ run3 (us_create (pw_server run2) pool_b [pool_a] _ _ _ _ _ _))|].
  { done. } { done. } { done. }
  { eapply (single_sized _ (ParseIP "10.0.1.1")); [done| |by vm_compute..].
    split; [by apply bytes_ok_eval|]. right. by vm_compute. }
  { unfold listing. vm_compute. reflexivity. }
  { by vm_compute. }
  eapply rtc_l; [eapply (st_pool _ _ _ "a" run4); apply surjective_pairing|].
  apply rtc_once. eapply (st_pool _ _ _ "b" run5). apply surjective_pairing.
Qed.

Lemma demo_run : rtc demo_step run0 run6.
Proof. eapply rtc_r; [apply demo_pools|]. eapply (st_service _ _ _ ("ns", "s1") run6). apply surjective_pairing. Qed.

Lemma run0_svcs : svcs_ok (pw_server run0).
Proof. intros k s. cbn. by rewrite lookup_empty. Qed.


Definition full_a : Eip := default pool_a (srv_eips (pw_server run6) !! "a").

(** The same pools, and a service that names the first one. *)
Definition named_annotations : smap :=
  {[constant.OpenELBAnnotationKey := "openelb"; constant.OpenELBEIPAnnotationKeyV1Alpha2 := "a"]}.
Definition named_service : Service :=
  {| Svc_Meta := {| Name := "s1"; Namespace := "ns"; Labels := None; Annotations := Some named_annotations;
                    Finalizers := []; DeletionTimestamp := None |};
     Svc_Spec := Svc_Spec plain_service; Svc_Ingress := None |}.
Definition named0 : ProxyWorld :=
  on_server {| srv_eips := srv_eips (pw_server run5); srv_svcs := {[("ns", "s1") := named_service]};
               srv_nss := {["ns" := None]} |}.
Definition named1 : ProxyWorld := (lb_reconcile named0).1.
Definition named_settled : Service := default named_service (srv_svcs (pw_server named1) !! ("ns", "s1")).

Lemma named1_stored : srv_svcs (pw_server named1) !! ("ns", "s1") = Some named_settled.
Proof. vm_compute. reflexivity. Qed.

Lemma named0_ok : sys_ok (pw_server named0).
Proof.
  refine (@sys_run_ok canonical_range insertion_sort go_cidr subset_labels ProxyWorld pw_client pw_proxy pw_server
    pw_client_ok pw_frame "" run0 named0 eq_refl run0_svcs _).
  eapply rtc_r; [apply demo_pools|]. apply (st_user _ _ _ named0), us_services; [done|].
  intros k s. cbn [pw_server named0 on_server srv_svcs]. intros [<- <-]%lookup_singleton_Some. done.
Qed.

(** The first pool is full after the run. *)
Lemma system_invariant_witness : fresh full_a ∨
  ∃ base size, GetSize full_a = Ok (base, size) ∧ PoolSize (Eip_Status full_a) = size ∧
    Usage (Eip_Status full_a) = go_len (used_map (Eip_Status full_a)) ∧ 0 <= Usage (Eip_Status full_a) <= size ∧
    (Occupied (Eip_Status full_a) = true ↔ Usage (Eip_Status full_a) = size).
Proof.
  refine (proj2 (proj2 (@system_invariant canonical_range insertion_sort go_cidr subset_labels ProxyWorld pw_client
    pw_proxy pw_server pw_client_ok pw_frame "" run0 run6 eq_refl run0_svcs demo_run)) "a" full_a _).
  vm_compute. reflexivity.
Defined.

(** The service moves from the first pool to the second and back, one
    reconciliation after another. *)
Example service_flaps :
  address_of run6 = Some (Some [{| Ingress_IP := "10.0.0.1"; Ingress_Hostname := "" |}]) ∧
  address_of run7 = Some (Some [{| Ingress_IP := "10.0.1.1"; Ingress_Hostname := "" |}]) ∧
  address_of run8 = Some (Some [{| Ingress_IP := "10.0.0.1"; Ingress_Hostname := "" |}]).
Proof. split_and!; vm_compute; reflexivity. Qed.


Lemma reconcile_settles_witness : ∃ s', srv_svcs (pw_server named1) !! ("ns", "s1") = Some s' ∧
  Svc_Ingress s' = Some [{| Ingress_IP := "10.0.0.1"; Ingress_Hostname := "" |}] ∧
  lb_reconcile named1 = (named1, Ok ()).
Proof.
  refine (match @reconcile_settles canonical_range insertion_sort go_cidr subset_labels ProxyWorld pw_client pw_proxy
    pw_server pw_client_ok pw_frame "" ("ns", "s1") named_service named_annotations
    {| Req_Allocate := Some {| Key := "ns/s1"; Rec_Eip := "a"; Rec_IP := "" |}; Req_Release := None |}
    {| Key := "ns/s1"; Rec_Eip := "a"; Rec_IP := "" |} named0 named1 named0_ok _ _ _ _ _ _ _ with
    ex_intro _ s' (conj Hs H) => ex_intro _ s' (conj Hs (conj _ (H (or_introl _) _ _))) end).
  1-7: vm_compute; (reflexivity || discriminate).
  2-3: vm_compute; reflexivity.
  - rewrite (Some_inj _ _ (eq_trans (eq_sym Hs) named1_stored)). vm_compute. reflexivity.
  - rewrite (Some_inj _ _ (eq_trans (eq_sym Hs) named1_stored)). vm_compute. reflexivity.
Defined.
