(* ===== verification/Interleave.v ===== *)
(** * The reconcilers call by call on one API server

    [System] runs a reconciliation as one step.  Here the workers of the two
    controllers take turns after every call ([Calls]), with the users of the
    cluster in between, on an API server that keeps a version per object: a
    write that carries another version than the stored one is refused, and a
    write that changes an object gives it a new version.  A worker may stop
    after any call (its process goes away), and any call may fail.

    There are two modes.  [Direct]: a read sees the server as it is, and the
    controller of services has one worker, as [controller-runtime] starts it.
    [Cached]: a read sees any earlier state of the server, as through the cache
    of the manager's client, and there are any number of workers of both
    kinds.  The admission webhook sees the pools of the server in both modes.

    In both modes every pool counts exactly and no address is recorded by two
    pools; in the first mode also no service is recorded twice.  In the second
    mode a service can be recorded by two pools. *)
From S2P Require Import Prelude GoNet Cnet Iprange K8s EipTypes Kube Ipam IpamController NodeProxy LbController System Calls.
Local Open Scope Z_scope.

(** ** The server with versions *)
Record VServer := {
  srv : Server;
  eip_ver : gmap string N;
  svc_ver : gmap (string * string) N;
  rev : N;  (* the next version *)
}.

(** The versions after a change: an object that changed, or is new, gets the
    version [r]. *)
Definition restamp {K A} `{Countable K} `{EqDecision A} (old new : gmap K A) (vers : gmap K N) (r : N) : gmap K N :=
  map_imap (λ k a, if decide (old !! k = Some a) then vers !! k else Some r) new.

Definition commit (s : VServer) (v : Server) : VServer :=
  {| srv := v;
     eip_ver := restamp (srv_eips (srv s)) (srv_eips v) (eip_ver s) (rev s);
     svc_ver := restamp (srv_svcs (srv s)) (srv_svcs v) (svc_ver s) (rev s);
     rev := (rev s + 1)%N |}.

(** ** One call *)

(** An object with its version, as a read returns it. *)
Definition look {K A} `{Countable K} (objs : gmap K A) (vers : gmap K N) (k : K) : Result (versioned A) :=
  match objs !! k, vers !! k with
  | Some a, Some x => Ok (At x a)
  | _, _ => Err (ErrNotFound "not found")
  end.

(** What a read returns from the state [p]; a list comes in any order. *)
Definition answers (p : VServer) (c : call) : Result (answer c) → Prop :=
  match c return Result (answer c) → Prop with
  | CGetEip n => λ r, r = look (srv_eips (srv p)) (eip_ver p) n
  | CListEips => λ r, ∃ l, r = Ok l ∧ listing (srv_eips (srv p)) l
  | CGetNamespaceLabels n => λ r, r = store_get (srv_nss (srv p)) n
  | CGetService k => λ r, r = look (srv_svcs (srv p)) (svc_ver p) k
  | CListServices sel => λ r, ∃ l, r = Ok l ∧
      Forall (λ s, look (srv_svcs (srv p)) (svc_ver p) (Svc_Key (object s)) = Ok s) l ∧
      object <$> l ≡ₚ List.filter (svc_selected sel) (map_to_list (srv_svcs (srv p))).*2
  | _ => λ _, False
  end.

(** A write of an object read at version [x]: refused unless that is still the
    version of the object called [n]. *)
Definition stamp {K A} `{Countable K} (s : VServer) (vers : VServer → gmap K N) (n : K) (x : N)
    (written : option (Server * A)) : option (VServer * versioned A) :=
  if decide (vers s !! n = Some x) then
    '(v, a) ← written;
    let s' := commit s v in
    Some (s', At (default (rev s) (vers s' !! n)) a)
  else None.

Definition write_effect (s : VServer) (c : call) : option (VServer * answer c) :=
  match c return option (VServer * answer c) with
  | CUpdateEip e => stamp s eip_ver (Eip_Name (object e)) (version e) (srv_update_eip (srv s) (object e))
  | CStatusUpdateEip e => stamp s eip_ver (Eip_Name (object e)) (version e) (srv_status_eip (srv s) (object e))
  | CUpdateService x => stamp s svc_ver (Svc_Key (object x)) (version x) (srv_update_svc (srv s) (object x))
  | CStatusUpdateService x => stamp s svc_ver (Svc_Key (object x)) (version x) (srv_status_svc (srv s) (object x))
  | _ => None
  end.

Definition is_write (c : call) : bool :=
  match c with
  | CUpdateEip _ | CStatusUpdateEip _ | CUpdateService _ | CStatusUpdateService _ => true
  | _ => false
  end.
Definition is_proxy (c : call) : bool := match c with CNodeProxy _ => true | _ => false end.

(** A call in state [s], when reads may see the states [snap].  A read returns
    what it sees, a write has its effect; the answer to a write may be lost; a
    call may fail without effect, and then only a write may say that the
    object is not there when it is.  The part for node-proxy services writes no
    pool. *)
Inductive call_step (snap : VServer → Prop) (s : VServer) (c : call) : Result (answer c) → VServer → Prop :=
| cs_read p r : snap p → answers p c r → call_step snap s c r s
| cs_write a s' : write_effect s c = Some (s', a) → call_step snap s c (Ok a) s'
| cs_lost a s' e : write_effect s c = Some (s', a) → call_step snap s c (Err e) s'
| cs_fail e : IsNotFound e = false ∨ is_write c = true → call_step snap s c (Err e) s
| cs_proxy v r : is_proxy c = true → srv_eips v = srv_eips (srv s) → svcs_ok v → call_step snap s c r (commit s v).

(** ** Workers *)
Inductive mode := Direct | Cached.
#[export] Instance mode_eq_dec : EqDecision mode.
Proof. solve_decision. Defined.

Record Conf := {
  now : VServer;
  past : list VServer;        (* the earlier states *)
  services : list (prog ());  (* the workers of the controller of services *)
  pools : list (prog ());     (* the workers of the controller of pools *)
}.

Definition visible (m : mode) (C : Conf) (p : VServer) : Prop :=
  p = now C ∨ (m = Cached ∧ p ∈ past C).

Section steps.
Context {R : GoRange} {GS : GoSort} {L : CidrLib} {LL : LabelLib}.

Inductive conf_step (m : mode) (C : Conf) : Conf → Prop :=
| step_start_service key : (m = Direct → services C = []) →
    conf_step m C {| now := now C; past := past C; services := service_Reconcile_calls key :: services C; pools := pools C |}
| step_start_pool name :
    conf_step m C {| now := now C; past := past C; services := services C; pools := pool_Reconcile_calls name :: pools C |}
| step_service ps qs c k r s' : services C = ps ++ Ask c k :: qs → call_step (visible m C) (now C) c r s' →
    conf_step m C {| now := s'; past := now C :: past C; services := ps ++ k r :: qs; pools := pools C |}
| step_pool ps qs c k r s' : pools C = ps ++ Ask c k :: qs → call_step (visible m C) (now C) c r s' →
    conf_step m C {| now := s'; past := now C :: past C; services := services C; pools := ps ++ k r :: qs |}
| step_end_service ps p qs : services C = ps ++ p :: qs →
    conf_step m C {| now := now C; past := past C; services := ps ++ qs; pools := pools C |}
| step_end_pool ps p qs : pools C = ps ++ p :: qs →
    conf_step m C {| now := now C; past := past C; services := services C; pools := ps ++ qs |}
| step_user v : user_step (srv (now C)) v →
    conf_step m C {| now := commit (now C) v; past := now C :: past C; services := services C; pools := pools C |}.
End steps.

(** A cluster without pools, before any worker starts. *)
Definition initial (C : Conf) : Prop :=
  srv_eips (srv (now C)) = ∅ ∧ eip_ver (now C) = ∅ ∧ svcs_ok (srv (now C)) ∧
  past C = [] ∧ services C = [] ∧ pools C = [].

(** ** Versions *)

(** Every pool has a version, and none is from the future. *)
Definition stamped (s : VServer) : Prop :=
  (∀ n x, eip_ver s !! n = Some x → (x < rev s)%N) ∧
  (∀ n, is_Some (srv_eips (srv s) !! n) → is_Some (eip_ver s !! n)).

(** [s'] is later than [s]: a pool that still has a version of the time of [s]
    is the pool of [s]. *)
Definition follows (s s' : VServer) : Prop :=
  (rev s <= rev s')%N ∧
  ∀ n x, eip_ver s' !! n = Some x → (x < rev s)%N →
    eip_ver s !! n = Some x ∧ srv_eips (srv s') !! n = srv_eips (srv s) !! n.

#[export] Instance follows_preorder : PreOrder follows.
Proof.
  split; [by intros s; split|]. intros s1 s2 s3 [R1 F1] [R2 F2]. split; [lia|]. intros n x Hx Hlt.
  destruct (F2 n x Hx) as [H2 E2]; [lia|]. destruct (F1 n x H2 Hlt) as [H1 E1]. split; [done|]. by rewrite E2.
Qed.

Lemma restamp_Some {K A} `{Countable K} `{EqDecision A} (old new : gmap K A) vers r k x :
  restamp old new vers r !! k = Some x → (new !! k = old !! k ∧ vers !! k = Some x) ∨ x = r.
Proof.
  unfold restamp. rewrite map_lookup_imap. destruct (new !! k) as [a|]; [|done]. cbn.
  case_decide as E; [|intros [= <-]; by right]. intros Hx. left. by rewrite E.
Qed.

Lemma commit_follows s v : stamped s → stamped (commit s v) ∧ follows s (commit s v).
Proof.
  intros [Hs Hd]. split; [split|].
  - intros n x [[_ Hx]| ->]%restamp_Some; cbn; [|lia]. specialize (Hs n x Hx). lia.
  - intros n [e He]. cbn in *. unfold restamp. rewrite map_lookup_imap, He. cbn. case_decide; [apply Hd|]; eauto.
  - split; [cbn; lia|]. intros n x [[He Hx]| ->]%restamp_Some; [done|lia].
Qed.

Lemma stamp_Some {K A} `{Countable K} s (vers : VServer → gmap K N) n x (w : option (Server * A)) s' a :
  stamp s vers n x w = Some (s', a) →
  vers s !! n = Some x ∧ ∃ v, w = Some (v, object a) ∧ s' = commit s v ∧ version a = default (rev s) (vers s' !! n).
Proof.
  unfold stamp. case_decide as E; [|done]. destruct w as [[v b]|]; [|done]. cbn. intros [= <- <-]. split; [done|]. by exists v.
Qed.

(** Every call moves to a later state. *)
Lemma write_commits s c s' a : write_effect s c = Some (s', a) → ∃ v, s' = commit s v.
Proof. destruct c; cbn; try done; by intros (_ & v & _ & -> & _)%stamp_Some; exists v. Qed.

Lemma call_follows snap s c r s' : stamped s → call_step snap s c r s' → stamped s' ∧ follows s s'.
Proof.
  intros Hs [p x _ _|a s1 Hw|a s1 e Hw|e _|v x _ _ _]; [done| | |done|by apply commit_follows];
    apply write_commits in Hw as [v ->]; by apply commit_follows.
Qed.

(** The pool [e] was read at version [x]: it is the stored one as long as that
    is the stored version. *)
Definition seen (s : VServer) (n : string) (x : N) (e : Eip) : Prop :=
  (x < rev s)%N ∧ (eip_ver s !! n = Some x → srv_eips (srv s) !! n = Some e).

Lemma seen_follows s s' n x e : seen s n x e → follows s s' → seen s' n x e.
Proof.
  intros [Hx Hs] [Hr Hf]. split; [lia|]. intros Hv. destruct (Hf n x Hv Hx) as [H1 ->]. by apply Hs.
Qed.

Lemma look_seen s n r : stamped s → look (srv_eips (srv s)) (eip_ver s) n = Ok r →
  srv_eips (srv s) !! n = Some (object r) ∧ seen s n (version r) (object r).
Proof.
  intros [Hs _]. unfold look. destruct (srv_eips (srv s) !! n) as [e|] eqn:He; [|done].
  destruct (eip_ver s !! n) as [x|] eqn:Hx; [|done]. intros [= <-]. split; [done|]. split; [by eapply Hs|done].
Qed.

(** ** The invariants *)

(** A pool that counts exactly; a service may be recorded twice. *)
Definition counted (e : Eip) : Prop := ∃ base size, pool_ok base size ∧ GetSize e = Ok (base, size) ∧
  (fresh e ∨ eip_ok (canon base) size e).

Record weak_ok (v : Server) : Prop := {
  weak_pools : ∀ n e, srv_eips v !! n = Some e → counted e;
  weak_family : ∀ n e, srv_eips v !! n = Some e → one_family e;
  weak_cluster : cluster_ok (srv_eips v);
  weak_names : ∀ n e, srv_eips v !! n = Some e → n ≠ "";
  weak_svcs : svcs_ok v;
}.

Definition inv (m : mode) (v : Server) : Prop := match m with Direct => sys_ok v | Cached => weak_ok v end.

Lemma sized_counted e : sized e → counted e.
Proof. intros (base & size & Hp & Hg & [Hf|[Hok _]]); exists base, size; eauto. Qed.

Lemma inv_weak m v : inv m v → weak_ok v.
Proof.
  destruct m; [|done]. intros [H1 H2 H3 H4 H5 H6]. constructor; [|done..]. intros n e He. by eapply sized_counted, H1.
Qed.

Lemma weak_insert v n e' : weak_ok v → cluster_ok (<[n := e']> (srv_eips v)) → n ≠ "" → counted e' → one_family e' →
  weak_ok (with_eips v (<[n := e']> (srv_eips v))).
Proof.
  intros Hv Hc Hne Hsz Hfam. constructor; cbn [srv_eips srv_svcs with_eips];
    [| |done| |exact (weak_svcs _ Hv)]; intros k x [[<- <-]|[_ Hx]]%lookup_insert_Some;
    eauto using weak_pools, weak_family, weak_names.
Qed.

Lemma weak_replace v e e' : weak_ok v → srv_eips v !! Eip_Name e = Some e → same_pool e e' → counted e' →
  weak_ok (with_eips v (<[Eip_Name e := e']> (srv_eips v))).
Proof.
  intros Hv He (Hn & Han & Hsp & Hlv) Hsz. pose proof (weak_cluster _ Hv) as Hc.
  apply weak_insert; [done| |by eapply weak_names|done|].
  - rewrite <- Hn. apply cluster_ok_insert; [done| | | |]; rewrite ?Hn.
    + rewrite (GetSize_address e' e) by congruence. by eapply (ok_size _ Hc).
    + unfold needs_interface. rewrite Hsp. by eapply (ok_interface _ Hc).
    + intros n x ip Hx Hne C1 C2. rewrite (Contains_address e' e) in C1 by congruence.
      by apply (ok_disjoint _ Hc _ _ _ _ ip He Hx).
    + unfold is_default_pool. rewrite Han. intros Hd n x Hx Hne Hdx. by apply Hne, (ok_default _ Hc _ _ _ _ Hx He).
  - intros base size. rewrite (GetSize_address e' e) by congruence. by eapply weak_family.
Qed.

Lemma weak_delete v n : weak_ok v → weak_ok (with_eips v (delete n (srv_eips v))).
Proof.
  intros Hv. pose proof (weak_cluster _ Hv) as Hc. constructor; cbn [srv_eips srv_svcs with_eips]; [| | | |exact (weak_svcs _ Hv)].
  - intros k x [_ Hx]%lookup_delete_Some. by eapply weak_pools.
  - intros k x [_ Hx]%lookup_delete_Some. by eapply weak_family.
  - constructor; intros *; rewrite !lookup_delete_Some; intros [? ?]; eauto using ok_name, ok_size, ok_interface;
      intros [? ?]; eauto using ok_disjoint, ok_default.
  - intros k x [_ Hx]%lookup_delete_Some. by eapply weak_names.
Qed.

Lemma counted_object e e' : counted e → Address (Eip_Spec e') = Address (Eip_Spec e) → Eip_Status e' = Eip_Status e →
  counted e'.
Proof.
  intros (base & size & Hp & Hg & Hcase) Ha Hst. exists base, size. split; [done|].
  rewrite (GetSize_address e' e) by done. split; [done|]. destruct Hcase as [Hf|[Hfit Hs Hsz]].
  - left. unfold fresh in *. congruence.
  - right. constructor; [done|by rewrite Hst|]. by rewrite (GetSize_address e' e).
Qed.

Lemma weak_user v v' : weak_ok v → user_step v v' → weak_ok v'.
Proof.
  intros Hv [e items Hn Hne Hf [(base & size & Hg & Hp) Hfam] Hl Hval|e old e' v1 items Hold Hu Hl Hval
            |e t He Hlive Ht _|v1 He Hs].
  - apply weak_insert; [done| |done|exists base, size; auto|done].
    apply (cluster_step_ok (srv_eips v)); [apply Hv|by eapply step_create].
  - apply srv_update_eip_spec in Hu as (old' & Hold' & Hx & ->). rewrite Hold in Hold'. injection Hold' as <-.
    destruct (is_gone (Eip_Meta e')); [by apply weak_delete|].
    assert (Eip_Name e' = Eip_Name e) as Hn by (by rewrite Hx).
    pose proof (ValidateUpdate_address _ _ _ Hval) as Ha.
    apply weak_insert; [done| |by eapply weak_names| |].
    + rewrite <- Hn. apply (cluster_step_ok (srv_eips v)); [apply Hv|]. eapply step_update; [by rewrite Hn|done..].
    + eapply counted_object; [by eapply weak_pools|done|by rewrite Hx].
    + intros base size. rewrite (GetSize_address e' old) by done. by eapply weak_family.
  - case_decide; [by apply weak_delete|]. apply weak_replace; [done|done|by split_and!|].
    eapply counted_object; [by eapply weak_pools|done..].
  - destruct Hv as [H1 H2 H3 H4 H5]. constructor; rewrite ?He; done.
Qed.

(** What the two invariants have in common. *)
Section both.
Context (m : mode).

Lemma inv_svcs v v' : inv m v → srv_eips v' = srv_eips v → svcs_ok v' → inv m v'.
Proof.
  destruct m; cbn; [apply sys_ok_svcs|]. intros [H1 H2 H3 H4 H5] He Hs. constructor; rewrite ?He; done.
Qed.

Lemma inv_delete v n : inv m v → inv m (with_eips v (delete n (srv_eips v))).
Proof. destruct m; [apply sys_ok_delete|apply weak_delete]. Qed.

Lemma inv_user v v' : inv m v → user_step v v' → inv m v'.
Proof. destruct m; [apply user_step_ok|apply weak_user]. Qed.

(** A new status of a stored pool: exact if the old one is; in [Direct] mode
    also with the records of the old one, or one more of a service that is
    recorded nowhere. *)
Definition restates (v : Server) (e e' : Eip) : Prop :=
  Eip_Meta e' = Eip_Meta e ∧ Eip_Spec e' = Eip_Spec e ∧ (counted e → counted e') ∧
  (m = Direct → (sized e → sized e') ∧
    (sized e → live e → ∃ new, (∀ key, new = Some key → unrecorded v key.1) ∧
       ∀ a key, records e' a key → records e a key ∨ new = Some (key, a))).

Lemma inv_status v e e' : inv m v → srv_eips v !! Eip_Name e = Some e → restates v e e' →
  inv m (with_eips v (<[Eip_Name e := e']> (srv_eips v))).
Proof.
  intros Hv He (Hm & Hsp & Hc & Hd). assert (same_pool e e') as Hsame by (unfold same_pool, Eip_Name, live; by rewrite Hm, Hsp).
  revert Hv Hd. destruct m; intros Hv Hd; cbn in *.
  - destruct (Hd eq_refl) as [Hs Hrec]. pose proof (sys_pools _ Hv _ _ He) as Hsz.
    apply sys_ok_replace; eauto.
  - apply weak_replace; [done..|]. by eapply Hc, weak_pools.
Qed.
End both.

(** ** Workers that interfere *)

(** No live pool records anything new. *)
Definition no_new (v v' : Server) : Prop := ∀ n e' a key, srv_eips v' !! n = Some e' → live e' → records e' a key →
  ∃ e, srv_eips v !! n = Some e ∧ live e ∧ records e a key.

#[export] Instance no_new_preorder : PreOrder no_new.
Proof.
  split; [intros v n e a key He Hl Hr; eauto|]. intros v1 v2 v3 H12 H23 n e a key He Hl Hr.
  destruct (H23 n e a key He Hl Hr) as (e2 & ? & ? & ?). by eapply H12.
Qed.

Lemma no_new_eips v v' : srv_eips v' = srv_eips v → no_new v v'.
Proof. intros He n e a key Hn. rewrite He in Hn. eauto. Qed.

Lemma unrecorded_no_new v v' key : unrecorded v key → no_new v v' → unrecorded v' key.
Proof. intros Hu Hn n e a He Hl Hr. destruct (Hn n e a key He Hl Hr) as (e0 & H0 & H1 & H2). by apply (Hu n e0 a). Qed.

Lemma recorded_no_new v v' key pool : recorded_at v key pool → no_new v v' → recorded_at v' key pool.
Proof. intros Hu Hn n e a He Hl Hr. destruct (Hn n e a key He Hl Hr) as (e0 & H0 & H1 & H2). by apply (Hu n e0 a). Qed.

Lemma user_no_new v v' : user_step v v' → no_new v v'.
Proof.
  intros [e items Hn Hne Hf _ _ _|e old e' v1 items Hold Hu _ _|e t He Hlive Ht _|v1 He Hs]; [| | |by apply no_new_eips];
    intros n x a key; cbn [srv_eips with_eips].
  - intros [[<- <-]|[_ Hx]]%lookup_insert_Some; [|eauto]. unfold records, holders. rewrite Hf. by intros _ ?%not_elem_of_nil.
  - apply srv_update_eip_spec in Hu as (old' & Hold' & Hx & ->). rewrite Hold in Hold'. injection Hold' as <-.
    cbn [srv_eips with_eips]. destruct (is_gone _); [intros [_ ?]%lookup_delete_Some; eauto|].
    intros [[<- <-]|[_ ?]]%lookup_insert_Some; [|eauto]. rewrite Hx. exists old. done.
  - case_decide; [intros [_ ?]%lookup_delete_Some; eauto|]. intros [[<- <-]|[_ ?]]%lookup_insert_Some; [|eauto]. exists e. done.
Qed.

(** What the other workers and the users may do between two calls of a worker
    of services. *)
Definition rely (m : mode) (s s' : VServer) : Prop := follows s s' ∧ (m = Direct → no_new (srv s) (srv s')).
#[export] Instance rely_preorder m : PreOrder (rely m).
Proof.
  split; [by intros s; split|]. intros s1 s2 s3 [F1 N1] [F2 N2]. split; [by etrans|].
  intros Hm. etrans; [by apply N1|by apply N2].
Qed.

(** The states a read may see in [s]. *)
Definition snap (m : mode) (s p : VServer) : Prop :=
  stamped p ∧ inv m (srv p) ∧ follows p s ∧ (m = Direct → p = s).

(** What the others may do between two calls of a worker: at least move to a
    later state that has the same pools. *)
Class Rely (rl : VServer → VServer → Prop) : Prop := {
  Rely_preorder :: PreOrder rl;
  Rely_follows s s' : rl s s' → follows s s';
  Rely_same s s' : follows s s' → srv_eips (srv s') = srv_eips (srv s) → rl s s';
}.
#[export] Instance follows_Rely : Rely follows.
Proof. split; [apply _|done..]. Qed.
#[export] Instance rely_Rely m : Rely (rely m).
Proof. split; [apply _|by intros s s' []|]. intros s s' Hf He. split; [done|]. intros _. by apply no_new_eips. Qed.

(** The program [p] can go on from [s], whatever the others do before each of
    its calls, within [rl]: every call keeps the invariant and the promise [g],
    and the result satisfies [Q]. *)
Fixpoint safe {A} (m : mode) (rl g : VServer → VServer → Prop) (p : prog A) (Q : Result A → VServer → Prop)
    (s : VServer) : Prop :=
  match p with
  | Done r => Q r s
  | Ask c k => ∀ s1, rl s s1 → stamped s1 → inv m (srv s1) →
      ∀ r s2, call_step (snap m s1) s1 c r s2 → inv m (srv s2) ∧ g s1 s2 ∧ safe m rl g (k r) Q s2
  end.

(** ** Rules for programs *)
Section rules.
Context (m : mode) {rl : VServer → VServer → Prop} {RL : Rely rl} (g : VServer → VServer → Prop).
Context (Hg : ∀ s s', srv_eips (srv s') = srv_eips (srv s) → g s s').

Lemma safe_mono {A} (p : prog A) (P Q : Result A → VServer → Prop) s :
  (∀ r s', P r s' → Q r s') → safe m rl g p P s → safe m rl g p Q s.
Proof.
  intros HPQ. revert s. induction p as [r|c k IH]; intros s; cbn [safe]; [apply HPQ|].
  intros H s1 H1 H2 H3 r s2 Hc. destruct (H s1 H1 H2 H3 r s2 Hc) as (? & ? & ?). eauto.
Qed.

Lemma safe_bind {A B} (p : prog A) (f : A → prog B) Q s :
  safe m rl g p (λ r s', match r with Ok a => safe m rl g (f a) Q s' | Err e => Q (Err e) s' | Panic => Q Panic s' end) s →
  safe m rl g (p ≫= f) Q s.
Proof.
  revert s. induction p as [[a|e|]|c k IH]; intros s; [done..|]. intros H s1 H1 H2 H3 r s2 Hc.
  destruct (H s1 H1 H2 H3 r s2 Hc) as (? & ? & ?). split_and!; [done..|]. by apply IH.
Qed.

Lemma safe_attempt {A} (p : prog A) Q s :
  safe m rl g p (λ r s', match r with Panic => Q Panic s' | r => Q (Ok r) s' end) s → safe m rl g (attempt p) Q s.
Proof.
  revert s. induction p as [[a|e|]|c k IH]; intros s; [done..|]. intros H s1 H1 H2 H3 r s2 Hc.
  destruct (H s1 H1 H2 H3 r s2 Hc) as (? & ? & ?). split_and!; [done..|]. by apply IH.
Qed.

(** A worker stays safe when the others move on. *)
Lemma safe_rely {A} (p : prog A) s s' : safe m rl g p (λ _ _, True) s → rl s s' → safe m rl g p (λ _ _, True) s'.
Proof. destruct p as [r|c k]; [done|]. intros H Hr s1 H1. apply H. by etrans. Qed.

(** Calls that write no pool. *)
Definition plain (c : call) : bool := match c with CUpdateEip _ | CStatusUpdateEip _ => false | _ => true end.

Lemma update_svc_eips v x v' x' : svcs_ok v → srv_update_svc v x = Some (v', x') → srv_eips v' = srv_eips v ∧ svcs_ok v'.
Proof.
  intros Hs. unfold srv_update_svc. destruct (srv_svcs v !! Svc_Key x) as [old|] eqn:E; [|done].
  cbn [mbind option_bind]. intros [= <- <-]. split; [done|]. intros k y. cbn [srv_svcs with_svcs]. destruct (is_gone _).
  - intros [_ Hx]%lookup_delete_Some. by apply Hs.
  - intros [[<- <-]|[_ Hx]]%lookup_insert_Some; [|by apply Hs]. split; [done|]. by apply (Hs _ old).
Qed.

Lemma status_svc_eips v x v' x' : svcs_ok v → srv_status_svc v x = Some (v', x') → srv_eips v' = srv_eips v ∧ svcs_ok v'.
Proof.
  intros Hs. unfold srv_status_svc. destruct (srv_svcs v !! Svc_Key x) as [old|] eqn:E; [|done].
  cbn [mbind option_bind]. intros [= <- <-]. split; [done|]. intros k y. cbn [srv_svcs with_svcs].
  intros [[<- <-]|[_ Hx]]%lookup_insert_Some; [|by apply Hs]. by apply (Hs _ old).
Qed.

Lemma plain_effect s c s' a : plain c = true → svcs_ok (srv s) → write_effect s c = Some (s', a) →
  srv_eips (srv s') = srv_eips (srv s) ∧ svcs_ok (srv s').
Proof.
  intros Hp Hs. destruct c; try done; cbn [write_effect]; intros (_ & v & Hw & -> & _)%stamp_Some;
    [by eapply update_svc_eips|by eapply status_svc_eips].
Qed.

Lemma plain_step sn s c r s' : plain c = true → inv m (srv s) → call_step sn s c r s' →
  inv m (srv s') ∧ srv_eips (srv s') = srv_eips (srv s).
Proof.
  intros Hp Hi. pose proof (weak_svcs _ (inv_weak _ _ Hi)) as Hs.
  intros [p x _ _|a s1 Hw|a s1 e Hw|e _|v x _ He Hv]; [done| | |done|split; [by apply (inv_svcs m (srv s))|done]];
    destruct (plain_effect s c s1 a Hp Hs Hw); (split; [by apply (inv_svcs m (srv s))|done]).
Qed.

Lemma safe_plain {A} c (k : Result (answer c) → prog A) Q s : plain c = true →
  (∀ s1 r s2, rl s s1 → stamped s1 → inv m (srv s1) → call_step (snap m s1) s1 c r s2 →
     rl s s2 → safe m rl g (k r) Q s2) → safe m rl g (Ask c k) Q s.
Proof.
  intros Hp H s1 H1 H2 H3 r s2 Hc. destruct (plain_step _ s1 c r s2 Hp H3 Hc) as [Hi He].
  split_and!; [done|by apply Hg|]. eapply (H s1); try done. destruct (call_follows _ s1 c r s2 H2 Hc). etrans; [done|]. by apply Rely_same.
Qed.

(** Programs that write no pool, with a result that does not depend on the
    state of the server. *)
Fixpoint returns {A} (p : prog A) (Q : Result A → Prop) : Prop :=
  match p with Done r => Q r | Ask c k => plain c = true ∧ ∀ r, returns (k r) Q end.

Lemma returns_mono {A} (p : prog A) (P Q : Result A → Prop) : (∀ r, P r → Q r) → returns p P → returns p Q.
Proof. intros HPQ. induction p as [r|c k IH]; cbn; [apply HPQ|]. intros [? H]. eauto. Qed.

Lemma returns_bind {A B} (p : prog A) (f : A → prog B) Q :
  returns p (λ r, match r with Ok a => returns (f a) Q | Err e => Q (Err e) | Panic => Q Panic end) →
  returns (p ≫= f) Q.
Proof. induction p as [[a|e|]|c k IH]; [done..|]. intros [? H]. split; [done|]. intros r. by apply IH. Qed.

Lemma returns_attempt {A} (p : prog A) Q :
  returns p (λ r, match r with Panic => Q Panic | r => Q (Ok r) end) → returns (attempt p) Q.
Proof. induction p as [[a|e|]|c k IH]; [done..|]. intros [? H]. split; [done|]. intros r. by apply IH. Qed.

Lemma returns_True {A} (p : prog A) (Q : Result A → Prop) : returns p (λ _, True) → (∀ r, Q r) → returns p Q.
Proof. intros H HQ. by eapply returns_mono. Qed.

Lemma safe_returns {A} (p : prog A) (Q : Result A → Prop) s0 s : returns p Q → rl s0 s →
  safe m rl g p (λ r s', Q r ∧ rl s0 s') s.
Proof.
  revert s. induction p as [r|c k IH]; intros s; [done|]. intros [Hp H] Hs. apply safe_plain; [done|].
  intros s1 r s2 _ _ _ _ H2. apply IH; [done|]. by etrans.
Qed.

(** A new status for a pool that was read. *)
Lemma status_effect s x e e' s' a : inv m (srv s) → seen s (Eip_Name e) x e → Eip_Meta e' = Eip_Meta e →
  Eip_Spec e' = Eip_Spec e → write_effect s (CStatusUpdateEip (At x e')) = Some (s', a) →
  srv_eips (srv s) !! Eip_Name e = Some e ∧ srv s' = with_eips (srv s) (<[Eip_Name e := e']> (srv_eips (srv s))).
Proof.
  intros Hi [_ Hs] Hmeta Hspec (Hv & v & Hst & -> & _)%stamp_Some. cbn [object version] in *.
  assert (Eip_Name e' = Eip_Name e) as Hn by (unfold Eip_Name; by rewrite Hmeta).
  apply srv_status_eip_spec in Hst as (old & Hold & Heq & ->). rewrite Hn in *. pose proof (Hs Hv) as He.
  rewrite He in Hold. injection Hold as <-. split; [done|]. cbn [srv commit].
  assert (object a = e') as -> by (rewrite Heq, <- Hmeta, <- Hspec; by destruct e'). done.
Qed.

Lemma safe_status {A} x e e' (k : Result (versioned Eip) → prog A) Q s :
  seen s (Eip_Name e) x e → Eip_Meta e' = Eip_Meta e → Eip_Spec e' = Eip_Spec e →
  (∀ s1, rl s s1 → inv m (srv s1) → srv_eips (srv s1) !! Eip_Name e = Some e →
     restates m (srv s1) e e' ∧
     ∀ s2, srv s2 = with_eips (srv s1) (<[Eip_Name e := e']> (srv_eips (srv s1))) →
       g s1 s2 ∧ ∀ r, safe m rl g (k r) Q s2) →
  (∀ s1 err, rl s s1 → safe m rl g (k (Err err)) Q s1) →
  safe m rl g (Ask (CStatusUpdateEip (At x e')) k) Q s.
Proof.
  intros Hseen Hmeta Hspec Hw Hfail s1 H1 H2 H3 r s2 Hc.
  assert (∀ s' a, write_effect s1 (CStatusUpdateEip (At x e')) = Some (s', a) →
    inv m (srv s') ∧ g s1 s' ∧ ∀ r, safe m rl g (k r) Q s') as Hwrite.
  { intros s' a Hwr. pose proof (seen_follows _ _ _ _ _ Hseen (Rely_follows _ _ H1)) as Hs1.
    destruct (status_effect s1 x e e' s' a H3 Hs1 Hmeta Hspec Hwr) as [He Hs']. destruct (Hw s1 H1 H3 He) as [Hr Hs2].
    destruct (Hs2 s' Hs') as [? ?]. split_and!; [|done..]. rewrite Hs'. by apply inv_status. }
  inversion Hc as [p ? ? Hans|a ? Hwr|a ? err Hwr|err|]; subst; [done| | | |done].
  - destruct (Hwrite _ _ Hwr) as (? & ? & ?). by split_and!.
  - destruct (Hwrite _ _ Hwr) as (? & ? & ?). by split_and!.
  - split_and!; [done|by apply Hg|by apply Hfail].
Qed.

(** New metadata for a pool that was read: it keeps its records, or goes. *)
Lemma inv_meta v e x : inv m v → srv_eips v !! Eip_Name e = Some e → same_pool e x → Eip_Status x = Eip_Status e →
  inv m (with_eips v (<[Eip_Name e := x]> (srv_eips v))).
Proof.
  intros Hi He Hsame Hstat. assert (Eip_Spec x = Eip_Spec e) as Hspec by apply Hsame.
  revert Hi. destruct m; cbn; intros Hi.
  - apply sys_ok_replace; [done..| |].
    + destruct (sys_pools _ Hi _ _ He) as (base & size & Hp & Hpi). exists base, size. split; [done|].
      apply (pool_step_inv (R := canonical_range) (λ v : Server, v) base size e); [done| |done].
      apply ps_object; [by rewrite Hspec|done].
    + intros _. exists None. split; [done|]. intros b key. unfold records. rewrite Hstat. by left.
  - apply weak_replace; [done..|]. eapply counted_object; [by eapply weak_pools|by rewrite Hspec|done].
Qed.

Lemma meta_effect s x e meta s' a : stamped s → inv m (srv s) → seen s (Eip_Name e) x e → Name meta = Eip_Name e →
  Annotations meta = Annotations (Eip_Meta e) → write_effect s (CUpdateEip (At x (set_EipMeta e meta))) = Some (s', a) →
  inv m (srv s') ∧ no_new (srv s) (srv s') ∧ Eip_Name (object a) = Eip_Name e ∧ counted (object a) ∧
  seen s' (Eip_Name e) (version a) (object a).
Proof.
  intros Hs0 Hi [_ Hs] Hname Hann (Hv & v & Hst & -> & Hver)%stamp_Some. cbn [object version] in *.
  assert (Eip_Name (set_EipMeta e meta) = Eip_Name e) as Hn by exact Hname. rewrite Hn in *.
  destruct (commit_follows s v Hs0) as [Hstamp _].
  apply srv_update_eip_spec in Hst as (old & Hold & Heq & ->). rewrite Hn in *. pose proof (Hs Hv) as He.
  rewrite He in Hold. injection Hold as <-.
  assert (same_pool e (object a)) as Hsame by (rewrite Heq; by split_and!).
  assert (Eip_Status (object a) = Eip_Status e) as Hstat by (by rewrite Heq).
  split_and!; [| |by rewrite Heq| |].
  - cbn [srv commit]. destruct (is_gone _); [by apply inv_delete|by apply inv_meta].
  - intros n y b key. cbn [srv commit srv_eips with_eips]. destruct (is_gone _).
    + intros [_ ?]%lookup_delete_Some. eauto.
    + intros [[<- <-]|[_ ?]]%lookup_insert_Some; [|eauto]. intros Hl%Hsame Hr. unfold records in Hr. rewrite Hstat in Hr. eauto.
  - eapply (counted_object e); [by eapply weak_pools, He; eapply inv_weak|by rewrite Heq|done].
  - split.
    + rewrite Hver. destruct (eip_ver (commit _ _) !! Eip_Name e) as [y|] eqn:Ey; [exact (proj1 Hstamp _ y Ey)|cbn; lia].
    + cbn [srv commit srv_eips with_eips eip_ver]. unfold restamp. rewrite map_lookup_imap.
      destruct (is_gone _); [by rewrite lookup_delete_eq|intros _; apply lookup_insert_eq].
Qed.

Lemma safe_meta {A} x e meta (k : Result (versioned Eip) → prog A) Q s :
  seen s (Eip_Name e) x e → Name meta = Eip_Name e → Annotations meta = Annotations (Eip_Meta e) →
  (∀ s1 s2, no_new (srv s1) (srv s2) → g s1 s2) →
  (∀ a s2, Eip_Name (object a) = Eip_Name e → counted (object a) → seen s2 (Eip_Name e) (version a) (object a) → safe m rl g (k (Ok a)) Q s2) →
  (∀ err s2, safe m rl g (k (Err err)) Q s2) →
  safe m rl g (Ask (CUpdateEip (At x (set_EipMeta e meta))) k) Q s.
Proof.
  intros Hseen Hname Hann Hgn Hok Herr s1 H1 H2 H3 r s2 Hc.
  pose proof (seen_follows _ _ _ _ _ Hseen (Rely_follows _ _ H1)) as Hs1.
  inversion Hc as [p ? ? Hans|a ? Hwr|a ? err Hwr|err|]; subst; [done| | | |done].
  - destruct (meta_effect s1 x e meta s2 a) as (? & ? & ? & ? & ?); [done..|]. split_and!; [done|by apply Hgn|]. by apply Hok.
  - destruct (meta_effect s1 x e meta s2 a) as (? & ? & ? & ? & ?); [done..|]. split_and!; [done|by apply Hgn|done].
  - split_and!; [done|by apply Hg|by apply Herr].
Qed.
End rules.

(** ** What a synchronisation leaves, when services come and go during it *)
Lemma sync_svcs_returns l : returns (sync_svcs_calls l) (λ r, ∀ l', r = Ok l' → l' `sublist_of` l).
Proof.
  induction l as [|svc l IH]; cbn [sync_svcs_calls]; [by intros l' [= <-]|].
  assert (returns (sync_svcs_calls l) (λ r, ∀ l', r = Ok l' → l' `sublist_of` svc :: l)) as Hskip.
  { eapply returns_mono; [|exact IH]. intros r H l' ->. by apply sublist_cons, H. }
  destruct (Split "/" svc) as [|s0 [|s1 rest]]; [done..|].
  apply returns_bind, returns_attempt. split; [done|]. intros [s|e|]; cbn; [|by destruct (IsNotFound e)|done].
  apply returns_bind. eapply returns_mono; [|exact IH]. intros [l'|e|] H; [|done..]. intros l'' [= <-]. by apply sublist_skip, H.
Qed.

(** The entry [v'] is what is left of the entry [v]. *)
Definition left_of (v v' : string) : Prop := ∃ l, l `sublist_of` Split ";" v ∧ l ≠ [] ∧ v' = Join l ";".

Lemma sync_entries_returns es : ∀ used, returns (sync_entries_calls es used) (λ r, ∀ used', r = Ok used' →
  ∀ a v', used' !! a = Some v' → used !! a = Some v' ∨ ∃ v, (a, v) ∈ es ∧ left_of v v').
Proof.
  induction es as [|[k v] es IH]; intros used; cbn [sync_entries_calls]; [intros ? [= <-]; auto|].
  apply returns_bind. eapply returns_mono; [|apply sync_svcs_returns]. intros [l|e|] Hl; [|done..]. specialize (Hl l eq_refl).
  eapply returns_mono; [|apply IH]. intros r H used' -> a v' Ha.
  destruct (H used' eq_refl a v' Ha) as [Hu|(v0 & Hin & Hv0)]; [|right; exists v0; split; [by right|done]].
  destruct l as [|x l]; cbn in Hu; [by left|]. apply lookup_insert_Some in Hu as [[<- <-]|[_ Hu]]; [|by left].
  right. exists v. split; [left|]. by exists (x :: l).
Qed.

Lemma left_Split v v' : left_of v v' → Split ";" v' `sublist_of` Split ";" v.
Proof.
  intros (l & Hl & Hne & ->). rewrite Split_Join; [done|done|]. apply Forall_forall. intros s Hs.
  by eapply (proj1 (Forall_forall _ _) (Split_elems_no_sep ";" v)), elem_of_sublist.
Qed.

Definition thinned (e e' : Eip) : Prop := ∀ a, holders (Eip_Status e') a `sublist_of` holders (Eip_Status e) a.

Lemma synced_thinned e used :
  (∀ a v', used !! a = Some v' → ∃ v, used_map (Eip_Status e) !! a = Some v ∧ left_of v v') → thinned e (synced e used).
Proof.
  intros H a. unfold holders. change (used_map (Eip_Status (synced e used))) with used.
  destruct (used !! a) as [v'|] eqn:E; [|apply sublist_nil_l]. destruct (H a v' E) as (v & -> & Hv). by apply left_Split.
Qed.

Lemma synced_ok first n e used : fits first n → cnet_ParseIP (FirstIP (Eip_Status e)) = Some first →
  PoolSize (Eip_Status e) = n → keys_ok first n used → status_ok first n (Eip_Status (synced e used)).
Proof.
  intros Hfit Hf Hp Hk. pose proof (keys_ok_size first n Hfit _ Hk) as Hsz.
  constructor; cbn [Eip_Status synced set_Status FirstIP set_Occupied set_Usage set_Used PoolSize Usage Occupied]; [done..|].
  rewrite Hp. destruct (n <=? go_len used) eqn:E; bool_to_prop; symmetry;
    [apply bool_decide_true|apply bool_decide_false]; lia.
Qed.

Lemma thinned_sized e e' : sized e → counted e' → thinned e e' → sized e'.
Proof.
  intros (base & size & Hp & Hg & Hcase) (base' & size' & Hp' & Hg' & Hcase') Ht. exists base', size'. split; [done|].
  split; [done|]. destruct Hcase' as [Hf|Hok]; [by left|right]. split; [done|]. apply no_dups_holders. intros a.
  eapply sublist_NoDup; [|apply Ht]. destruct Hcase as [Hf|[_ Hnd]]; [|by apply no_dups_holders].
  unfold holders. rewrite Hf. apply NoDup_nil_2.
Qed.

Lemma thinned_records e e' a key : thinned e e' → records e' a key → records e a key.
Proof. intros Ht Hr. exact (elem_of_sublist _ _ _ Hr (Ht a)). Qed.

Section programs.
Context {R : GoRange} {GS : GoSort} {L : CidrLib} {LL : LabelLib} (m : mode).

Lemma sync_returns e (Q : Eip → Prop) :
  (∀ used, (∀ a v', used !! a = Some v' → ∃ v, used_map (Eip_Status e) !! a = Some v ∧ left_of v v') → Q (synced e used)) →
  returns (syncEip_calls e) (λ r, ∀ e', r = Ok e' → Q e').
Proof.
  intros HQ. apply returns_bind. eapply returns_mono; [|apply sync_entries_returns]. intros [used|err|] H; [|done..].
  intros e' [= <-]. apply HQ. intros a v' Hv. destruct (H used eq_refl a v' Hv) as [?|(v & Hin & Hl)]; [by rewrite lookup_empty in *|].
  exists v. by rewrite elem_of_range_map in Hin.
Qed.

Lemma update_returns e : counted e → returns (updateEip_calls e) (λ r, ∀ e', r = Ok e' →
  Eip_Meta e' = Eip_Meta e ∧ Eip_Spec e' = Eip_Spec e ∧ counted e' ∧ thinned e e').
Proof.
  intros (base & size & Hp & Hg & Hcase). pose proof (pool_ok_fits base size Hp) as Hfit. unfold updateEip_calls.
  apply returns_bind. cbn [returns].
  assert (∃ e1, (if str_empty (FirstIP (Eip_Status e)) then init_status e else Ok e) = Ok e1 ∧
    Eip_Meta e1 = Eip_Meta e ∧ Eip_Spec e1 = Eip_Spec e ∧ Used (Eip_Status e1) = Used (Eip_Status e) ∧
    cnet_ParseIP (FirstIP (Eip_Status e1)) = Some (canon base) ∧ PoolSize (Eip_Status e1) = size ∧
    keys_ok (canon base) size (used_map (Eip_Status e1))) as (e1 & -> & Hm & Hs & Hu & Hfirst & Hn & Hk).
  { destruct Hcase as [Hf|[_ Hst _]].
    - assert (str_empty (FirstIP (Eip_Status e)) = true) as -> by (by rewrite Hf).
      destruct (init_status_ok e base size Hg Hp) as (e1 & He1 & ? & ? & ? & ? & Hu1). exists e1. split_and!; try done.
      intros a v. unfold used_map. rewrite Hu1, Hf. cbn. by rewrite lookup_empty.
    - exists e. destruct Hst as [Hf Hps Hks _ _]. split_and!; try done. destruct (str_empty _) eqn:E; [|done].
      apply str_empty_spec in E. by rewrite E in Hf. }
  apply sync_returns. intros used Hl. split_and!; [done..| |].
  - exists base, size. assert (GetSize (synced e1 used) = Ok (base, size)) as Hg1.
    { by rewrite (GetSize_address (synced e1 used) e) by (cbn; congruence). }
    split_and!; [done..|]. right. constructor; [done| |exists base; split_and!; [done|apply Hp|done]].
    apply synced_ok; [done..|]. intros a v' Hv. destruct (Hl a v' Hv) as (v & Hv0 & _). by eapply Hk.
  - intros a. pose proof (synced_thinned e1 used Hl a) as Ht. unfold holders, used_map in *. by rewrite Hu in Ht.
Qed.

(** ** Workers of the controller of pools *)
Definition keeps_records (s s' : VServer) : Prop := m = Direct → no_new (srv s) (srv s').

Lemma keeps_same s s' : srv_eips (srv s') = srv_eips (srv s) → keeps_records s s'.
Proof. intros He _. by apply no_new_eips. Qed.

Lemma keeps_no_new s s' : no_new (srv s) (srv s') → keeps_records s s'.
Proof. by intros H _. Qed.

Lemma sync_write_safe e x s : counted e → seen s (Eip_Name e) x e →
  safe m follows keeps_records (sync_write_calls (At x e)) (λ _ _, True) s.
Proof.
  intros Hc Hseen. unfold sync_write_calls. apply safe_bind. eapply safe_mono;
    [|apply (safe_returns m _ keeps_same _ _ s s (update_returns e Hc)); done].
  intros [e'|err|] s' [Hr Hrely]; [|done..]. destruct (Hr e' eq_refl) as (Hm & Hs & Hc' & Ht). cbn [object version].
  destruct (decide _) as [|Hdiff]; [done|]. pose proof (seen_follows _ _ _ _ _ Hseen Hrely) as Hseen'.
  eapply (safe_status m keeps_records keeps_same x e e'); [done..| |done].
  intros s1 _ Hi He. split; [split_and!; [done..|]|].
  - intros _. split; [intros Hsz; by eapply thinned_sized|]. intros _ _. exists None. split; [done|].
    intros a key Hrec. left. by eapply thinned_records.
  - intros s2 Hs2. split; [|by intros []]. intros _ n y a key. rewrite Hs2. cbn [srv_eips with_eips].
    intros [[<- <-]|[_ ?]]%lookup_insert_Some; [|eauto]. intros Hl Hrec. exists e. split_and!; [done| |by eapply thinned_records].
    unfold live. by rewrite <- Hm.
Qed.

(** What a read of a pool tells. *)
Lemma read_pool s n r s' : stamped s → call_step (snap m s) s (CGetEip n) r s' → s' = s ∧
  (∀ e, r = Ok e → Eip_Name (object e) = n ∧ counted (object e) ∧ seen s n (version e) (object e) ∧
     (m = Direct → srv_eips (srv s) !! n = Some (object e))) ∧
  (∀ err, r = Err err → IsNotFound err = true → m = Direct → srv_eips (srv s) !! n = None).
Proof.
  intros Hst [p r' Hsn Hans|a s1 Hwr|a s1 err Hwr|err Herr|v r' Hpr]; [|done|done| |done].
  - destruct Hsn as (Hp & Hi & Hf & Hd). cbn in Hans. subst r'. split; [done|]. split.
    + intros e He. destruct (look_seen p n e Hp He) as [Hst' Hs]. pose proof (inv_weak _ _ Hi) as Hw. split_and!.
      * by apply (ok_name _ (weak_cluster _ Hw)).
      * by eapply weak_pools.
      * by eapply seen_follows.
      * intros Hm. by rewrite <- (Hd Hm).
    + intros err He _ Hm. rewrite (Hd Hm) in He. unfold look in He.
      destruct (srv_eips (srv s) !! n) as [e|] eqn:E; [|done]. destruct (proj2 Hst n) as [x Hx]; [by rewrite E|]. by rewrite Hx in He.
  - split; [done|]. split; [done|]. intros ? [= ->] Hn. destruct Herr; [congruence|done].
Qed.

Lemma remove_labels_returns l : returns (remove_labels_calls l) (λ _, True).
Proof.
  induction l as [|s l IH]; cbn [remove_labels_calls]; [done|]. apply returns_bind. split; [done|]. by intros [x|e|].
Qed.

Lemma pool_Reconcile_safe name s : safe m follows keeps_records (pool_Reconcile_calls name) (λ _ _, True) s.
Proof.
  unfold pool_Reconcile_calls. apply safe_bind, safe_attempt, (safe_plain m _ keeps_same); [done|].
  intros s1 r s2 _ Hst _ Hc _. destruct (read_pool s1 name r s2 Hst Hc) as (-> & Hok & _). cbn [safe].
  destruct r as [e|err|]; [|done..]. destruct (Hok e eq_refl) as (Hn & Hcnt & Hseen & _). rewrite <- Hn in Hseen.
  cbv zeta. destruct (IsDeletionCandidate _ _).
  - apply safe_bind. eapply safe_mono; [|eapply (safe_returns m _ keeps_same _ (λ _, True) s1 s1); [|done]].
    + intros [[]|err|] s' [_ Hr]; [|done..].
      eapply (safe_meta m _ keeps_same (version e) (object e)); [by eapply seen_follows, Hr|done|done|apply keeps_no_new|..];
        intros; exact I.
    + apply returns_bind. split; [done|]. intros [l|err|]; [|done..]. apply remove_labels_returns.
  - apply safe_bind. destruct (NeedToAddFinalizer _ _); [|destruct e; by apply sync_write_safe].
    destruct (AddFinalizer_other (Eip_Meta (object e)) constant.IPAMFinalizerName) as [HN _].
    eapply (safe_meta m _ keeps_same (version e) (object e)); [done|done|apply AddFinalizer_annotations|apply keeps_no_new| |
      intros; exact I].
    intros [x a] s' Hna Hca Hsa. cbn [object version] in *. apply sync_write_safe; [done|]. by rewrite Hna.
Qed.

(** ** Workers of the controller of services *)
Definition anything (s s' : VServer) : Prop := True.
Lemma anything_same s s' : srv_eips (srv s') = srv_eips (srv s) → anything s s'.
Proof. done. Qed.

Lemma release_restates v key e : counted e → restates m v e (releaseIPFromEip key e).
Proof.
  intros Hc. assert (Eip_Meta (releaseIPFromEip key e) = Eip_Meta e ∧ Eip_Spec (releaseIPFromEip key e) = Eip_Spec e) as [Hm Hs]
    by (unfold releaseIPFromEip; by destruct (negb _)).
  split_and!; [done..| |].
  - intros (base & size & Hp & Hg & Hcase). exists base, size. split; [done|].
    split; [by rewrite (GetSize_address _ e) by congruence|].
    destruct Hcase as [Hf|Hok]; [left; by rewrite release_fresh|right].
    destruct (IsZero (DeletionTimestamp (Eip_Meta e))) eqn:Ez; [|unfold releaseIPFromEip; by rewrite Ez].
    eapply eip_ok_same; [done|done|]. apply (release_used _ _ key e (eo_fits _ _ _ Hok) (eo_status _ _ _ Hok) Ez).
  - intros _. split; [apply release_sized|]. intros Hsz _. exists None. split; [done|]. intros a k Hr. left.
    by apply (release_records key).
Qed.

Lemma ReleaseIP_safe r s : safe m (rely m) anything (ReleaseIP_calls r)
  (λ res s', res = Ok () → m = Direct → recorded_at (srv s) (Key r) (Rec_Eip r) → unrecorded (srv s') (Key r)) s.
Proof.
  unfold ReleaseIP_calls. apply safe_bind, safe_attempt, (safe_plain m _ anything_same); [done|].
  intros s1 res s2 _ Hst Hi Hc Hrely. destruct (read_pool s1 _ res s2 Hst Hc) as (-> & Hok & Hnone).
  assert (m = Direct → recorded_at (srv s) (Key r) (Rec_Eip r) → recorded_at (srv s1) (Key r) (Rec_Eip r)) as Hat1.
  { intros Hm Hat. eapply recorded_no_new; [by apply Hat|by apply Hrely]. }
  destruct res as [e|err|]; [| |done]; cbn [safe].
  - destruct (Hok e eq_refl) as (Hn & Hcnt & Hseen & Hcur). cbn [mbind prog_bind mret prog_ret].
    rewrite <- Hn in Hseen. destruct (release_restates (srv s1) (Key r) (object e) Hcnt) as (Hm & Hs & _).
    destruct (decide _) as [Heq|Hne].
    + intros _ Hd Hat. pose proof (Hcur Hd) as He. eapply (release_unrecorded (srv s1) (srv s1) _ (Rec_Eip r) (object e));
        [|by rewrite Heq|done|by apply Hat1]. revert Hi. rewrite Hd. intros Hi. by eapply sys_pools.
    + eapply (safe_status m anything anything_same (version e) (object e)); [done..| |done].
      intros s3 H13 Hi3 He3. split; [by apply release_restates|]. intros s4 Hs4. split; [done|].
      intros [a|err|]; [|done..]. intros _ Hd Hat. rewrite Hs4.
      eapply (release_unrecorded (srv s3) _ _ (Rec_Eip r) (object e)); cbn [srv_eips with_eips].
      * revert Hi3. rewrite Hd. intros Hi3. by eapply sys_pools.
      * rewrite <- Hn. apply lookup_insert_eq.
      * intros n Hnn. rewrite lookup_insert_ne by congruence. done.
      * eapply recorded_no_new; [by apply Hat1|by apply H13].
  - destruct (IsNotFound err) eqn:Enf; cbn [mbind prog_bind mret prog_ret object]; [|done].
    rewrite release_fresh by done. rewrite decide_True by done. intros _ Hd Hat n e a He Hl Hr.
    pose proof (Hat1 Hd Hat n e a He Hl Hr) as ->. by rewrite (Hnone err eq_refl Enf Hd) in He.
Qed.

Lemma assign_restates v a e addr e' : counted e → str_elem ";" (Key a) = false →
  assignIPFromEip (Some a) e = Ok (addr, e') → (m = Direct → live e → unrecorded v (Key a)) →
  srv_eips v !! Eip_Name e = Some e → restates m v e e'.
Proof.
  intros (base & size & Hp & Hg & Hcase) Hkey Ha Hun He. pose proof (assign_available _ _ _ Ha) as Hav.
  destruct Hcase as [Hf|Hok]; [by destruct (assign_fresh e a (addr, e') Hf)|].
  destruct (assign_ok _ _ e a addr e' Hok Hav Hkey Ha) as [Hok' Hcases].
  assert (Eip_Meta e' = Eip_Meta e ∧ Eip_Spec e' = Eip_Spec e) as [Hm Hs].
  { destruct Hcases as [(_ & -> & _)|(k & _ & _ & Hm & Hs & _)]; done. }
  split_and!; [done..| |].
  - intros _. exists base, size. split; [done|]. split; [|by right]. by rewrite (GetSize_address _ e) by congruence.
  - intros Hd. assert (∀ x, ¬ records e x (Key a)) as Hnew by (intros x; apply (Hun Hd (proj1 Hav) _ e x He), Hav).
    split.
    + intros Hsz. by destruct (assign_writes a e addr e' Hsz Hkey Hnew Ha) as (_ & _ & ? & _).
    + intros Hsz Hl. destruct (assign_writes a e addr e' Hsz Hkey Hnew Ha) as (_ & _ & _ & _ & _ & Hrec).
      exists (Some (Key a, addr)). split; [intros k [= <-]; by apply Hun|].
      intros x k Hr. destruct (Hrec x k Hr) as [?|?]; [by left|right; congruence].
Qed.

Lemma AssignIP_safe fams a s : str_elem ";" (Key a) = false → (m = Direct → unrecorded (srv s) (Key a)) →
  safe m (rely m) anything (AssignIP_calls fams a) (λ _ _, True) s.
Proof.
  intros Hkey Hun. unfold AssignIP_calls. apply safe_bind, (safe_plain m _ anything_same); [done|].
  intros s1 res s2 _ Hst _ Hc Hrely. destruct (read_pool s1 _ res s2 Hst Hc) as (-> & Hok & _).
  destruct res as [e|err|]; [|done..]. destruct (Hok e eq_refl) as (Hn & Hcnt & Hseen & _). cbn [safe]. apply safe_bind.
  destruct (ParseRange _) as [[rg|]|err|]; [|done..]. cbn [safe]. destruct (negb _); [done|]. apply safe_bind.
  destruct (assignIPFromEip (Some a) (object e)) as [[addr e']|err|] eqn:Ea; [|done..]. cbn [safe].
  destruct (decide _) as [|Hne]; [done|]. rewrite <- Hn in Hseen.
  assert (∀ v, (m = Direct → unrecorded v (Key a)) → srv_eips v !! Eip_Name (object e) = Some (object e) →
    restates m v (object e) e') as Hres.
  { intros v Hv. eapply (assign_restates v a (object e) addr); try done. intros Hd _. by apply Hv. }
  assert (Eip_Meta e' = Eip_Meta (object e) ∧ Eip_Spec e' = Eip_Spec (object e)) as [Hm Hs].
  { destruct Hcnt as (base & size & Hp & Hg & [Hf|Heo]); [by destruct (assign_fresh (object e) a (addr, e') Hf)|].
    destruct (assign_ok _ _ (object e) a addr e' Heo (assign_available _ _ _ Ea) Hkey Ea)
      as [_ [(_ & -> & _)|(k & _ & _ & ? & ? & _)]]; done. }
  eapply (safe_status m anything anything_same (version e) (object e)); [done..| |intros; exact I].
  intros s3 H13 _ He3. split; [|by intros s4 _; split; [|intros []]]. apply Hres; [|done].
  intros Hd. eapply unrecorded_no_new; [by apply Hun|]. etrans; [by apply Hrely|by apply H13].
Qed.

Lemma updateReconcileResult_returns s r : returns (updateReconcileResult_calls s r) (λ _, True).
Proof.
  unfold updateReconcileResult_calls. apply returns_bind.
  assert (∀ clone, returns (if decide (Svc_Ingress (object s) = Svc_Ingress (object r)) then mret (M := prog) ()
    else _ ← ask (CStatusUpdateService (At (version clone) (set_Ingress (object clone) (Svc_Ingress (object r)))));
         mret (M := prog) ()) (λ _, True)) as H.
  { intros clone. destruct (decide _); [done|]. split; [done|]. by intros []. }
  destruct (decide (Labels _ = _)); [apply H|]. split; [done|]. intros [c|e|]; [apply H|done..].
Qed.

Lemma write_back_safe s r st : safe m (rely m) anything (updateReconcileResult_calls s r) (λ _ _, True) st.
Proof.
  eapply safe_mono; [|apply (safe_returns m _ anything_same _ _ st st (updateReconcileResult_returns s r)); done]. done.
Qed.

Lemma assign_request_safe svc clone ips a s : str_elem ";" (Key a) = false → (m = Direct → unrecorded (srv s) (Key a)) →
  safe m (rely m) anything (assign_request_calls svc clone ips a) (λ _ _, True) s.
Proof.
  intros Hkey Hun. apply safe_bind, safe_attempt. eapply safe_mono; [|by apply AssignIP_safe].
  intros [a'|e|] s' _; [apply write_back_safe| |done]. apply safe_bind, safe_attempt. eapply safe_mono; [|apply write_back_safe].
  by intros [[]|?|].
Qed.

(** What a request promises about the records in state [s]. *)
Definition covers (s : VServer) (key : string) (release : option svcRecord) : Prop := m = Direct →
  match release with
  | Some r => Key r = key ∧ recorded_at (srv s) key (Rec_Eip r)
  | None => unrecorded (srv s) key
  end.

Lemma covers_rely s s' key rel : covers s key rel → rely m s s' → covers s' key rel.
Proof.
  intros Hc [_ Hn] Hd. specialize (Hc Hd). specialize (Hn Hd). destruct rel; [destruct Hc; split; [done|]|];
    eauto using recorded_no_new, unrecorded_no_new.
Qed.

Lemma reconcile_request_safe svc req s : str_elem ";" (svc_key (object svc)) = false →
  (∀ a, Req_Allocate req = Some a → Key a = svc_key (object svc) ∧ covers s (svc_key (object svc)) (Req_Release req)) →
  safe m (rely m) anything (reconcile_request_calls svc req) (λ _ _, True) s.
Proof.
  intros Hkey Hcov. unfold reconcile_request_calls. destruct (Req_Release req) as [rl|], (Req_Allocate req) as [a|]; [| | |done].
  - destruct (Hcov a eq_refl) as [HK Hc]. apply safe_bind, safe_bind. eapply safe_mono; [|apply ReleaseIP_safe].
    intros [[]|e|] s' Hun; [|done..]. cbn [mret prog_ret safe]. apply assign_request_safe; [by rewrite HK|].
    intros Hd. destruct (Hc Hd) as [HKr Hat]. rewrite HK, <- HKr. apply Hun; [done..|]. by rewrite HKr.
  - apply safe_bind, safe_bind. eapply safe_mono; [|apply ReleaseIP_safe]. intros [[]|e|] s' _; [apply write_back_safe|done..].
  - destruct (Hcov a eq_refl) as [HK Hc]. apply safe_bind. cbn [mret prog_ret safe]. apply assign_request_safe; rewrite HK; [done|].
    exact Hc.
Qed.

Lemma getEIP_returns ns ip eip : returns (getEIP_calls ns ip eip) (λ _, True).
Proof.
  unfold getEIP_calls. destruct (str_empty eip); [destruct (negb _)|]; cbn; repeat (split; [done|]; intros []); done.
Qed.

Lemma ConstructRequest_safe svc s : safe m (rely m) anything (ConstructRequest_calls svc)
  (λ r s', ∀ req a, r = Ok req → Req_Allocate req = Some a → Key a = svc_key svc ∧ covers s' (svc_key svc) (Req_Release req)) s.
Proof.
  unfold ConstructRequest_calls. destruct (Annotations (Svc_Meta svc)) as [annotations|]; [|by intros req a [= <-]].
  fold (svc_key svc). apply safe_bind, safe_bind, (safe_plain m _ anything_same); [done|].
  intros s1 r s2 _ _ Hi Hc _. assert (s2 = s1 ∧ ∀ l, r = Ok l → m = Direct → listing (srv_eips (srv s1)) l) as [-> Hl].
  { destruct Hc as [p r' (_ & _ & _ & Hd) (l & -> & Hl)|a s3 Hwr|a s3 err Hwr|err Herr|v r' Hpr]; [|done|done|done|done].
    split; [done|]. intros l' [= <-] Hm. by rewrite <- (Hd Hm). }
  destruct r as [items|e|]; [|done..]. specialize (Hl items eq_refl). cbn [safe mret prog_ret].
  destruct (find_eip (svc_key svc) items) as [aEip aIP] eqn:Ef. cbv zeta. set (rel := constructRelease _).
  assert (covers s1 (svc_key svc) rel) as Hcov.
  { intros Hd. revert Hi. rewrite Hd. intros Hi. by eapply (constructRelease_covers (srv s1) items); [|apply Hl|..]. }
  clearbody rel. eapply safe_mono; [|apply (safe_returns m _ anything_same _
    (λ r, ∀ req a, r = Ok req → Req_Allocate req = Some a → Key a = svc_key svc ∧ Req_Release req = rel) s1 s1); [|done]].
  { intros r s' [Hr Hrely] req a Hreq Ha. destruct (Hr req a Hreq Ha) as [HK ->]. split; [done|]. by eapply covers_rely. }
  destruct (needRelease _); [by intros req a [= <-]|].
  assert (∀ i name ip, returns (mret (M := prog) (if negb (needUpdate i) && mhas (Labels (Svc_Meta svc))
      constant.OpenELBEIPAnnotationKeyV1Alpha2 then {| Req_Allocate := None; Req_Release := None |}
    else {| Req_Allocate := Some {| Key := svc_key svc; Rec_Eip := name; Rec_IP := ip |}; Req_Release := rel |}))
    (λ r, ∀ req a, r = Ok req → Req_Allocate req = Some a → Key a = svc_key svc ∧ Req_Release req = rel)) as Hend.
  { intros i name ip req a [= <-]. destruct (_ && _); [done|]. by intros [= <-]. }
  apply returns_bind. destruct (str_empty _); [|apply Hend]. apply returns_bind, returns_attempt.
  eapply returns_mono; [|apply getEIP_returns]. intros [eip|e|] _; [apply Hend|by intros req a [= <-]|done].
Qed.

Lemma service_Reconcile_safe key s : safe m (rely m) anything (service_Reconcile_calls key) (λ _ _, True) s.
Proof.
  unfold service_Reconcile_calls. apply safe_bind, safe_attempt, (safe_plain m _ anything_same); [done|].
  intros s1 r s2 _ _ _ Hc _.
  assert (∀ svc, r = Ok svc → str_elem ";" (svc_key (object svc)) = false) as Hkey.
  { destruct Hc as [p r' (_ & Hi & _ & _) Hans|a s3 Hwr|a s3 err Hwr|err Herr|v r' Hpr]; [|done|done|done|done].
    cbn in Hans. subst r'. intros svc. unfold look. destruct (srv_svcs (srv p) !! key) as [x|] eqn:Hx; [|done].
    destruct (svc_ver p !! key); [|done]. intros [= <-].
    by apply (svc_key_ok (srv p) key x); [by eapply weak_svcs, inv_weak|]. }
  destruct r as [svc|e|]; [|done..]. cbn [safe]. specialize (Hkey svc eq_refl). destruct (HasOpenELBNPAnnotation _).
  - apply (safe_plain m _ anything_same); [done|]. intros; exact I.
  - apply safe_bind. eapply safe_mono; [|apply ConstructRequest_safe]. intros [req|e|] s' Hreq; [|done..].
    apply reconcile_request_safe; [done|]. intros a Ha. by apply Hreq.
Qed.
End programs.

(** ** Runs *)
Lemma call_step_mono (P Q : VServer → Prop) s c r s' : (∀ p, P p → Q p) → call_step P s c r s' → call_step Q s c r s'.
Proof.
  intros HPQ [p x Hp Ha|a s1 Hw|a s1 e Hw|e He|v x Hx He Hv];
    [by eapply cs_read, Ha; apply HPQ|by apply cs_write|by eapply cs_lost|by apply cs_fail|by apply cs_proxy].
Qed.

Section runs.
Context {R : GoRange} {GS : GoSort} {L : CidrLib} {LL : LabelLib} (m : mode).

Definition service_safe (s : VServer) (p : prog ()) : Prop := safe m (rely m) anything p (λ _ _, True) s.
Definition pool_safe (s : VServer) (p : prog ()) : Prop := safe m follows (keeps_records m) p (λ _ _, True) s.

Record conf_ok (C : Conf) : Prop := {
  co_stamped : stamped (now C);
  co_inv : inv m (srv (now C));
  co_past : ∀ p, p ∈ past C → stamped p ∧ inv m (srv p) ∧ follows p (now C);
  co_services : Forall (service_safe (now C)) (services C);
  co_pools : Forall (pool_safe (now C)) (pools C);
  co_solo : m = Direct → (length (services C) <= 1)%nat;
}.

Lemma visible_snap C p : conf_ok C → visible m C p → snap m (now C) p.
Proof.
  intros HC [->|[Hm Hp]].
  - split; [apply HC|]. split; [apply HC|]. done.
  - destruct (co_past C HC p Hp) as (? & ? & ?). split_and!; [done..|]. by rewrite Hm.
Qed.

(** The server moves on, and with it every worker. *)
Lemma conf_move C s ss ps : conf_ok C → stamped s → inv m (srv s) → follows (now C) s →
  Forall (service_safe s) ss →
  Forall (pool_safe s) ps →
  (m = Direct → (length ss <= 1)%nat) →
  conf_ok {| now := s; past := now C :: past C; services := ss; pools := ps |}.
Proof.
  intros HC Hs Hi Hf Hss Hps Hsolo. constructor; cbn; [done|done| |done..].
  intros p [->|Hp]%elem_of_cons; [split_and!; [apply HC|apply HC|done]|].
  destruct (co_past C HC p Hp) as (? & ? & ?). split_and!; [done..|by etrans].
Qed.

Lemma services_move C s ss : Forall (service_safe (now C)) ss → rely m (now C) s →
  Forall (service_safe s) ss.
Proof. intros H Hr. eapply Forall_impl; [exact H|]. intros p Hp. by apply (safe_rely m _ p (now C)). Qed.

Lemma pools_move C s ps : Forall (pool_safe (now C)) ps → follows (now C) s →
  Forall (pool_safe s) ps.
Proof. intros H Hr. eapply Forall_impl; [exact H|]. intros p Hp. by apply (safe_rely m _ p (now C)). Qed.

Lemma conf_step_service C ps qs c k r s' : conf_ok C → services C = ps ++ Ask c k :: qs →
  call_step (visible m C) (now C) c r s' →
  conf_ok {| now := s'; past := now C :: past C; services := ps ++ k r :: qs; pools := pools C |}.
Proof.
  intros HC Heq Hc. pose proof (co_services C HC) as Hss. pose proof (co_solo C HC) as Hsolo. rewrite Heq in Hss, Hsolo.
  apply Forall_app in Hss as [Hps Hqs]. apply Forall_cons in Hqs as [Hp Hqs].
  apply (call_step_mono _ (snap m (now C))) in Hc; [|intros p; by apply visible_snap].
  destruct (Hp (now C) ltac:(reflexivity) (co_stamped C HC) (co_inv C HC) r s' Hc) as (Hi & _ & Hk).
  destruct (call_follows _ _ _ _ _ (co_stamped C HC) Hc) as [Hs Hf].
  rewrite length_app in Hsolo. cbn in Hsolo.
  assert (∀ l, (m = Direct → length l = 0%nat) → Forall (service_safe (now C)) l →
    Forall (service_safe s') l) as Hothers.
  { intros l Hl Hsafe. destruct l as [|x l]; [constructor|]. apply (services_move C s'); [done|]. split; [done|].
    intros Hd. by specialize (Hl Hd). }
  apply conf_move; [done..| | |].
  - apply Forall_app. split; [|constructor; [done|]]; apply Hothers; try done; intros Hd; specialize (Hsolo Hd); lia.
  - apply (pools_move C); [apply HC|done].
  - rewrite length_app. done.
Qed.

Lemma conf_step_pool C ps qs c k r s' : conf_ok C → pools C = ps ++ Ask c k :: qs →
  call_step (visible m C) (now C) c r s' →
  conf_ok {| now := s'; past := now C :: past C; services := services C; pools := ps ++ k r :: qs |}.
Proof.
  intros HC Heq Hc. pose proof (co_pools C HC) as Hss. rewrite Heq in Hss.
  apply Forall_app in Hss as [Hps Hqs]. apply Forall_cons in Hqs as [Hp Hqs].
  apply (call_step_mono _ (snap m (now C))) in Hc; [|intros p; by apply visible_snap].
  destruct (Hp (now C) ltac:(reflexivity) (co_stamped C HC) (co_inv C HC) r s' Hc) as (Hi & Hg & Hk).
  destruct (call_follows _ _ _ _ _ (co_stamped C HC) Hc) as [Hs Hf].
  apply conf_move; [done..| | |apply HC].
  - by apply (services_move C); [apply HC|].
  - apply Forall_app. split; [by eapply pools_move|]. constructor; [done|by eapply pools_move].
Qed.

Lemma conf_step_ok C C' : conf_ok C → conf_step m C C' → conf_ok C'.
Proof.
  intros HC [key Hsolo|name|ps qs c k r s' Heq Hc|ps qs c k r s' Heq Hc|ps p qs Heq|ps p qs Heq|v Hu].
  - constructor; cbn; try apply HC; [constructor; [apply service_Reconcile_safe|apply HC]|].
    intros Hd. by rewrite (Hsolo Hd).
  - constructor; cbn; try apply HC. constructor; [apply pool_Reconcile_safe|apply HC].
  - by eapply conf_step_service.
  - by eapply conf_step_pool.
  - pose proof (co_services C HC) as Hss. pose proof (co_solo C HC) as Hsolo. rewrite Heq in Hss, Hsolo.
    constructor; cbn; try apply HC.
    + apply Forall_app in Hss as [? ?%Forall_cons]. apply Forall_app. tauto.
    + intros Hd. specialize (Hsolo Hd). rewrite length_app in *. cbn in Hsolo. lia.
  - pose proof (co_pools C HC) as Hss. rewrite Heq in Hss. constructor; cbn; try apply HC.
    apply Forall_app in Hss as [? ?%Forall_cons]. apply Forall_app. tauto.
  - destruct (commit_follows (now C) v (co_stamped C HC)) as [Hs Hf].
    apply conf_move; [done|done|by eapply inv_user, Hu; apply HC|done| | |apply HC].
    + apply (services_move C); [apply HC|]. split; [done|]. intros _. by apply user_no_new.
    + by apply (pools_move C); [apply HC|].
Qed.

Lemma conf_run_ok C0 C : initial C0 → rtc (conf_step m) C0 C → conf_ok C.
Proof.
  intros (He & Hv & Hs & Hp & Hss & Hps) Hrun.
  assert (conf_ok C0) as H0.
  { constructor; rewrite ?Hp, ?Hss, ?Hps;
      [| |by intros p ?%not_elem_of_nil|apply Forall_nil_2|apply Forall_nil_2|cbn; lia].
    - split; [by rewrite Hv|]. intros n. rewrite He. by intros [].
    - destruct m; cbn; constructor; rewrite ?He; try done; try constructor; intros *; rewrite ?lookup_empty; done. }
  clear He Hv Hs Hp Hss Hps. induction Hrun as [|x y z Hstep _ IH]; [done|]. by apply IH, (conf_step_ok x).
Qed.
End runs.

(** A record of a pool is the text of an address in the pool. *)
Lemma weak_recorded_address v n e addr : weak_ok v → srv_eips v !! n = Some e →
  is_Some (used_map (Eip_Status e) !! addr) → Contains e (ParseIP addr) = true.
Proof.
  intros Hv He [x Hx]. destruct (weak_pools _ Hv n e He) as (base & size & Hp & Hg & [Hf|Hok]).
  - rewrite Hf in Hx. cbn in Hx. by rewrite lookup_empty in Hx.
  - destruct (so_keys _ _ _ (eo_status _ _ _ Hok) addr x Hx) as (k & Hk & ->).
    apply (addr_at_Contains base size); [done|done|by eapply weak_family|done].
Qed.

(** What both modes guarantee. *)
Definition pools_exact (v : Server) : Prop :=
  (∀ n1 n2 e1 e2 addr, srv_eips v !! n1 = Some e1 → srv_eips v !! n2 = Some e2 →
     is_Some (used_map (Eip_Status e1) !! addr) → is_Some (used_map (Eip_Status e2) !! addr) → n1 = n2) ∧
  (∀ n e, srv_eips v !! n = Some e → fresh e ∨
     ∃ base size, GetSize e = Ok (base, size) ∧ PoolSize (Eip_Status e) = size ∧
       (∀ addr, is_Some (used_map (Eip_Status e) !! addr) → Contains e (ParseIP addr) = true) ∧
       Usage (Eip_Status e) = go_len (used_map (Eip_Status e)) ∧ 0 <= Usage (Eip_Status e) <= size ∧
       (Occupied (Eip_Status e) = true ↔ Usage (Eip_Status e) = size)).

Lemma weak_pools_exact v : weak_ok v → pools_exact v.
Proof.
  intros Hok. split.
  - intros n1 n2 e1 e2 addr H1 H2 U1 U2. destruct (decide (n1 = n2)) as [|Hne]; [done|exfalso].
    apply (ok_disjoint _ (weak_cluster _ Hok) n1 n2 e1 e2 (ParseIP addr) H1 H2 Hne); by eapply weak_recorded_address.
  - intros n e He. destruct (weak_pools _ Hok n e He) as (base & size & _ & Hg & [Hf|[Hfit Hst _]]); [by left|right].
    pose proof (keys_ok_size _ _ Hfit _ (so_keys _ _ _ Hst)). pose proof (so_usage _ _ _ Hst) as Hu.
    exists base, size. split_and!; [done|apply Hst|intros addr; by eapply weak_recorded_address|done|
      unfold go_len in *; lia|lia|].
    rewrite (so_occupied _ _ _ Hst). apply bool_decide_eq_true.
Qed.

(** ** Properties *)

(** C1: the controllers keep the addresses apart call by call.  One worker of
    the controller of services, any number of workers of the controller of
    pools and the users take turns between any two calls, writes of stale
    versions are refused, calls fail and workers stop anywhere.  In every state
    that is reached from a cluster without pools, no address is recorded by two
    pools, every pool has exact counters and records only its own addresses,
    and the pools that are not being deleted record a service at most once. *)
Theorem interleaved_invariant `{R : GoRange} `{GS : GoSort} `{L : CidrLib} `{LL : LabelLib} (C0 C : Conf)
    (Hinit : initial C0) (Hrun : rtc (conf_step Direct) C0 C) :
  pools_exact (srv (now C)) ∧
  (∀ n1 n2 e1 e2 a1 a2 key, srv_eips (srv (now C)) !! n1 = Some e1 → srv_eips (srv (now C)) !! n2 = Some e2 →
     live e1 → live e2 → key ∈ holders (Eip_Status e1) a1 → key ∈ holders (Eip_Status e2) a2 → n1 = n2 ∧ a1 = a2).
Proof.
  pose proof (co_inv _ _ (conf_run_ok Direct C0 C Hinit Hrun)) as Hok. split; [|apply (sys_once _ Hok)].
  by apply weak_pools_exact, (inv_weak Direct).
Qed.

(** C39: the pools stay exact when the reads are stale.  Any number of workers of
    both controllers read through a cache that may show any earlier state of
    the cluster, different ones at different calls; only the versions of the
    written objects are checked.  Still no address is recorded by two pools and
    every pool has exact counters and records only its own addresses. *)
Theorem cached_invariant `{R : GoRange} `{GS : GoSort} `{L : CidrLib} `{LL : LabelLib} (C0 C : Conf)
    (Hinit : initial C0) (Hrun : rtc (conf_step Cached) C0 C) : pools_exact (srv (now C)).
Proof. apply weak_pools_exact, (inv_weak Cached), (co_inv _ _ (conf_run_ok Cached C0 C Hinit Hrun)). Qed.

(** ** Schedules *)

(** One call, with reads from [p]; a call that is not needed below fails. *)
Definition read_of (p : VServer) (c : call) : Result (answer c) :=
  match c return Result (answer c) with
  | CGetEip n => look (srv_eips (srv p)) (eip_ver p) n
  | CListEips => Ok (map_to_list (srv_eips (srv p))).*2
  | CGetNamespaceLabels n => store_get (srv_nss (srv p)) n
  | CGetService k => look (srv_svcs (srv p)) (svc_ver p) k
  | _ => Err (Errorf "unavailable")
  end.

Definition perform_at (p s : VServer) (c : call) : VServer * Result (answer c) :=
  if is_write c then
    match write_effect s c with Some (s', a) => (s', Ok a) | None => (s, Err (Errorf "conflict")) end
  else (s, read_of p c).

Lemma perform_at_step (sn : VServer → Prop) p s c : sn p → call_step sn s c (perform_at p s c).2 (perform_at p s c).1.
Proof.
  intros Hp. unfold perform_at. destruct (is_write c) eqn:Ew.
  - destruct (write_effect s c) as [[s' a]|] eqn:E; cbn; [by apply cs_write|apply cs_fail; by right].
  - destruct c; try done; cbn; first [by apply cs_fail; left|apply (cs_read sn s _ p); [done|]; cbn; eauto].
    eexists. split; [done|]. unfold listing. done.
Qed.

Inductive move := StartService (key : string * string) | StartPool (name : string) | OnService (age : nat) | OnPool (age : nat).

(** The state of the given age; [0] is the present. *)
Definition state_at (m : mode) (C : Conf) (age : nat) : VServer :=
  match m, age with Cached, S i => default (now C) (past C !! i) | _, _ => now C end.

(** The first worker makes one call, or ends. *)
Definition advance (m : mode) (C : Conf) (age : nat) (ps : list (prog ())) : VServer * list VServer * list (prog ()) :=
  match ps with
  | Ask c k :: qs => let '(s, r) := perform_at (state_at m C age) (now C) c in (s, now C :: past C, k r :: qs)
  | Done _ :: qs => (now C, past C, qs)
  | [] => (now C, past C, [])
  end.

Section schedules.
Context {R : GoRange} {GS : GoSort} {L : CidrLib} {LL : LabelLib}.

Definition exec (m : mode) (C : Conf) (mv : move) : Conf :=
  match mv with
  | StartService key =>
      if decide (m = Direct ∧ services C ≠ []) then C
      else {| now := now C; past := past C; services := service_Reconcile_calls key :: services C; pools := pools C |}
  | StartPool name => {| now := now C; past := past C; services := services C; pools := pool_Reconcile_calls name :: pools C |}
  | OnService age => let '(s, h, ps) := advance m C age (services C) in {| now := s; past := h; services := ps; pools := pools C |}
  | OnPool age => let '(s, h, ps) := advance m C age (pools C) in {| now := s; past := h; services := services C; pools := ps |}
  end.

Lemma state_at_visible m C age : visible m C (state_at m C age).
Proof.
  unfold visible, state_at. destruct m; [by left|]. destruct age as [|i]; [by left|].
  destruct (past C !! i) as [p|] eqn:E; cbn; [|by left]. right. split; [done|]. by eapply list_elem_of_lookup_2.
Qed.

Lemma exec_steps m C mv : rtc (conf_step m) C (exec m C mv).
Proof.
  pose proof (λ age c, perform_at_step _ _ (now C) c (state_at_visible m C age)) as Hc.
  destruct mv as [key|name|age|age]; cbn [exec].
  - case_decide as E; [done|]. apply rtc_once. refine (step_start_service m C key _). intros Hm.
    destruct (services C); [done|]. by destruct E.
  - apply rtc_once. exact (step_start_pool m C name).
  - destruct (services C) as [|[r|c k] qs] eqn:Es; cbn [advance]; [by destruct C; cbn in Es; subst| |].
    + apply rtc_once. exact (step_end_service m C [] (Done r) qs Es).
    + specialize (Hc age c). destruct (perform_at _ (now C) c) as [s' r]. apply rtc_once.
      exact (step_service m C [] qs c k r s' Es Hc).
  - destruct (pools C) as [|[r|c k] qs] eqn:Es; cbn [advance]; [by destruct C; cbn in Es; subst| |].
    + apply rtc_once. exact (step_end_pool m C [] (Done r) qs Es).
    + specialize (Hc age c). destruct (perform_at _ (now C) c) as [s' r]. apply rtc_once.
      exact (step_pool m C [] qs c k r s' Es Hc).
Qed.

Lemma schedule_steps m mvs : ∀ C, rtc (conf_step m) C (foldl (exec m) C mvs).
Proof. induction mvs as [|mv mvs IH]; intros C; cbn; [done|]. etrans; [apply exec_steps|apply IH]. Qed.
End schedules.

(** ** A cluster with two pools and a service that names the first *)
Definition conf_of (s : VServer) (h : list VServer) : Conf := {| now := s; past := h; services := []; pools := [] |}.
Definition by_user (C : Conf) (v : Server) : Conf :=
  {| now := commit (now C) v; past := now C :: past C; services := services C; pools := pools C |}.

Definition demo0 : Conf :=
  conf_of {| srv := pw_server run0; eip_ver := ∅; svc_ver := ∅; rev := 1%N |} [].
Definition service_for (pool : string) (ingress : option (list Ingress)) (meta : ObjectMeta) : Service :=
  {| Svc_Meta := {| Name := "s1"; Namespace := "ns"; Labels := Labels meta;
                    Annotations := Some {[constant.OpenELBAnnotationKey := "openelb";
                                          constant.OpenELBEIPAnnotationKeyV1Alpha2 := pool]};
                    Finalizers := Finalizers meta; DeletionTimestamp := None |};
     Svc_Spec := Svc_Spec plain_service; Svc_Ingress := ingress |}.
Definition demo1 : Conf := by_user demo0
  {| srv_eips := ∅; srv_svcs := {[("ns", "s1") := service_for "a" None (Svc_Meta plain_service)]}; srv_nss := {["ns" := None]} |}.
Definition demo2 : Conf := by_user demo1 (with_eips (srv (now demo1)) (<["a" := pool_a]> ∅)).
Definition demo3 : Conf := by_user demo2 (with_eips (srv (now demo2)) (<["b" := pool_b]> (<["a" := pool_a]> ∅))).

Abbreviation demo_exec m := (@exec canonical_range insertion_sort go_cidr subset_labels m).
Abbreviation demo_conf_step m := (@conf_step canonical_range insertion_sort go_cidr subset_labels m).

(** Two workers of pools, call by call in turn, then one of services. *)
Definition demo4 m : Conf := foldl (demo_exec m) demo3
  [StartPool "a"; OnPool 0; OnPool 0; OnPool 0; OnPool 0; StartPool "b"; OnPool 0; OnPool 0; OnPool 0; OnPool 0].
Definition demo5 m : Conf := foldl (demo_exec m) (demo4 m)
  (StartService ("ns", "s1") :: replicate 7 (OnService 0)).

Lemma demo0_initial : initial demo0.
Proof. split_and!; done. Qed.

Lemma demo3_reached m : rtc (demo_conf_step m) demo0 demo3.
Proof.
  eapply rtc_l; [refine (step_user m demo0 (srv (now demo1)) (us_services (srv (now demo0)) (srv (now demo1)) eq_refl _))|].
  { intros k s. cbn [now by_user demo1 commit srv srv_svcs]. intros [<- <-]%lookup_singleton_Some. done. }
  eapply rtc_l; [refine (step_user m demo1 _ (us_create (srv (now demo1)) pool_a [] _ _ _ _ _ _))|].
  { done. } { done. } { done. }
  { eapply (single_sized _ (ParseIP "10.0.0.1")); [done| |by vm_compute..].
    split; [by apply bytes_ok_eval|]. right. by vm_compute. }
  { unfold listing. vm_compute. reflexivity. }
  { by vm_compute. }
  apply rtc_once. refine (step_user m demo2 _ (us_create (srv (now demo2)) pool_b [pool_a] _ _ _ _ _ _)).
  { done. } { done. } { done. }
  { eapply (single_sized _ (ParseIP "10.0.1.1")); [done| |by vm_compute..].
    split; [by apply bytes_ok_eval|]. right. by vm_compute. }
  { unfold listing. vm_compute. reflexivity. }
  { by vm_compute. }
Qed.

Lemma demo5_reached m : rtc (demo_conf_step m) demo0 (demo5 m).
Proof. etrans; [apply demo3_reached|]. etrans; apply schedule_steps. Qed.

(** The user makes the service name the second pool; the worker that reacts
    sees the new service, and the pools as they were before the first
    assignment. *)
Definition renamed (C : Conf) : Service :=
  match srv_svcs (srv (now C)) !! ("ns", "s1") with
  | Some s => service_for "b" (Svc_Ingress s) (Svc_Meta s)
  | None => plain_service
  end.
Definition demo6 : Conf := by_user (demo5 Cached)
  (with_svcs (srv (now (demo5 Cached))) {[("ns", "s1") := renamed (demo5 Cached)]}).
Definition demo7 : Conf := foldl (demo_exec Cached) demo6
  (StartService ("ns", "s1") :: OnService 0 :: OnService 5 :: replicate 6 (OnService 0)).

Lemma one_service_step m C k s : Svc_Key s = k → str_elem ";" (NamespacedName k.1 k.2) = false →
  demo_conf_step m C (by_user C (with_svcs (srv (now C)) {[k := s]})).
Proof.
  intros Hk Hs. apply (step_user m C), us_services; [done|]. intros k' s'. cbn [srv_svcs with_svcs]. intros [<- <-]%lookup_singleton_Some. done.
Qed.

Lemma demo7_reached : rtc (demo_conf_step Cached) demo0 demo7.
Proof.
  etrans; [apply (demo5_reached Cached)|]. eapply rtc_l; [|apply (schedule_steps Cached)].
  apply one_service_step; [vm_compute; reflexivity|done].
Qed.

(** The service holds an address of the pool. *)
Definition holds (C : Conf) (pool addr key : string) : bool :=
  match srv_eips (srv (now C)) !! pool with
  | Some e => IsZero (DeletionTimestamp (Eip_Meta e)) && bool_decide (key ∈ holders (Eip_Status e) addr)
  | None => false
  end.

Lemma interleaved_invariant_witness : pools_exact (srv (now (demo5 Direct))) ∧
  holds (demo5 Direct) "a" "10.0.0.1" "ns/s1" = true.
Proof.
  split; [|vm_compute; reflexivity].
  exact (proj1 (@interleaved_invariant canonical_range insertion_sort go_cidr subset_labels demo0 (demo5 Direct)
    demo0_initial (demo5_reached Direct))).
Defined.

Lemma cached_invariant_witness : pools_exact (srv (now demo7)) ∧ holds demo7 "a" "10.0.0.1" "ns/s1" = true.
Proof.
  split; [|vm_compute; reflexivity].
  exact (@cached_invariant canonical_range insertion_sort go_cidr subset_labels demo0 demo7 demo0_initial demo7_reached).
Defined.

(** With a stale cache a service can hold two addresses.  A run in which
    every write is checked against the version of its object ends with a
    service that two pools record, neither of them being deleted: the user
    moves the service from one pool to the other, and the worker that reacts
    sees the list of the pools from before the first assignment, so it has
    nothing to release. *)
Theorem stale_cache_records_twice :
  ∃ C0 C, initial C0 ∧
    rtc (@conf_step canonical_range insertion_sort go_cidr subset_labels Cached) C0 C ∧ services C = [] ∧
    holds C "a" "10.0.0.1" "ns/s1" = true ∧ holds C "b" "10.0.1.1" "ns/s1" = true.
Proof. exists demo0, demo7. split_and!; [exact demo0_initial|exact demo7_reached|vm_compute; reflexivity..]. Qed.
