(* ===== verification/Options.v ===== *)
(** * The command-line options of the three binaries

    [cmd/*/app/options/options.go], [pkg/manager/generic.go],
    [pkg/server/options], [pkg/speaker/layer2/options.go],
    [pkg/speaker/vip/options.go], [pkg/speaker/bgp/bgp/options.go] and
    [pkg/version].

    The flag library keeps a pointer to the field a flag is bound to: a
    [flag] of options [O] is its name, its usage text and the field, as a pair
    of a getter and a setter ([BoolVar], [StringVar], [IntVar]).  [AddFlags] is
    the list of flags it declares, in order.  Environment variables are the
    argument [Getenv]; the flags of klog are the argument [klog]. *)
From S2P Require Import Prelude K8s.
Local Open Scope Z_scope.

Inductive fval := FBool (b : bool) | FString (s : string) | FInt (z : Z).
#[export] Instance fval_eq_dec : EqDecision fval.
Proof. solve_decision. Defined.

Record flag (O : Type) := { fl_name : string; fl_usage : string; fl_get : O → fval; fl_set : fval → O → O }.
Arguments fl_name {O} _.
Arguments fl_usage {O} _.
Arguments fl_get {O} _ _.
Arguments fl_set {O} _ _ _.
Arguments Build_flag {O} _ _ _ _.

(** A value of another type is refused by the library and changes nothing. *)
Definition BoolVar {O} (get : O → bool) (set : bool → O → O) (name usage : string) : flag O :=
  Build_flag name usage (λ o, FBool (get o)) (λ v o, match v with FBool b => set b o | _ => o end).
Definition StringVar {O} (get : O → string) (set : string → O → O) (name usage : string) : flag O :=
  Build_flag name usage (λ o, FString (get o)) (λ v o, match v with FString s => set s o | _ => o end).
Definition IntVar {O} (get : O → Z) (set : Z → O → O) (name usage : string) : flag O :=
  Build_flag name usage (λ o, FInt (get o)) (λ v o, match v with FInt z => set z o | _ => o end).

(** A flag of a part of the options. *)
Definition within {O P} (get : O → P) (set : P → O → O) (f : flag P) : flag O :=
  Build_flag (fl_name f) (fl_usage f) (λ o, fl_get f (get o)) (λ v o, set (fl_set f v (get o)) o).

(** ** [layer2/options.go] *)
Module layer2.
Record Options := mkOptions {
  EnableLayer2 : bool; NodeName : string; BindAddr : string; BindPort : Z; SecretKey : string }.
Definition Layer2MemberlistDefaultSecret : string := "openelb-speakers".

Definition NewOptions (Getenv : string → string) : Options :=
  {| EnableLayer2 := false; NodeName := Getenv "NODE_NAME"; BindAddr := "0.0.0.0"; BindPort := 7946;
     SecretKey := Layer2MemberlistDefaultSecret |}.

Definition AddFlags : list (flag Options) := [
  BoolVar EnableLayer2 (λ b v, mkOptions b (NodeName v) (BindAddr v) (BindPort v) (SecretKey v))
    "enable-layer2" "specify whether to start layer2 speaker";
  StringVar NodeName (λ s v, mkOptions (EnableLayer2 v) s (BindAddr v) (BindPort v) (SecretKey v))
    "node-name" "specify node's name";
  StringVar BindAddr (λ s v, mkOptions (EnableLayer2 v) (NodeName v) s (BindPort v) (SecretKey v))
    "bind-addr" "specify the port on which the member list listens";
  IntVar BindPort (λ z v, mkOptions (EnableLayer2 v) (NodeName v) (BindAddr v) z (SecretKey v))
    "bind-port" "specify the address where the member list listens";
  StringVar SecretKey (λ s v, mkOptions (EnableLayer2 v) (NodeName v) (BindAddr v) (BindPort v) s)
    "secret" "specify the memberlist's secret"].
End layer2.

(** ** [vip/options.go] *)
Module vip.
Record VipOptions := mkVipOptions { EnableVIP : bool; LogPath : string; KeepAlivedArgs : string }.
Definition NewVipOptions : VipOptions := {| EnableVIP := false; LogPath := ""; KeepAlivedArgs := "" |}.
Definition AddFlags : list (flag VipOptions) := [
  BoolVar EnableVIP (λ b v, mkVipOptions b (LogPath v) (KeepAlivedArgs v))
    "enable-keepalived-vip" "specify whether to start keepalived-vip";
  StringVar LogPath (λ s v, mkVipOptions (EnableVIP v) s (KeepAlivedArgs v))
    "log-path" "specify the path of the keepalived log file";
  StringVar KeepAlivedArgs (λ s v, mkVipOptions (EnableVIP v) (LogPath v) s)
    "keepalived-args" "specify the arguments of keepalived"].
End vip.

(** ** [bgp/bgp/options.go] *)
Module bgp.
Record BgpOptions := mkBgpOptions { GrpcHosts : string }.
Definition NewBgpOptions : BgpOptions := {| GrpcHosts := ":50051" |}.
Definition AddFlags : list (flag BgpOptions) := [
  StringVar GrpcHosts (λ s _, mkBgpOptions s) "api-hosts" "specify the hosts that gobgpd listens on"].
End bgp.

(** ** [pkg/manager/generic.go] *)
Module manager.
Record GenericOptions := mkGenericOptions {
  WebhookPort : Z; WebhookCertDir : string; MetricsAddr : string; ReadinessAddr : string;
  LeaderElector : bool; LeaderElectionID : string }.
Definition OpenELBControllerLocker : string := "openelb-controller".
Definition NewGenericOptions : GenericOptions :=
  {| WebhookPort := 443; WebhookCertDir := "/tmp/k8s-webhook-server/serving-certs"; MetricsAddr := ":50052";
     ReadinessAddr := "0"; LeaderElector := true; LeaderElectionID := OpenELBControllerLocker |}.
Definition AddFlags : list (flag GenericOptions) := [
  IntVar WebhookPort (λ z o, mkGenericOptions z (WebhookCertDir o) (MetricsAddr o) (ReadinessAddr o) (LeaderElector o) (LeaderElectionID o))
    "webhook-port" "The port that the webhook server serves at";
  StringVar WebhookCertDir (λ s o, mkGenericOptions (WebhookPort o) s (MetricsAddr o) (ReadinessAddr o) (LeaderElector o) (LeaderElectionID o))
    "webhook-cert-dir" "Certificate directory used to setup webhooks.";
  StringVar MetricsAddr (λ s o, mkGenericOptions (WebhookPort o) (WebhookCertDir o) s (ReadinessAddr o) (LeaderElector o) (LeaderElectionID o))
    "metrics-addr" "The address the metric endpoint binds to.";
  StringVar ReadinessAddr (λ s o, mkGenericOptions (WebhookPort o) (WebhookCertDir o) (MetricsAddr o) s (LeaderElector o) (LeaderElectionID o))
    "readiness-addr" "The address readinessProbe used";
  BoolVar LeaderElector (λ b o, mkGenericOptions (WebhookPort o) (WebhookCertDir o) (MetricsAddr o) (ReadinessAddr o) b (LeaderElectionID o))
    "leader-elect" "Enable leader election for controller manager"].

(** What [NewManager] hands to controller-runtime; a nil pointer leaves the
    library's defaults. *)
Record ctrl_Options := {
  ctrl_CertDir : string; ctrl_Port : Z; ctrl_BindAddress : string; ctrl_HealthProbeBindAddress : string;
  ctrl_LeaderElection : bool; ctrl_LeaderElectionID : string }.
Definition ctrl_default : ctrl_Options :=
  {| ctrl_CertDir := ""; ctrl_Port := 0; ctrl_BindAddress := ""; ctrl_HealthProbeBindAddress := "";
     ctrl_LeaderElection := false; ctrl_LeaderElectionID := "" |}.
Definition manager_options (options : option GenericOptions) : ctrl_Options :=
  match options with
  | None => ctrl_default
  | Some o =>
      {| ctrl_CertDir := WebhookCertDir o; ctrl_Port := WebhookPort o; ctrl_BindAddress := MetricsAddr o;
         ctrl_HealthProbeBindAddress := ctrl_HealthProbeBindAddress ctrl_default;
         ctrl_LeaderElection := LeaderElector o; ctrl_LeaderElectionID := LeaderElectionID o |}
  end.
End manager.

(** ** [pkg/server/options] *)
Module server.
Record Options := mkOptions { Port : Z }.
Definition NewOptions : Options := {| Port := 8080 |}.
Definition AddFlags : list (flag Options) := [
  IntVar Port (λ z _, mkOptions z) "http-port" "The port that the http server serves at"].
End server.

(** ** [cmd/*/app/options/options.go] *)

(** [strings.Replace(s, "_", "-", -1)] *)
Fixpoint dashed (s : string) : string :=
  match s with
  | EmptyString => ""
  | String c s => String (if decide (c = "_"%char) then "-"%char else c) (dashed s)
  end.

(** The named sets of flags, in order; those of klog are not fields. *)
Definition klog_flags {O} (klog : list string) : list (flag O) :=
  (λ n, Build_flag (dashed n) "" (λ _, FString "") (λ _ o, o)) <$> klog.

Record OpenELBSpeakerOptions := mkSpeakerOptions {
  Sp_MetricsAddr : string; Sp_Bgp : bgp.BgpOptions; Sp_Layer2 : layer2.Options; Sp_Vip : vip.VipOptions }.
Definition NewOpenELBSpeakerOptions (Getenv : string → string) : OpenELBSpeakerOptions :=
  {| Sp_MetricsAddr := ":50053"; Sp_Bgp := bgp.NewBgpOptions; Sp_Layer2 := layer2.NewOptions Getenv;
     Sp_Vip := vip.NewVipOptions |}.
Definition speaker_Flags (klog : list string) : list (string * list (flag OpenELBSpeakerOptions)) := [
  ("bgp", within Sp_Bgp (λ p o, mkSpeakerOptions (Sp_MetricsAddr o) p (Sp_Layer2 o) (Sp_Vip o)) <$> bgp.AddFlags);
  ("layer2", within Sp_Layer2 (λ p o, mkSpeakerOptions (Sp_MetricsAddr o) (Sp_Bgp o) p (Sp_Vip o)) <$> layer2.AddFlags);
  ("vip", within Sp_Vip (λ p o, mkSpeakerOptions (Sp_MetricsAddr o) (Sp_Bgp o) (Sp_Layer2 o) p) <$> vip.AddFlags);
  ("generic", [StringVar Sp_MetricsAddr (λ s o, mkSpeakerOptions s (Sp_Bgp o) (Sp_Layer2 o) (Sp_Vip o))
     "metrics-addr" "The address the metric endpoint binds to."]);
  ("klog", klog_flags klog)].

Record OpenELBManagerOptions := mkManagerOptions { GenericOptions : manager.GenericOptions }.
Definition NewOpenELBManagerOptions : OpenELBManagerOptions := {| GenericOptions := manager.NewGenericOptions |}.
Definition manager_Flags (klog : list string) : list (string * list (flag OpenELBManagerOptions)) := [
  ("generic", within GenericOptions (λ p _, mkManagerOptions p) <$> manager.AddFlags);
  ("klog", klog_flags klog)].

Record OpenELBApiServerOptions := mkApiServerOptions { HTTPOptions : server.Options }.
Definition NewOpenELBApiServerOptions : OpenELBApiServerOptions := {| HTTPOptions := server.NewOptions |}.
Definition apiserver_Flags (klog : list string) : list (string * list (flag OpenELBApiServerOptions)) := [
  ("http", within HTTPOptions (λ p _, mkApiServerOptions p) <$> server.AddFlags);
  ("klog", klog_flags klog)].

(** [Validate] accepts everything. *)
Definition Validate {O : Type} (_ : O) : list error := [].

(** The command's own set takes the flags of the named sets one by one, and
    skips a name it already has ([AddFlagSet]). *)
Definition add_flag {O} (fs : list (flag O)) (f : flag O) : list (flag O) :=
  if decide (fl_name f ∈ fl_name <$> fs) then fs else fs ++ [f].
Definition command_flags {O} (sets : list (string * list (flag O))) : list (flag O) :=
  foldl add_flag [] (concat sets.*2).

(** The options after a command line; an unknown flag is an error of the
    library. *)
Fixpoint lookup_flag {O} (fs : list (flag O)) (name : string) : option (flag O) :=
  match fs with
  | [] => None
  | f :: fs => if decide (fl_name f = name) then Some f else lookup_flag fs name
  end.
Fixpoint parse_flags {O} (fs : list (flag O)) (args : list (string * fval)) (o : O) : option O :=
  match args with
  | [] => Some o
  | (name, v) :: args => f ← lookup_flag fs name; parse_flags fs args (fl_set f v o)
  end.

(** ** Properties *)
Definition speaker_own : list (flag OpenELBSpeakerOptions) := concat (speaker_Flags []).*2.

Definition same_type (v w : fval) : bool :=
  match v, w with FBool _, FBool _ | FString _, FString _ | FInt _, FInt _ => true | _, _ => false end.

Lemma add_flags_prefix {O} (l fs : list (flag O)) : ∃ rest, foldl add_flag fs l = fs ++ rest.
Proof.
  revert fs. induction l as [|f l IH]; intros fs; cbn.
  { exists []. by rewrite app_nil_r. }
  destruct (IH (add_flag fs f)) as [rest ->]. unfold add_flag. case_decide; [by eexists|].
  exists ([f] ++ rest). by rewrite app_assoc.
Qed.

Lemma lookup_flag_app {O} (fs rest : list (flag O)) name f :
  lookup_flag fs name = Some f → lookup_flag (fs ++ rest) name = Some f.
Proof. induction fs as [|g fs IH]; cbn; [done|]. by case_decide. Qed.

Lemma speaker_flags_prefix klog : ∃ rest, command_flags (speaker_Flags klog) = speaker_own ++ rest.
Proof.
  unfold command_flags. cbn [speaker_Flags]. cbn [fmap list_fmap fst snd concat].
  assert (∃ l, concat (speaker_Flags klog).*2 = speaker_own ++ l) as [l Hl].
  { exists (klog_flags klog). unfold speaker_own. cbn. by rewrite app_nil_r. }
  change (∃ rest, foldl add_flag [] (concat (speaker_Flags klog).*2) = speaker_own ++ rest).
  rewrite Hl, foldl_app. assert (foldl add_flag [] speaker_own = speaker_own) as -> by (vm_compute; reflexivity).
  apply add_flags_prefix.
Qed.

(** Every flag of the speaker is a field of its own. *)
Lemma speaker_flags_fields f g v o : f ∈ speaker_own → g ∈ speaker_own → same_type (fl_get f o) v = true →
  lookup_flag speaker_own (fl_name f) = Some f ∧
  fl_get g (fl_set f v o) = if decide (fl_name g = fl_name f) then v else fl_get g o.
Proof.
  intros Hf Hg Hv. apply list_elem_of_In in Hf, Hg. cbn in Hf, Hg.
  split.
  - repeat (destruct Hf as [<-|Hf]; [reflexivity|]). done.
  - repeat (destruct Hf as [<-|Hf];
      [destruct v; try discriminate Hv; repeat (destruct Hg as [<-|Hg]; [reflexivity|]); done|]). done.
Qed.

(** Each flag of the speaker's command line, whatever flags klog adds,
    sets its own option and no other: after [--name=v] the option of [name] is
    [v] and every other option of the speaker has the value it had. *)
Theorem speaker_flags_set (klog : list string) (f : flag OpenELBSpeakerOptions) (v : fval)
    (o : OpenELBSpeakerOptions) (Hf : f ∈ speaker_own) (Hv : same_type (fl_get f o) v = true) :
  ∃ o', parse_flags (command_flags (speaker_Flags klog)) [(fl_name f, v)] o = Some o' ∧ fl_get f o' = v ∧
    ∀ g, g ∈ speaker_own → fl_name g ≠ fl_name f → fl_get g o' = fl_get g o.
Proof.
  destruct (speaker_flags_prefix klog) as [rest ->]. exists (fl_set f v o). split_and!.
  - unfold parse_flags. rewrite (lookup_flag_app speaker_own rest (fl_name f) f); [done|]. by apply (speaker_flags_fields f f v o).
  - destruct (speaker_flags_fields f f v o Hf Hf Hv) as [_ ->]. by rewrite decide_True.
  - intros g Hg Hne. destruct (speaker_flags_fields f g v o Hf Hg Hv) as [_ ->]. by rewrite decide_False.
Qed.

(** The address of the readiness probe is an option of the controller that
    nothing reads: the manager is the same whatever it is. *)
Theorem readiness_addr_unused (o : manager.GenericOptions) (addr : string) (f : flag manager.GenericOptions)
    (Hf : f ∈ manager.AddFlags) (Hn : fl_name f = "readiness-addr") :
  manager.manager_options (Some (fl_set f (FString addr) o)) = manager.manager_options (Some o).
Proof. apply list_elem_of_In in Hf. cbn in Hf. by repeat (destruct Hf as [<-|Hf]; [try discriminate Hn; reflexivity|]). Qed.

(** ** Witnesses *)
Lemma speaker_flags_set_witness : ∃ o', parse_flags (command_flags (speaker_Flags ["log_dir"; "v"]))
    [("bind-port", FInt 7000)] (NewOpenELBSpeakerOptions (λ _, "node1")) = Some o' ∧
  layer2.BindPort (Sp_Layer2 o') = 7000 ∧ layer2.NodeName (Sp_Layer2 o') = "node1".
Proof.
  destruct (speaker_flags_set ["log_dir"; "v"] (default (StringVar Sp_MetricsAddr (λ _ o, o) "" "") (speaker_own !! 4%nat))
    (FInt 7000) (NewOpenELBSpeakerOptions (λ _, "node1"))) as (o' & H1 & H2 & H3).
  - cbn. do 4 right. left.
  - reflexivity.
  - exists o'. split; [exact H1|]. split; [injection H2 as H2; exact H2|].
    specialize (H3 (default (StringVar Sp_MetricsAddr (λ _ o, o) "" "") (speaker_own !! 2%nat))).
    assert (FString (layer2.NodeName (Sp_Layer2 o')) = FString "node1") as [= E]; [|exact E].
    apply H3; [do 2 right; left|discriminate].
Defined.
