(* ===== verification/Lifecycle.v ===== *)
(** * Starting and stopping: goroutines, channels and processes

    The loops that run for the life of a speaker process, as step relations
    over the program counters of the goroutines involved: the receiving loop
    of an ARP or NDP announcer and its [Stop] ([layer2/arp_announcer.go],
    [layer2/ndp_announcer.go]), the supervision of the keepalived process
    ([vip/keepalived.go], [Start]), and the start of the speaker manager with
    the goroutine of each registered speaker ([manager.go], [Start] and
    [RegisterSpeaker]).  An unbuffered channel is a rendezvous: a sender stays
    in its state until a receiver takes the value.

    The loops that react to one event after another without a hand-shake are
    functions of the list of events: [layer2_Start], [gobgpd_Start] and
    [ListenAndServe]. *)
From S2P Require Import Prelude GoNet Iprange K8s EipTypes Kube Ipam NodeProxy Speaker SpeakerManager Sha256 Keepalived Layer2.
From S2P Require Import Metrics BgpConfig BgpTable BgpTypes BgpPath BgpDaemon Options.
Local Open Scope Z_scope.

(** No run from [s] ever reaches a state that satisfies [P]. *)
Definition never {S : Type} (step : S → S → Prop) (P : S → Prop) (s : S) : Prop :=
  ∀ s', rtc step s s' → ¬ P s'.

Lemma never_inv {S : Type} (step : S → S → Prop) (P I : S → Prop) s :
  I s → (∀ s1 s2, I s1 → step s1 s2 → I s2) → (∀ s1, I s1 → ¬ P s1) → never step P s.
Proof.
  intros Hs Hstep HP s' Hrun. apply HP. revert Hs. induction Hrun as [|x y z Hxy _ IH]; [done|].
  intros Hx. apply IH. by eapply Hstep.
Qed.

(** Every run from [s] reaches a state that satisfies [P], in finitely many
    steps and without getting stuck before. *)
Inductive eventually {S : Type} (step : S → S → Prop) (P : S → Prop) : S → Prop :=
| ev_now s : P s → eventually step P s
| ev_step s : (∃ s', step s s') → (∀ s', step s s' → eventually step P s') → eventually step P s.

(** ** An announcer: [Start] and [Stop]

    The goroutine of [Start] alternates between the [select] and
    [processRequest]; [Stop] closes the socket and then sends on [stopCh]. *)
Inductive recv_pc := RSelect | RRequest | RExit | RPanic.
Inductive stop_pc := SIdle | SSend | SDone.
#[export] Instance stop_pc_eq_dec : EqDecision stop_pc.
Proof. solve_decision. Defined.

Record an_proc (N : Type) := { ap_recv : recv_pc; ap_stop : stop_pc; ap_state : announcer * N }.
Arguments ap_recv {N} _.
Arguments ap_stop {N} _.
Arguments ap_state {N} _.
Arguments Build_an_proc {N} _ _ _.

Section announcer.
Context {N : Type} {H : L2Host N}.

Definition processRequest : ST (announcer * N) dropReason := λ s,
  match an_family s.1 with V4Family => arp_processRequest s | V6Family => ndp_processRequest s end.

(** The step of the goroutine after a request. *)
Definition after_request (r : Result dropReason) : recv_pc :=
  match r with
  | Ok reason => if decide (reason = dropReasonClosed) then RExit else RSelect
  | Err _ => RSelect
  | Panic => RPanic
  end.

(** [select] takes [stopCh] when [Stop] is sending, and the default branch
    otherwise; the announcer's methods run in between. *)
Inductive an_step : an_proc N → an_proc N → Prop :=
| as_default st x : st ≠ SSend → an_step (Build_an_proc RSelect st x) (Build_an_proc RRequest st x)
| as_request st x x' r : processRequest x = (x', r) →
    an_step (Build_an_proc RRequest st x) (Build_an_proc (after_request r) st x')
| as_stopped x : an_step (Build_an_proc RSelect SSend x) (Build_an_proc RExit SDone x)
| as_close pc a n : an_step (Build_an_proc pc SIdle (a, n)) (Build_an_proc pc SSend (a, Stop a n))
| as_add pc st x x' ip r : AddAnnouncedIP ip x = (x', r) →
    an_step (Build_an_proc pc st x) (Build_an_proc pc st x')
| as_del pc st x x' ip r : DelAnnouncedIP ip x = (x', r) →
    an_step (Build_an_proc pc st x) (Build_an_proc pc st x').

Definition an_Start (a : announcer) (n : N) : an_proc N := Build_an_proc RSelect SIdle (a, n).

(** The socket of an announcer reports its end. *)
Definition reads_EOF (x : announcer * N) : Prop :=
  match an_family x.1 with
  | V4Family => ∃ n', arp_Read (If_Name (intf x.1)) x.2 = (n', Err EOF)
  | V6Family => ∃ n', ndp_ReadFrom (If_Name (intf x.1)) x.2 = (n', Err EOF)
  end.

Lemma processRequest_EOF x : reads_EOF x → ∃ n', processRequest x = ((x.1, n'), Ok dropReasonClosed).
Proof.
  destruct x as [a n]. unfold reads_EOF, processRequest. cbn [fst snd]. destruct (an_family a).
  - intros [n' E]. exists n'. unfold arp_processRequest. cbn [fst snd]. rewrite E. by rewrite decide_True.
  - intros [n' E]. exists n'. unfold ndp_processRequest. cbn [fst snd]. rewrite E. by rewrite decide_True.
Qed.

Lemma processRequest_closed x x' : processRequest x = (x', Ok dropReasonClosed) → reads_EOF x.
Proof.
  destruct x as [a n]. unfold reads_EOF, processRequest. cbn [fst snd]. destruct (an_family a).
  - unfold arp_processRequest. cbn [fst snd]. destruct (arp_Read _ n) as [n' [pkt|e|]]; [| |by intros [=]].
    + destruct (decide _); [by intros [=]|]. destruct (getMac _ _); [|by intros [=]].
      destruct (generateArp _ _ _ _ _ _); [|by intros [=]..].
      destruct (raw_WriteTo _ _ _ _) as [n2 [| |]]; by intros [=].
    + destruct (decide (e = EOF)) as [->|]; [eauto|by intros [=]].
  - unfold ndp_processRequest. cbn [fst snd]. destruct (ndp_ReadFrom _ n) as [n' [[[target opts|] ip]|e|]]; [| | |by intros [=]].
    + destruct (source_addr opts) as [[|]|]; [by intros [=]| |by intros [=]].
      destruct (getMac _ _); [|by intros [=]]. destruct (ndp_WriteTo _ _ _ _) as [n2 [| |]]; by intros [=].
    + by intros [=].
    + destruct (decide (e = EOF)) as [->|]; [eauto|by intros [=]].
Qed.

(** Once [Stop] has returned the goroutine has left its loop; until [Stop]
    sends, a goroutine that has left has seen the end of its socket. *)
Lemma an_done_exit s s' : rtc an_step s s' → (ap_stop s = SDone → ap_recv s = RExit) →
  ap_stop s' = SDone → ap_recv s' = RExit.
Proof.
  intros Hrun. induction Hrun as [|x y z Hxy _ IH]; [done|]. intros Hx. apply IH.
  destruct Hxy; cbn in *; try done; intros ->; by specialize (Hx eq_refl).
Qed.
End announcer.

(** ** keepalived: [Start]

    [ks_live] are the processes that have not ended and been waited for.
    [ks_term] are those that were sent SIGTERM: such a process goes on until it
    ends by itself.  When the process of the loop is gone, the goroutine that
    waited for it closes [crashCh] (after half a second, if it failed), and the
    loop starts another one. *)
Inductive ka_pc := KStart | KRun (pid : Z) | KReturned (r : Result ()).
Record ka_proc := { ks_pc : ka_pc; ks_live : gset Z; ks_term : gset Z; ks_stop : bool }.

Definition ESRCH : error := Errorf "no such process".
(** [syscall.Kill(pid, SIGTERM)]: its result, and the processes signalled. *)
Definition kill (live : gset Z) (pid : Z) : Result () := if decide (pid ∈ live) then Ok () else Err ESRCH.
Definition signalled (live term : gset Z) (pid : Z) : gset Z := if decide (pid ∈ live) then {[pid]} ∪ term else term.

(** The arguments of the process. *)
Definition keepalived_args (args : string) : list string :=
  ["--dont-fork"; "--log-console"; "--log-detail"; "--vrrp"; "--release-vips"]
  ++ (if str_empty args then [] else Split " " args).

Inductive ka_step : ka_proc → ka_proc → Prop :=
| ks_exec live term st pid : pid ∉ live →
    ka_step (Build_ka_proc KStart live term st) (Build_ka_proc (KRun pid) ({[pid]} ∪ live) term st)
| ks_exec_err live term st e :
    ka_step (Build_ka_proc KStart live term st) (Build_ka_proc (KReturned (Err e)) live term st)
| ks_dies pc live term st pid : pid ∈ live →
    ka_step (Build_ka_proc pc live term st) (Build_ka_proc pc (live ∖ {[pid]}) term st)
| ks_crashed live term st pid : pid ∉ live → (* case <-crashCh: *)
    ka_step (Build_ka_proc (KRun pid) live term st) (Build_ka_proc KStart live term st)
| ks_signal pc live term : ka_step (Build_ka_proc pc live term false) (Build_ka_proc pc live term true)
| ks_stopped live term pid : (* case <-stopCh: *)
    ka_step (Build_ka_proc (KRun pid) live term true)
      (Build_ka_proc (KReturned (kill live pid)) live (signalled live term pid) true).

(** [Start] after [WriteCfg], whose error it returns. *)
Definition ka_Start `{GS : GoSort} `{R : GoRange} {F : Type} `{HF : KeepalivedHost F} (k : keepAlived F)
    : keepAlived F * ka_proc :=
  let '(k', r) := WriteCfg k in
  (k', {| ks_pc := match r with Ok _ => KStart | _ => KReturned r end; ks_live := ∅; ks_term := ∅; ks_stop := false |}).

(** At most the current process is alive; after a return, it was told to end;
    a return without an error is one that was asked for. *)
Definition ka_sound (s : ka_proc) : Prop :=
  match ks_pc s with
  | KStart => ks_live s = ∅
  | KRun pid => ks_live s ⊆ {[pid]}
  | KReturned r => (∃ pid, ks_live s ⊆ {[pid]}) ∧ ks_live s ⊆ ks_term s ∧ (r = Ok () → ks_stop s = true)
  end.

Lemma ka_step_sound s s' : ka_sound s → ka_step s s' → ka_sound s'.
Proof.
  intros Hs Hstep. destruct Hstep as [live term st pid|live term st e|pc live term st pid|live term st pid|pc live term|live term pid];
    unfold ka_sound in *; cbn in *.
  - set_solver.
  - subst. split_and!; [exists 0; set_solver|set_solver|done].
  - destruct pc as [|q|r]; [set_solver|set_solver|]. destruct Hs as ([q Hq] & Ht & Hr). split_and!; [exists q; set_solver|set_solver|done].
  - set_solver.
  - destruct pc as [|q|r]; [done|done|]. by destruct Hs as (? & ? & _).
  - split_and!; [by exists pid| |done]. unfold signalled. case_decide; set_solver.
Qed.

Lemma ka_Start_sound `{GS : GoSort} `{R : GoRange} {F : Type} `{HF : KeepalivedHost F} (k : keepAlived F) s :
  rtc ka_step (ka_Start k).2 s → ka_sound s.
Proof.
  assert (ka_sound (ka_Start k).2) as H0.
  { unfold ka_Start, ka_sound. destruct (WriteCfg k) as [k' [[]|e|]]; cbn; [done|..]; (split_and!; [by exists 0; set_solver|set_solver|done]). }
  intros Hrun. revert H0. induction Hrun as [|x y z Hxy _ IH]; [done|]. intros Hx. apply IH. by eapply ka_step_sound.
Qed.

(** ** The manager: [Start] and the goroutines of [RegisterSpeaker]

    Each speaker has a goroutine that runs the speaker's [Start] and, when that
    fails, sends the error on [errChan]; another one runs the controllers and
    sends its error on [errCh].  Both channels are unbuffered, and only the
    [select] of the manager's [Start] receives from them. *)
Inductive go_pc := GRun | GSend (e : error) | GDone.
Inductive main_pc := MSelect | MWait (r : option error) | MRet (r : option error).
Record sm_proc := {
  sp_main : main_pc; sp_mgr : go_pc; sp_sps : gmap string go_pc;
  sp_ctx : bool;            (* the context of the process is done *)
  sp_ictx : bool;           (* [cancelFunc] was called *)
  sp_cancelled : gset string (* the speakers whose [cancel] was called *)
}.

Definition all_done (s : sm_proc) : Prop := sp_mgr s = GDone ∧ ∀ n g, sp_sps s !! n = Some g → g = GDone.

(** A speaker's [Start] returns nil only when it is told to stop; the
    controllers likewise. *)
Inductive sm_step : sm_proc → sm_proc → Prop :=
| sm_signal m g sps i c : sm_step (Build_sm_proc m g sps false i c) (Build_sm_proc m g sps true i c)
| sm_speaker_fails m g sps x i c n e : sps !! n = Some GRun →
    sm_step (Build_sm_proc m g sps x i c) (Build_sm_proc m g (<[n := GSend e]> sps) x i ({[n]} ∪ c))
| sm_speaker_ends m g sps x i c n : sps !! n = Some GRun → x = true ∨ n ∈ c →
    sm_step (Build_sm_proc m g sps x i c) (Build_sm_proc m g (<[n := GDone]> sps) x i c)
| sm_mgr_fails m sps x i c e :
    sm_step (Build_sm_proc m GRun sps x i c) (Build_sm_proc m (GSend e) sps x i c)
| sm_mgr_ends m sps x c :
    sm_step (Build_sm_proc m GRun sps x true c) (Build_sm_proc m GDone sps x true c)
| sm_ctx_done g sps i c :
    sm_step (Build_sm_proc MSelect g sps true i c) (Build_sm_proc (MWait None) g sps true true c)
| sm_errCh sps x i c e : (* case err = <-errCh: *)
    sm_step (Build_sm_proc MSelect (GSend e) sps x i c) (Build_sm_proc MSelect GDone sps x i c)
| sm_errChan g sps x i c n e : sps !! n = Some (GSend e) →
    sm_step (Build_sm_proc MSelect g sps x i c)
      (Build_sm_proc (MWait (Some e)) g (<[n := GDone]> sps) x true (dom sps))
| sm_waited r g sps x i c : all_done (Build_sm_proc (MWait r) g sps x i c) →
    sm_step (Build_sm_proc (MWait r) g sps x i c) (Build_sm_proc (MRet r) g sps x i c).

(** [Start] after the speakers [names] were registered. *)
Definition sm_Start (names : gset string) : sm_proc :=
  {| sp_main := MSelect; sp_mgr := GRun; sp_sps := gset_to_gmap GRun names;
     sp_ctx := false; sp_ictx := false; sp_cancelled := ∅ |}.

(** A goroutine is blocked on a channel. *)
Definition blocked (s : sm_proc) : Prop :=
  (∃ e, sp_mgr s = GSend e) ∨ ∃ n e, sp_sps s !! n = Some (GSend e).

(** ** The layer-2 speaker: [NewSpeaker], [joinMembers] and [Start]

    The member list and the pods of the speakers are third-party: the class
    [L2Boot]. *)
Record mlConfig := { ml_Name : string; ml_BindAddr : string; ml_BindPort : Z; ml_SecretKey : string }.
Class L2Boot (N : Type) := {
  memberlist_Create : mlConfig → ST N ();
  speaker_pods : string → N → Result (list string);   (* the [PodIP] of each pod of the speakers *)
  memberlist_Join : list string → ST N ();
}.

Definition GetSecret (Getenv : string → string) : string := Getenv "MEMBER_LIST_SECRET".

(** What happens to the loop of [Start]: a change of the members, or the stop. *)
Inductive l2_event := L2Node | L2Stop.

Section layer2_start.
Context {R : GoRange} {N : Type} {H : L2Host N} {B : L2Boot N} (Getenv : string → string).

Definition ml_config (opt : Options.layer2.Options) : mlConfig :=
  let secret := GetSecret Getenv in
  {| ml_Name := Options.layer2.NodeName opt; ml_BindAddr := Options.layer2.BindAddr opt;
     ml_BindPort := Options.layer2.BindPort opt;
     ml_SecretKey := if str_empty secret then Options.layer2.SecretKey opt else secret |}.

Definition NewSpeaker (opt : Options.layer2.Options) : ST N (layer2Speaker N) := λ n,
  match memberlist_Create (ml_config opt) n with
  | (n, Ok _) => (n, Ok {| announcers := ∅; l2_net := n |})
  | (n, Err e) => (n, Err e)
  | (n, Panic) => (n, Panic)
  end.

Definition joinMembers : ST (layer2Speaker N) () := λ l,
  match speaker_pods (EnvNamespace (Getenv "OPENELB_NAMESPACE")) (l2_net l) with
  | Ok iplist =>
      let '(n, r) := memberlist_Join iplist (l2_net l) in ({| announcers := announcers l; l2_net := n |}, r)
  | Err e => (l, Err e)
  | Panic => (l, Panic)
  end.

(** The event each change of the members sends on [reloadChan]: the
    namespace and name of the object. *)
Definition reload_event : string * string := (constant.Layer2ReloadEIPNamespace, constant.Layer2ReloadEIPName).

(** The loop: what it sends, the speaker after it, and whether it returned. *)
Fixpoint layer2_loop (evs : list l2_event) (l : layer2Speaker N)
    : list (string * string) * layer2Speaker N * bool :=
  match evs with
  | [] => ([], l, false)
  | L2Stop :: _ => ([], unregisterAllAnnouncers l, true)
  | L2Node :: evs => let '(sent, l', b) := layer2_loop evs l in (reload_event :: sent, l', b)
  end.

Definition layer2_Start (evs : list l2_event) (l : layer2Speaker N)
    : list (string * string) * layer2Speaker N * option (Result ()) :=
  match joinMembers l with
  | (l, Ok _) => let '(sent, l', b) := layer2_loop evs l in (sent, l', if b : bool then Some (Ok ()) else None)
  | (l, r) => ([], l, Some r)
  end.
End layer2_start.

(** ** The tables of [gobgpd.go]

    [cache] is a map behind a mutex; every method holds the mutex to its end, so
    the methods take effect one after the other. *)
Inductive cache_op (V : Type) := CacheSet (k : string) (v : V) | CacheDelete (k : string).
Arguments CacheSet {V} k v.
Arguments CacheDelete {V} k.

Definition new_cache {V} : gmap string V := ∅.
Definition cache_set {V} (c : gmap string V) (k : string) (v : V) : gmap string V := <[k := v]> c.
Definition cache_delete {V} (c : gmap string V) (k : string) : gmap string V := delete k c.
Definition cache_get {V} (c : gmap string V) (k : string) : option V := c !! k.
Definition cache_apply {V} (c : gmap string V) (o : cache_op V) : gmap string V :=
  match o with CacheSet k v => cache_set c k v | CacheDelete k => cache_delete c k end.

(** What the last method that named [k] left there. *)
Fixpoint last_value {V} (k : string) (ops : list (cache_op V)) (before : option V) : option V :=
  match ops with
  | [] => before
  | CacheSet k' v :: rest => last_value k rest (if decide (k' = k) then Some v else before)
  | CacheDelete k' :: rest => last_value k rest (if decide (k' = k) then None else before)
  end.

Lemma cache_get_last {V} (ops : list (cache_op V)) k :
  cache_get (foldl cache_apply new_cache ops) k = last_value k ops None.
Proof.
  change (None : option V) with (cache_get (V := V) new_cache k). generalize (new_cache (V := V)).
  induction ops as [|[k' v|k'] ops IH]; intros c; cbn [foldl last_value]; [done|..]; rewrite IH; f_equal; unfold cache_get; cbn;
    unfold cache_set, cache_delete; [apply lookup_insert|apply lookup_delete].
Qed.

(** ** gobgp: [NewGoBgpd] and [Start]

    [Start] serves until it is told to stop; the error of [StopBgp] is only
    logged. *)
Definition NewGoBgpd {G : Type} (NewBgpServer : string → G) (opt : Options.bgp.BgpOptions) : Bgp G :=
  {| rack := ""; bgpServer := NewBgpServer (Options.bgp.GrpcHosts opt) |}.
Definition gobgpd_Start {G V F : Type} `{GM : GoBgpMessages} `{BD : !BgpDaemon G} : ST (BgpProcess G V F) () :=
  ignore_err (on_daemon StopBgp).

(** ** The HTTP server: [ListenAndServe]

    The error of the listener, or the shut-down, in time or not. *)
Inductive http_event := HttpServeErr (e : error) | HttpStop (in_time : bool).
Definition DeadlineExceeded : error := Errorf "context deadline exceeded".
Definition ListenAndServe (ev : http_event) : Result () :=
  match ev with
  | HttpServeErr e => Err e
  | HttpStop in_time => if in_time : bool then Ok () else Err DeadlineExceeded
  end.

(** Stopping an announcer can hang.  If reading the closed socket reports
    its end (the case [processRequest] answers with [dropReasonClosed]), there
    is an interleaving in which the receiving goroutine is inside
    [processRequest] when [Stop] closes the socket, leaves its loop, and never
    takes the value that [Stop] then sends: [Stop] blocks for ever, and with it
    the caller. *)
Theorem announcer_Stop_hangs {N : Type} `{H : L2Host N} (a : announcer) (n : N)
    (Heof : reads_EOF (a, Stop a n)) :
  ∃ s, rtc an_step (an_Start a n) s ∧ ap_stop s = SSend ∧ never an_step (λ s, ap_stop s = SDone) s.
Proof.
  destruct (processRequest_EOF _ Heof) as [n' Hp].
  exists (Build_an_proc RExit SSend (a, n')). split; [|split; [done|]].
  - eapply rtc_l; [by apply as_default|]. eapply rtc_l; [apply as_close|].
    apply rtc_once. eapply (as_request SSend) in Hp. cbn [after_request] in Hp. by rewrite decide_True in Hp.
  - apply (never_inv _ _ (λ s, ap_recv s = RExit ∧ ap_stop s = SSend)); [done| |by intros ? [_ ->]].
    intros s1 s2 [H1 H2] Hstep. by destruct Hstep; cbn in *.
Qed.

(** Stopping an announcer works when no read reports the end of the
    socket and no request panics: from every state in which [Stop] is sending,
    the goroutine can take the value within two steps, and once [Stop] has
    returned the goroutine answers no more requests. *)
Theorem announcer_Stop_returns {N : Type} `{H : L2Host N} (a : announcer) (n : N) (s : an_proc N)
    (Heof : ∀ x : announcer * N, ¬ reads_EOF x)
    (Hpanic : ∀ x : announcer * N, (processRequest x).2 ≠ Panic)
    (Hrun : rtc an_step (an_Start a n) s) :
  (ap_stop s = SSend → ∃ s', rtc an_step s s' ∧ ap_stop s' = SDone ∧ ap_recv s' = RExit) ∧
  (ap_stop s = SDone → ap_recv s = RExit).
Proof.
  assert (∀ x, after_request (processRequest x).2 = RSelect) as Hsel.
  { intros x. destruct (processRequest x) as [x' [reason|e|]] eqn:E; [|done|].
    - cbn. destruct (decide _) as [->|]; [|done]. by destruct (Heof x (processRequest_closed _ _ E)).
    - destruct (Hpanic x). by rewrite E. }
  assert (ap_stop s ≠ SDone → ap_recv s = RSelect ∨ ap_recv s = RRequest) as Hpc.
  { assert (ap_stop (an_Start a n) ≠ SDone → ap_recv (an_Start a n) = RSelect ∨ ap_recv (an_Start a n) = RRequest) as H0 by (by left).
    revert H0. clear Heof Hpanic. induction Hrun as [|x y z Hxy _ IH]; [done|].
    intros Hx. apply IH. destruct Hxy as [| st x x' r Hp | | | |]; cbn in *; eauto; [|by intros []].
    specialize (Hsel x). rewrite Hp in Hsel. cbn in Hsel. rewrite Hsel. by left. }
  split; [|by apply (an_done_exit (an_Start a n))].
  destruct s as [pc st x]. cbn in *. intros ->. destruct Hpc as [->| ->]; [done|..].
  - exists (Build_an_proc RExit SDone x). split; [apply rtc_once, as_stopped|done].
  - destruct (processRequest x) as [x' r] eqn:E. specialize (Hsel x). rewrite E in Hsel. cbn in Hsel.
    exists (Build_an_proc RExit SDone x'). split; [|done]. eapply rtc_l; [by apply (as_request SSend)|].
    rewrite Hsel. apply rtc_once, as_stopped.
Qed.

(** The steps while the speaker is not stopped. *)
Definition ka_unstopped (s s' : ka_proc) : Prop := ka_step s s' ∧ ks_stop s' = false.
Definition ka_running (s : ka_proc) : Prop := ∃ pid, ks_pc s = KRun pid ∧ pid ∈ ks_live s.

(** C34: keepalived is supervised.  Whatever the order in which the process ends,
    is restarted and is told to stop: at most one process is alive at a time; a
    process that is still alive after [Start] has returned was sent SIGTERM; and
    [Start] returns without an error only when it was told to stop.  While it is
    not, and has not returned, every run gets in finitely many steps to a running
    keepalived, or to the return of the error of starting one; no state in
    between is stuck. *)
Theorem keepalived_supervised `{GS : GoSort} `{R : GoRange} {F : Type} `{HF : KeepalivedHost F} (k k' : keepAlived F)
    (s0 s : ka_proc) (Hstart : ka_Start k = (k', s0)) (Hrun : rtc ka_step s0 s) :
  (∀ p q, p ∈ ks_live s → q ∈ ks_live s → p = q) ∧
  (∀ r, ks_pc s = KReturned r → (∀ p, p ∈ ks_live s → p ∈ ks_term s) ∧ (r = Ok () → ks_stop s = true)) ∧
  (ks_stop s = false → (∀ r, ks_pc s ≠ KReturned r) →
   eventually ka_unstopped (λ s', ka_running s' ∨ ∃ e, ks_pc s' = KReturned (Err e)) s).
Proof.
  assert (ka_sound s) as Hs by (apply (ka_Start_sound k); by rewrite Hstart).
  destruct s as [pc live term st]. unfold ka_sound in Hs. cbn in *. split_and!.
  - assert (∀ pid, live ⊆ {[pid]} → ∀ p q, p ∈ live → q ∈ live → p = q) as Hone.
    { intros pid Hl p q Hp%Hl%elem_of_singleton Hq%Hl%elem_of_singleton. congruence. }
    destruct pc as [|pid|r]; [subst; by intros p q ?%elem_of_empty|by apply (Hone pid)|]. destruct Hs as ([pid Hpid] & _). by apply (Hone pid).
  - intros r ->. destruct Hs as (_ & Ht & Hr). split; [set_solver|done].
  - intros -> Hpc.
    assert (∀ term, eventually ka_unstopped (λ s', ka_running s' ∨ ∃ e, ks_pc s' = KReturned (Err e))
      (Build_ka_proc KStart ∅ term false)) as Hst.
    { intros term'. apply ev_step.
      - exists (Build_ka_proc (KRun 1) ({[1]} ∪ ∅) term' false). split; [apply ks_exec; set_solver|done].
      - intros s' [Hstep Hns]. inversion Hstep; subst; cbn in *; try done; apply ev_now.
        + left. exists pid. split; [done|cbn; set_solver].
        + right. by eexists. }
    destruct pc as [|pid|r]; [by subst|..|by destruct (Hpc r)]. destruct (decide (pid ∈ live)) as [Hin|Hout].
    { apply ev_now. left. by exists pid. }
    assert (live = ∅) as -> by set_solver. apply ev_step.
    + exists (Build_ka_proc KStart ∅ term false). split; [by apply ks_crashed|done].
    + intros s' [Hstep Hns]. inversion Hstep; subst; cbn in *; done || apply Hst.
Qed.

(** A stop that arrives after the process has ended and before the
    supervisor has noticed makes [Start] return an error. *)
Theorem keepalived_stop_after_crash (pid : Z) :
  ∃ s, rtc ka_step {| ks_pc := KStart; ks_live := ∅; ks_term := ∅; ks_stop := false |} s ∧ ks_pc s = KReturned (Err ESRCH).
Proof.
  eexists. split.
  - eapply rtc_l; [by apply (ks_exec _ _ _ pid)|]. eapply rtc_l; [apply (ks_dies _ _ _ _ pid); set_solver|].
    eapply rtc_l; [apply ks_signal|]. apply rtc_once, (ks_stopped _ _ pid).
  - cbn. unfold kill. rewrite decide_False by set_solver. done.
Qed.

(** Where the manager waits, the goroutines have been told to stop. *)
Definition sm_told (s : sm_proc) : Prop :=
  match sp_main s with
  | MSelect => True
  | MWait _ | MRet _ => sp_ictx s = true ∧ (sp_ctx s = true ∨ dom (sp_sps s) ⊆ sp_cancelled s)
  end.

Lemma sm_step_told s s' : sm_told s → sm_step s s' → sm_told s'.
Proof.
  intros Hs Hstep. destruct Hstep; unfold sm_told in *; cbn in *; try done; try (destruct m; naive_solver).
  - destruct m; [done|..]; destruct Hs as [-> [-> | Hc]]; (split; [done|]); [by left| |by left|]; right; rewrite dom_insert_lookup_L by done; set_solver.
  - destruct m; [done|..]; destruct Hs as [-> [-> | Hc]]; (split; [done|]); [by left| |by left|]; right; by rewrite dom_insert_lookup_L by done.
  - split; [done|]. by left.
  - split; [done|]. right. by rewrite dom_insert_lookup_L by done.
Qed.

(** A blocked goroutine stays blocked while the manager waits. *)
Lemma blocked_step s1 s2 : (∃ r, sp_main s1 = MWait r) → blocked s1 → sm_step s1 s2 → (∃ r, sp_main s2 = MWait r) ∧ blocked s2.
Proof.
  intros [r Hm] Hb Hstep. destruct Hstep; cbn in *; simplify_eq; try (split; [by eauto|]).
  - done.
  - destruct Hb as [Hb|(k & e' & Hk)]; [by left|right]. cbn in *. exists n, e. by rewrite lookup_insert_eq.
  - destruct Hb as [Hb|(k & e' & Hk)]; [by left|right]. cbn in *. exists k, e'. rewrite lookup_insert_ne; congruence.
  - left. cbn. eauto.
  - destruct Hb as [[? ?]|Hb]; [done|by right].
  - exfalso. destruct H as [Hg Hd]. cbn in *. destruct Hb as [[e He]|(k & e & Hk)]; cbn in *; [congruence|]. by specialize (Hd k _ Hk).
Qed.
Lemma blocked_never r s : sp_main s = MWait r → blocked s → never sm_step (λ s, ∃ r, sp_main s = MRet r) s.
Proof.
  intros Hm Hb. apply (never_inv _ _ (λ s, (∃ r, sp_main s = MWait r) ∧ blocked s)); [by eauto| |by intros s1 [[r1 ->] _] [r2 ?]].
  intros s1 s2 [Hr Hb1]. by apply blocked_step.
Qed.

(** At most one speaker is blocked on [errChan]. *)
Definition one_blocked (s : sm_proc) : Prop :=
  ∀ n k e e', sp_sps s !! n = Some (GSend e) → sp_sps s !! k = Some (GSend e') → n = k.

(** Of two speakers that failed, one will stay blocked. *)
Lemma two_blocked_never s n k e e' : sp_main s = MSelect → n ≠ k →
  sp_sps s !! n = Some (GSend e) → sp_sps s !! k = Some (GSend e') → never sm_step (λ s, ∃ r, sp_main s = MRet r) s.
Proof.
  intros Hm Hnk Hn Hk.
  apply (never_inv _ _ (λ s, (sp_main s = MSelect ∧ (∃ e, sp_sps s !! n = Some (GSend e)) ∧ ∃ e, sp_sps s !! k = Some (GSend e)) ∨
    ((∃ r, sp_main s = MWait r) ∧ blocked s))).
  - left. eauto.
  - clear -Hnk. intros s1 s2 [(Hm & [e1 Hn] & [e2 Hk])|[Hr Hb]] Hstep; [|right; by eapply blocked_step].
    destruct Hstep as [m g sps i c|m g sps x i c q e Hq|m g sps x i c q Hq Hx|m sps x i c e|m sps x c|g sps i c|sps x i c e|
      g sps x i c q e Hq|r g sps x i c Hd]; cbn in *; simplify_eq; try (left; by eauto).
    + left. rewrite !lookup_insert_ne by congruence. eauto.
    + left. rewrite !lookup_insert_ne by congruence. eauto.
    + right. split; [eauto|]. right. eauto.
    + right. split; [by eauto|]. right. cbn. destruct (decide (q = n)) as [->|Hqn].
      * exists k, e2. by rewrite lookup_insert_ne.
      * exists n, e1. by rewrite lookup_insert_ne.
  - intros s1 [(-> & _)|[[r ->] _]] [r' ?]; done.
Qed.

(** The manager returns what it waits with. *)
Lemma wait_value r s s' : rtc sm_step s s' → sp_main s = MWait r ∨ sp_main s = MRet r → sp_main s' = MWait r ∨ sp_main s' = MRet r.
Proof.
  induction 1 as [|x y z Hxy _ IH]; [done|]. intros Hx. apply IH. destruct Hxy; cbn in *; naive_solver.
Qed.

Lemma finish_speakers (l : list string) : ∀ m g sps x i c, (∀ n, n ∈ l → sps !! n = Some GRun ∨ sps !! n = Some GDone) →
  x = true ∨ dom sps ⊆ c →
  ∃ sps', rtc sm_step (Build_sm_proc m g sps x i c) (Build_sm_proc m g sps' x i c) ∧
    ∀ n, sps' !! n = if decide (n ∈ l) then Some GDone else sps !! n.
Proof.
  induction l as [|n l IH]; intros m g sps x i c Hl Hx.
  { exists sps. split; [done|]. intros n. by rewrite decide_False by apply not_elem_of_nil. }
  destruct (IH m g (<[n := GDone]> sps) x i c) as (sps' & Hrun & Hl').
  { intros k Hk. destruct (decide (k = n)) as [->|Hne]; [right; apply lookup_insert_eq|].
    rewrite lookup_insert_ne by done. apply Hl. by right. }
  { destruct Hx as [?|Hx]; [by left|right]. rewrite dom_insert_lookup_L; [done|]. destruct (Hl n ltac:(left)) as [-> | ->]; eauto. }
  exists sps'. split.
  - destruct (Hl n ltac:(left)) as [Hn|Hn]; [|by rewrite insert_id in Hrun].
    eapply rtc_l; [|exact Hrun]. apply sm_speaker_ends; [done|]. destruct Hx as [?|Hx]; [by left|right].
    apply Hx, elem_of_dom. eauto.
  - intros k. rewrite Hl'. destruct (decide (k = n)) as [->|Hne].
    + rewrite (decide_True (P := n ∈ n :: l)) by left. destruct (decide _); [done|apply lookup_insert_eq].
    + rewrite lookup_insert_ne by done. destruct (decide (k ∈ l)); [rewrite decide_True by (by right); done|].
      rewrite decide_False; [done|]. intros [?|?]%elem_of_cons; done.
Qed.

(** Once it waits, the manager can return if nothing is blocked. *)
Lemma wait_returns (names : gset string) s r : rtc sm_step (sm_Start names) s → sp_main s = MWait r → ¬ blocked s →
  ∃ s', rtc sm_step s s' ∧ sp_main s' = MRet r.
Proof.
  intros Hrun Hmain Hb. assert (sm_told s) as Htold.
  { assert (sm_told (sm_Start names)) as H0 by done. revert H0. clear Hmain Hb.
    induction Hrun as [|x y z Hxy _ IH]; [done|]. intros Hx. apply IH. by eapply sm_step_told. }
  destruct s as [m g sps x i c]. cbn in Hmain. subst m. destruct Htold as [Hi Hx]. cbn in Hi, Hx. subst i.
  destruct (finish_speakers (map_to_list sps).*1 (MWait r) g sps x true c) as (sps' & Hs & Hl).
  { intros n ([k p] & -> & Hk%elem_of_map_to_list)%list_elem_of_fmap. cbn. rewrite Hk.
    destruct p; [by left| |by right]. destruct Hb. right. eauto. }
  { done. }
  assert (all_done (Build_sm_proc (MWait r) GDone sps' x true c)) as Hdone.
  { split; [done|]. cbn. intros n p. rewrite Hl. case_decide as Hn; [by intros [= <-]|].
    intros Hp. destruct Hn. apply list_elem_of_fmap. exists (n, p). by rewrite elem_of_map_to_list. }
  exists (Build_sm_proc (MRet r) GDone sps' x true c). split; [|done].
  eapply rtc_trans; [exact Hs|]. eapply (rtc_trans _ (Build_sm_proc (MWait r) GDone sps' x true c)).
  - destruct g; [apply rtc_once, sm_mgr_ends| |done]. destruct Hb. left. by eexists.
  - by apply rtc_once, sm_waited.
Qed.

(** From its [select], the manager can come to wait with nothing blocked if at
    most one speaker has failed: the error of that speaker is received, or the
    context is done. *)
Lemma select_waits s : sp_main s = MSelect → one_blocked s → ∃ s' r, rtc sm_step s s' ∧ sp_main s' = MWait r ∧ ¬ blocked s'.
Proof.
  destruct s as [m g sps x i c]. cbn. intros -> Hone.
  assert (∃ g', rtc sm_step (Build_sm_proc MSelect g sps x i c) (Build_sm_proc MSelect g' sps x i c) ∧ ∀ e, g' ≠ GSend e) as (g' & Hg & Hng).
  { destruct g as [|e|]; [by exists GRun|exists GDone; split; [apply rtc_once, sm_errCh|done]|by exists GDone]. }
  destruct (decide (map_Exists (λ _ p, match p with GSend _ => true | _ => false end = true) sps)) as [(n & [|e|] & Hn & Hp)|Hnone]; [done| |done|].
  - exists (Build_sm_proc (MWait (Some e)) g' (<[n := GDone]> sps) x true (dom sps)), (Some e). split_and!; [|done|].
    + eapply rtc_r; [exact Hg|]. by apply sm_errChan.
    + intros [[e' He]|(k & e' & Hk)]; [by destruct (Hng e')|]. cbn in Hk.
      apply lookup_insert_Some in Hk as [[_ ?]|[Hne Hk]]; [done|]. by destruct Hne, (Hone n k e e' Hn Hk).
  - exists (Build_sm_proc (MWait None) g' sps true true c), None. split_and!; [|done|].
    + eapply rtc_r; [|apply sm_ctx_done]. destruct x; [exact Hg|]. eapply rtc_r; [exact Hg|apply sm_signal].
    + intros [[e' He]|(k & e' & Hk)]; [by destruct (Hng e')|]. destruct Hnone. by exists k, (GSend e').
Qed.

(** C33: when the [Start] of the speaker manager can return.  In its [select] it
    can exactly when at most one speaker has failed and is blocked on [errChan];
    once it has left the [select] and waits for the goroutines, exactly when
    none is blocked on one of the two error channels.  So it hangs for ever as
    soon as two speakers have failed, or one fails (or the controllers do) while
    the manager is on its way out.  It returns nil when its context was done, and
    otherwise the error it received. *)
Theorem manager_Start_returns_iff (names : gset string) (s : sm_proc) (Hrun : rtc sm_step (sm_Start names) s) :
  ((∃ s' r, rtc sm_step s s' ∧ sp_main s' = MRet r) ↔
   match sp_main s with MSelect => one_blocked s | MWait _ => ¬ blocked s | MRet _ => True end) ∧
  (∀ r s' r', sp_main s = MWait r → rtc sm_step s s' → sp_main s' = MRet r' → r' = r).
Proof.
  split.
  - destruct (sp_main s) as [|r|r] eqn:Em.
    + split.
      * intros (s' & r & Hs & Hr) n k e e' Hn Hk. destruct (decide (n = k)) as [|Hnk]; [done|].
        destruct (two_blocked_never s n k e e' Em Hnk Hn Hk s' Hs). eauto.
      * intros Hone. destruct (select_waits s Em Hone) as (s1 & r & H1 & Hm1 & Hb1).
        destruct (wait_returns names s1 r) as (s' & Hs & Hr); [by etrans|done..|]. exists s', r. split; [by etrans|done].
    + split.
      * intros (s' & r' & Hs & Hr) Hb. destruct (blocked_never r s Em Hb s' Hs). eauto.
      * intros Hb. destruct (wait_returns names s r Hrun Em Hb) as (s' & Hs & Hr). eauto.
    + split; [done|]. intros _. by exists s, r.
  - intros r s' r' Hm Hs Hr. destruct (wait_value r s s' Hs (or_introl Hm)); congruence.
Qed.

(** An error of the controllers is lost: the manager's [select] takes it
    from [errCh] and waits again, so that from then on the process keeps its
    speakers and no longer reconciles anything, until its context is done or a
    speaker fails. *)
Theorem manager_Start_ignores_controllers (names : gset string) (err : error) :
  ∃ s, rtc sm_step (sm_Start names) s ∧ sp_main s = MSelect ∧ sp_mgr s = GDone ∧
    ∀ s', sm_step s s' → sp_ctx s' = true ∨ ∃ n e, sp_sps s' !! n = Some (GSend e).
Proof.
  exists (Build_sm_proc MSelect GDone (gset_to_gmap GRun names) false false ∅). split_and!; [|done..|].
  - eapply rtc_l; [apply (sm_mgr_fails _ _ _ _ _ err)|]. apply rtc_once, sm_errCh.
  - intros s' Hstep. inversion Hstep as [|m g sps x i c n e Hn|m g sps x i c n Hn Hx| | | | |g sps x i c n e Hn|]; subst; cbn.
    + by left.
    + right. exists n, e. apply lookup_insert_eq.
    + destruct Hx as [?|Hx]; [done|set_solver].
    + apply lookup_gset_to_gmap_Some in Hn as [_ ?]. done.
Qed.

(** Two speakers that fail one after the other: the second one blocks the
    manager's [Start] for ever. *)
Lemma manager_Start_hangs (n k : string) (names : gset string) (e1 e2 : error) :
  n ∈ names → k ∈ names → n ≠ k →
  ∃ s, rtc sm_step (sm_Start names) s ∧ sp_main s = MWait (Some e1) ∧ never sm_step (λ s, ∃ r, sp_main s = MRet r) s.
Proof.
  intros Hn Hk Hne.
  assert (∀ x, x ∈ names → gset_to_gmap GRun names !! x = Some GRun) as Hl by (intros; by apply lookup_gset_to_gmap_Some).
  eexists. split; [|split; [|eapply (blocked_never (Some e1)); [|right; exists k, e2]]].
  - eapply rtc_l; [eapply (sm_speaker_fails _ _ _ _ _ _ n e1), Hl, Hn|].
    eapply rtc_l; [eapply (sm_speaker_fails _ _ _ _ _ _ k e2)|].
    { rewrite lookup_insert_ne by done. by apply Hl. }
    apply rtc_once, (sm_errChan _ _ _ _ _ n e1). rewrite lookup_insert_ne by done. apply lookup_insert_eq.
  - done.
  - done.
  - cbn. rewrite lookup_insert_ne by done. apply lookup_insert_eq.
Qed.

(** Every change of the members that the layer-2 speaker sees before it is
    stopped asks once for a resynchronisation, which is what the Eip controller
    does on that event; when it is stopped it drops every announcer. *)
Theorem layer2_Start_reloads `{R : GoRange} `{L : CidrLib} {W : Type} `{K : KubeClient W} `{P : ProxyClient W}
    `{EC : EndpointsClient W} {Sp : Type} `{SI : Speaker Sp} {N : Type} `{H : L2Host N} `{B : !L2Boot N}
    (Getenv : string → string) (changes : nat) (rest : list l2_event) (l l1 : layer2Speaker N)
    (Hjoin : joinMembers Getenv l = (l1, Ok ())) :
  ∃ sent l', layer2_Start Getenv (replicate changes L2Node ++ L2Stop :: rest) l = (sent, l', Some (Ok ())) ∧
    length sent = changes ∧ announcers l' = ∅ ∧
    ∀ ev, ev ∈ sent → ∀ (w : W) (m : SMgr Sp), EIP_Reconcile w ev.1 ev.2 m = ResyncEIPSpeaker w m.
Proof.
  assert (layer2_loop (replicate changes L2Node ++ L2Stop :: rest) l1 =
    (replicate changes reload_event, unregisterAllAnnouncers l1, true)) as Hloop.
  { induction changes as [|k IH]; [done|]. cbn. cbn in IH. by rewrite IH. }
  eexists _, _. unfold layer2_Start. rewrite Hjoin, Hloop. split_and!; [done|apply length_replicate|done|].
  intros ev Hev w m. apply elem_of_replicate in Hev as [-> _]. done.
Qed.

(** ** Witnesses *)
Definition eth0 : NetInterface := {| If_Name := "eth0"; If_HardwareAddr := [2;0;0;0;0;1]; If_Addrs := Ok ["10.0.0.254/24"] |}.

Lemma announcer_Stop_hangs_witness : ∃ s,
  rtc an_step (an_Start (new_announcer V4Family eth0) {| dn_name := "node1"; dn_members := [] |}) s ∧
  ap_stop s = SSend ∧ never an_step (λ s, ap_stop s = SDone) s.
Proof.
  refine (announcer_Stop_hangs (new_announcer V4Family eth0) {| dn_name := "node1"; dn_members := [] |} _).
  cbn. eexists. reflexivity.
Defined.

(** A host whose sockets time out and, once closed, report that. *)
Record QuietNet := { qn_open : bool }.
#[export] Instance quiet_l2 : L2Host QuietNet := {|
  l2_NodeName n := "node1"; Members n := ["node1"];
  ListenPacket i n := (n, Ok ()); arp_New i n := (n, Ok ()); ndp_Listen i n := (n, Ok ());
  NewPacket op a b c d := Ok []; MarshalFrame d s p := Ok p; raw_WriteTo i f d n := (n, Ok ());
  arp_Read i n := (n, Err (Errorf (if qn_open n then "i/o timeout" else "use of closed network connection")));
  arp_Close i n := {| qn_open := false |};
  SolicitedNodeMulticast a := Ok a; JoinGroup i a n := (n, Ok ()); LeaveGroup i a n := (n, Ok ());
  ndp_WriteTo i m a n := (n, Ok ());
  ndp_ReadFrom i n := (n, Err (Errorf (if qn_open n then "i/o timeout" else "use of closed network connection")));
  ndp_Close i n := {| qn_open := false |};
|}.

Definition quiet_sending : an_proc QuietNet :=
  Build_an_proc RRequest SSend (new_announcer V4Family eth0, {| qn_open := false |}).

Lemma announcer_Stop_returns_witness : ∃ s', rtc an_step quiet_sending s' ∧ ap_stop s' = SDone ∧ ap_recv s' = RExit.
Proof.
  refine (proj1 (announcer_Stop_returns (new_announcer V4Family eth0) {| qn_open := true |} quiet_sending _ _ _) eq_refl).
  - intros [a [[]]]; unfold reads_EOF; cbn; destruct (an_family a); intros [? [=]].
  - intros [a [[]]]; unfold processRequest; cbn [fst]; destruct (an_family a); cbn; discriminate.
  - eapply rtc_l; [apply as_default; discriminate|]. apply rtc_once.
    exact (as_close RRequest (new_announcer V4Family eth0) {| qn_open := true |}).
Defined.

Lemma keepalived_supervised_witness :
  eventually ka_unstopped (λ s', ka_running s' ∨ ∃ e, ks_pc s' = KReturned (Err e))
    (Build_ka_proc (KRun 7) (({[7]} ∪ ∅) ∖ {[7]}) ∅ false).
Proof.
  refine (proj2 (proj2 (@keepalived_supervised insertion_sort canonical_range DemoHost demo_host (demo_new 0) (WriteCfg (demo_new 0)).1
    (Build_ka_proc KStart ∅ ∅ false) (Build_ka_proc (KRun 7) (({[7]} ∪ ∅) ∖ {[7]}) ∅ false) _ _)) eq_refl _).
  - vm_compute. reflexivity.
  - eapply rtc_l; [apply (ks_exec _ _ _ 7); set_solver|]. apply rtc_once, ks_dies. set_solver.
  - discriminate.
Defined.

Definition stopping : sm_proc :=
  {| sp_main := MWait None; sp_mgr := GRun; sp_sps := gset_to_gmap GRun {["bgp"; "vip"]};
     sp_ctx := true; sp_ictx := true; sp_cancelled := ∅ |}.

Lemma manager_Start_returns_iff_witness : ∃ s' r, rtc sm_step stopping s' ∧ sp_main s' = MRet r.
Proof.
  apply (proj1 (manager_Start_returns_iff {["bgp"; "vip"]} stopping
    (rtc_l _ _ _ _ (sm_signal _ _ _ _ _) (rtc_once _ _ (sm_ctx_done _ _ _ _))))).
  cbn. intros [[e [=]]|(n & e & Hn)]. cbn in Hn. apply lookup_gset_to_gmap_Some in Hn as [_ [=]].
Defined.

#[export] Instance demo_boot : L2Boot DemoNet := {|
  memberlist_Create c n := ({| dn_name := ml_Name c; dn_members := [ml_Name c] |}, Ok ());
  speaker_pods ns n := Ok ["10.0.0.1"; "10.0.0.2"];
  memberlist_Join ips n := ({| dn_name := dn_name n; dn_members := ["node1"; "node2"] |}, Ok ()) |}.

Lemma layer2_Start_reloads_witness : ∃ sent l',
  @layer2_Start canonical_range DemoNet demo_l2 demo_boot (λ _, "") [L2Node; L2Node; L2Stop]
    (l2_set "node1" ["node1"]) = (sent, l', Some (Ok ())) ∧
  length sent = 2%nat ∧ announcers l' = ∅ ∧
  ∀ ev, ev ∈ sent → ∀ (w : ProxyWorld) (m : SMgr (gset string)),
    @EIP_Reconcile canonical_range go_cidr ProxyWorld _ _ _ _ recorder w ev.1 ev.2 m =
    @ResyncEIPSpeaker canonical_range ProxyWorld _ _ _ _ recorder w m.
Proof.
  eapply (@layer2_Start_reloads canonical_range go_cidr ProxyWorld _ _ _ _ recorder DemoNet demo_l2 demo_boot (λ _, "") 2 []
    (l2_set "node1" ["node1"])).
  reflexivity.
Defined.
