(* ===== verification/BgpRoutes.v ===== *)
(** * The BGP speaker with its metrics ([pkg/speaker/bgp/bgp/path.go])

    [BgpPath] models the routes alone.  Here the calls run in the whole process
    ([BgpProcess]): after a change of the routes they list the peers of gobgp
    and count the change in the metrics of each peer.  The process is an
    instance of [Speaker], and a simulation shows that it makes the same
    changes to the routes and gives the same answers as [BgpPath], so that it
    keeps the promises of [SpeakerOk]. *)
From S2P Require Import Prelude GoNet Iprange K8s Speaker Metrics BgpConfig BgpTable BgpTypes BgpPath BgpDaemon BgpControllers.
Local Open Scope Z_scope.

Section routes.
Context {R : GoRange} {G V F : Type} `{GM : GoBgpMessages} {BD : BgpDaemon G} {BS : BgpServer G} {MV : MetricVec V}.
(** [util.GetNodeName()] *)
Context (nodeName : string).
Abbreviation W := (BgpProcess G V F).

Definition on_routes {A} (call : ST (Bgp G) A) : ST W A := λ w,
  let '(b, r) := call (bp_bgp w) in (mkBgpProcess b (bp_metrics w) (bp_files w), r).

(** nil when the peers cannot be listed. *)
Definition getPeers : ST W (option (list api_Peer)) :=
  r ← st_try (on_daemon ListPeer);
  mret (match r with Ok l => Some l | _ => None end).

(** The loop over the peers; [peer.Conf] may be a nil pointer. *)
Fixpoint count_paths (count : bool) (announced pending : Z) (peerList : list api_Peer) : ST W () :=
  match peerList with
  | [] => mret ()
  | peer :: rest =>
      (if count then
         match Peer_Conf peer with
         | None => st_lift Panic
         | Some (neighborAddress, _) =>
             on_metrics (UpdateBGPPathMetrics neighborAddress nodeName (FloatOfInt announced) (FloatOfInt pending))
         end
       else mret ());;
      count_paths count announced pending rest
  end.

(** What follows a change of the routes. *)
Definition for_peers (count : list api_Peer → ST W ()) : ST W () :=
  peerList ← getPeers;
  match peerList with None => mret () | Some l => count l end.

Definition proc_setBalancer (ip : string) (nexthops : list string) : ST W () :=
  let prefix := host_prefix ip in
  routes ← on_routes (retriveRoutes ip prefix nexthops);
  on_routes (addMultiRoutes ip prefix routes.1);;
  on_routes (deleteMultiRoutes ip prefix routes.2);;
  for_peers (count_paths (match routes.1 with [] => false | _ => true end) 1 0).

Definition proc_SetBalancer (ip : string) (nodes : list Node) : ST W () :=
  on_routes ready;;
  nexthops ← on_routes (st_read (λ b, rack_nexthops (rack b) nodes));
  proc_setBalancer ip nexthops.

(** [existPath]: no destination without paths was seen. *)
Definition exist_path (dests : list (list Path)) : bool :=
  forallb (λ paths : list Path, match paths with [] => false | _ => true end) dests.

Definition proc_DelBalancer (ip : string) : ST W () :=
  r ← st_try (on_routes ready);
  match r with
  | Err _ => mret ()
  | Panic => st_lift Panic
  | Ok _ =>
      dests ← on_routes (on_server (ListPath (getFamily ip) ip));
      e ← on_routes (delete_dests dests None);
      st_lift (match e with Some e => Err e | None => Ok () end);;
      for_peers (λ l, if exist_path dests then count_paths true 0 1 l else mret ())
  end.

Definition proc_ConfigureWithEIP (config : Config) (deleted : bool) : ST W () :=
  on_routes (bgp_ConfigureWithEIP config deleted).

#[export] Instance proc_speaker : Speaker W := {|
  SetBalancer := proc_SetBalancer; DelBalancer := proc_DelBalancer; ConfigureWithEIP := proc_ConfigureWithEIP |}.

(** ** The process follows the speaker of [BgpPath] *)
Context {BO : BgpDaemonOk G} {BR : BgpRestartOk G}.

Definition same_routes (b1 b2 : Bgp G) : Prop := rack b1 = rack b2 ∧ brib b1 = brib b2.

Lemma getPeers_spec (w w' : W) r : getPeers w = (w', r) →
  same_routes (bp_bgp w') (bp_bgp w) ∧ bp_metrics w' = bp_metrics w ∧
  (r = Ok None ∨ ∃ l, r = Ok (Some l) ∧ Forall (λ p, is_Some (Peer_Conf p)) l).
Proof.
  unfold getPeers, mbind, ST_bind, st_try. unfold on_daemon.
  destruct (ListPeer (bgpServer (bp_bgp w))) as [g r1] eqn:E. pose proof (ListPeer_routes _ _ _ E) as Hr.
  pose proof (ListPeer_law _ _ _ E) as Hl.
  destruct r1 as [l|e|]; [| |done]; intros [= <- <-]; (split; [by split|]); (split; [done|]); [right|by left].
  exists l. split; [done|]. apply Hl.
Qed.

Lemma count_paths_spec b a p l (w w' : W) r : Forall (λ p, is_Some (Peer_Conf p)) l → count_paths b a p l w = (w', r) →
  bp_bgp w' = bp_bgp w ∧ r = Ok ().
Proof.
  revert w. induction l as [|x l IH]; intros w Hl; cbn [count_paths]; [by intros [= <- <-]|].
  apply Forall_cons in Hl as [[[na ni] Hx] Hl]. unfold mbind, ST_bind. destruct b; [|by apply IH].
  rewrite Hx. cbn. intros H. apply IH in H; [|done]. done.
Qed.

(** Listing and counting after a change of the routes. *)
Lemma counting_sim (count : list api_Peer → ST W ()) (w w' : W) r :
  (∀ l w1 w1' r1, Forall (λ p, is_Some (Peer_Conf p)) l → count l w1 = (w1', r1) → bp_bgp w1' = bp_bgp w1 ∧ r1 = Ok ()) →
  for_peers count w = (w', r) →
  same_routes (bp_bgp w') (bp_bgp w) ∧ r = Ok ().
Proof.
  intros Hc. unfold for_peers, mbind, ST_bind. destruct (getPeers w) as [w1 r1] eqn:E.
  apply getPeers_spec in E as ([H1 H2] & _ & [->|(l & -> & Hl)]); [by intros [= <- <-]|].
  intros H. destruct (Hc l _ _ _ Hl H) as [Hb ->]. unfold same_routes. by rewrite Hb.
Qed.

Lemma proc_SetBalancer_sim ip nodes (w w' : W) r : proc_SetBalancer ip nodes w = (w', r) →
  ∃ b, bgp_SetBalancer ip nodes (bp_bgp w) = (b, r) ∧ same_routes (bp_bgp w') b.
Proof.
  unfold proc_SetBalancer, bgp_SetBalancer. unfold mbind, ST_bind, on_routes.
  destruct (ready (bp_bgp w)) as [b1 [[]|e|]]; [|by intros [= <- <-]; eexists..].
  cbn [bp_bgp]. destruct (st_read _ b1) as [b2 [hops|e|]]; [|by intros [= <- <-]; eexists..].
  unfold proc_setBalancer, bgp_setBalancer, mbind, ST_bind, on_routes.
  cbn [bp_bgp]. destruct (retriveRoutes _ _ _ b2) as [b3 [[toAdd toDelete]|e|]]; [|by intros [= <- <-]; eexists..].
  cbn [bp_bgp fst snd]. destruct (addMultiRoutes _ _ _ b3) as [b4 [[]|e|]]; [|by intros [= <- <-]; eexists..].
  cbn [bp_bgp]. destruct (deleteMultiRoutes _ _ _ b4) as [b5 [[]|e|]]; [|by intros [= <- <-]; eexists..].
  intros H. apply counting_sim in H as [Hs ->]; [by exists b5|]. intros l w1 w2 r1. apply count_paths_spec.
Qed.

Lemma proc_DelBalancer_sim ip (w w' : W) r : proc_DelBalancer ip w = (w', r) →
  ∃ b, bgp_DelBalancer ip (bp_bgp w) = (b, r) ∧ same_routes (bp_bgp w') b.
Proof.
  unfold proc_DelBalancer, bgp_DelBalancer. unfold mbind, ST_bind, st_try, on_routes.
  destruct (ready (bp_bgp w)) as [b1 [[]|e|]]; [|by intros [= <- <-]; eexists..].
  cbn [bp_bgp].
  destruct (on_server (ListPath _ _) b1) as [b2 [dests|e|]]; [|by intros [= <- <-]; eexists..].
  cbn [bp_bgp]. destruct (delete_dests dests None b2) as [b3 [[e|]|e|]]; [by intros [= <- <-]; eexists| |by intros [= <- <-]; eexists..].
  cbn. intros H. apply (counting_sim (λ l, if exist_path dests then count_paths true 0 1 l else mret ())) in H as [Hs ->]; [by exists b3|].
  intros l w1 w2 r1 Hl. destruct (exist_path dests); [by apply count_paths_spec|by intros [= <- <-]].
Qed.

Definition proc_announced (w : W) : gset string := bgp_announced (bp_bgp w).
Definition proc_hosts (w : W) : Prop := host_routes (brib (bp_bgp w)).

(** The process keeps the promises of a speaker. *)
#[export] Instance proc_ok {BSO : BgpServerOk G} : SpeakerOk W proc_hosts proc_announced.
Proof.
  assert (∀ b1 b2, same_routes b1 b2 → bgp_announced b1 = bgp_announced b2) as Hann
    by (intros b1 b2 [_ E]; unfold bgp_announced; by rewrite E).
  unfold proc_hosts, proc_announced. constructor.
  - intros ip nodes w w' r Hh (b & H & Hs)%proc_SetBalancer_sim. rewrite (Hann _ _ Hs). destruct Hs as [_ ->].
    exact (SetBalancer_law (Sp := Bgp G) ip nodes _ _ _ Hh H).
  - intros ip w w' r Hh (b & H & Hs)%proc_DelBalancer_sim. rewrite (Hann _ _ Hs). destruct Hs as [_ ->].
    exact (DelBalancer_law (Sp := Bgp G) ip _ _ _ Hh H).
  - intros c x w w' r Hh [= <- <-]. done.
Qed.
End routes.

(** ** The counters *)
Section counters.
Context {G V F : Type} `{GM : GoBgpMessages} {BD : BgpDaemon G} {MV : MetricVec V} {MO : MetricVecOk V} (nodeName : string).
Abbreviation W := (BgpProcess G V F).

Definition neighbors (l : list api_Peer) : list string := fst <$> omap Peer_Conf l.

Lemma count_paths_counts a p l : ∀ (w w' : W), NoDup (neighbors l) → count_paths nodeName true a p l w = (w', Ok ()) →
  (∀ n, n ∈ neighbors l →
     vec_value (announcedPrefixesTotal (bp_metrics w')) [n; nodeName] =
       Some (FloatAdd (default (FloatOfInt 0) (vec_value (announcedPrefixesTotal (bp_metrics w)) [n; nodeName])) (FloatOfInt a)) ∧
     vec_value (pendingPrefixesTotal (bp_metrics w')) [n; nodeName] =
       Some (FloatAdd (default (FloatOfInt 0) (vec_value (pendingPrefixesTotal (bp_metrics w)) [n; nodeName])) (FloatOfInt p))) ∧
  (∀ n, n ∉ neighbors l →
     vec_value (announcedPrefixesTotal (bp_metrics w')) [n; nodeName] = vec_value (announcedPrefixesTotal (bp_metrics w)) [n; nodeName] ∧
     vec_value (pendingPrefixesTotal (bp_metrics w')) [n; nodeName] = vec_value (pendingPrefixesTotal (bp_metrics w)) [n; nodeName]).
Proof.
  induction l as [|x l IH]; intros w w' Hnd; cbn [count_paths].
  { intros [= <-]. split; [by intros n ?%not_elem_of_nil|done]. }
  unfold mbind, ST_bind. destruct (Peer_Conf x) as [[na ni]|] eqn:Ex; [|done]. unfold on_metrics.
  assert (neighbors (x :: l) = na :: neighbors l) as Hn by (unfold neighbors; cbn; by rewrite Ex).
  rewrite Hn in *. apply NoDup_cons in Hnd as [Hna Hnd]. intros H. destruct (IH _ _ Hnd H) as [Hin Hout].
  cbn [bp_metrics announcedPrefixesTotal pendingPrefixesTotal UpdateBGPPathMetrics on_bgp] in Hin, Hout.
  assert (∀ n, n ≠ na → [n; nodeName] ≠ [na; nodeName]) as Hne by (intros n Hne [= ?]; done).
  split.
  - intros n [->|Hn']%elem_of_cons.
    + destruct (Hout na Hna) as [-> ->]. by rewrite !vec_Add_value, !decide_True.
    + destruct (Hin n Hn') as [-> ->]. rewrite !vec_Add_value, !decide_False; [done|apply Hne; by intros ->..].
  - intros n [Hnn Hn']%not_elem_of_cons. destruct (Hout n Hn') as [-> ->].
    rewrite !vec_Add_value, !decide_False; [done|by apply Hne..].
Qed.
End counters.

(** Withdrawing an address counts a withdrawal for every peer of gobgp
    whether or not the address was announced: for an address gobgp knows no
    destination of, the table stays as it is, and the counter of prefixes
    waiting to be deleted of each peer grows by one. *)
Theorem DelBalancer_counts_absent `{R : GoRange} {G V F : Type} `{GM : GoBgpMessages} `{BD : !BgpDaemon G}
    `{BS : !BgpServer G} `{MV : MetricVec V} `{MO : !MetricVecOk V} `{BO : !BgpDaemonOk G} `{BR : !BgpRestartOk G}
    `{BSO : !BgpServerOk G} (nodeName ip : string) (w w' : BgpProcess G V F) (b1 : Bgp G) (g g2 : G) (peers : list api_Peer)
    (Hready : ready (bp_bgp w) = (b1, Ok ()))
    (Habsent : ListPath (getFamily ip) ip (bgpServer b1) = (g, Ok []))
    (Hlist : ListPeer g = (g2, Ok peers)) (Hnd : NoDup (neighbors peers))
    (Hdel : proc_DelBalancer nodeName ip w = (w', Ok ())) :
  brib (bp_bgp w') = brib (bp_bgp w) ∧
  ∀ n, n ∈ neighbors peers →
    vec_value (pendingPrefixesTotal (bp_metrics w')) [n; nodeName] =
    Some (FloatAdd (default (FloatOfInt 0) (vec_value (pendingPrefixesTotal (bp_metrics w)) [n; nodeName])) (FloatOfInt 1)).
Proof.
  revert Hdel. unfold proc_DelBalancer, mbind, ST_bind, st_try, on_routes. rewrite Hready. cbn [bp_bgp].
  destruct (ready_spec _ _ _ Hready) as (Hb1 & _ & _). unfold on_server. rewrite Habsent.
  pose proof (ListPath_rib _ _ _ _ _ Habsent) as Hg. cbn. unfold for_peers, mbind, ST_bind.
  unfold getPeers, mbind, ST_bind, st_try, on_daemon. cbn [bp_bgp bgpServer]. rewrite Hlist. cbn.
  pose proof (ListPeer_routes _ _ _ Hlist) as Hg2. intros H. split.
  - destruct (count_paths_spec nodeName true 0 1 peers _ _ _ (proj1 (proj2 (ListPeer_law _ _ _ Hlist))) H) as [-> _].
    unfold brib at 1. cbn. rewrite Hg2, Hg. exact Hb1.
  - intros n Hn. destruct (count_paths_counts nodeName 0 1 peers _ _ Hnd H) as [Hin _]. by apply Hin.
Qed.

(** ** Witness: a daemon with one peer and no routes *)
#[local] Existing Instance canonical_range.
#[export] Instance demo_daemon_routes_ok : BgpServerOk demo_daemon.
Proof.
  split; cbn.
  - by intros g g' r [= <- <-].
  - by intros g g' r [= <- <-] [?|?].
  - intros f ip g g' r. destruct (ListPath f ip (dd_rib g)). by intros [= <- <-].
  - intros ip g g' ds Hh [= <- <-]. exact (ListPath_finds ip (dd_rib g) _ _ Hh eq_refl).
  - by intros p g g' r [= <- <-].
  - by intros p g g' r [= <- <-].
Qed.

Definition demo_counted : BgpProcess demo_daemon (gmap (list string) float64) (gmap string string) :=
  fst (proc_DelBalancer "node1" "10.9.9.9" demo_peered).

Lemma DelBalancer_counts_absent_witness :
  vec_value (pendingPrefixesTotal (bp_metrics demo_counted)) ["10.0.0.1"; "node1"] =
  Some (FloatAdd (default (FloatOfInt 0) (vec_value (pendingPrefixesTotal (bp_metrics demo_peered)) ["10.0.0.1"; "node1"])) (FloatOfInt 1)).
Proof.
  refine (proj2 (DelBalancer_counts_absent "node1" "10.9.9.9" demo_peered demo_counted (bp_bgp demo_peered)
    (bgpServer (bp_bgp demo_peered)) (bgpServer (bp_bgp demo_peered))
    (map_to_list (dv_peers (wview demo_peered))).*2 _ _ _ _ _) "10.0.0.1" _).
  - vm_compute. reflexivity.
  - vm_compute. reflexivity.
  - vm_compute. reflexivity.
  - vm_compute. repeat constructor. intros H. inversion H.
  - apply pair_result. vm_compute. reflexivity.
  - vm_compute. left.
Defined.
