(* ===== verification/SpeakerProcess.v ===== *)
(** * The speaker process ([cmd/speaker/app/speaker.go])

    One process per node: the manager with the speakers of the enabled
    protocols, fed by the Eip controller.  [any_speaker] is what a registered
    speaker may be; [Run] is the wiring up to the start of the manager (a call
    of [klog.Fatalf] ends the process: an error).

    The theorems say what the process registers and how the routes of gobgp
    follow the pools and the services that it handles; [Fleet] puts such
    processes beside the controllers and the users, on one API server. *)
From S2P Require Import Prelude GoNet Iprange Idalloc K8s EipTypes Kube Ipam IpamController NodeProxy LbController.
From S2P Require Import Speaker SpeakerManager Sha256 Keepalived Layer2 Strconv Metrics BgpConfig BgpTable BgpTypes.
From S2P Require Import BgpPath BgpDaemon BgpControllers BgpRoutes Options Lifecycle System.
Local Open Scope Z_scope.

(** ** The speakers of a process *)
Inductive any_speaker (G V F H N : Type) :=
| SpBgp (b : BgpProcess G V F)
| SpVip (k : keepAlived H)
| SpLayer2 (l : layer2Speaker N).
Arguments SpBgp {G V F H N} _.
Arguments SpVip {G V F H N} _.
Arguments SpLayer2 {G V F H N} _.

Section process.
Context {R : GoRange} {GS : GoSort} {HN : HostNet} {G V F H N : Type}.
Context `{GM : GoBgpMessages} {BD : BgpDaemon G} {BS : BgpServer G} {MV : MetricVec V}.
Context {KH : KeepalivedHost H} {LH : L2Host N} {LB : L2Boot N}.
Context (nodeName : string) (Getenv : string → string).
Abbreviation S := (any_speaker G V F H N).

(** A call on the speaker behind the interface. *)
Definition dispatch {A} (bgp : ST (BgpProcess G V F) A) (vip : ST (keepAlived H) A) (l2 : ST (layer2Speaker N) A)
    : ST S A := λ s,
  match s with
  | SpBgp b => let '(b', r) := bgp b in (SpBgp b', r)
  | SpVip k => let '(k', r) := vip k in (SpVip k', r)
  | SpLayer2 l => let '(l', r) := l2 l in (SpLayer2 l', r)
  end.

#[export] Instance any_Speaker : Speaker S := {|
  SetBalancer ip nodes := dispatch (proc_SetBalancer nodeName ip nodes) (ka_SetBalancer ip nodes) (l2_SetBalancer ip nodes);
  DelBalancer ip := dispatch (proc_DelBalancer nodeName ip) (ka_DelBalancer ip) (l2_DelBalancer ip);
  ConfigureWithEIP c b := dispatch (proc_ConfigureWithEIP c b) (ka_ConfigureWithEIP c b) (l2_ConfigureWithEIP c b) |}.

(** ** [Run]

    [setup] is the outcome of each registration of a controller with
    controller-runtime; the host's states are those the speakers start with. *)
Definition fatal {A B} (text : string) (r : Result A) (k : A → Result B) : Result B :=
  match r with
  | Ok a => k a
  | Err e => Err (Errorf (text +:+ err_text e))
  | Panic => Panic
  end.

Definition register (name : string) (s : S) (m : SMgr S) : SMgr S := fst (RegisterSpeaker name s m).

Definition Run (setup : string → Result ()) (NewBgpServer : string → G) (metrics : Registry V) (files : F)
    (khost : H) (net : N) (opt : OpenELBSpeakerOptions) : Result (SMgr S) :=
  let spmanager := NewSpeakerManager in
  fatal "unable to new manager: " (setup "manager") (λ _,
  let bgpServer := mkBgpProcess (NewGoBgpd NewBgpServer (Sp_Bgp opt)) metrics files in
  fatal "unable to setup bgpconf: " (setup "bgpconf") (λ _,
  fatal "unable to setup bgppeer: " (setup "bgppeer") (λ _,
  let spmanager := register constant.OpenELBProtocolBGP (SpBgp bgpServer) spmanager in
  spmanager ← (if Options.vip.EnableVIP (Sp_Vip opt) then
                 fatal "unable to new vip speaker: " (snd (NewKeepAlived khost)) (λ keepalive,
                   Ok (register constant.OpenELBProtocolVip (SpVip keepalive) spmanager))
               else Ok spmanager);
  spmanager ← (if Options.layer2.EnableLayer2 (Sp_Layer2 opt) then
                 fatal "unable to new layer2 speaker: " (snd (NewSpeaker Getenv (Sp_Layer2 opt) net)) (λ layer2speaker,
                   Ok (register constant.OpenELBProtocolLayer2 (SpLayer2 layer2speaker) spmanager))
               else Ok spmanager);
  fatal "unable to setup lbcontroller: " (setup "lb") (λ _,
  fatal "unable to setup eipcontroller: " (setup "eip") (λ _,
  Ok spmanager))))).

(** ** The promises of the speakers

    The BGP and the VIP speaker keep those of [SpeakerOk] whatever the manager
    does; the layer-2 speaker does so only while no two pools overlap, which is
    not part of the interface, so it is not among the speakers that are [any_ok]. *)
Definition any_ok (s : S) : Prop :=
  match s with SpBgp b => proc_hosts b | SpVip k => ka_ok k | SpLayer2 _ => False end.
Definition any_announced (s : S) : gset string :=
  match s with SpBgp b => proc_announced b | SpVip k => ka_announced k | SpLayer2 _ => ∅ end.

Context {BO : BgpDaemonOk G} {BR : BgpRestartOk G} {BSO : BgpServerOk G} {KHO : KeepalivedHostOk H}.

#[export] Instance any_speaker_ok : SpeakerOk S any_ok any_announced.
Proof.
  constructor.
  - intros ip nodes [b|k|l] s' r Hok; [| |done]; cbn; unfold dispatch.
    + destruct (proc_SetBalancer _ _ _ _) eqn:E. intros [= <- <-]. exact (SetBalancer_law (SI := proc_speaker nodeName) _ _ _ _ _ Hok E).
    + destruct (ka_SetBalancer _ _ _) eqn:E. intros [= <- <-]. exact (SetBalancer_law (SI := keepalived_speaker) _ _ _ _ _ Hok E).
  - intros ip [b|k|l] s' r Hok; [| |done]; cbn; unfold dispatch.
    + destruct (proc_DelBalancer _ _ _) eqn:E. intros [= <- <-]. exact (DelBalancer_law (SI := proc_speaker nodeName) _ _ _ _ Hok E).
    + destruct (ka_DelBalancer _ _) eqn:E. intros [= <- <-]. exact (DelBalancer_law (SI := keepalived_speaker) _ _ _ _ Hok E).
  - intros c x [b|k|l] s' r Hok; [| |done]; cbn; unfold dispatch.
    + intros [= <- <-]. by destruct b.
    + destruct (ka_ConfigureWithEIP _ _ _) eqn:E. intros [= <- <-]. exact (ConfigureWithEIP_law (SI := keepalived_speaker) _ _ _ _ _ Hok E).
Qed.
End process.

(** ** The process that [Run] sets up *)
Section run.
Context {R : GoRange} {GS : GoSort} {HN : HostNet} {G V F H N : Type}.
Context `{GM : GoBgpMessages} {BD : BgpDaemon G} {BS : BgpServer G} {MV : MetricVec V}.
Context {KH : KeepalivedHost H} {LH : L2Host N} {LB : L2Boot N}.
Context (nodeName : string) (Getenv : string → string).
Context {BO : BgpDaemonOk G} {BR : BgpRestartOk G} {BSO : BgpServerOk G} {KHO : KeepalivedHostOk H}.

Lemma fatal_Ok {A B} text (r : Result A) (k : A → Result B) b : fatal text r k = Ok b → ∃ a, r = Ok a ∧ k a = Ok b.
Proof. destruct r; cbn; [eauto|done..]. Qed.

Definition with_vip (b : bool) (k : keepAlived H) (m : gmap string (any_speaker G V F H N)) :=
  if b then <["vip" := SpVip k]> m else m.
Definition with_layer2 (b : bool) (l : layer2Speaker N) (m : gmap string (any_speaker G V F H N)) :=
  if b then <["layer2" := SpLayer2 l]> m else m.

(** What a process that has been set up consists of. *)
Lemma Run_speakers setup NewBgpServer (ms : Registry V) (fs : F) (kh : H) (net : N) opt m :
  Run Getenv setup NewBgpServer ms fs kh net opt = Ok m →
  pools m = ∅ ∧ ∃ k l,
    speakers m =
      with_layer2 (Options.layer2.EnableLayer2 (Sp_Layer2 opt)) l (with_vip (Options.vip.EnableVIP (Sp_Vip opt)) k
        {["bgp" := SpBgp (mkBgpProcess (NewGoBgpd NewBgpServer (Sp_Bgp opt)) ms fs)]}) ∧
    (Options.vip.EnableVIP (Sp_Vip opt) = true → snd (NewKeepAlived kh) = Ok k) ∧
    (Options.layer2.EnableLayer2 (Sp_Layer2 opt) = true → snd (NewSpeaker Getenv (Sp_Layer2 opt) net) = Ok l).
Proof.
  unfold Run. intros (_ & _ & (_ & _ & (_ & _ & (m1 & H1 & (m2 & H2 & (_ & _ & (_ & _ & [= <-])%fatal_Ok)%fatal_Ok)%Result_bind_Ok)%Result_bind_Ok)%fatal_Ok)%fatal_Ok)%fatal_Ok.
  set (m0 := register _ _ _) in H1.
  assert (pools m1 = ∅ ∧ ∃ k, speakers m1 = with_vip (Options.vip.EnableVIP (Sp_Vip opt)) k (speakers m0) ∧
    (Options.vip.EnableVIP (Sp_Vip opt) = true → snd (NewKeepAlived kh) = Ok k)) as (Hp1 & k & Hs1 & Hk).
  { destruct (Options.vip.EnableVIP (Sp_Vip opt)).
    - apply fatal_Ok in H1 as (k & Hk & [= <-]). split; [done|]. by exists k.
    - injection H1 as <-. split; [done|]. destruct (Idalloc.New 256) as [a| |] eqn:Ea; [|done..].
      by exists {| ka_instances := ∅; vips := ∅; configs := ∅; idAlloc := a; host := kh |}. }
  assert (pools m2 = ∅ ∧ ∃ l, speakers m2 = with_layer2 (Options.layer2.EnableLayer2 (Sp_Layer2 opt)) l (speakers m1) ∧
    (Options.layer2.EnableLayer2 (Sp_Layer2 opt) = true → snd (NewSpeaker Getenv (Sp_Layer2 opt) net) = Ok l)) as (Hp2 & l & Hs2 & Hl).
  { destruct (Options.layer2.EnableLayer2 (Sp_Layer2 opt)).
    - apply fatal_Ok in H2 as (l & Hl & [= <-]). split; [done|]. by exists l.
    - injection H2 as <-. split; [done|]. by exists {| announcers := ∅; l2_net := net |}. }
  split; [done|]. exists k, l. rewrite Hs2, Hs1. split_and!; [|done..].
  unfold m0. cbn. by rewrite insert_empty.
Qed.

(** Without layer 2, the process starts with nothing announced and speakers
    that keep their promises. *)
Lemma Run_starting setup NewBgpServer (ms : Registry V) (fs : F) (kh : H) (net : N) opt m :
  Run Getenv setup NewBgpServer ms fs kh net opt = Ok m → (∀ hosts, rib (NewBgpServer hosts) = ∅) →
  Options.layer2.EnableLayer2 (Sp_Layer2 opt) = false → starting any_ok any_announced m.
Proof.
  intros HR Hrib Hl2. destruct (Run_speakers _ _ _ _ _ _ _ _ HR) as (Hp & k & l & Hs & Hk & _). rewrite Hl2 in Hs. cbn in Hs.
  split; [done|]. intros p s. rewrite Hs.
  assert (∀ p s, ({["bgp" := SpBgp (mkBgpProcess (NewGoBgpd NewBgpServer (Sp_Bgp opt)) ms fs)]}
    : gmap string (any_speaker G V F H N)) !! p = Some s → any_ok s ∧ any_announced s = ∅) as Hb.
  { intros p' s' [_ <-]%lookup_singleton_Some. cbn. unfold proc_hosts, proc_announced, bgp_announced, brib.
    cbn [bp_bgp NewGoBgpd bgpServer]. rewrite Hrib, dom_empty_L. split; [by intros ? ? ?%lookup_empty_Some|apply set_map_empty]. }
  unfold with_vip. destruct (Options.vip.EnableVIP (Sp_Vip opt)); [|by apply Hb].
  intros [[_ <-]|[_ Hp']]%lookup_insert_Some; [|by eapply Hb]. cbn.
  specialize (Hk eq_refl). destruct (NewKeepAlived kh) as [f r] eqn:E. cbn in Hk. subst r. by eapply NewKeepAlived_ok.
Qed.
End run.

(** A speaker process is set up with a speaker for exactly the enabled
    protocols: BGP always, the VIP and the layer-2 protocol when their option
    is set; it knows no pool, and a pool of any other protocol is refused. *)
Theorem Run_registers `{R : GoRange} `{GS : GoSort} `{HN : HostNet} `{L : CidrLib} {W : Type} `{K : KubeClient W}
    `{P : ProxyClient W} `{EC : EndpointsClient W} {G V F H N : Type} `{GM : GoBgpMessages} `{BD : !BgpDaemon G}
    `{BS : !BgpServer G} `{MV : MetricVec V} `{KH : KeepalivedHost H} `{LH : L2Host N} `{LB : !L2Boot N}
    (nodeName : string) (Getenv : string → string) (setup : string → Result ()) (NewBgpServer : string → G)
    (ms : Registry V) (fs : F) (kh : H) (net : N) (opt : OpenELBSpeakerOptions) (m : SMgr (any_speaker G V F H N))
    (HR : Run Getenv setup NewBgpServer ms fs kh net opt = Ok m) :
  let enabled p := p = constant.OpenELBProtocolBGP ∨
    (p = constant.OpenELBProtocolVip ∧ Options.vip.EnableVIP (Sp_Vip opt) = true) ∨
    (p = constant.OpenELBProtocolLayer2 ∧ Options.layer2.EnableLayer2 (Sp_Layer2 opt) = true) in
  pools m = ∅ ∧ (∀ p, is_Some (speakers m !! p) ↔ enabled p) ∧
  ∀ (w : W) (e : Eip), ¬ enabled (GetProtocol e) →
    ∃ text, @HandleEIP R L W K P EC _ (any_Speaker nodeName) w (Some e) m = (m, Err (Errorf text)).
Proof.
  intros enabled. destruct (Run_speakers _ _ _ _ _ _ _ _ _ HR) as (Hp & k & l & Hs & _ & _).
  assert (∀ p, is_Some (speakers m !! p) ↔ enabled p) as Hen.
  { intros p. rewrite Hs. unfold with_layer2, with_vip, enabled, constant.OpenELBProtocolBGP, constant.OpenELBProtocolVip, constant.OpenELBProtocolLayer2.
    destruct (Options.layer2.EnableLayer2 _), (Options.vip.EnableVIP _); rewrite ?lookup_insert_is_Some', ?lookup_singleton_is_Some; naive_solver. }
  split_and!; [done|done|]. intros w e He. unfold HandleEIP.
  destruct (speakers m !! GetProtocol e) eqn:Es; [destruct He; apply Hen; eauto|]. by eexists.
Qed.

(** ** The routes of a BGP pool *)
Section bgp_pool.
Context {R : GoRange} {GS : GoSort} {HN : HostNet} {L : CidrLib} {G V F H N : Type}.
Context `{GM : GoBgpMessages} {BD : BgpDaemon G} {BS : BgpServer G} {MV : MetricVec V}.
Context {KH : KeepalivedHost H} {LH : L2Host N}.
Context {W : Type} {K : KubeClient W} {P : ProxyClient W} {EC : EndpointsClient W} (nodeName : string).
Context {BO : BgpDaemonOk G} {BR : BgpRestartOk G} {BSO : BgpServerOk G}.
Abbreviation S := (any_speaker G V F H N).
#[local] Existing Instance any_Speaker.

Lemma table_ext (ip : string) (m1 m2 : gmap path_key Path) T : (∀ k : path_key, k.1.1 = ip → m2 !! k = m1 !! k) → table ip m1 T → table ip m2 T.
Proof. intros Heq Ht k p Hk. rewrite Heq by done. by apply Ht. Qed.

(** What the routes of [ip] are after the address was announced for [nodes]. *)
Definition announced_by (b b' : BgpProcess G V F) (ip : string) (nodes : list Node) : Prop :=
  ∀ nhs before, rack_nexthops (rack (bp_bgp b)) nodes = Ok nhs → table ip (brib (bp_bgp b)) before →
    (∀ nh, nh ∈ before → canonical nh) → no_clash (list_to_set nhs ∪ before) →
    table ip (brib (bp_bgp b')) (list_to_set nhs).

Lemma proc_SetBalancer_routes ip nodes (b b' : BgpProcess G V F) r : proc_hosts b → proc_SetBalancer nodeName ip nodes b = (b', r) →
  proc_hosts b' ∧ rack (bp_bgp b') = rack (bp_bgp b) ∧
  (∀ k, k.1.1 ≠ ip → brib (bp_bgp b') !! k = brib (bp_bgp b) !! k) ∧ (r = Ok () → announced_by b b' ip nodes).
Proof.
  unfold proc_hosts. intros Hh H0. destruct (proc_SetBalancer_sim _ _ _ _ _ _ H0) as (b1 & H1 & [Hr Hb]).
  destruct (bgp_SetBalancer_spec _ _ _ _ _ H1) as ([Ho1 Ho2] & Hh1 & Ht). rewrite Hb, Hr.
  split_and!; [by auto|done|by intros k Hk; rewrite Ho2|]. intros Hok nhs before Hn Htab Hc Hids.
  destruct (Ht Hok) as (nhs' & Hn' & Hx). rewrite Hn in Hn'. injection Hn' as <-. unfold announced_by. rewrite Hb. by eapply Hx.
Qed.

Lemma proc_DelBalancer_routes ip (b b' : BgpProcess G V F) r : proc_hosts b → proc_DelBalancer nodeName ip b = (b', r) →
  proc_hosts b' ∧ rack (bp_bgp b') = rack (bp_bgp b) ∧
  (∀ k, k.1.1 ≠ ip → brib (bp_bgp b') !! k = brib (bp_bgp b) !! k) ∧
  (r = Ok () → ∀ k, k.1.1 = ip → brib (bp_bgp b') !! k = None).
Proof.
  intros Hh H0. destruct (DelBalancer_law (SI := proc_speaker nodeName) ip b b' r Hh H0) as (Hh' & _ & Hgone).
  destruct (proc_DelBalancer_sim _ _ _ _ _ H0) as (b1 & H1 & [Hr Hb]).
  destruct (bgp_DelBalancer_spec _ _ _ _ Hh H1) as ([Ho1 Ho2] & _). split_and!; [done|congruence| |].
  - intros k Hk. rewrite Hb. by apply Ho2.
  - intros Hok k Hk. apply eq_None_not_Some. intros Hs. apply (Hgone Hok). unfold proc_announced.
    apply elem_of_bgp_announced. exists k. by rewrite elem_of_dom.
Qed.

Lemma set_balancers_routes (w : W) l : ∀ (m m' : SMgr S) b, NoDup l.*1 → speakers m !! "bgp" = Some (SpBgp b) → proc_hosts b →
  set_balancers (SI := any_Speaker nodeName) w "bgp" l m = (m', Ok ()) →
  ∃ b', speakers m' !! "bgp" = Some (SpBgp b') ∧ proc_hosts b' ∧ rack (bp_bgp b') = rack (bp_bgp b) ∧
    (∀ k, (∀ v, (k.1.1, v) ∈ l → getServiceNodes w v = Ok []) → brib (bp_bgp b') !! k = brib (bp_bgp b) !! k) ∧
    ∀ ip v nodes, (ip, v) ∈ l → getServiceNodes w v = Ok nodes → nodes ≠ [] → announced_by b b' ip nodes.
Proof.
  induction l as [|[ip v] l IH]; intros m m' b Hnd Hb Hh; cbn [set_balancers].
  { intros [= <-]. exists b. split_and!; try done. by intros ? ? ? ?%not_elem_of_nil. }
  cbn in Hnd. apply NoDup_cons in Hnd as [Hip Hnd].
  assert (∀ v', (ip, v') ∈ l → False) as Hnot by (intros v' Hin; apply Hip, list_elem_of_fmap; by exists (ip, v')).
  intros (m0 & nodes & H0 & H1)%ST_bind_Ok. unfold st_lift in H0. injection H0 as <- Hn.
  assert (∃ b1 m1, speakers m1 !! "bgp" = Some (SpBgp b1) ∧ proc_hosts b1 ∧ rack (bp_bgp b1) = rack (bp_bgp b) ∧
    (∀ k, k.1.1 ≠ ip ∨ nodes = [] → brib (bp_bgp b1) !! k = brib (bp_bgp b) !! k) ∧ (nodes ≠ [] → announced_by b b1 ip nodes) ∧
    set_balancers (SI := any_Speaker nodeName) w "bgp" l m1 = (m', Ok ())) as (b1 & m1 & Hb1 & Hh1 & Hr1 & Ho1 & Ha1 & Hl).
  { destruct nodes as [|n nodes]; [by exists b, m|].
    apply ST_bind_Ok in H1 as (m1 & [] & H1 & Hl). unfold on_speaker in H1. rewrite Hb in H1. cbn in H1.
    destruct (proc_SetBalancer nodeName ip (n :: nodes) b) as [b1 r] eqn:Es. injection H1 as <- ->.
    destruct (proc_SetBalancer_routes _ _ _ _ _ Hh Es) as (Hh1 & Hr1 & Ho1 & Ha1).
    exists b1, (set_speakers m (<["bgp" := SpBgp b1]> (speakers m))).
    split_and!; [apply lookup_insert_eq|done|done|by intros k [?|?]; [apply Ho1|]|by auto|done]. }
  destruct (IH m1 m' b1 Hnd Hb1 Hh1 Hl) as (b' & Hb' & Hh' & Hr' & Ho' & Ha'). exists b'. split_and!; [done|done|congruence|..].
  - intros k Hk. rewrite Ho' by (intros v' Hv'; apply Hk; by right). apply Ho1.
    destruct (decide (k.1.1 = ip)) as [Hki|]; [right|by left].
    rewrite Hki in Hk. specialize (Hk v ltac:(left)). congruence.
  - intros ip' v' nodes' [[= -> ->]|Hin]%elem_of_cons Hn' Hne nhs before Hrk Htab Hc Hids.
    + rewrite Hn in Hn'. injection Hn' as <-. eapply (table_ext _ (brib (bp_bgp b1))); [|by eapply Ha1].
      intros k <-. apply Ho'. intros v2 Hv2. by destruct (Hnot v2).
    + eapply (Ha' ip' v' nodes'); try done; [by rewrite Hr1|].
      eapply table_ext; [|exact Htab]. intros k Hk. apply Ho1. left. rewrite Hk. intros ->. by apply (Hnot v').
Qed.

Lemma del_balancers_routes l : ∀ (m m' : SMgr S) b, speakers m !! "bgp" = Some (SpBgp b) → proc_hosts b →
  del_balancers (SI := any_Speaker nodeName) "bgp" l m = (m', Ok ()) →
  ∃ b', speakers m' !! "bgp" = Some (SpBgp b') ∧ proc_hosts b' ∧ rack (bp_bgp b') = rack (bp_bgp b) ∧
    (∀ k, k.1.1 ∉ l.*1 → brib (bp_bgp b') !! k = brib (bp_bgp b) !! k) ∧ (∀ k, k.1.1 ∈ l.*1 → brib (bp_bgp b') !! k = None).
Proof.
  induction l as [|[ip v] l IH]; intros m m' b Hb Hh; cbn [del_balancers].
  { intros [= <-]. exists b. split_and!; try done. by intros ? ?%not_elem_of_nil. }
  intros (m1 & [] & H1 & H2)%ST_bind_Ok. unfold on_speaker in H1. rewrite Hb in H1. cbn in H1.
  destruct (proc_DelBalancer nodeName ip b) as [b1 r] eqn:Es. injection H1 as <- ->.
  destruct (proc_DelBalancer_routes _ _ _ _ Hh Es) as (Hh1 & Hr1 & Ho1 & Hn1). specialize (Hn1 eq_refl).
  destruct (IH _ m' b1 (lookup_insert_eq _ _ _) Hh1 H2) as (b' & Hb' & Hh' & Hr' & Ho' & Hn'). exists b'.
  split_and!; [done|done|congruence|..].
  - intros k [Hk1 Hk2]%not_elem_of_cons. rewrite Ho' by done. by apply Ho1.
  - intros k Hk. destruct (decide (k.1.1 ∈ l.*1)) as [|Hnl]; [by apply Hn'|]. rewrite Ho' by done. apply Hn1. cbn in Hk. set_solver.
Qed.

(** Configuring the BGP speaker with a pool changes no speaker. *)
Lemma bgp_configure (m m' : SMgr S) b c d r : speakers m !! "bgp" = Some (SpBgp b) →
  on_speaker "bgp" (ConfigureWithEIP (Speaker := any_Speaker nodeName) c d) m = (m', r) → speakers m' !! "bgp" = Some (SpBgp b).
Proof. intros Hb. unfold on_speaker. rewrite Hb. cbn. intros [= <- _]. cbn. rewrite lookup_insert_eq. by destruct b. Qed.

(** The routes of [b'] after the addresses [dels] were withdrawn from [b] and
    the addresses [adds] announced. *)
Definition routes_after (w : W) (dels adds : smap) (b b' : BgpProcess G V F) : Prop :=
  (∀ ip v nodes, adds !! ip = Some v → getServiceNodes w v = Ok nodes → nodes ≠ [] → announced_by b b' ip nodes) ∧
  (∀ k, (∀ v, adds !! k.1.1 = Some v → getServiceNodes w v = Ok []) →
     brib (bp_bgp b') !! k = if decide (k.1.1 ∈ dom dels) then None else brib (bp_bgp b) !! k).

(** Withdrawing and announcing, one after the other; what happens to the table
    of pools in between does not matter. *)
Lemma phases_routes (w : W) dels adds (m m1 m2 m3 : SMgr S) b : speakers m !! "bgp" = Some (SpBgp b) → proc_hosts b →
  delBalancer (SI := any_Speaker nodeName) "bgp" dels m = (m1, Ok ()) →
  (∀ x, speakers m1 !! "bgp" = Some x → speakers m2 !! "bgp" = Some x) →
  setBalancer (SI := any_Speaker nodeName) w "bgp" adds m2 = (m3, Ok ()) →
  ∃ b', speakers m3 !! "bgp" = Some (SpBgp b') ∧ routes_after w dels adds b b'.
Proof.
  intros Hb Hh (b1 & Hb1 & Hh1 & Hr1 & Ho1 & Hn1)%(del_balancers_routes _ _ _ _ Hb Hh) H12 Hset.
  assert (∀ (u : smap) ip, ip ∈ (range_map u).*1 ↔ ip ∈ dom u) as Hdom.
  { intros u ip. rewrite list_elem_of_fmap, elem_of_dom. split.
    - intros ([k v] & -> & Hkv%elem_of_range_map). cbn. eauto.
    - intros [v Hv]. exists (ip, v). split; [done|]. by apply elem_of_range_map. }
  apply (set_balancers_routes w _ m2 m3 b1) in Hset as (b' & Hb' & _ & _ & Ho & Ha); [|apply NoDup_range_map_fst|by apply H12|done].
  exists b'. split; [done|]. split.
  - intros ip v nodes Hv Hn Hne nhs before Hrk Htab Hc Hids.
    specialize (Ha ip v nodes ltac:(by apply elem_of_range_map) Hn Hne). destruct (decide (ip ∈ dom dels)) as [Hd|Hd].
    + apply (Ha nhs ∅); [by rewrite Hr1| |set_solver|].
      * intros k p Hk. rewrite Hn1 by (by rewrite Hdom, Hk). split; [done|]. intros (nh & Hnh & _). set_solver.
      * intros x y Hx Hy. apply Hids; set_solver.
    + apply (Ha nhs before); [by rewrite Hr1| |done|done]. eapply table_ext; [|exact Htab].
      intros k Hk. apply Ho1. by rewrite Hdom, Hk.
  - intros k Hk. rewrite Ho by (intros v Hv; apply Hk; by apply elem_of_range_map).
    case_decide as Hd; [apply Hn1|apply Ho1]; by rewrite Hdom.
Qed.
End bgp_pool.


(** What handling the pool [e] changes when the manager knew it as [old]: the
    addresses it announces, and those it withdraws before. *)
Definition pool_changes `{R : GoRange} (old : option Eip) (e : Eip) : smap * smap :=
  match old with
  | None => (used_map (Eip_Status e), ∅)
  | Some o =>
      if negb (IsZero (DeletionTimestamp (Eip_Meta e))) then (∅, used_map (Eip_Status o))
      else if isSpeakerConfigUpdate (Eip_Spec e) (Eip_Spec o) then (used_map (Eip_Status e), used_map (Eip_Status o))
      else DiffMaps (used_map (Eip_Status o)) (used_map (Eip_Status e))
  end.

(** C31: from record to route.  Whenever the process handles a BGP pool
    successfully, new, changed, set up anew or going away, the routes in gobgp
    change for the addresses that have to change ([pool_changes]) and for no
    other: an address that is announced and has serving nodes has exactly the
    next hops of those nodes in the speaker's rack, whatever gobgp held for it
    before; an address that is withdrawn has no route, unless it is announced
    again; every other address (an address recorded before and after, and one
    without serving nodes) keeps its routes. *)
Theorem bgp_pool_routes `{R : GoRange} `{GS : GoSort} `{HN : HostNet} `{L : CidrLib} {W : Type} `{K : KubeClient W}
    `{P : ProxyClient W} `{EC : EndpointsClient W} {G V F H N : Type} `{GM : GoBgpMessages} `{BD : !BgpDaemon G}
    `{BS : !BgpServer G} `{MV : MetricVec V} `{KH : KeepalivedHost H} `{LH : L2Host N} `{BO : !BgpDaemonOk G}
    `{BR : !BgpRestartOk G} `{BSO : !BgpServerOk G} (nodeName : string) (w : W) (e : Eip)
    (m m' : SMgr (any_speaker G V F H N)) (b : BgpProcess G V F) (adds dels : smap)
    (Hproto : GetProtocol e = constant.OpenELBProtocolBGP)
    (Hold : ∀ o, pools m !! Eip_Name e = Some o → GetProtocol o = constant.OpenELBProtocolBGP)
    (Hb : speakers m !! constant.OpenELBProtocolBGP = Some (SpBgp b)) (Hh : proc_hosts b)
    (Hhandle : HandleEIP (SI := any_Speaker nodeName) w (Some e) m = (m', Ok ()))
    (Hch : pool_changes (pools m !! Eip_Name e) e = (adds, dels)) :
  ∃ b', speakers m' !! constant.OpenELBProtocolBGP = Some (SpBgp b') ∧
    (∀ ip v nodes nhs before, adds !! ip = Some v → getServiceNodes w v = Ok nodes → nodes ≠ [] →
       rack_nexthops (rack (bp_bgp b)) nodes = Ok nhs → table ip (brib (bp_bgp b)) before →
       (∀ nh, nh ∈ before → canonical nh) → no_clash (list_to_set nhs ∪ before) →
       table ip (brib (bp_bgp b')) (list_to_set nhs)) ∧
    (∀ k, (∀ v, adds !! k.1.1 = Some v → getServiceNodes w v = Ok []) →
       brib (bp_bgp b') !! k = if decide (k.1.1 ∈ dom dels) then None else brib (bp_bgp b) !! k).
Proof.
  cut (∃ b', speakers m' !! constant.OpenELBProtocolBGP = Some (SpBgp b') ∧ routes_after w dels adds b b').
  { intros (b' & Hb' & Ha & Ho). exists b'. split; [done|]. split; [|done]. intros ip v nodes nhs before Hv Hn Hne. by apply (Ha ip v nodes). }
  assert (∀ (m : SMgr (any_speaker G V F H N)), delBalancer (SI := any_Speaker nodeName) "bgp" ∅ m = (m, Ok ())) as Hnodel.
  { intros m0. unfold delBalancer. assert (range_map (∅ : smap) = []) as ->; [|done].
    apply Permutation_nil_r. by rewrite range_map_perm, map_to_list_empty. }
  assert (∀ (m : SMgr (any_speaker G V F H N)), setBalancer (SI := any_Speaker nodeName) w "bgp" ∅ m = (m, Ok ())) as Hnoset.
  { intros m0. unfold setBalancer. assert (range_map (∅ : smap) = []) as ->; [|done].
    apply Permutation_nil_r. by rewrite range_map_perm, map_to_list_empty. }
  unfold HandleEIP in Hhandle. rewrite Hproto, Hb in Hhandle. unfold pool_changes in Hch.
  destruct (pools m !! Eip_Name e) as [o|] eqn:Ep; [specialize (Hold o eq_refl); destruct (negb _) eqn:Ez; [|destruct (isSpeakerConfigUpdate _ _) eqn:Ec]|].
  - injection Hch as <- <-. apply ST_bind_Ok in Hhandle as (m1 & [] & H1 & [= <-]).
    unfold delBalancerWithEIP in H1. rewrite Hold in H1.
    apply ST_bind_Ok in H1 as (m2 & [] & H1 & H2). apply ST_bind_Ok in H2 as (m3 & rg & [= <- _] & H3).
    apply (phases_routes nodeName w _ ∅ m m2 m1 m1 b Hb Hh H1); [|apply Hnoset].
    intros x Hx. destruct (del_balancers_routes nodeName _ _ _ _ Hb Hh H1) as (b1 & Hb1 & _). rewrite Hx in Hb1. injection Hb1 as ->.
    by eapply bgp_configure.
  - injection Hch as <- <-. apply ST_bind_Ok in Hhandle as (m1 & [] & H1 & Hhandle).
    unfold delBalancerWithEIP in H1. rewrite Hold in H1.
    apply ST_bind_Ok in H1 as (m2 & [] & H1 & H2). apply ST_bind_Ok in H2 as (m3 & rg & [= <- _] & H3).
    apply ST_bind_Ok in Hhandle as (m4 & [] & [= <-] & Hhandle). apply ST_bind_Ok in Hhandle as (m5 & [] & H5 & [= <-]).
    unfold setBalancerWithEIP in H5. rewrite Hproto in H5.
    apply ST_bind_Ok in H5 as (m6 & rg' & [= <- _] & H5). apply ST_bind_Ok in H5 as (m7 & [] & H6 & H7).
    apply (phases_routes nodeName w _ _ m m2 m7 m5 b Hb Hh H1); [|done].
    intros x Hx. destruct (del_balancers_routes nodeName _ _ _ _ Hb Hh H1) as (b1 & Hb1 & _). rewrite Hx in Hb1. injection Hb1 as ->.
    eapply bgp_configure; [|exact H6]. cbn. by eapply bgp_configure.
  - case_decide as Hu.
    + injection Hhandle as <-. apply (phases_routes nodeName w dels adds m m m m b Hb Hh); [| |]; try done.
      all: assert (∀ ip, adds !! ip = None ∧ dels !! ip = None) as Hnone.
      all: try (intros ip; pose proof (DiffMaps_lookup (used_map (Eip_Status o)) (used_map (Eip_Status e)) ip) as [Ha Hd];
        rewrite Hch in Ha, Hd; cbn [fst snd] in Ha, Hd; rewrite Ha, Hd; unfold used_map; rewrite Hu; by destruct (default ∅ _ !! ip)).
      * assert (dels = ∅) as -> by (apply map_eq; intros ip; rewrite lookup_empty; apply Hnone). apply Hnodel.
      * assert (adds = ∅) as -> by (apply map_eq; intros ip; rewrite lookup_empty; apply Hnone). apply Hnoset.
    + rewrite Hch in Hhandle. apply ST_bind_Ok in Hhandle as (m1 & [] & H1 & H2). apply ST_bind_Ok in H2 as (m2 & [] & H2 & [= <-]).
      by apply (phases_routes nodeName w dels adds m m1 m1 m2 b Hb Hh H1).
  - injection Hch as <- <-. apply ST_bind_Ok in Hhandle as (m1 & [] & H1 & [= <-]).
    unfold setBalancerWithEIP in H1. rewrite Hproto in H1.
    apply ST_bind_Ok in H1 as (m2 & rg & [= <- _] & H1). apply ST_bind_Ok in H1 as (m3 & [] & H2 & H3).
    apply (phases_routes nodeName w ∅ _ m m m3 m1 b Hb Hh (Hnodel m)); [|done].
    intros x Hx. pose proof (eq_trans (eq_sym Hb) Hx) as [= <-]. by eapply bgp_configure.
Qed.


(** ** Witnesses: a BGP pool of one address, a service, a process with BGP and VIP *)
#[local] Existing Instances canonical_range insertion_sort.
#[local] Instance no_host_net : HostNet := {|
  InterfaceByName n := Err (Errorf "no such network interface");
  InterfaceByIndex i := Err (Errorf "no such network interface");
  RouteGet ip := Err (Errorf "network is unreachable");
|}.
Abbreviation demo_any := (any_speaker demo_daemon (gmap (list string) float64) (gmap string string) DemoHost DemoNet).

Definition demo_options : OpenELBSpeakerOptions :=
  mkSpeakerOptions ":50053" Options.bgp.NewBgpOptions (Options.layer2.NewOptions (λ _, "node1"))
    (Options.vip.mkVipOptions true "" "").
Definition demo_Run (opt : OpenELBSpeakerOptions) : Result (SMgr demo_any) :=
  Run (λ _, "node1") (λ _, Ok ()) (λ _, mk_demo_daemon stopped ∅) no_metrics ∅ (host (demo_new 0))
    {| dn_name := "node1"; dn_members := [] |} opt.
Definition demo_mgr : SMgr demo_any := default NewSpeakerManager (match demo_Run demo_options with Ok m => Some m | _ => None end).

Definition on_cluster (v : Server) : ProxyWorld :=
  {| pw_server := v; pw_nodes := [bgp_node "node1" "192.168.0.1" "left"]; pw_workloads := ∅; pw_pods := [] |}.
Definition bgp_pool : Eip :=
  {| Eip_Meta := Eip_Meta (mk_eip "a" "10.0.0.1");
     Eip_Spec := {| Address := "10.0.0.1"; Protocol := "bgp"; Interface := ""; Disable := false;
                    UsingKnownIPs := false; EipTypes.Priority := 0; Namespaces := ["ns"]; NamespaceSelector := None |};
     Eip_Status := Eip_Status zero_Eip |}.
Definition nd0 : ProxyWorld := on_cluster {| srv_eips := ∅; srv_svcs := ∅; srv_nss := ∅ |}.
Definition nd1 : ProxyWorld :=
  on_cluster {| srv_eips := ∅; srv_svcs := {[("ns", "s1") := named_service]}; srv_nss := {["ns" := None]} |}.
Definition nd2 : ProxyWorld := on_cluster (with_eips (pw_server nd1) (<["a" := bgp_pool]> ∅)).
Definition nd3 : ProxyWorld := (sync_pool nd2 "a").1.
Definition nd4 : ProxyWorld := (lb_reconcile nd3).1.
Abbreviation demo_handle := (@EIP_Reconcile canonical_range go_cidr ProxyWorld _ _ _ demo_any (any_Speaker "node1")).
Definition full_pool : Eip := default bgp_pool (srv_eips (pw_server nd4) !! "a").
Lemma Run_registers_witness : is_Some (speakers demo_mgr !! "vip").
Proof.
  refine (proj2 (proj1 (proj2 (@Run_registers canonical_range insertion_sort no_host_net go_cidr ProxyWorld pw_client pw_proxy pw_endpoints
    demo_daemon (gmap (list string) float64) (gmap string string) DemoHost DemoNet _ _ _ _ _ _ _ "node1" (λ _, "node1")
    (λ _, Ok ()) (λ _, mk_demo_daemon stopped ∅) no_metrics ∅ (host (demo_new 0)) {| dn_name := "node1"; dn_members := [] |}
    demo_options demo_mgr _)) "vip") (or_intror (or_introl (conj eq_refl eq_refl)))).
  vm_compute. reflexivity.
Defined.

Definition bgp0 : BgpProcess demo_daemon (gmap (list string) float64) (gmap string string) :=
  mkBgpProcess {| rack := ""; bgpServer := mk_demo_daemon stopped ∅ |} no_metrics ∅.

Lemma empty_table (ip : string) : table ip ∅ ∅.
Proof. intros k p _. rewrite lookup_empty. split; [done|]. intros (nh & Hn & _). set_solver. Qed.
Lemma bgp0_hosts : proc_hosts bgp0.
Proof. intros k p Hk. apply (lookup_empty_Some k p) in Hk as []. Qed.

Lemma one_hop_alone (h : string) : no_clash (list_to_set [h] ∪ ∅).
Proof. intros x y Hx Hy _. set_solver. Qed.
Lemma none_canonical (nh : string) : nh ∈ (∅ : gset string) → canonical nh.
Proof. intros Hn. set_solver. Qed.

(** The pool as the manager saw it before the address was assigned. *)
Definition new_pool : Eip := default bgp_pool (srv_eips (pw_server nd3) !! "a").
Definition mgr3 : SMgr demo_any := (demo_handle nd3 "" "a" demo_mgr).1.
Definition mgr4 : SMgr demo_any :=
  (@HandleEIP canonical_range go_cidr ProxyWorld _ _ _ demo_any (any_Speaker "node1") nd4 (Some full_pool) mgr3).1.

Lemma bgp_pool_routes_witness : ∃ b', speakers mgr4 !! "bgp" = Some (SpBgp b') ∧
  table "10.0.0.1" (brib (bp_bgp b')) (list_to_set ["192.168.0.1"]).
Proof.
  refine (match @bgp_pool_routes canonical_range insertion_sort no_host_net go_cidr ProxyWorld pw_client pw_proxy pw_endpoints
    demo_daemon (gmap (list string) float64) (gmap string string) DemoHost DemoNet _ _ _ _ _ _ _ _ _ "node1" nd4 full_pool
    mgr3 mgr4 bgp0 {["10.0.0.1" := "ns/s1"]} ∅ _ _ _ bgp0_hosts _ _ with
    ex_intro _ b' (conj Hb (conj H _)) => ex_intro _ b' (conj Hb (H "10.0.0.1" "ns/s1" [bgp_node "node1" "192.168.0.1" "left"]
      ["192.168.0.1"] ∅ _ _ _ _ (empty_table _) none_canonical (one_hop_alone _))) end).
  - vm_compute. reflexivity.
  - assert (pools mgr3 !! Eip_Name full_pool = Some new_pool) as -> by (vm_compute; reflexivity).
    intros o [= <-]. vm_compute. reflexivity.
  - vm_compute. reflexivity.
  - apply pair_result. vm_compute. reflexivity.
  - vm_compute. reflexivity.
  - vm_compute. reflexivity.
  - vm_compute. reflexivity.
  - discriminate.
  - vm_compute. reflexivity.
Defined.


