(* ===== verification/Fleet.v ===== *)
(** * All nodes beside the controllers, call by call

    Any number of nodes, each with the manager of its speakers
    ([pkg/speaker/manager.go], [eip_controller.go], [lb_controller.go]), follow
    the cluster of [Interleave] in its weaker mode: the workers of the
    controllers take turns after every call, and every read, of a worker or of a
    node, comes from a cache that may show any earlier state, another one on
    every node and at every step.  A node handles pools, service events and
    resynchronisations, each with any result, and its process may restart.

    What a node announces has a source in the cluster; and nodes that have caught
    up with the pools announce an address of their pools with one protocol. *)
From S2P Require Import Prelude GoNet Cnet Iprange K8s EipTypes Kube Ipam IpamController NodeProxy LbController Speaker SpeakerManager System Calls Interleave.
Local Open Scope Z_scope.

(** ** Steps *)
Section fleet.
Context {R : GoRange} {GS : GoSort} {L : CidrLib} {LL : LabelLib}.
Context {W : Type} {K : KubeClient W} {P : ProxyClient W} {EC : EndpointsClient W} (view : W → Server).
Context {KO : KubeClientOk W view}.
(** The speakers of a node depend on its name. *)
Context {Sp : Type} (SI : string → Speaker Sp) (ok : Sp → Prop) (announced : Sp → gset string).
Context {SO : ∀ node, @SpeakerOk Sp (SI node) ok announced}.

(** The cluster, and on every node the manager with its ledger. *)
Abbreviation Fleet := (Conf * gmap string (SMgr Sp * ledger))%type.

(** The cluster moves; the process of a node starts, for the first time or
    again; or one of the two controllers of a node reconciles, with any result,
    what its cache [w] shows: the pools, or the services, of some state up to
    now. *)
Inductive fleet_step : Fleet → Fleet → Prop :=
| fl_cluster C C' ms : conf_step Cached C C' → fleet_step (C, ms) (C', ms)
| fl_start C ms node m : starting ok announced m → fleet_step (C, ms) (C, <[node := (m, ∅)]> ms)
| fl_eip C ms node m l w p ns name m' r : ms !! node = Some (m, l) →
    visible Cached C p → srv_eips (view w) = srv_eips (srv p) →
    EIP_Reconcile (SI := SI node) w ns name m = (m', r) →
    fleet_step (C, ms) (C, <[node := (m', eip_ledger w ns name m r l)]> ms)
| fl_service C ms node m l w p key m' r : ms !! node = Some (m, l) →
    visible Cached C p → srv_svcs (view w) = srv_svcs (srv p) →
    LB_Reconcile (SI := SI node) w key m = (m', r) →
    fleet_step (C, ms) (C, <[node := (m', lb_ledger w key m l)]> ms).

(** ** The sources of an announcement *)

(** Some state up to now records [ip] in a pool of the protocol [q], and in no
    other pool. *)
Definition was_recorded (C : Conf) (q ip : string) : Prop :=
  ∃ p n e, visible Cached C p ∧ srv_eips (srv p) !! n = Some e ∧ GetProtocol e = q ∧
    is_Some (used_map (Eip_Status e) !! ip) ∧
    ∀ n' e', srv_eips (srv p) !! n' = Some e' → is_Some (used_map (Eip_Status e') !! ip) → n' = n.

(** Some state up to now has [ip] in the status of a service, and some state
    has the pool that the service names, of the protocol [q] and with [ip] in
    its range. *)
Definition was_in_status (C : Conf) (q ip : string) : Prop :=
  ∃ p key svc i p' e rg, visible Cached C p ∧ srv_svcs (srv p) !! key = Some svc ∧
    i ∈ default [] (Svc_Ingress svc) ∧ Ingress_IP i = ip ∧
    visible Cached C p' ∧ srv_eips (srv p') !! getSvcEIPUsed svc = Some e ∧ GetProtocol e = q ∧
    ParseRange (Address (Eip_Spec e)) = Ok (Some rg) ∧ Range_Contains rg (ParseIP ip) = true.

(** The copy of a pool agrees with the pool in what the speakers depend on. *)
Definition agrees (x e : Eip) : Prop := GetProtocol x = GetProtocol e ∧ Used (Eip_Status x) = Used (Eip_Status e).
Definition caught_up (v : Server) (m : SMgr Sp) : Prop :=
  ∀ n x, SpeakerManager.pools m !! n = Some x → ∃ e, srv_eips v !! n = Some e ∧ agrees x e.

(** The states up to now only become more. *)
Lemma visible_step C C' p : conf_step Cached C C' → visible Cached C p → visible Cached C' p.
Proof.
  intros Hstep Hp. unfold visible in *.
  assert (p = now C ∨ p ∈ past C) as Hp' by naive_solver.
  destruct Hstep; cbn; rewrite ?elem_of_cons; tauto.
Qed.

Lemma visible_run C C' p : rtc (conf_step Cached) C C' → visible Cached C p → visible Cached C' p.
Proof. induction 1 as [|x y z Hxy _ IH]; [done|]. intros Hp. by eapply IH, visible_step. Qed.

Lemma visible_weak C p : conf_ok Cached C → visible Cached C p → weak_ok (srv p).
Proof. intros HC Hp. apply (visible_snap Cached C p HC) in Hp as (_ & Hi & _). exact Hi. Qed.

(** An address that a visible state records is recorded there by one pool. *)
Lemma visible_recorded C p n e ip : conf_ok Cached C → visible Cached C p → srv_eips (srv p) !! n = Some e →
  ip ∈ dom (used_map (Eip_Status e)) → was_recorded C (GetProtocol e) ip.
Proof.
  intros HC Hp He Hu%elem_of_dom. exists p, n, e. split_and!; try done. intros n' e' He' Hu'.
  destruct (weak_pools_exact _ (visible_weak C p HC Hp)) as [Hx _]. by eapply (Hx n' n).
Qed.

(** ** The invariant *)
Record follows_cluster (C : Conf) (m : SMgr Sp) (l : ledger) : Prop := {
  fc_mgr : mgr_inv ok announced m l;
  fc_pools : ∀ n e, SpeakerManager.pools m !! n = Some e → ∃ p, visible Cached C p ∧ srv_eips (srv p) !! n = Some e;
  fc_ledger : ∀ q ip, (q, ip) ∈ l → was_recorded C q ip ∨ was_in_status C q ip;
}.

Record fleet_inv (s : Fleet) : Prop := {
  fi_conf : conf_ok Cached s.1;
  fi_nodes : ∀ node m l, s.2 !! node = Some (m, l) → follows_cluster s.1 m l;
}.

Lemma follows_step C C' m l : conf_step Cached C C' → follows_cluster C m l → follows_cluster C' m l.
Proof.
  intros Hstep [Hm Hp Hl]. assert (∀ p, visible Cached C p → visible Cached C' p) as Hv by (intros; by eapply visible_step).
  constructor; [done|..].
  - intros n e (p & ? & ?)%Hp. eauto.
  - intros q ip [(p & n & e & ? & H)|(p & key & svc & i & p' & e & rg & ? & ? & ? & ? & ? & H)]%Hl;
      [left; exists p, n, e|right; exists p, key, svc, i, p', e, rg]; split_and!; auto; apply H.
Qed.

Lemma eip_ledger_sourced C w p ns name (m : SMgr Sp) r l q ip : conf_ok Cached C → visible Cached C p →
  srv_eips (view w) = srv_eips (srv p) → (q, ip) ∈ eip_ledger w ns name m r l → (q, ip) ∈ l ∨ was_recorded C q ip.
Proof.
  intros HC Hp Hview. unfold eip_ledger. destruct (reloadLayer2Speaker ns name).
  - pose proof (ListEips_law (view := view) w) as HL. destruct (ListEips w) as [items|er|]; [|by left..].
    rewrite elem_of_union. intros [?|H]; [by left|right]. unfold resync_claims in H.
    apply elem_of_union_list in H as (X & HX & H). apply list_elem_of_fmap in HX as (e & -> & He).
    case_bool_decide as Hl2; [|set_solver]. apply elem_of_claims in H as [-> Hu].
    rewrite HL in He. apply list_elem_of_fmap in He as ([n x] & -> & Hn%elem_of_map_to_list). cbn [snd] in *. rewrite Hview in Hn.
    assert (constant.OpenELBProtocolLayer2 = GetProtocol x) as -> by (unfold GetProtocol; by rewrite Hl2). by eapply visible_recorded.
  - destruct (GetEip w name) as [e|er|] eqn:Eg; [|by left..]. apply (GetEip_ok view) in Eg. rewrite Hview in Eg.
    assert ((q, ip) ∈ l ∪ claims (GetProtocol e) (dom (used_map (Eip_Status e))) → (q, ip) ∈ l ∨ was_recorded C q ip) as Hf.
    { rewrite elem_of_union, elem_of_claims. intros [?|[-> Hu]]; [by left|right]. by eapply visible_recorded. }
    unfold handle_ledger. destruct r as [[]|er|]; [|done..]. intros H. left. set_solver.
Qed.

Lemma lb_ledger_sourced C w p key m l q ip : follows_cluster C m l → visible Cached C p →
  srv_svcs (view w) = srv_svcs (srv p) → (q, ip) ∈ lb_ledger w key m l → (q, ip) ∈ l ∨ was_in_status C q ip.
Proof.
  intros Hm Hp Hview. unfold lb_ledger. pose proof (GetService_law (view := view) w key) as Eg.
  destruct (GetService w key) as [svc|er|]; [|by left..]. cbn in Eg. rewrite Hview in Eg. rewrite elem_of_union. intros [?|H]; [by left|right].
  unfold service_claims in H. destruct (SpeakerManager.pools m !! getSvcEIPUsed svc) as [e|] eqn:Ee; [|set_solver].
  destruct (fc_pools _ _ _ Hm _ _ Ee) as (p' & Hp' & He).
  destruct (ParseRange _) as [[rg|]|er|] eqn:Er; [|set_solver..]. apply elem_of_claims in H as [-> H].
  apply elem_of_list_to_set, list_elem_of_fmap in H as (i & -> & Hi). apply list_elem_of_In, filter_In in Hi as [Hi Hc].
  apply list_elem_of_In in Hi. by exists p, key, svc, i, p', e, rg.
Qed.

Lemma EIP_Reconcile_follows C node w p ns name m m' l r : conf_ok Cached C → visible Cached C p →
  srv_eips (view w) = srv_eips (srv p) → follows_cluster C m l → EIP_Reconcile (SI := SI node) w ns name m = (m', r) →
  follows_cluster C m' (eip_ledger w ns name m r l).
Proof.
  intros HC Hp Hview Hm H. constructor.
  - eapply (EIP_Reconcile_inv (SI := SI node) ok announced); [apply Hm|done].
  - revert H. unfold EIP_Reconcile, ResyncEIPSpeaker. destruct (reloadLayer2Speaker ns name).
    + unfold mbind, ST_bind, st_lift. destruct (ListEips w) as [items|er|]; [|by intros [= <- <-]; apply Hm..].
      intros H. eapply (resync_inv (SI := SI node) ok announced) in H as [_ ->]; [|apply Hm]. apply Hm.
    + destruct (GetEip w name) as [e|er|] eqn:Eg; [|by intros [= <- <-]; apply Hm..].
      apply (GetEip_ok view) in Eg. rewrite Hview in Eg.
      pose proof (ok_name _ (weak_cluster _ (visible_weak C p HC Hp)) _ _ Eg) as Hn.
      intros H n x Hx. destruct (HandleEIP_pools (SI := SI node) ok announced w e m m' l r (fc_mgr _ _ _ Hm) H n x Hx) as [Ho|[-> ->]];
        [by apply Hm|]. exists p. by rewrite Hn.
  - intros q ip [Hl|Hr]%(eip_ledger_sourced C w p); [by apply Hm|by left|done..].
Qed.

Lemma LB_Reconcile_follows C node w p key m m' l r : visible Cached C p →
  srv_svcs (view w) = srv_svcs (srv p) → follows_cluster C m l → LB_Reconcile (SI := SI node) w key m = (m', r) →
  follows_cluster C m' (lb_ledger w key m l).
Proof.
  intros Hp Hview Hm H. eapply (LB_Reconcile_inv (SI := SI node) ok announced) in H as [Hi Hps]; [|apply Hm]. constructor; [done|rewrite Hps; apply Hm|].
  intros q ip [Hl|Hr]%(lb_ledger_sourced C w p); [by apply Hm|by right|done..].
Qed.

Lemma fleet_step_inv s s' : fleet_inv s → fleet_step s s' → fleet_inv s'.
Proof.
  intros [HC Hn] Hst. destruct Hst as [C C' ms Hstep|C ms node m Hm|C ms node m l w p ns name m' r Hm Hp Hview H|
    C ms node m l w p key m' r Hm Hp Hview H]; cbn [fst snd] in *; constructor; cbn [fst snd]; try done.
  - by eapply conf_step_ok.
  - intros node m l Hm. eapply follows_step; [done|by eapply Hn].
  - intros node' x l [[<- [= <- <-]]|[_ Hx]]%lookup_insert_Some; [|by eapply Hn].
    constructor; [by apply starting_inv|destruct Hm as [-> _]; by intros ? ? ?%lookup_empty_Some|by intros ? ? ?%elem_of_empty].
  - intros node' x k [[<- [= <- <-]]|[_ Hx]]%lookup_insert_Some; [|by eapply Hn]. eapply EIP_Reconcile_follows; try done. by eapply Hn.
  - intros node' x k [[<- [= <- <-]]|[_ Hx]]%lookup_insert_Some; [|by eapply Hn]. eapply LB_Reconcile_follows; try done. by eapply Hn.
Qed.

Lemma fleet_run_inv C0 s : initial C0 → rtc fleet_step (C0, ∅) s → fleet_inv s.
Proof.
  intros Hinit Hrun.
  assert (fleet_inv (C0, ∅)) as H0.
  { constructor; cbn; [by apply (conf_run_ok Cached C0)|]. intros node m l. by rewrite lookup_empty. }
  clear Hinit. induction Hrun as [|x y z Hxy _ IH]; [done|]. by apply IH, (fleet_step_inv x).
Qed.

Lemma fleet_cluster_run C C' ms : rtc (conf_step Cached) C C' → rtc fleet_step (C, ms) (C', ms).
Proof. induction 1 as [|x y z Hxy _ IH]; [done|]. eapply rtc_l; [by apply fl_cluster|done]. Qed.

(** What is announced and not in the ledger is recorded in a copy; for a node
    that has caught up, it is recorded now. *)
Lemma follows_announced C m l q s ip : follows_cluster C m l → speakers m !! q = Some s → ip ∈ announced s →
  (∃ n e, SpeakerManager.pools m !! n = Some e ∧ GetProtocol e = q ∧ ip ∈ dom (used_map (Eip_Status e))) ∨ (q, ip) ∈ l.
Proof. intros Hm Hs Hip. apply (mi_recorded _ _ _ _ (fc_mgr _ _ _ Hm)). unfold ann. by rewrite Hs. Qed.

Lemma caught_up_announced C m l q s ip : follows_cluster C m l → caught_up (srv (now C)) m →
  speakers m !! q = Some s → ip ∈ announced s → (q, ip) ∉ l →
  ∃ n e, srv_eips (srv (now C)) !! n = Some e ∧ GetProtocol e = q ∧ is_Some (used_map (Eip_Status e) !! ip).
Proof.
  intros Hm Hup Hs Hip Hl. destruct (follows_announced C m l q s ip Hm Hs Hip) as [(n & x & Hx & Hq & Hu)|]; [|done].
  destruct (Hup n x Hx) as (e & He & Hpe & Hue). exists n, e. rewrite elem_of_dom in Hu. unfold used_map in *. rewrite <- Hue.
  split_and!; [done|congruence|done].
Qed.
End fleet.

(** ** Properties *)

(** C3: what the nodes of the cluster announce has a source.  The controllers
    run call by call; any number of nodes start, restart and reconcile pools,
    service events and resynchronisations with any result, all of them through
    caches that may lag behind in different ways.  Every address a speaker of a
    node announces was, in some state up to now, recorded for a service by a
    pool of the protocol of the speaker and by no other pool of that state, or
    was in the status of a service that names a pool of that protocol with the
    address in its range; the latter only if the address is in the ledger of the
    node, that is, was announced by a service event, a resynchronisation or a
    failed handling, and not withdrawn since.  Of the other addresses, a node
    that has caught up announces only such as are recorded now, and two such
    nodes never announce one with different protocols. *)
Theorem fleet_announces_assigned `{R : GoRange} `{GS : GoSort} `{L : CidrLib} `{LL : LabelLib} {W : Type} `{K : KubeClient W}
    `{P : ProxyClient W} `{EC : EndpointsClient W} (view : W → Server) `{KO : !KubeClientOk W view}
    {Sp : Type} (SI : string → Speaker Sp) (ok : Sp → Prop) (announced : Sp → gset string)
    `{SO : !∀ node, @SpeakerOk Sp (SI node) ok announced}
    (C0 C : Conf) (ms : gmap string (SMgr Sp * ledger))
    (Hinit : initial C0) (Hrun : rtc (fleet_step view SI ok announced) (C0, ∅) (C, ms))
    (node : string) (m : SMgr Sp) (l : ledger) (q : string) (s : Sp) (ip : string)
    (Hnode : ms !! node = Some (m, l)) (Hs : speakers m !! q = Some s) (Hip : ip ∈ announced s) :
  (was_recorded C q ip ∨ ((q, ip) ∈ l ∧ was_in_status C q ip)) ∧
  (caught_up (srv (now C)) m → (q, ip) ∉ l →
     (∃ n e, srv_eips (srv (now C)) !! n = Some e ∧ GetProtocol e = q ∧ is_Some (used_map (Eip_Status e) !! ip)) ∧
     ∀ node' m' l' q' s', ms !! node' = Some (m', l') → caught_up (srv (now C)) m' →
       speakers m' !! q' = Some s' → ip ∈ announced s' → (q', ip) ∉ l' → q' = q).
Proof.
  destruct (fleet_run_inv view SI ok announced C0 _ Hinit Hrun) as [HC Hn]. cbn [fst snd] in *.
  pose proof (Hn _ _ _ Hnode) as Hm. split.
  - destruct (follows_announced ok announced C m l q s ip Hm Hs Hip) as [(n & e & He & <- & Hu)|Hl].
    + destruct (fc_pools _ _ _ _ _ Hm _ _ He) as (p & Hp & He'). left. by eapply visible_recorded.
    + destruct (fc_ledger _ _ _ _ _ Hm _ _ Hl); [by left|by right].
  - intros Hup Hl. destruct (caught_up_announced ok announced C m l q s ip Hm Hup Hs Hip Hl) as (n & e & He & Hq & Hu).
    split; [by exists n, e|]. intros node' m' l' q' s' H1 Hup' H2 H3 Hl'.
    destruct (caught_up_announced ok announced C m' l' q' s' ip (Hn _ _ _ H1) Hup' H2 H3 Hl') as (n' & e' & He' & Hq' & Hu').
    destruct (weak_pools_exact _ (visible_weak C (now C) HC (or_introl eq_refl))) as [Hx _].
    rewrite (Hx n' n e' e ip He' He Hu' Hu) in He'. rewrite He in He'. injection He' as <-. congruence.
Qed.

(** ** Witness: two nodes after the assignment of [Interleave], one of which has
    not seen it *)
Definition node_view (v : Server) : ProxyWorld :=
  {| pw_server := v; pw_nodes := [node1]; pw_workloads := ∅; pw_pods := [] |}.
Definition fresh_node : SMgr (gset string) := {| speakers := {["layer2" := ∅]}; SpeakerManager.pools := ∅ |}.
Abbreviation demo_reconcile := (@EIP_Reconcile canonical_range go_cidr ProxyWorld _ _ _ (gset string) recorder).
Abbreviation demo_ledger v r := (@eip_ledger ProxyWorld _ (gset string) (node_view v) "" "a" fresh_node r ∅).
Definition late_node : SMgr (gset string) := (demo_reconcile (node_view (srv (now demo3))) "" "a" fresh_node).1.
Definition first_node : SMgr (gset string) := (demo_reconcile (node_view (srv (now (demo5 Cached)))) "" "a" fresh_node).1.
Definition one_node : gmap string (SMgr (gset string) * ledger) := <["n1" := (fresh_node, ∅)]> ∅.
Definition two_nodes : gmap string (SMgr (gset string) * ledger) := <["n2" := (fresh_node, ∅)]> one_node.
Definition one_late : gmap string (SMgr (gset string) * ledger) :=
  <["n2" := (late_node, demo_ledger (srv (now demo3)) (Ok ()))]> two_nodes.
Definition first_ledger_now : ledger := demo_ledger (srv (now (demo5 Cached))) (Ok ()).

Lemma fresh_starting : starting (λ _, True) (λ s : gset string, s) fresh_node.
Proof. split; [done|]. intros p s. cbn. intros [_ <-]%lookup_singleton_Some. done. Qed.

Abbreviation demo_fleet_step :=
  (@fleet_step canonical_range insertion_sort go_cidr subset_labels ProxyWorld pw_client pw_proxy pw_endpoints pw_server
     (gset string) (λ _, recorder) (λ _, True) (λ s, s)).

(** A state of the cluster that the node [n] handles a pool in. *)
Lemma demo_node_step C ms node p m' : ms !! node = Some (fresh_node, ∅) → visible Cached C p →
  demo_reconcile (node_view (srv p)) "" "a" fresh_node = (m', Ok ()) →
  demo_fleet_step (C, ms) (C, <[node := (m', demo_ledger (srv p) (Ok ()))]> ms).
Proof. intros Hn Hp H. by apply (fl_eip pw_server (λ _, recorder) _ _ C ms node fresh_node ∅ (node_view (srv p)) p "" "a" m'). Qed.

Lemma demo3_visible : visible Cached (demo5 Cached) (now demo3).
Proof.
  apply (@visible_run canonical_range insertion_sort go_cidr subset_labels demo3); [|by left].
  transitivity (demo4 Cached); apply (schedule_steps Cached).
Qed.
Lemma late_node_handles : demo_reconcile (node_view (srv (now demo3))) "" "a" fresh_node = (late_node, Ok ()).
Proof. apply (pair_result (demo_reconcile _ "" "a")). vm_compute. reflexivity. Qed.
Lemma first_node_handles : demo_reconcile (node_view (srv (now (demo5 Cached)))) "" "a" fresh_node = (first_node, Ok ()).
Proof. apply (pair_result (demo_reconcile _ "" "a")). vm_compute. reflexivity. Qed.

Lemma demo_fleet_run :
  rtc demo_fleet_step (demo0, ∅) (demo5 Cached, <["n1" := (first_node, first_ledger_now)]> one_late).
Proof.
  eapply rtc_l; [apply (fl_start _ _ _ _ demo0 ∅ "n1" fresh_node fresh_starting)|].
  eapply rtc_l; [apply (fl_start _ _ _ _ demo0 one_node "n2" fresh_node fresh_starting)|].
  etrans; [apply fleet_cluster_run, (demo5_reached Cached)|].
  eapply rtc_l; [refine (demo_node_step _ two_nodes "n2" (now demo3) late_node _ _ late_node_handles)|].
  - apply lookup_insert_eq.
  - apply demo3_visible.
  - apply rtc_once. refine (demo_node_step _ one_late "n1" (now (demo5 Cached)) first_node _ (or_introl eq_refl) first_node_handles).
    unfold one_late, two_nodes. rewrite !lookup_insert_ne by done. apply lookup_insert_eq.
Qed.

Lemma first_node_announces : speakers first_node !! "layer2" = Some {["10.0.0.1"]}.
Proof. vm_compute. reflexivity. Qed.
Lemma first_node_unlisted : ("layer2", "10.0.0.1") ∉ first_ledger_now.
Proof. apply (bool_decide_eq_false_1 _). vm_compute. reflexivity. Qed.

Lemma fleet_announces_assigned_witness : @was_recorded (demo5 Cached) "layer2" "10.0.0.1".
Proof.
  refine (match proj1 (@fleet_announces_assigned canonical_range insertion_sort go_cidr subset_labels ProxyWorld pw_client pw_proxy
    pw_endpoints pw_server pw_client_ok (gset string) (λ _, recorder) (λ _, True) (λ s, s) (λ _, recorder_ok) demo0 (demo5 Cached)
    (<["n1" := (first_node, first_ledger_now)]> one_late) demo0_initial demo_fleet_run
    "n1" first_node first_ledger_now "layer2" {["10.0.0.1"]} "10.0.0.1" _ first_node_announces _) with
    or_introl H => H | or_intror (conj H _) => False_ind _ (first_node_unlisted H) end).
  - apply lookup_insert_eq.
  - set_solver.
Defined.
