(* ===== verification/Watch.v ===== *)
(** * Events: which changes the controllers see

    The set-up of the controllers ([SetupWithManager] of
    [pkg/controllers/ipam/controller.go], [pkg/controllers/lb/controller.go],
    [pkg/speaker/lb_controller.go], [pkg/speaker/eip_controller.go],
    [pkg/speaker/bgp/bgpconf_controller.go] and [bgppeer_controller.go]): each
    kind of object a controller watches, the predicates an event has to pass
    and the requests its handler adds to the queue.

    controller-runtime delivers the events; of it the model uses that a
    predicate without a function for a kind of event lets the event through
    ([predicate.Funcs]), that the predicates of [WithEventFilter] apply to what
    the builder watches and not to later calls of [Watch], and that
    [EnqueueRequestForObject] adds the key of the object (of the new one for an
    update). *)
From S2P Require Import Prelude GoNet Iprange K8s EipTypes Kube Ipam IpamController NodeProxy LbController Speaker SpeakerManager.
From S2P Require Import Strconv Metrics BgpConfig BgpTable BgpTypes BgpPath BgpDaemon BgpControllers.
Local Open Scope Z_scope.

Inductive event (A : Type) := EvCreate (o : A) | EvUpdate (old new : A) | EvDelete (o : A) | EvGeneric (o : A).
Arguments EvCreate {A} _.
Arguments EvUpdate {A} _ _.
Arguments EvDelete {A} _.
Arguments EvGeneric {A} _.

Record Funcs (A : Type) := mkFuncs {
  on_create : option (A → bool); on_update : option (A → A → bool);
  on_delete : option (A → bool); on_generic : option (A → bool) }.
Arguments mkFuncs {A} _ _ _ _.
Arguments on_create {A} _.
Arguments on_update {A} _.
Arguments on_delete {A} _.
Arguments on_generic {A} _.

Definition passes {A} (p : Funcs A) (ev : event A) : bool :=
  match ev with
  | EvCreate o => match on_create p with Some f => f o | None => true end
  | EvUpdate old new => match on_update p with Some f => f old new | None => true end
  | EvDelete o => match on_delete p with Some f => f o | None => true end
  | EvGeneric o => match on_generic p with Some f => f o | None => true end
  end.

(** The object a request is made for. *)
Definition subject {A} (ev : event A) : A :=
  match ev with EvCreate o | EvUpdate _ o | EvDelete o | EvGeneric o => o end.

Abbreviation request := (string * string)%type.

(** ** The controllers of the pools *)

(** [ipam.SetupWithManager] *)
Definition ipam_predicate : Funcs Eip := mkFuncs None (Some IpamController.UpdateFunc) None None.
Definition ipam_watch (ev : event Eip) (q : list request) : list request :=
  if passes ipam_predicate ev then q ++ [("", Eip_Name (subject ev))] else q.

(** [EIPReconciler.SetupWithManager]: all events, and the reload channel. *)
Definition speaker_eip_watch (ev : event Eip + request) (q : list request) : list request :=
  match ev with
  | inl ev => q ++ [("", Eip_Name (subject ev))]
  | inr reload => q ++ [reload]
  end.

(** ** The service reconciler *)
Definition service_predicate : Funcs Service :=
  mkFuncs (Some LbController.IsOpenELBService) (Some (λ _ new, LbController.IsOpenELBService new))
    (Some LbController.IsOpenELBService) None.
Definition eip_predicate : Funcs Eip :=
  mkFuncs (Some (λ _, false)) (Some eip_update_event) (Some (λ _, false)) None.
Definition lb_node_predicate : Funcs Node :=
  mkFuncs (Some (λ _, false)) (Some node_update_event) (Some (λ _, false)) None.

(** [EnqueueRequestForNode] and [EnqueueRequestForDeAndDs]: nothing for a
    generic event. *)
Definition node_handler {A W} `{K : KubeClient W} (w : W) (ev : event A) (q : list request) : list request :=
  match ev with EvGeneric _ => q | _ => node_event w q end.
Definition deds_handler {A W} `{K : KubeClient W} (w : W) (ev : event A) (q : list request) : list request :=
  match ev with EvGeneric _ => q | _ => deds_event w q end.

Inductive lb_event :=
| LbService (ev : event Service) | LbEip (ev : event Eip) | LbNode (ev : event Node)
| LbDeployment (ev : event ObjectMeta) | LbDaemonSet (ev : event ObjectMeta).

(** The predicate of the workloads reads the server, and may panic. *)
Definition deds_passes {W} `{K : KubeClient W} (env : string) (w : W) (ev : event ObjectMeta) : Result bool :=
  match ev with
  | EvCreate o | EvDelete o => shouldReconcileDeDs env w o
  | EvUpdate old new => deds_update_event env w old new
  | EvGeneric _ => Ok true
  end.

Definition lb_watch {W} `{K : KubeClient W} (env : string) (w : W) (ev : lb_event) (q : list request)
    : Result (list request) :=
  match ev with
  | LbService ev => Ok (if passes service_predicate ev then q ++ [Svc_Key (subject ev)] else q)
  | LbEip ev => Ok (if passes eip_predicate ev then node_handler w ev q else q)
  | LbNode ev => Ok (if passes lb_node_predicate ev then node_handler w ev q else q)
  | LbDeployment ev | LbDaemonSet ev =>
      b ← deds_passes env w ev; Ok (if b : bool then deds_handler w ev q else q)
  end.

(** ** The speaker's service controller

    One predicate for the services and the endpoints the builder watches; it
    looks at services only. *)
Definition speaker_predicate : Funcs (Service + ObjectMeta) :=
  mkFuncs (Some (λ _, false))
    (Some (λ old new, match old, new with inl old, inl new => lb_UpdateFunc old new | _, _ => false end))
    (Some (λ _, false)) None.

Inductive speaker_event :=
| SpService (ev : event Service)          (* For *)
| SpOwned (ev : event ObjectMeta) (owner : option request) (* Owns: endpoints and their owner *)
| SpEndpoints (ev : event ObjectMeta).    (* Watch *)

Definition map_event {A B} (f : A → B) (ev : event A) : event B :=
  match ev with
  | EvCreate o => EvCreate (f o) | EvUpdate o n => EvUpdate (f o) (f n)
  | EvDelete o => EvDelete (f o) | EvGeneric o => EvGeneric (f o)
  end.

Definition ep_predicate {W} `{K : KubeClient W} (w : W) : Funcs ObjectMeta :=
  mkFuncs (Some (shouldReconcileEP w)) (Some (λ _ new, shouldReconcileEP w new)) (Some (shouldReconcileEP w)) None.

Definition speaker_watch {W} `{K : KubeClient W} (w : W) (ev : speaker_event) (q : list request) : list request :=
  match ev with
  | SpService ev => if passes speaker_predicate (map_event inl ev) then q ++ [Svc_Key (subject ev)] else q
  | SpOwned ev owner =>
      if passes speaker_predicate (map_event inr ev) then
        match owner with Some key => q ++ [key] | None => q end
      else q
  | SpEndpoints ev =>
      if passes (ep_predicate w) ev then q ++ [(Namespace (subject ev), Name (subject ev))] else q
  end.

(** ** The BGP controllers *)
Definition conf_predicate : Funcs BgpConf := mkFuncs (Some conf_CreateFunc) (Some conf_UpdateFunc) None None.
Definition bgp_node_predicate : Funcs Node :=
  mkFuncs (Some (λ _, false)) (Some node_UpdateFunc) (Some (λ _, false)) None.
Definition peer_predicate : Funcs BgpPeer := mkFuncs (Some peer_CreateFunc) (Some peer_UpdateFunc) None None.

(** A config map is its name and its resource version. *)
Record ConfigMapMeta := { cmm_name : string; cmm_version : string }.
Definition version_predicate : Funcs ConfigMapMeta :=
  mkFuncs None (Some (λ old new, negb (bool_decide (cmm_version old = cmm_version new)))) None None.

Inductive bgpconf_event :=
| BcConf (ev : event BgpConf) | BcConfigMap (ev : event ConfigMapMeta) | BcNode (ev : event Node).

Definition swap_key (k : string * string) : request := (k.2, k.1).

(** [EnqueueRequestsFromMapFunc] maps both versions of an update. *)
Definition bgpconf_watch {S} `{K : BgpKube S} (s : S) (ev : bgpconf_event) (q : list request) : list request :=
  match ev with
  | BcConf ev => if passes conf_predicate ev then q ++ [("", BgpConf_Name (subject ev))] else q
  | BcConfigMap ev =>
      if passes version_predicate ev then
        q ++ ((λ n, ("", n)) <$> match ev with
                                 | EvUpdate old new => BgpConf_Map s (cmm_name old) ++ BgpConf_Map s (cmm_name new)
                                 | ev => BgpConf_Map s (cmm_name (subject ev))
                                 end)
      else q
  | BcNode ev =>
      if passes bgp_node_predicate ev then
        match ev with EvUpdate _ _ => q ++ (swap_key <$> EnqueueRequestForNode_Update false s) | _ => q end
      else q
  end.

(** The peers' controller watches the peers only. *)
Definition bgppeer_watch (ev : event BgpPeer) (q : list request) : list request :=
  if passes peer_predicate ev then q ++ [("", BgpPeer_Name (subject ev))] else q.

(** ** The status loops: [Start] and [run]

    The status is cleaned once and then updated at every tick until the
    context is done. *)
Section ticks.
Context {R : GoRange} {S G V F : Type} {K : BgpKube S} `{GM : GoBgpMessages} {BD : BgpDaemon G} {MV : MetricVec V}.
Context (nodeName now : string).
Abbreviation W := (BgpWorld S G V F).

Fixpoint ticks_of (update : ST W ()) (ticks : nat) : ST W () :=
  match ticks with O => mret () | Datatypes.S n => update;; ticks_of update n end.
Definition BgpConf_run (ticks : nat) : ST W () := ticks_of (updateConfStatus nodeName) ticks.
Definition BgpConf_Start (ticks : nat) : ST W () := CleanBgpConfStatus;; BgpConf_run ticks.
Definition BgpPeer_run (ticks : nat) : ST W () := ticks_of (updatePeerStatus nodeName) ticks.
Definition BgpPeer_Start (ticks : nat) : ST W () := CleanBgpPeerStatus;; BgpPeer_run ticks.
End ticks.

(** ** Two controllers do not wake themselves

    Every write to the API server is an event of the object written: an update,
    or a deletion when the last finalizer of an object that is being deleted
    goes.  A client that keeps the store before and after each of its writes
    shows them all, also those of a reconciliation that fails. *)
Abbreviation Logged S V := (S * list (V * V))%type.

Definition logged {S V A} (view : S → V) (f : S → A → S * Result A) (w : Logged S V) (a : A) : Logged S V * Result A :=
  let '(s, r) := f w.1 a in ((s, w.2 ++ [(view w.1, view s)]), r).

(** The event of the object [n] between two states of the store. *)
Definition store_event {A} (m m' : gmap string A) (n : string) (ev : event A) : Prop :=
  match m !! n, m' !! n with
  | None, None => False
  | None, Some o => ev = EvCreate o
  | Some o, Some o' => o ≠ o' ∧ ev = EvUpdate o o'
  | Some o, None => ev = EvDelete o
  end.

(** The objects of the second store were there in the first, with the same
    specification and deletion timestamp; at most [name] goes, and only if it
    was being deleted. *)
Section quiet.
Context {A B : Type} (meta : A → ObjectMeta) (spec : A → B).

Record quiet_write (name : string) (m m' : gmap string A) : Prop := {
  qw_kept : ∀ n o', m' !! n = Some o' → ∃ o, m !! n = Some o ∧ spec o = spec o' ∧
    DeletionTimestamp (meta o) = DeletionTimestamp (meta o');
  qw_gone : ∀ n o, m !! n = Some o → m' !! n = None → n = name ∧ IsZero (DeletionTimestamp (meta o)) = false;
}.

Lemma quiet_refl name m : quiet_write name m m.
Proof. split; [eauto|]. intros n o Ho Hn. congruence. Qed.

Lemma quiet_insert name m k old o : m !! k = Some old → spec old = spec o →
  DeletionTimestamp (meta old) = DeletionTimestamp (meta o) → quiet_write name m (<[k := o]> m).
Proof.
  intros Hold Hs Ht. split.
  - intros n x [[<- <-]|[_ Hx]]%lookup_insert_Some; eauto.
  - intros n x Hx [Hn Hne]%lookup_insert_None. congruence.
Qed.

Lemma quiet_delete name m old : m !! name = Some old → IsZero (DeletionTimestamp (meta old)) = false →
  quiet_write name m (delete name m).
Proof.
  intros Hold Hz. split; [intros n x [_ Hx]%lookup_delete_Some; eauto|].
  intros n x Hx [->|Hn]%lookup_delete_None; [|congruence]. split; [done|]. congruence.
Qed.

(** What the events of such a write can be. *)
Lemma quiet_event name m m' n ev : quiet_write name m m' → store_event m m' n ev →
  (∃ o o', ev = EvUpdate o o' ∧ spec o = spec o' ∧ DeletionTimestamp (meta o) = DeletionTimestamp (meta o')) ∨
  (∃ o, ev = EvDelete o ∧ n = name ∧ m !! name = Some o ∧ m' !! name = None ∧ IsZero (DeletionTimestamp (meta o)) = false).
Proof.
  intros [Hk Hg]. unfold store_event. destruct (m !! n) as [o|] eqn:Eo, (m' !! n) as [o'|] eqn:Eo'.
  - intros [_ ->]. left. destruct (Hk n o' Eo') as (x & Hx & Hs & Ht). exists o, o'. split_and!; congruence.
  - intros ->. right. destruct (Hg n o Eo Eo') as [-> Hz]. by exists o.
  - destruct (Hk n o' Eo') as (x & Hx & _). congruence.
  - done.
Qed.
End quiet.

(** *** The pools' controller *)
Section ipam_log.
Context {R : GoRange} {W : Type} {K : KubeClient W} (view : W → Server) {KO : KubeClientOk W view}.

Definition logged_client : KubeClient (Logged W Server) := {|
  GetEip w := GetEip w.1; ListEips w := ListEips w.1; GetNamespaceLabels w := GetNamespaceLabels w.1;
  GetService w := GetService w.1; ListServices w := ListServices w.1;
  UpdateEip := logged view UpdateEip; StatusUpdateEip := logged view StatusUpdateEip;
  UpdateService := logged view UpdateService; StatusUpdateService := logged view StatusUpdateService |}.
#[local] Existing Instance logged_client.

(** Keeping the log does not change what a reconciliation does. *)
Lemma remove_labels_log l : ∀ w, let '(s, r) := remove_labels w.1 l in (remove_labels w l).1.1 = s ∧ (remove_labels w l).2 = r.
Proof.
  induction l as [|svc l IH]; intros w; cbn [remove_labels]; [done|].
  cbn [UpdateService logged_client]. unfold logged. destruct (UpdateService w.1 _) as [s [x|e|]]; [|done..].
  apply (IH (s, _)).
Qed.
Lemma updateEip_log (w : Logged W Server) e : updateEip w e = updateEip w.1 e.
Proof.
  assert (∀ l, sync_svcs w l = sync_svcs w.1 l) as Hs.
  { induction l as [|svc l IH]; cbn [sync_svcs]; [done|]. rewrite IH. reflexivity. }
  assert (∀ l used, sync_entries w l used = sync_entries w.1 l used) as He.
  { induction l as [|[k v] l IH]; intros used; cbn [sync_entries]; [done|]. rewrite Hs. by destruct (sync_svcs w.1 _); cbn [mbind Result_bind]. }
  unfold updateEip, syncEip. destruct (if str_empty _ then _ else _) as [x|?|]; cbn [mbind Result_bind]; [by rewrite He|done..].
Qed.
Lemma Reconcile_log name (w : Logged W Server) :
  let '(s, r) := IpamController.Reconcile w.1 name in
  (IpamController.Reconcile w name).1.1 = s ∧ (IpamController.Reconcile w name).2 = r.
Proof.
  unfold IpamController.Reconcile. cbn [GetEip logged_client]. destruct (GetEip w.1 name) as [e|e|]; [|done..].
  destruct (IsDeletionCandidate _ _).
  - unfold removeEip. cbn [ListServices logged_client]. destruct (ListServices w.1 _) as [svcs|?|]; [|done..].
    pose proof (remove_labels_log svcs w) as Hl. destruct (remove_labels w.1 svcs) as [s r], (remove_labels w svcs) as [w1 r1].
    cbn in Hl. destruct Hl as [<- ->]. destruct r as [[]|?|]; [|done..]. unfold forget. cbn [UpdateEip logged_client]. unfold logged.
    by destruct (UpdateEip w1.1 _) as [s [x|?|]].
  - cbn [UpdateEip logged_client]. unfold logged. destruct (NeedToAddFinalizer _ _).
    + destruct (UpdateEip w.1 _) as [s [x|?|]]; [|done..]. rewrite (updateEip_log (s, _) x). cbn [fst].
      destruct (updateEip s x) as [y|?|]; [|done..]. destruct (decide _); [done|]. unfold forget. cbn [StatusUpdateEip logged_client].
      unfold logged. cbn [fst]. by destruct (StatusUpdateEip s y) as [s1 [z|?|]].
    + rewrite updateEip_log. destruct (updateEip w.1 e) as [y|?|]; [|done..].
      destruct (decide _); [done|]. unfold forget. cbn [StatusUpdateEip logged_client]. unfold logged.
      by destruct (StatusUpdateEip w.1 y) as [s1 [z|?|]].
Qed.

(** The writes so far were quiet. *)
Definition eip_quiet (name : string) (l : list (Server * Server)) : Prop :=
  ∀ v v', (v, v') ∈ l → quiet_write Eip_Meta Eip_Spec name (srv_eips v) (srv_eips v').

Lemma logged_quiet {A} name (f : W → A → W * Result A) (w : Logged W Server) a s r :
  f w.1 a = (s, r) → quiet_write Eip_Meta Eip_Spec name (srv_eips (view w.1)) (srv_eips (view s)) →
  eip_quiet name w.2 → eip_quiet name (w.2 ++ [(view w.1, view s)]).
Proof.
  intros _ Hq Hl v v' [Hin|[= -> ->]%list_elem_of_singleton]%elem_of_app; [by apply Hl|done].
Qed.

Lemma update_svc_keeps_eips s svc s' r : UpdateService s svc = (s', r) → srv_eips (view s') = srv_eips (view s).
Proof.
  intros E%UpdateService_law.
  assert (∀ v s v' s', srv_update_svc v s = Some (v', s') → srv_eips v' = srv_eips v) as Hs.
  { intros v x v' x'. unfold srv_update_svc. destruct (srv_svcs v !! Svc_Key x); [|done].
    cbn [mbind option_bind]. by intros [= <- _]. }
  destruct r; [by eapply Hs| |done]. destruct E as [->|[? ?%Hs]]; done.
Qed.

(** An update that keeps the specification. *)
Lemma update_eip_quiet s e old s' r : srv_eips (view s) !! Eip_Name e = Some old → Eip_Spec e = Eip_Spec old →
  UpdateEip s e = (s', r) →
  quiet_write Eip_Meta Eip_Spec (Eip_Name e) (srv_eips (view s)) (srv_eips (view s')).
Proof.
  intros Hold Hspec E%UpdateEip_law.
  assert (∀ x, srv_update_eip (view s) e = Some (view s', x) →
    quiet_write Eip_Meta Eip_Spec (Eip_Name e) (srv_eips (view s)) (srv_eips (view s'))) as Hu.
  { intros x (o & Ho & -> & ->)%srv_update_eip_spec. rewrite Hold in Ho. injection Ho as <-.
    cbn [srv_eips with_eips]. unfold is_gone. cbn [Eip_Meta set_DeletionTimestamp DeletionTimestamp].
    destruct (IsZero (DeletionTimestamp (Eip_Meta old))) eqn:Ez; cbn [negb andb]; [by apply (quiet_insert _ _ _ _ _ old)|].
    case_bool_decide; [by apply (quiet_delete _ _ _ _ old)|by apply (quiet_insert _ _ _ _ _ old)]. }
  destruct r as [x|?|]; [by eapply Hu|destruct E as [->|[x E]]; [apply quiet_refl|by eapply Hu]|done].
Qed.

Lemma status_eip_quiet name s e s' r : StatusUpdateEip s e = (s', r) →
  quiet_write Eip_Meta Eip_Spec name (srv_eips (view s)) (srv_eips (view s')).
Proof.
  intros E%StatusUpdateEip_law.
  assert (∀ x, srv_status_eip (view s) e = Some (view s', x) →
    quiet_write Eip_Meta Eip_Spec name (srv_eips (view s)) (srv_eips (view s'))) as Hu.
  { intros x (o & Ho & -> & ->)%srv_status_eip_spec. by apply (quiet_insert _ _ _ _ _ o). }
  destruct r as [x|?|]; [by eapply Hu|destruct E as [->|[x E]]; [apply quiet_refl|by eapply Hu]|done].
Qed.

Lemma remove_labels_quiet name l : ∀ w w' r, remove_labels w l = (w', r) → eip_quiet name w.2 →
  eip_quiet name w'.2 ∧ srv_eips (view w'.1) = srv_eips (view w.1).
Proof.
  induction l as [|svc l IH]; intros w w' r; cbn [remove_labels]; [by intros [= <- _]|].
  cbn [UpdateService logged_client]. unfold logged. destruct (UpdateService w.1 _) as [s r1] eqn:E.
  pose proof (update_svc_keeps_eips _ _ _ _ E) as Heq. intros H Hl.
  assert (eip_quiet name (w.2 ++ [(view w.1, view s)])) as Hl1.
  { eapply logged_quiet; [exact E| |done]. rewrite Heq. apply quiet_refl. }
  destruct r1; [|by injection H as <- _..]. destruct (IH _ _ _ H Hl1) as [? Hv]. cbn in Hv. split; [done|]. by rewrite Hv.
Qed.

Lemma Reconcile_logged name w w' r : server_ok (view w.1) → eip_quiet name w.2 →
  IpamController.Reconcile w name = (w', r) → eip_quiet name w'.2.
Proof.
  intros [Hnames _] Hl0. unfold IpamController.Reconcile. cbn [GetEip logged_client].
  pose proof (GetEip_law w.1 name) as Hl. destruct (GetEip w.1 name) as [e|?|]; cbn in Hl; [|by intros [= <- _]..].
  pose proof (Hnames _ _ Hl) as <-. destruct (IsDeletionCandidate _ _).
  - unfold removeEip. destruct (ListServices w _) as [svcs|?|]; [|by intros [= <- _]..].
    destruct (remove_labels w svcs) as [w1 r1] eqn:E1. destruct (remove_labels_quiet (Eip_Name e) _ _ _ _ E1 Hl0) as [Hl1 Heq].
    destruct r1 as [[]|?|]; [|by intros [= <- _]..]. unfold forget. cbn [UpdateEip logged_client]. unfold logged.
    destruct (UpdateEip w1.1 _) as [s r2] eqn:E2. intros H.
    assert (w' = (s, w1.2 ++ [(view w1.1, view s)])) as -> by (by destruct r2; injection H). cbn [snd].
    apply (logged_quiet _ _ _ _ _ _ E2); [|done]. by eapply (update_eip_quiet _ _ e) in E2; [|rewrite Heq|].
  - set (add := if NeedToAddFinalizer _ _ then _ else _). destruct add as [w1 got] eqn:E1.
    assert (eip_quiet (Eip_Name e) w1.2) as Hl1.
    { unfold add in E1. destruct (NeedToAddFinalizer _ _); [|by injection E1 as <- _].
      assert (Eip_Name (set_EipMeta e (AddFinalizer (Eip_Meta e) constant.IPAMFinalizerName)) = Eip_Name e) as Hn
        by (unfold Eip_Name, AddFinalizer, set_EipMeta; cbn; by destruct (ContainsString _ _)).
      cbn [UpdateEip logged_client] in E1. unfold logged in E1. destruct (UpdateEip w.1 _) as [s r2] eqn:E2. injection E1 as <- <-.
      apply (logged_quiet _ _ _ _ _ _ E2); [|done]. eapply (update_eip_quiet _ _ e) in E2; [|by rewrite Hn|done]. by rewrite Hn in E2. }
    destruct got as [x|?|]; [|by intros [= <- _]..].
    destruct (updateEip w1 x) as [clone|?|] eqn:Eu; [|by intros [= <- _]..].
    destruct (decide _); [by intros [= <- _]|]. unfold forget. cbn [StatusUpdateEip logged_client]. unfold logged.
    destruct (StatusUpdateEip w1.1 clone) as [s r2] eqn:E2. intros H.
    assert (w' = (s, w1.2 ++ [(view w1.1, view s)])) as -> by (by destruct r2; injection H). cbn [snd].
    apply (logged_quiet _ _ _ _ _ _ E2); [|done]. by apply (status_eip_quiet (Eip_Name e)) in E2.
Qed.
End ipam_log.

(** C36: the pools' controller does not wake itself.  Whatever a reconciliation
    of a pool does and however it ends, no event of a single write that it makes
    (of the labels of services, of the finalizer or of the status) puts a pool
    on the controller's queue: none changes a specification or a deletion
    timestamp.  The one exception is the event of the deletion itself, when the
    finalizer of a pool that is being deleted was the last: the pool is queued,
    and reconciling its name, which is gone, does nothing. *)
Theorem ipam_own_writes_dropped `{R : GoRange} {W : Type} `{K : KubeClient W} (view : W → Server)
    `{KO : !KubeClientOk W view} (w w' : W) (log : list (Server * Server)) (name : string) (r : Result ())
    (Hsrv : server_ok (view w)) (Hrec : IpamController.Reconcile (K := logged_client view) (w, []) name = ((w', log), r))
    (v v' : Server) (n : string) (ev : event Eip) (q : list request)
    (Hwrite : (v, v') ∈ log) (Hev : store_event (srv_eips v) (srv_eips v') n ev) :
  ipam_watch ev q = q ∨
  (∃ e, ev = EvDelete e ∧ n = name ∧ IsZero (DeletionTimestamp (Eip_Meta e)) = false ∧ srv_eips v' !! name = None ∧
     ∀ w2, srv_eips (view w2) !! name = None → (IpamController.Reconcile w2 name).1 = w2).
Proof.
  assert (eip_quiet name log) as Hq by (by apply (Reconcile_logged view name (w, []) (w', log) r); [|intros ? ? ?%not_elem_of_nil|]).
  destruct (quiet_event Eip_Meta Eip_Spec name _ _ n ev (Hq v v' Hwrite) Hev) as [(o & o' & -> & Hs & Ht)|(o & -> & -> & Ho & Hn & Hz)].
  - left. unfold ipam_watch, passes, ipam_predicate, IpamController.UpdateFunc. cbn. by rewrite !bool_decide_true by done.
  - right. exists o. split_and!; try done. intros w2 Hgone. unfold IpamController.Reconcile.
    pose proof (GetEip_law w2 name) as Hl. destruct (GetEip w2 name); cbn in Hl; [congruence|done..].
Qed.

(** *** The controller of the BGP configuration *)
Section conf_log.
Context {R : GoRange} {S G V F : Type} {K : BgpKube S} (view : S → BgpStore) {KO : BgpKubeOk S view}.
Context `{GM : GoBgpMessages} {BD : BgpDaemon G} {MV : MetricVec V}
  {TF : TempFiles F} {VP : Viper F} {AF : AddressFamilies} {NS : NodeSelectors}.
Context (nodeName envNamespace now : string).

Definition logged_kube : BgpKube (Logged S BgpStore) := {|
  GetBgpConf w := GetBgpConf w.1; ListBgpConfs w := ListBgpConfs w.1; GetBgpPeer w := GetBgpPeer w.1;
  ListBgpPeers w := ListBgpPeers w.1; GetNode w := GetNode w.1; GetConfigMap w := GetConfigMap w.1;
  UpdateBgpConf := logged view UpdateBgpConf; StatusUpdateBgpConf := logged view StatusUpdateBgpConf;
  UpdateBgpPeer := logged view UpdateBgpPeer; StatusUpdateBgpPeer := logged view StatusUpdateBgpPeer |}.
#[local] Existing Instance logged_kube.
Abbreviation LW := (BgpWorld (Logged S BgpStore) G V F).
Abbreviation wlog w := (bw_kube w).2.
Abbreviation kconfs w := (bs_confs (view (bw_kube w).1)).

(** The writes so far were quiet, and no node or config map was written. *)
Definition conf_quiet (name : string) (l : list (BgpStore * BgpStore)) : Prop :=
  ∀ v v', (v, v') ∈ l → quiet_write BgpConf_Meta BgpConf_Spec name (bs_confs v) (bs_confs v') ∧
    bs_nodes v' = bs_nodes v ∧ bs_cms v' = bs_cms v.

Lemma on_proc_log {A} (c : ST (BgpProcess G V F) A) (w w' : LW) r : on_proc c w = (w', r) → bw_kube w' = bw_kube w.
Proof. unfold on_proc. destruct (c (bw_proc w)). by intros [= <- _]. Qed.
Lemma kread_log {A} (f : Logged S BgpStore → Result A) (w w' : LW) r : kread f w = (w', r) → w' = w.
Proof. by intros [= <- _]. Qed.

(** An update of the configuration that keeps its specification. *)
Lemma update_conf_log name c old (w w' : LW) r : BgpConf_Name c = name → kconfs w !! name = Some old →
  BgpConf_Spec c = BgpConf_Spec old → conf_quiet name (wlog w) → kwrite UpdateBgpConf c w = (w', r) →
  conf_quiet name (wlog w') ∧
  ∀ x, r = Ok x → BgpConf_Name x = name ∧ BgpConf_Spec x = BgpConf_Spec old ∧
    (IsZero (DeletionTimestamp (BgpConf_Meta old)) = true → kconfs w' !! name = Some x).
Proof.
  intros Hn Hold Hspec Hq. unfold kwrite. cbn [UpdateBgpConf logged_kube]. unfold logged.
  destruct (UpdateBgpConf (bw_kube w).1 c) as [s r1] eqn:E. intros [= <- <-]. cbn [bw_kube fst snd].
  apply UpdateBgpConf_law in E.
  assert (∀ x, srv_update_conf (view (bw_kube w).1) c = Some (view s, x) →
    (quiet_write BgpConf_Meta BgpConf_Spec name (kconfs w) (bs_confs (view s)) ∧
     bs_nodes (view s) = bs_nodes (view (bw_kube w).1) ∧ bs_cms (view s) = bs_cms (view (bw_kube w).1)) ∧
    BgpConf_Name x = name ∧ BgpConf_Spec x = BgpConf_Spec old ∧
    (IsZero (DeletionTimestamp (BgpConf_Meta old)) = true → bs_confs (view s) !! name = Some x)) as Hu.
  { intros x. unfold srv_update_conf. rewrite Hn, Hold. cbn [mbind option_bind]. unfold is_gone.
    cbn [BgpConf_Meta set_DeletionTimestamp DeletionTimestamp]. intros [= <- <-]. cbn [with_confs bs_confs bs_nodes bs_cms].
    destruct (IsZero (DeletionTimestamp (BgpConf_Meta old))) eqn:Ez; cbn [negb andb].
    - split_and!; [by apply (quiet_insert _ _ _ _ _ old)|done..|intros _; apply lookup_insert_eq].
    - split_and!; [|done..]. case_bool_decide; [by apply (quiet_delete _ _ _ _ old)|by apply (quiet_insert _ _ _ _ _ old)]. }
  assert (∀ v, quiet_write BgpConf_Meta BgpConf_Spec name (kconfs w) (bs_confs v) ∧
    bs_nodes v = bs_nodes (view (bw_kube w).1) ∧ bs_cms v = bs_cms (view (bw_kube w).1) →
    conf_quiet name (wlog w ++ [(view (bw_kube w).1, v)])) as Happ.
  { intros v Hv v1 v2 [Hin|[= -> ->]%list_elem_of_singleton]%elem_of_app; [by apply Hq|done]. }
  destruct r1 as [x|?|]; [|destruct E as [E|[x E]]|done].
  - destruct (Hu x E) as [H1 H2]. split; [by apply Happ|]. by intros y [= <-].
  - split; [|done]. apply Happ. rewrite E. split; [apply quiet_refl|done].
  - destruct (Hu x E) as [H1 _]. split; [by apply Happ|done].
Qed.

(** The finalizer is added; the object read back has the specification of the
    stored one. *)
Lemma add_finalizer_log name conf (w w' : LW) r : BgpConf_Name conf = name → kconfs w !! name = Some conf →
  conf_quiet name (wlog w) → add_conf_finalizer conf w = (w', r) →
  conf_quiet name (wlog w') ∧
  ∀ x, r = Ok x → BgpConf_Name x = name ∧ ∃ y, kconfs w' !! name = Some y ∧ BgpConf_Spec y = BgpConf_Spec conf.
Proof.
  intros Hn Hst Hq. unfold add_conf_finalizer, NeedToAddFinalizer. destruct (IsZero _) eqn:Ez, (ContainsString _ _) eqn:Ef; cbn [andb negb].
  2: { intros H. set (c := set_conf_meta _ _) in H.
       assert (BgpConf_Name c = name) as Hc by (unfold c, BgpConf_Name, AddFinalizer; cbn; by rewrite Ef).
       destruct (update_conf_log name c conf w w' r Hc Hst eq_refl Hq H) as [H1 H2]. split; [done|].
       intros x Hx. destruct (H2 x Hx) as (? & ? & H3). split; [done|]. exists x. auto. }
  all: intros [= <- <-]; (split; [done|]); intros x [= <-]; eauto.
Qed.

Lemma reconfigPeers_log (w w' : LW) r : reconfigPeers nodeName w = (w', r) → bw_kube w' = bw_kube w.
Proof.
  assert (∀ node peers (w w' : LW) r, reconfig_loop nodeName node peers w = (w', r) → bw_kube w' = bw_kube w) as Hloop.
  { intros node. induction peers as [|p peers IH]; intros w1 w2 r1; cbn [reconfig_loop]; [by intros [= <- _]|].
    unfold mbind, ST_bind, st_lift. destruct (peerMatchNode p node) as [b|?|]; [|by intros [= <- _]..].
    set (c := if b then _ else _). destruct (c w1) as [w3 r3] eqn:E.
    assert (bw_kube w3 = bw_kube w1) as <-.
    { unfold c in E. destruct b; [by apply on_proc_log in E|by injection E as <- _]. }
    destruct r3; [apply IH|by intros [= <- _]..]. }
  unfold reconfigPeers, mbind, ST_bind, kread. destruct (ListBgpPeers _) as [peers|?|]; [|by intros [= <- _]..].
  destruct (GetNode _ _) as [node|?|]; [|by intros [= <- _]..]. apply Hloop.
Qed.

Lemma configure_log name conf (w w' : LW) r : BgpConf_Name conf = name → kconfs w !! name = Some conf →
  conf_quiet name (wlog w) → configure nodeName envNamespace now conf conf w = (w', r) → conf_quiet name (wlog w').
Proof.
  intros Hn Hst Hq. unfold configure. unfold mbind at 1, ST_bind at 1.
  destruct (add_conf_finalizer conf w) as [w1 r1] eqn:E1. destruct (add_finalizer_log name conf w w1 r1 Hn Hst Hq E1) as [Hq1 Hx].
  destruct r1 as [clone|?|]; [|by intros [= <- _]..]. destruct (Hx clone eq_refl) as (Hcn & y & Hy & Hys).
  unfold mbind at 1, ST_bind at 1. unfold kread at 1. destruct (GetNode _ _) as [node|?|]; [|by intros [= <- _]..].
  cbv zeta. unfold mbind at 1, ST_bind at 1. destruct (getPolicyConfigMap _ _ w1) as [w2 r2] eqn:E2.
  assert (w2 = w1) as ->.
  { unfold getPolicyConfigMap in E2. destruct (str_empty _); [by injection E2 as <- _|by apply kread_log in E2]. }
  destruct r2 as [cm|?|]; [|by intros [= <- _]..]. unfold mbind at 1, ST_bind at 1.
  destruct (on_proc _ w1) as [w3 r3] eqn:E3. apply on_proc_log in E3.
  destruct r3 as [[]|?|]; [|by intros [= <- _]; rewrite E3..]. unfold mbind at 1, ST_bind at 1.
  set (c := mkBgpConf _ _ _). destruct (kwrite UpdateBgpConf c w3) as [w4 r4] eqn:E4.
  destruct (update_conf_log name c y w3 w4 r4) as [Hq4 _]; [exact Hcn|by rewrite E3|done|by rewrite E3|done|].
  destruct r4; [|by intros [= <- _]..]. intros H%reconfigPeers_log. by rewrite H.
Qed.

Lemma BgpConf_Reconcile_log name (w w' : LW) r :
  (∀ n c, kconfs w !! n = Some c → BgpConf_Name c = n) → conf_quiet name (wlog w) →
  BgpConf_Reconcile nodeName envNamespace now name w = (w', r) → conf_quiet name (wlog w').
Proof.
  intros Hnames Hq. unfold BgpConf_Reconcile. unfold mbind at 1, ST_bind at 1. unfold kread. cbn [GetBgpConf logged_kube].
  pose proof (GetBgpConf_law (bw_kube w).1 name) as Hl. unfold get_or_none.
  destruct (GetBgpConf (bw_kube w).1 name) as [c|e|]; cbn in Hl; [|by destruct (IsNotFound e); intros [= <- _]|done].
  pose proof (Hnames _ _ Hl) as Hn. destruct (IsDeletionCandidate _ _); [|by apply configure_log].
  unfold mbind at 1, ST_bind at 1, st_try. destruct (on_proc _ w) as [w1 r1] eqn:E1. apply on_proc_log in E1.
  assert ((kwrite UpdateBgpConf (set_conf_meta c (RemoveFinalizer (BgpConf_Meta c) constant.FinalizerName));; mret ()) w1 = (w', r) →
    conf_quiet name (wlog w')) as Hwrite.
  { unfold mbind, ST_bind. destruct (kwrite _ _ w1) as [w2 r2] eqn:E2. intros H. assert (w' = w2) as -> by (by destruct r2; injection H).
    eapply (update_conf_log name _ c w1 _ _); [..|exact E2]; [done|by rewrite E1|done|by rewrite E1]. }
  destruct r1; [exact Hwrite..|by intros [= <- _]; rewrite E1].
Qed.
End conf_log.

(** C35: the controller of the BGP configuration does not wake itself.  Whatever a
    reconciliation of the configuration does, deleting or not, and however it
    ends, no event of a single write that it makes (the finalizer, the
    annotation, with the specification it restores) passes the controller's
    filters, and it writes no node and no config map.  The one exception is the
    event of the deletion itself, when the finalizer was the last of a
    configuration that is being deleted: its name is queued, and reconciling it
    when it is gone does nothing. *)
Theorem bgpconf_own_writes_dropped `{R : GoRange} {S G V F : Type} `{K : BgpKube S} (view : S → BgpStore) `{KO : !BgpKubeOk S view}
    `{GM : GoBgpMessages} `{BD : !BgpDaemon G} `{MV : MetricVec V} `{TF : TempFiles F} `{VP : !Viper F} `{AF : AddressFamilies}
    `{NS : NodeSelectors} (nodeName envNamespace now name : string) (s s' : S) (p p' : BgpProcess G V F)
    (log : list (BgpStore * BgpStore)) (r : Result ())
    (Hnames : ∀ n c, bs_confs (view s) !! n = Some c → BgpConf_Name c = n)
    (Hrec : BgpConf_Reconcile (K := logged_kube view) nodeName envNamespace now name (mkBgpWorld (s, []) p)
            = (mkBgpWorld (s', log) p', r))
    (v v' : BgpStore) (Hwrite : (v, v') ∈ log) :
  bs_nodes v' = bs_nodes v ∧ bs_cms v' = bs_cms v ∧
  ∀ n ev (s2 : S) q, store_event (bs_confs v) (bs_confs v') n ev →
    bgpconf_watch s2 (BcConf ev) q = q ∨
    (∃ c, ev = EvDelete c ∧ n = name ∧ IsZero (DeletionTimestamp (BgpConf_Meta c)) = false ∧ bs_confs v' !! name = None ∧
       ∀ (w2 : BgpWorld S G V F), bs_confs (view (bw_kube w2)) !! name = None →
         (BgpConf_Reconcile nodeName envNamespace now name w2).1 = w2).
Proof.
  assert (conf_quiet name log) as Hq.
  { apply (BgpConf_Reconcile_log view nodeName envNamespace now name (mkBgpWorld (s, []) p) (mkBgpWorld (s', log) p') r); [done| |done].
    by intros ? ? ?%not_elem_of_nil. }
  destruct (Hq v v' Hwrite) as (Hqw & Hnodes & Hcms). split_and!; [done..|]. intros n ev s2 q Hev.
  destruct (quiet_event BgpConf_Meta BgpConf_Spec name _ _ n ev Hqw Hev) as [(o & o' & -> & Hs & Ht)|(o & -> & -> & Ho & Hn & Hz)].
  - left. cbn. unfold conf_UpdateFunc. rewrite !bool_decide_true by done. cbn. by rewrite andb_false_r.
  - right. exists o. split_and!; try done. intros w2 Hgone. unfold BgpConf_Reconcile, mbind, ST_bind, kread, get_or_none.
    pose proof (GetBgpConf_law (bw_kube w2) name) as Hl. destruct (GetBgpConf (bw_kube w2) name) as [c|e|]; cbn in Hl; [congruence| |done].
    by destruct (IsNotFound e).
Qed.

(** ** Services whose events are dropped need nothing *)
Lemma dropped_needRelease s : IsOpenELBService s = false → needRelease (Some s) = true.
Proof.
  unfold IsOpenELBService, needRelease, HasOpenELBAnnotation, IsTypeLoadBalancer, mget.
  destruct (mhas _ _); [done|]. destruct (Annotations (Svc_Meta s)) as [m|]; [|done]. cbn.
  destruct (IsZero _); [|done]. destruct (bool_decide (Spec_Type _ = _)); [|done].
  destruct (m !! _) as [v|]; [|done]. by destruct (bool_decide (v = _)).
Qed.

(** A service whose events the service reconciler does not see (no pool
    label, and not a load balancer with the OpenELB annotation), whose status
    shows no address and that no live pool records, needs nothing: a
    reconciliation of it would leave the cluster as it is. *)
Theorem dropped_service_idle `{R : GoRange} `{GS : GoSort} `{L : CidrLib} `{LL : LabelLib} {W : Type}
    `{K : KubeClient W} `{P : ProxyClient W} (view : W → Server) `{KO : !KubeClientOk W view}
    (env : string) (key : string * string) (old s : Service) (w : W)
    (Hst : srv_svcs (view w) !! key = Some s) (Hdrop : lb_watch env w (LbService (EvUpdate old s)) [] = Ok [])
    (Hnp : HasOpenELBNPAnnotation (Annotations (Svc_Meta s)) = false) (Hstatus : status_lbip s = "")
    (Hfree : ∀ n e x, srv_eips (view w) !! n = Some e → svc_key s ∉ holders (Eip_Status e) x) :
  (LbController.Reconcile env key w).1 = w.
Proof.
  assert (needRelease (Some s) = true) as Hneed.
  { apply dropped_needRelease. cbn in Hdrop. by destruct (IsOpenELBService s). }
  unfold LbController.Reconcile. pose proof (GetService_law w key) as Hl.
  destruct (GetService w key) as [x|?|]; cbn in Hl; [|done..].
  assert (x = s) as -> by congruence. rewrite Hnp. unfold ConstructRequest, getAllocatedEIPInfo.
  destruct (Annotations (Svc_Meta s)) as [m|]; [|done]. pose proof (ListEips_law w) as Hlist.
  destruct (ListEips w) as [items|?|]; [|done..]. cbn [mbind Result_bind].
  destruct (find_eip_spec (svc_key s) items) as [(e & He & _ & _ & Hh)|(Hfound & _)].
  - exfalso. rewrite Hlist in He. apply list_elem_of_fmap in He as ([n e1] & -> & He).
    apply elem_of_map_to_list in He. by eapply Hfree.
  - unfold svc_key in Hfound. rewrite Hfound, Hneed. unfold constructRelease. cbn. by rewrite Hstatus.
Qed.

(** A change of a pool's specification alone (enabling a disabled pool,
    say) is no event for the services: none of those waiting for an address of
    the pool is queued. *)
Theorem pool_change_unseen {W : Type} `{K : KubeClient W} (env : string) (w : W) (e : Eip) (spec : EipSpec)
    (q : list request) :
  lb_watch env w (LbEip (EvUpdate e {| Eip_Meta := Eip_Meta e; Eip_Spec := spec; Eip_Status := Eip_Status e |})) q = Ok q.
Proof.
  cbn. unfold eip_update_event. cbn. by destruct (bool_decide (Eip_Status e = _)).
Qed.

(** The endpoints the speaker's controller owns never queue anything: the
    filter drops every event that is not about a service. *)
Theorem owned_endpoints_unseen {W : Type} `{K : KubeClient W} (w : W) (old new : ObjectMeta)
    (owner : option request) (q : list request) :
  speaker_watch w (SpOwned (EvCreate new) owner) q = q ∧
  speaker_watch w (SpOwned (EvUpdate old new) owner) q = q ∧
  speaker_watch w (SpOwned (EvDelete old) owner) q = q.
Proof. done. Qed.

(** ** Witnesses *)
Definition quiet_world : Server :=
  {| srv_eips := {["a" := mk_eip "a" "10.0.0.0/30"]}; srv_svcs := ∅; srv_nss := ∅ |}.

Definition quiet_run : Logged Server Server * Result () :=
  IpamController.Reconcile (R := canonical_range) (K := logged_client (λ v, v)) (quiet_world, []) "a".

Lemma triple {A B C} (x : A * B * C) : x = (x.1.1, x.1.2, x.2).
Proof. by destruct x as [[? ?] ?]. Qed.

(** The run writes twice, the finalizer and the status; the event of the
    second write is dropped. *)
Lemma ipam_own_writes_dropped_witness : length quiet_run.1.2 = 2%nat ∧
  match quiet_run.1.2 !! 1%nat with
  | Some (v, v') => ∃ e e', srv_eips v !! "a" = Some e ∧ srv_eips v' !! "a" = Some e' ∧ e ≠ e' ∧ ipam_watch (EvUpdate e e') [] = []
  | None => False
  end.
Proof.
  assert (server_ok quiet_world) as Hok.
  { split; intros n x; [|done]. cbn. by intros [<- <-]%lookup_singleton_Some. }
  split; [vm_compute; reflexivity|].
  destruct (quiet_run.1.2 !! 1%nat) as [[v v']|] eqn:E; [|vm_compute in E; done].
  assert (∃ e e', srv_eips v !! "a" = Some e ∧ srv_eips v' !! "a" = Some e' ∧ e ≠ e') as (e & e' & He & He' & Hne).
  { vm_compute in E. injection E as <- <-. eexists _, _. split; [vm_compute; reflexivity|]. split; [vm_compute; reflexivity|].
    intros Hx%(f_equal (λ e, FirstIP (Eip_Status e))). vm_compute in Hx. discriminate. }
  exists e, e'. split_and!; [done..|].
  destruct (@ipam_own_writes_dropped canonical_range Server store_client (λ v, v) store_client_ok quiet_world quiet_run.1.1 quiet_run.1.2
    "a" quiet_run.2 Hok (triple quiet_run) v v' "a" (EvUpdate e e') [] (list_elem_of_lookup_2 _ _ _ E)) as [H|(? & [=] & _)].
  - unfold store_event. rewrite He, He'. exact (conj Hne eq_refl).
  - exact H.
Defined.

Definition logged_world : BgpWorld (Logged BgpStore BgpStore) demo_daemon (gmap (list string) float64) (gmap string string) :=
  mkBgpWorld (bgp_store, []) routed_process.
Definition bgpconf_run : BgpWorld (Logged BgpStore BgpStore) demo_daemon (gmap (list string) float64) (gmap string string) * Result () :=
  @BgpConf_Reconcile canonical_range (Logged BgpStore BgpStore) demo_daemon (gmap (list string) float64) (gmap string string)
    (logged_kube (λ v, v)) _ _ _ _ _ _ _ "node1" "" "now" "default" logged_world.

Lemma bgpconf_run_pair : bgpconf_run = (mkBgpWorld ((bw_kube bgpconf_run.1).1, (bw_kube bgpconf_run.1).2) (bw_proc bgpconf_run.1), bgpconf_run.2).
Proof. destruct bgpconf_run as [[[? ?] ?] ?]. reflexivity. Qed.
Lemma bgp_store_names n c : bs_confs bgp_store !! n = Some c → BgpConf_Name c = n.
Proof. cbn. by intros [<- <-]%lookup_singleton_Some. Qed.

(** The first write of the run adds the finalizer; its event is dropped. *)
Lemma bgpconf_own_writes_dropped_witness : length (bw_kube bgpconf_run.1).2 = 2%nat ∧
  match (bw_kube bgpconf_run.1).2 !! 0%nat with
  | Some (v, v') => ∃ c c', bs_confs v !! "default" = Some c ∧ bs_confs v' !! "default" = Some c' ∧ c ≠ c' ∧
      bgpconf_watch bgp_store (BcConf (EvUpdate c c')) [] = []
  | None => False
  end.
Proof.
  split; [vm_compute; reflexivity|].
  destruct ((bw_kube bgpconf_run.1).2 !! 0%nat) as [[v v']|] eqn:E; [|vm_compute in E; done].
  assert (∃ c c', bs_confs v !! "default" = Some c ∧ bs_confs v' !! "default" = Some c' ∧ c ≠ c') as (c & c' & Hc & Hc' & Hne).
  { vm_compute in E. injection E as <- <-. eexists _, _. split; [vm_compute; reflexivity|]. split; [vm_compute; reflexivity|].
    intros Hx%(f_equal (λ c, Finalizers (BgpConf_Meta c))). vm_compute in Hx. discriminate. }
  exists c, c'. split_and!; [done..|].
  destruct (proj2 (proj2 (@bgpconf_own_writes_dropped canonical_range BgpStore demo_daemon (gmap (list string) float64) (gmap string string)
    store_bgp (λ v, v) store_bgp_ok _ _ _ _ _ _ _ "node1" "" "now" "default" bgp_store _ routed_process _ _ _ bgp_store_names
    bgpconf_run_pair v v' (list_elem_of_lookup_2 _ _ _ E))) "default" (EvUpdate c c') bgp_store []) as [H|(? & [=] & _)].
  - unfold store_event. rewrite Hc, Hc'. exact (conj Hne eq_refl).
  - exact H.
Defined.

Definition plain_service : Service :=
  {| Svc_Meta := {| Name := "s1"; Namespace := "ns"; Labels := None; Annotations := Some ∅;
                    Finalizers := []; DeletionTimestamp := None |};
     Svc_Spec := Svc_Spec (sample_service None ""); Svc_Ingress := None |}.
Definition plain_world : ProxyWorld :=
  {| pw_server := {| srv_eips := srv_eips quiet_world; srv_svcs := {[("ns", "s1") := plain_service]}; srv_nss := ∅ |};
     pw_nodes := []; pw_workloads := ∅; pw_pods := [] |}.

Lemma dropped_service_idle_witness :
  (@LbController.Reconcile canonical_range insertion_sort go_cidr subset_labels ProxyWorld _ _ "" ("ns", "s1") plain_world).1 = plain_world.
Proof.
  apply (@dropped_service_idle canonical_range insertion_sort go_cidr subset_labels ProxyWorld _ _ pw_server _ "" ("ns", "s1") plain_service plain_service plain_world);
    [by vm_compute..|].
  intros n e x. cbn. intros [<- <-]%lookup_singleton_Some. vm_compute. by intros ?%not_elem_of_nil.
Defined.
