(* ===== verification/Locks.v ===== *)
(** * The lock of an announcer

    The table [ip2mac] of an announcer is used by the receiving goroutine
    ([getMac]) and by the goroutines of the controllers ([setMac],
    [DelAnnouncedIP], [UnregisterIPRange]) under a [sync.RWMutex]
    ([layer2/arp_announcer.go] and [layer2/ndp_announcer.go]).  Any number of
    goroutines call these methods over and over; a state says which of them are
    between the lock and the unlock.  Two goroutines there at once, one of them
    writing the map, are a data race, which the Go runtime reports as a fatal
    error. *)
From S2P Require Import Prelude.
Local Open Scope nat_scope.

Inductive method := GetMac | SetMac | DelAnnounced | UnregisterRange.
#[export] Instance method_eq_dec : EqDecision method.
Proof. solve_decision. Defined.

Inductive lock_kind := RLock | Lock.
#[export] Instance lock_kind_eq_dec : EqDecision lock_kind.
Proof. solve_decision. Defined.

(** The lock a method takes, and whether it writes the map. *)
Definition lock_of (m : method) : lock_kind :=
  match m with GetMac | UnregisterRange => RLock | SetMac | DelAnnounced => Lock end.
Definition writes (m : method) : bool :=
  match m with GetMac => false | SetMac | DelAnnounced | UnregisterRange => true end.

(** [RWMutex]: [Lock] waits until nobody is inside, [RLock] until no holder of
    [Lock] is. *)
Section goroutines.
Context (ms : list method).

Definition free_for (s : list bool) (k : lock_kind) : Prop := ∀ j m, ms !! j = Some m → s !! j = Some true →
  k = RLock ∧ lock_of m = RLock.

(** A goroutine enters the critical section of its method when [RWMutex]
    admits it, and leaves it. *)
Inductive lk_step : list bool → list bool → Prop :=
| lk_enter s i m : ms !! i = Some m → s !! i = Some false → free_for s (lock_of m) → lk_step s (<[i := true]> s)
| lk_leave s i : s !! i = Some true → lk_step s (<[i := false]> s).

Definition outside : list bool := (λ _, false) <$> ms.

Definition race (s : list bool) : Prop := ∃ i j mi mj, i ≠ j ∧ ms !! i = Some mi ∧ ms !! j = Some mj ∧
  s !! i = Some true ∧ s !! j = Some true ∧ writes mi = true.

(** A holder of [Lock] is alone. *)
Definition exclusive (s : list bool) : Prop := ∀ i j mi mj, i ≠ j → ms !! i = Some mi → ms !! j = Some mj →
  s !! i = Some true → s !! j = Some true → lock_of mi = RLock.

Lemma exclusive_step s s' : exclusive s → lk_step s s' → exclusive s'.
Proof.
  intros Hex Hstep. destruct Hstep as [s1 k m Hm Hk Hfree|s1 k Hk]; intros i j mi mj Hij Hi Hj.
  - intros [(<- & _ & _)|[Hki Hsi]]%list_lookup_insert_Some [(<- & _ & _)|[Hkj Hsj]]%list_lookup_insert_Some.
    + done.
    + destruct (Hfree j mj Hj Hsj) as [Hr _]. congruence.
    + by destruct (Hfree i mi Hi Hsi) as [_ Hr].
    + by apply (Hex i j mi mj).
  - intros [(_ & ? & _)|[_ Hsi]]%list_lookup_insert_Some [(_ & ? & _)|[_ Hsj]]%list_lookup_insert_Some; try done.
    by apply (Hex i j mi mj).
Qed.

Lemma exclusive_run s : rtc lk_step outside s → exclusive s.
Proof.
  assert (exclusive outside) as H0.
  { intros i j mi mj _ _ _ Hi. unfold outside in Hi. rewrite list_lookup_fmap in Hi. by destruct (ms !! i). }
  intros Hrun. revert H0. induction Hrun as [|x y z Hxy _ IH]; [done|]. intros Hx. apply IH. by eapply exclusive_step.
Qed.

Lemma outside_false i m : ms !! i = Some m → outside !! i = Some false.
Proof. intros Hi. unfold outside. by rewrite list_lookup_fmap, Hi. Qed.
End goroutines.

(** C38: the goroutines of an announcer can race on [ip2mac] exactly when one
    of them is in [UnregisterIPRange] and another one in [getMac] or
    [UnregisterIPRange]: the method deletes entries under the read lock.  All
    other combinations of the methods, however many goroutines there are,
    exclude each other as they should. *)
Theorem announcer_race_iff (ms : list method) :
  (∃ s, rtc (lk_step ms) (outside ms) s ∧ race ms s) ↔
  ∃ i j m, i ≠ j ∧ ms !! i = Some UnregisterRange ∧ ms !! j = Some m ∧ lock_of m = RLock.
Proof.
  split.
  - intros (s & Hrun & i & j & mi & mj & Hij & Hi & Hj & Hsi & Hsj & Hw).
    apply exclusive_run in Hrun. pose proof (Hrun i j mi mj Hij Hi Hj Hsi Hsj) as Hri.
    pose proof (Hrun j i mj mi (not_eq_sym Hij) Hj Hi Hsj Hsi) as Hrj.
    exists i, j, mj. split_and!; try done. by destruct mi.
  - intros (i & j & m & Hij & Hi & Hj & Hm).
    exists (<[j := true]> (<[i := true]> (outside ms))). split.
    + eapply rtc_l; [apply (lk_enter ms _ i UnregisterRange Hi)|eapply rtc_l; [apply (lk_enter ms _ j m Hj)|done]].
      * by eapply outside_false.
      * intros k mk Hk Hsk. rewrite (outside_false ms k mk Hk) in Hsk. done.
      * rewrite list_lookup_insert_ne by done. by eapply outside_false.
      * intros k mk Hk [(<- & _ & _)|[_ Hsk]]%list_lookup_insert_Some; [by simplify_eq|].
        rewrite (outside_false ms k mk Hk) in Hsk. done.
    + assert (i < length (outside ms)) as Hli by (eapply lookup_lt_Some; by eapply outside_false).
      assert (j < length (outside ms)) as Hlj by (eapply lookup_lt_Some; by eapply outside_false).
      exists i, j, UnregisterRange, m. split_and!; try done.
      * rewrite list_lookup_insert_ne by done. by rewrite list_lookup_insert_eq.
      * rewrite list_lookup_insert_eq; [done|]. by rewrite length_insert.
Qed.
