(* ===== verification/Mac.v ===== *)
(** * [pkg/util/net/mac.go]: hardware addresses and their JSON form

    The wrapper [MAC] of [net.HardwareAddr], on a model of the standard
    library's [HardwareAddr.String] and [ParseMAC], which reads pairs of
    hexadecimal digits with colons or dashes between them, or groups of four
    with dots. *)
From S2P Require Import Prelude GoNet Cnet.
Local Open Scope Z_scope.

(** ** [net]: hardware addresses *)
Definition hex_pair (x : Z) (rest : string) : string :=
  String (hex_digit (x / 16)) (String (hex_digit (x mod 16)) rest).

Fixpoint HardwareAddr_String (a : list Z) : string :=
  match a with
  | [] => ""
  | [x] => hex_pair x ""
  | x :: rest => hex_pair x (String ":" (HardwareAddr_String rest))
  end.

(** [xtoi2]: two digits, and then the end or the separator. *)
Definition xtoi2 (s : string) (e : ascii) : option Z :=
  match s with
  | String a (String b rest) =>
      match hex_val a, hex_val b with
      | Some x, Some y =>
          match rest with
          | EmptyString => Some (x * 16 + y)
          | String c _ => if decide (c = e) then Some (x * 16 + y) else None
          end
      | _, _ => None
      end
  | _ => None
  end.

Fixpoint skip (n : nat) (s : string) : string :=
  match n, s with
  | O, _ => s
  | S n', String _ s' => skip n' s'
  | S _, EmptyString => ""
  end.

(** [xx:xx:...] and [xxxx.xxxx....]; in the second form the first pair of a
    group is the first two characters of it. *)
Fixpoint mac_pairs (n : nat) (e : ascii) (s : string) : option (list Z) :=
  match n with
  | O => Some []
  | S n' => match xtoi2 s e with
            | Some x => match mac_pairs n' e (skip 3 s) with Some l => Some (x :: l) | None => None end
            | None => None
            end
  end.
Definition first_two (s : string) : string :=
  match s with String a (String b _) => String a (String b "") | _ => s end.
Fixpoint mac_groups (n : nat) (e : ascii) (s : string) : option (list Z) :=
  match n with
  | O => Some []
  | S n' => match xtoi2 (first_two s) e, xtoi2 (skip 2 s) e with
            | Some x, Some y =>
                match mac_groups n' e (skip 5 s) with Some l => Some (x :: y :: l) | None => None end
            | _, _ => None
            end
  end.

Definition mac_length (n : nat) : bool := Nat.eqb n 6 || Nat.eqb n 8 || Nat.eqb n 20.

Definition ParseMAC (s : string) : Result (list Z) :=
  let invalid := Err (Errorf ("address " +:+ s +:+ ": invalid MAC address")) in
  let len := String.length s in
  let read (o : option (list Z)) := match o with Some hw => Ok hw | None => invalid end in
  if Nat.ltb len 14 then invalid
  else
    match String.get 2 s, String.get 4 s with
    | Some c2, Some c4 =>
        if decide (c2 = ":"%char ∨ c2 = "-"%char) then
          let n := Nat.div (len + 1) 3 in
          if negb (Nat.eqb (Nat.modulo (len + 1) 3) 0) || negb (mac_length n) then invalid
          else read (mac_pairs n c2 s)
        else if decide (c4 = "."%char) then
          let n := (2 * Nat.div (len + 1) 5)%nat in
          if negb (Nat.eqb (Nat.modulo (len + 1) 5) 0) || negb (mac_length n) then invalid
          else read (mac_groups (Nat.div n 2) c4 s)
        else invalid
    | _, _ => invalid
    end.

(** ** [mac.go] *)
Definition MAC_MarshalJSON (m : list Z) : json := JString (HardwareAddr_String m).
Definition MAC_UnmarshalJSON (b : json) : Result (list Z) :=
  s ← json_string b; ParseMAC s.

(** ** Lemmas *)
Lemma xtoi2_pair x rest : is_byte x → (rest = "" ∨ ∃ r, rest = String ":" r) → xtoi2 (hex_pair x rest) ":" = Some x.
Proof.
  unfold is_byte. intros Hx Hrest. unfold xtoi2, hex_pair.
  pose proof (Z.mod_pos_bound x 16). assert (0 <= x / 16 < 16) by (split; [apply Z.div_pos|apply Z.div_lt_upper_bound]; lia).
  rewrite !hex_val_digit by lia. cbv iota.
  assert (x / 16 * 16 + x mod 16 = x) as -> by (pose proof (Z.div_mod x 16); lia).
  destruct Hrest as [->|[r ->]]; [done|]. by rewrite decide_True.
Qed.

Lemma mac_pairs_String a : Forall is_byte a → mac_pairs (length a) ":" (HardwareAddr_String a) = Some a.
Proof.
  induction a as [|x a IH]; intros Hok; [done|]. apply Forall_cons in Hok as [Hx Ha].
  cbn [length mac_pairs]. destruct a as [|y a].
  - cbn [HardwareAddr_String]. rewrite xtoi2_pair by auto. done.
  - change (HardwareAddr_String (x :: y :: a)) with (hex_pair x (String ":" (HardwareAddr_String (y :: a)))).
    rewrite xtoi2_pair by eauto. cbn [skip hex_pair]. by rewrite IH.
Qed.

Lemma length_String a : a ≠ [] → (String.length (HardwareAddr_String a) + 1 = 3 * length a)%nat.
Proof.
  induction a as [|x a IH]; [done|]. intros _. destruct a as [|y a]; [done|].
  specialize (IH ltac:(done)).
  change (HardwareAddr_String (x :: y :: a)) with (hex_pair x (String ":" (HardwareAddr_String (y :: a)))).
  cbn [String.length hex_pair length] in *. lia.
Qed.

(** ** Properties *)

(** A hardware address of one of the lengths that exist (6, 8 or 20 bytes) is
    read back from its JSON form. *)
Theorem MAC_roundtrip (m : list Z) (Hlen : mac_length (length m) = true) (Hok : Forall is_byte m) :
  MAC_UnmarshalJSON (MAC_MarshalJSON m) = Ok m.
Proof.
  assert (3 ≤ length m)%nat as Hge.
  { unfold mac_length in Hlen. destruct (length m) as [|[|[|]]]; (done || lia). }
  unfold MAC_UnmarshalJSON, MAC_MarshalJSON. cbn [json_string mbind Result_bind]. unfold ParseMAC.
  pose proof (length_String m) as Hl. pose proof (mac_pairs_String m Hok) as Hp.
  destruct m as [|x [|y [|z m]]]; cbn [length] in Hge; [lia..|]. specialize (Hl ltac:(done)).
  assert (Nat.ltb (String.length (HardwareAddr_String (x :: y :: z :: m))) 14 = false) as ->.
  { apply Nat.ltb_ge. unfold mac_length in Hlen. cbn [length] in *.
    destruct (length m) as [|[|[|n]]]; [done..|]. lia. }
  cbn [String.get]. change (HardwareAddr_String (x :: y :: z :: m))
    with (hex_pair x (String ":" (hex_pair y (String ":" (HardwareAddr_String (z :: m)))))) in *.
  cbn [String.get hex_pair]. rewrite decide_True by auto.
  change (String (hex_digit (x / 16)) _) with
    (hex_pair x (String ":" (hex_pair y (String ":" (HardwareAddr_String (z :: m)))))).
  rewrite Hl, Nat.mul_comm, Nat.Div0.mod_mul, Nat.div_mul by lia. rewrite Hlen. cbn [negb orb Nat.eqb].
  by rewrite Hp.
Qed.

(** The JSON form of no address is the empty string, which is not read back. *)
Theorem MAC_nil_not_read : ∃ e, MAC_UnmarshalJSON (MAC_MarshalJSON []) = Err e.
Proof. eexists. reflexivity. Qed.

Lemma MAC_roundtrip_witness : MAC_UnmarshalJSON (MAC_MarshalJSON [2;66;172;17;0;255]) = Ok [2;66;172;17;0;255].
Proof. apply MAC_roundtrip; [done|]. repeat constructor; unfold is_byte; lia. Defined.
