(* ===== verification/MemberLog.v ===== *)
(** * [pkg/speaker/layer2/log.go]: the log of the member list

    [logWriter] hands the lines of the member list to klog: it looks for the
    first level in brackets, [\[([A-Z]+)\](.* )], and logs what follows it up to
    the end of the line with that level. *)
From S2P Require Import Prelude.
Local Open Scope Z_scope.

(** ** The regular expression *)
Definition is_upper (c : ascii) : bool := (65 <=? ord c) && (ord c <=? 90).

(** The longest run of capitals, and what follows. *)
Fixpoint upper_run (s : string) : string * string :=
  match s with
  | String c s' => if is_upper c then let '(run, rest) := upper_run s' in (String c run, rest) else ("", s)
  | EmptyString => ("", "")
  end.

Definition newline : ascii := ascii_of_nat 10.
(** [.*]: up to a newline. *)
Fixpoint rest_of_line (s : string) : string :=
  match s with
  | String c s' => if decide (c = newline) then "" else String c (rest_of_line s')
  | EmptyString => ""
  end.

Definition match_here (s : string) : option (string * string) :=
  match s with
  | String c s' =>
      if decide (c = "["%char) then
        let '(level, rest) := upper_run s' in
        match rest with
        | String d msg => if decide (d = "]"%char) then
                            if str_empty level then None else Some (level, rest_of_line msg)
                          else None
        | EmptyString => None
        end
      else None
  | EmptyString => None
  end.

(** [FindSubmatch]: the leftmost match. *)
Fixpoint find_match (s : string) : option (string * string) :=
  match match_here s with
  | Some m => Some m
  | None => match s with String _ s' => find_match s' | EmptyString => None end
  end.

(** ** The writer *)
Definition subexps (line : string) : gmap string string :=
  match find_match line with
  | None => ∅
  | Some (level, msg) => <["msg" := msg]> (<["level" := level]> ∅)
  end.

Inductive severity := SevDebug | SevInfo | SevWarning | SevError.
Definition logWithLevel (lvl : string) : severity :=
  if decide (lvl = "DEBUG") then SevDebug
  else if decide (lvl = "INFO") then SevInfo
  else if decide (lvl = "WARN") then SevWarning
  else if decide (lvl = "ERR" ∨ lvl = "ERROR") then SevError
  else SevInfo.

(** What is logged, and the number of bytes that were taken. *)
Definition logWriter_Write (p : string) : severity * list string * nat :=
  let result := subexps p in
  let keyvals := match result !! "msg" with Some msg => [msg] | None => [] end in
  let level := default "" (result !! "level") in
  let level := if str_empty level then "INFO" else level in
  (logWithLevel level, keyvals, String.length p).

(** ** Lemmas *)
Fixpoint str_all (f : ascii → bool) (s : string) : bool :=
  match s with String c s' => f c && str_all f s' | EmptyString => true end.

Lemma upper_run_app level d rest : str_all is_upper level = true → is_upper d = false →
  upper_run (level +:+ String d rest) = (level, String d rest).
Proof.
  intros Hl Hd. induction level as [|c level IH]; cbn in *; [by rewrite Hd|].
  apply andb_true_iff in Hl as [-> Hl]. by rewrite (IH Hl).
Qed.

Lemma rest_of_line_app msg rest : str_all (λ c, bool_decide (c ≠ newline)) msg = true →
  rest_of_line (msg +:+ String newline rest) = msg.
Proof.
  induction msg as [|c msg IH]; cbn; [done|]. intros [Hc Hm]%andb_true_iff.
  rewrite decide_False by (by apply bool_decide_eq_true in Hc). by rewrite (IH Hm).
Qed.

Lemma find_match_skip pre s : str_all (λ c, bool_decide (c ≠ "["%char)) pre = true →
  find_match (pre +:+ s) = find_match s.
Proof.
  induction pre as [|c pre IH]; cbn [str_all]; [done|]. intros [Hc Hp]%andb_true_iff.
  change ((String c pre) +:+ s) with (String c (pre +:+ s)). cbn [find_match].
  assert (match_here (String c (pre +:+ s)) = None) as ->; [|by apply IH].
  cbn. by rewrite decide_False by (by apply bool_decide_eq_true in Hc).
Qed.

(** ** Properties *)

(** A line of the member list, [... [LEVEL] text], is logged with its text and
    its level, whatever comes before the bracket. *)
Theorem log_line (pre level msg rest : string)
    (Hpre : str_all (λ c, bool_decide (c ≠ "["%char)) pre = true)
    (Hlevel : str_all is_upper level = true) (Hne : str_empty level = false)
    (Hmsg : str_all (λ c, bool_decide (c ≠ newline)) msg = true) :
  let line := pre +:+ String "[" (level +:+ String "]" (msg +:+ String newline rest)) in
  logWriter_Write line = (logWithLevel level, [msg], String.length line).
Proof.
  intros line. unfold logWriter_Write, subexps, line. rewrite find_match_skip by done. cbn [find_match].
  unfold match_here. rewrite decide_True by done. rewrite upper_run_app by done. rewrite decide_True by done.
  rewrite Hne. rewrite rest_of_line_app by done.
  rewrite lookup_insert_eq, lookup_insert_ne, lookup_insert_eq by done. cbn. by rewrite Hne.
Qed.

(** A line without a level is logged without its text. *)
Theorem log_line_lost (line : string) (H : str_all (λ c, bool_decide (c ≠ "["%char)) line = true) :
  logWriter_Write line = (SevInfo, [], String.length line).
Proof.
  assert (find_match line = None) as Hf.
  { rewrite <- (str_app_nil_r line), find_match_skip by done. done. }
  unfold logWriter_Write, subexps. by rewrite Hf.
Qed.

Lemma log_line_witness :
  logWriter_Write ("memberlist: " +:+ String "[" ("WARN" +:+ String "]" (" node left" +:+ String newline ""))) =
  (SevWarning, [" node left"], 29%nat).
Proof. apply (log_line "memberlist: " "WARN" " node left" ""); done. Defined.
Lemma log_line_lost_witness : logWriter_Write "memberlist started" = (SevInfo, [], 18%nat).
Proof. apply log_line_lost. done. Defined.
