(* ===== verification/Routes.v ===== *)
(** * The routes of the HTTP server ([pkg/server])

    The route tables of the three routers ([Register] in
    [internal/router/eip.go], [bgppeer.go] and [bgpconf.go]), the server built
    from them ([NewHTTPServer], [SetupHTTPServer]) and the way of a request to
    its endpoint.  The router is chi (third-party): of it the model uses that a
    pattern matches segment by segment, that [{name}] matches one segment that
    is not empty, that a literal segment goes before a parameter, and the
    answers to a request that no route takes.  The CORS headers are not
    modelled. *)
From S2P Require Import Prelude GoNet K8s EipTypes BgpTypes HttpServer.
Local Open Scope Z_scope.

(** ** Patterns *)
Definition is_param (seg : string) : bool := String.eqb seg "{name}".

(** The values of the parameters. *)
Fixpoint match_segs (pattern path : list string) : option (list string) :=
  match pattern, path with
  | [], [] => Some []
  | p :: ps, s :: ss =>
      if is_param p then
        if str_empty s then None
        else match match_segs ps ss with Some l => Some (s :: l) | None => None end
      else if String.eqb p s then match_segs ps ss else None
  | _, _ => None
  end.

(** ** The tables *)
Inductive operation := OpCreate | OpGet | OpList | OpPatch | OpUpdate | OpDelete.
Inductive endpoint := EpEip (op : operation) | EpPeer (op : operation) | EpConf (op : operation).
Record route := { rt_method : string; rt_pattern : string; rt_endpoint : endpoint }.
Definition mk_route (m p : string) (e : endpoint) : route := {| rt_method := m; rt_pattern := p; rt_endpoint := e |}.

Definition eip_Register : list route := [
  mk_route "POST" "/apis/v1/eip" (EpEip OpCreate);
  mk_route "GET" "/apis/v1/eip/{name}" (EpEip OpGet);
  mk_route "GET" "/apis/v1/eip" (EpEip OpList);
  mk_route "PATCH" "/apis/v1/eip/{name}" (EpEip OpPatch);
  mk_route "PUT" "/apis/v1/eip/{name}" (EpEip OpUpdate);
  mk_route "DELETE" "/apis/v1/eip/{name}" (EpEip OpDelete)].
Definition bgpPeer_Register : list route := [
  mk_route "POST" "/apis/v1/bgp" (EpPeer OpCreate);
  mk_route "GET" "/apis/v1/bgp/{name}" (EpPeer OpGet);
  mk_route "GET" "/apis/v1/bgp" (EpPeer OpList);
  mk_route "PATCH" "/apis/v1/bgp/{name}" (EpPeer OpPatch);
  mk_route "PUT" "/apis/v1/bgp/{name}" (EpPeer OpUpdate);
  mk_route "DELETE" "/apis/v1/bgp/{name}" (EpPeer OpDelete)].
Definition bgpConf_Register : list route := [
  mk_route "POST" "/apis/v1/bgp/conf" (EpConf OpCreate);
  mk_route "GET" "/apis/v1/bgp/conf" (EpConf OpGet);
  mk_route "PATCH" "/apis/v1/bgp/conf" (EpConf OpPatch);
  mk_route "PUT" "/apis/v1/bgp/conf" (EpConf OpUpdate);
  mk_route "DELETE" "/apis/v1/bgp/conf" (EpConf OpDelete)].

(** [NewHTTPServer] registers the routers in order. *)
Definition NewHTTPServer (routers : list (list route)) : list route := concat routers.
Definition SetupHTTPServer : list route := NewHTTPServer [bgpConf_Register; bgpPeer_Register; eip_Register].

(** ** The way of a request *)
Definition candidate (r : route) (method : string) (path : list string) : option (endpoint * string) :=
  if String.eqb (rt_method r) method then
    match match_segs (Split "/" (rt_pattern r)) path with
    | Some params => Some (rt_endpoint r, default "" (head params))
    | None => None
    end
  else None.
Definition literal (r : route) : bool := forallb (λ s, negb (is_param s)) (Split "/" (rt_pattern r)).

Fixpoint first_candidate (rs : list route) (method : string) (path : list string) : option (endpoint * string) :=
  match rs with
  | [] => None
  | r :: rest => match candidate r method path with Some e => Some e | None => first_candidate rest method path end
  end.

(** Literal routes first. *)
Definition find_segs (rs : list route) (method : string) (path : list string) : option (endpoint * string) :=
  match first_candidate (List.filter literal rs) method path with
  | Some e => Some e
  | None => first_candidate (List.filter (λ r, negb (literal r)) rs) method path
  end.
Definition find_route (rs : list route) (method path : string) : option (endpoint * string) :=
  find_segs rs method (Split "/" path).

(** The path is known, with another method. *)
Definition path_known (rs : list route) (path : string) : bool :=
  existsb (λ r, match match_segs (Split "/" (rt_pattern r)) (Split "/" path) with Some _ => true | None => false end) rs.

Section serve.
Context {S : Type} {RE : Resource Eip} {RP : Resource BgpPeer} {RC : Resource BgpConf}.
Context {CE : ApiClient S Eip} {CP : ApiClient S BgpPeer} {CC : ApiClient S BgpConf}.
Context (decode_eip : string → Result Eip) (decode_peer : string → Result BgpPeer) (decode_conf : string → Result BgpConf).
Context (encode : ∀ A, Body A → option string) (listenPort : BgpConf → Z).

Definition serve_endpoint (e : endpoint) (name body : string) (w : ResponseWriter) (s : S) : S * Result ResponseWriter :=
  match e with
  | EpEip OpCreate => ServeRequest (encode _) (route_create decode_eip body) w s
  | EpEip OpGet => ServeRequest (encode _) (route_get (T := Eip) name) w s
  | EpEip OpList => ServeRequest (encode _) (route_list (T := Eip)) w s
  | EpEip OpPatch => ServeRequest (encode _) (route_patch (T := Eip) body name) w s
  | EpEip OpUpdate => ServeRequest (encode _) (route_update decode_eip body name) w s
  | EpEip OpDelete => ServeRequest (encode _) (route_delete (T := Eip) name) w s
  | EpPeer OpCreate => ServeRequest (encode _) (bgpPeerRouter_create decode_peer body) w s
  | EpPeer OpGet => ServeRequest (encode _) (bgpPeerRouter_get name) w s
  | EpPeer OpList => ServeRequest (encode _) bgpPeerRouter_list w s
  | EpPeer OpPatch => ServeRequest (encode _) (bgpPeerRouter_patch body name) w s
  | EpPeer OpUpdate => ServeRequest (encode _) (bgpPeerRouter_update decode_peer body name) w s
  | EpPeer OpDelete => ServeRequest (encode _) (bgpPeerRouter_delete name) w s
  | EpConf OpCreate => ServeRequest (encode _) (conf_route_create decode_conf body listenPort) w s
  | EpConf OpGet => ServeRequest (encode _) (conf_route_get (T := BgpConf)) w s
  | EpConf OpPatch => ServeRequest (encode _) (conf_route_patch (T := BgpConf) body) w s
  | EpConf OpUpdate => ServeRequest (encode _) (conf_route_update decode_conf body) w s
  | EpConf OpDelete => ServeRequest (encode _) (conf_route_delete (T := BgpConf)) w s
  | EpConf OpList => (s, Ok (WriteHeader 404 w))  (* no such route *)
  end.

Definition serve (rs : list route) (method path body : string) (s : S) : S * Result ResponseWriter :=
  match find_route rs method path with
  | Some (e, name) => serve_endpoint e name body fresh_writer s
  | None =>
      (s, Ok (if path_known rs path then WriteHeader 405 fresh_writer
              else Write "404 page not found" (WriteHeader 404 fresh_writer)))
  end.
End serve.

(** ** Lemmas *)
Lemma Split_segment base name : str_elem "/" name = false → Split "/" (base +:+ String "/" name) = Split "/" base ++ [name].
Proof. intros Hn. by rewrite Split_concat, (Split_no_sep "/" name). Qed.

(** The name of an object in a path. *)
Definition segment (name : string) : Prop := str_elem "/" name = false ∧ str_empty name = false.

Lemma find_named base method name : segment name →
  find_route SetupHTTPServer method (base +:+ String "/" name) = find_segs SetupHTTPServer method (Split "/" base ++ [name]).
Proof. intros [Hn _]. unfold find_route. by rewrite Split_segment. Qed.

Lemma eqb_name name : name ≠ "conf" → String.eqb "conf" name = false.
Proof. intros Hne. apply String.eqb_neq. congruence. Qed.

(** The table, literal routes and the others, with the segments of its patterns. *)
Lemma literal_routes : List.filter literal SetupHTTPServer =
  bgpConf_Register ++ [mk_route "POST" "/apis/v1/bgp" (EpPeer OpCreate); mk_route "GET" "/apis/v1/bgp" (EpPeer OpList);
    mk_route "POST" "/apis/v1/eip" (EpEip OpCreate); mk_route "GET" "/apis/v1/eip" (EpEip OpList)].
Proof. vm_compute. reflexivity. Qed.
Lemma param_routes : List.filter (λ r, negb (literal r)) SetupHTTPServer =
  List.filter (λ r, negb (literal r)) bgpPeer_Register ++ List.filter (λ r, negb (literal r)) eip_Register.
Proof. vm_compute. reflexivity. Qed.
Lemma param_peer_routes : List.filter (λ r, negb (literal r)) bgpPeer_Register = [
  mk_route "GET" "/apis/v1/bgp/{name}" (EpPeer OpGet); mk_route "PATCH" "/apis/v1/bgp/{name}" (EpPeer OpPatch);
  mk_route "PUT" "/apis/v1/bgp/{name}" (EpPeer OpUpdate); mk_route "DELETE" "/apis/v1/bgp/{name}" (EpPeer OpDelete)].
Proof. vm_compute. reflexivity. Qed.
Lemma param_eip_routes : List.filter (λ r, negb (literal r)) eip_Register = [
  mk_route "GET" "/apis/v1/eip/{name}" (EpEip OpGet); mk_route "PATCH" "/apis/v1/eip/{name}" (EpEip OpPatch);
  mk_route "PUT" "/apis/v1/eip/{name}" (EpEip OpUpdate); mk_route "DELETE" "/apis/v1/eip/{name}" (EpEip OpDelete)].
Proof. vm_compute. reflexivity. Qed.
Lemma pattern_segments :
  Split "/" "/apis/v1/eip" = [""; "apis"; "v1"; "eip"] ∧ Split "/" "/apis/v1/bgp" = [""; "apis"; "v1"; "bgp"] ∧
  Split "/" "/apis/v1/bgp/conf" = [""; "apis"; "v1"; "bgp"; "conf"] ∧
  Split "/" "/apis/v1/eip/{name}" = [""; "apis"; "v1"; "eip"; "{name}"] ∧
  Split "/" "/apis/v1/bgp/{name}" = [""; "apis"; "v1"; "bgp"; "{name}"].
Proof. vm_compute. done. Qed.

(** ** Properties *)

(** Every endpoint for a named object is reached by its method and the path of
    the object, with the name of the object; a peer must not be called
    "conf". *)
Theorem named_routes (name : string) (Hname : segment name) :
  (∀ m op, (m, op) ∈ [("GET", OpGet); ("PATCH", OpPatch); ("PUT", OpUpdate); ("DELETE", OpDelete)] →
   find_route SetupHTTPServer m ("/apis/v1/eip" +:+ String "/" name) = Some (EpEip op, name) ∧
   (name ≠ "conf" → find_route SetupHTTPServer m ("/apis/v1/bgp" +:+ String "/" name) = Some (EpPeer op, name))).
Proof.
  intros m op Hm. rewrite !find_named by done. destruct Hname as [_ Hne].
  unfold find_segs. rewrite literal_routes, param_routes, param_peer_routes, param_eip_routes. unfold bgpConf_Register.
  cbn [first_candidate candidate mk_route rt_method rt_pattern rt_endpoint app].
  unfold candidate, mk_route. cbn [rt_method rt_pattern rt_endpoint]. destruct pattern_segments as (-> & -> & -> & -> & ->).
  repeat (apply elem_of_cons in Hm as [[= -> ->]|Hm]); [..|by apply not_elem_of_nil in Hm];
    (split; [|intros Hconf%eqb_name]; cbn -[str_empty String.eqb]; rewrite ?Hconf, ?Hne; reflexivity).
Qed.

(** A peer called "conf" is out of reach: its path is the path of the BGP
    configuration, which is what is read, changed or deleted instead. *)
Theorem peer_conf_shadowed m op :
  (m, op) ∈ [("GET", OpGet); ("PATCH", OpPatch); ("PUT", OpUpdate); ("DELETE", OpDelete)] →
  find_route SetupHTTPServer m ("/apis/v1/bgp" +:+ String "/" "conf") = Some (EpConf op, "").
Proof.
  intros Hm. repeat (apply elem_of_cons in Hm as [[= -> ->]|Hm]); [reflexivity..|by apply not_elem_of_nil in Hm].
Qed.

(** The collections, the configuration, and what is not a route. *)
Example other_routes :
  (λ mp, find_route SetupHTTPServer mp.1 mp.2) <$>
    [("POST", "/apis/v1/eip"); ("GET", "/apis/v1/eip"); ("POST", "/apis/v1/bgp"); ("GET", "/apis/v1/bgp");
     ("POST", "/apis/v1/bgp/conf"); ("GET", "/apis/v1/bgp/conf"); ("GET", "/apis/v1/eip/"); ("PUT", "/apis/v1/eip")] =
  [Some (EpEip OpCreate, ""); Some (EpEip OpList, ""); Some (EpPeer OpCreate, ""); Some (EpPeer OpList, "");
   Some (EpConf OpCreate, ""); Some (EpConf OpGet, ""); None; None].
Proof. reflexivity. Qed.

Lemma named_routes_witness :
  find_route SetupHTTPServer "PUT" ("/apis/v1/eip" +:+ String "/" "pool-1") = Some (EpEip OpUpdate, "pool-1").
Proof.
  apply (named_routes "pool-1" (conj eq_refl eq_refl) "PUT" OpUpdate). right. right. left.
Defined.
