(* ===== verification/Commands.v ===== *)
(** * The commands ([cmd/]) and [pkg/version]

    The three binaries: the command of each ([NewOpenELBSpeakerCommand],
    [NewOpenELBManagerCommand], [NewOpenELBApiServerCommand]) with its flags, its
    version command and its exit code, and the [Run] of the controller and of
    the API server (the one of the speaker is [SpeakerProcess.Run]).  cobra is
    modelled as far as the sources use it: a command line is the version
    command, or flags and then the command itself.  Help texts are not
    modelled. *)
From S2P Require Import Prelude GoNet K8s BgpTypes Options.
Local Open Scope Z_scope.

(** ** [pkg/version] *)
Record Info := mkInfo {
  GitVersion : string; GitCommit : string; GitTreeState : string; BuildDate : string;
  GoVersion : string; Compiler : string; Info_Platform : string }.

(** The variables the linker may set, and the constants of the runtime. *)
Record build := { gitVersion : string; gitCommit : string; gitTreeState : string; buildDate : string }.
Definition default_build : build :=
  {| gitVersion := "v0.0.0"; gitCommit := "unknown"; gitTreeState := "unknown"; buildDate := "unknown" |}.
Record runtime := { rt_Version : string; rt_Compiler : string; rt_GOOS : string; rt_GOARCH : string }.

Definition version_Get (b : build) (r : runtime) : Info :=
  mkInfo (gitVersion b) (gitCommit b) (gitTreeState b) (buildDate b) (rt_Version r) (rt_Compiler r)
    (rt_GOOS r +:+ "/" +:+ rt_GOARCH r).

(** [Info.String]: its JSON. *)
Definition Info_String (info : Info) : json :=
  JObj [("gitVersion", JStr (GitVersion info)); ("gitCommit", JStr (GitCommit info));
        ("gitTreeState", JStr (GitTreeState info)); ("buildDate", JStr (BuildDate info));
        ("goVersion", JStr (GoVersion info)); ("compiler", JStr (Compiler info)); ("platform", JStr (Info_Platform info))].

(** ** The commands *)
Inductive command_line := CmdVersion | CmdRun (flags : list (string * fval)).

(** What a process leaves: its exit code and what it printed. *)
Record exit := mkExit { ex_code : Z; ex_out : list json }.

(** [klog.Fatalf] exits with 255; every error of a [Run] is one.  An error that
    [Execute] returns, or that [Run] prints, makes the exit code 1. *)
Definition run_exit (r : Result ()) : exit :=
  match r with Ok _ => mkExit 0 [] | Err _ => mkExit 255 [] | Panic => mkExit 2 [] end.

Section command.
Context {O : Type} (new : O) (sets : list (string * list (flag O))) (validate : O → list error) (run : O → Result ()).
Context (b : build) (r : runtime).

Definition command (cl : command_line) : exit :=
  match cl with
  | CmdVersion => mkExit 0 [Info_String (version_Get b r)]
  | CmdRun args =>
      match parse_flags (command_flags sets) args new with
      | None => mkExit 1 []
      | Some o => match validate o with [] => run_exit (run o) | _ => mkExit 1 [] end
      end
  end.
End command.

(** ** [Run] of the controller: [setup] is the outcome of each call that
    registers something with the manager, or starts it *)
Definition or_fatal (text : string) (r k : Result ()) : Result () :=
  match r with Ok _ => k | Err e => Err (Errorf (text +:+ err_text e)) | Panic => Panic end.

Definition controller_Run (setup : string → Result ()) : Result () :=
  or_fatal "unable to new manager: " (setup "manager")
    (or_fatal "unable to setup ipam: " (setup "ipam")
      match setup "webhook" with
      | Panic => Panic
      | _ => or_fatal "unable to setup lb controller: " (setup "lb")
               (or_fatal "unable to run the manager: " (setup "start") (Ok ()))
      end).

(** The set-up of the API server is commented out. *)
Definition apiserver_Run (c : OpenELBApiServerOptions) : Result () := Ok ().

Definition NewOpenELBSpeakerCommand (Getenv : string → string) (klog : list string)
    (Run : OpenELBSpeakerOptions → Result ()) : build → runtime → command_line → exit :=
  command (NewOpenELBSpeakerOptions Getenv) (speaker_Flags klog) Validate Run.
Definition NewOpenELBManagerCommand (klog : list string) (setup : OpenELBManagerOptions → string → Result ())
    : build → runtime → command_line → exit :=
  command NewOpenELBManagerOptions (manager_Flags klog) Validate (λ o, controller_Run (setup o)).
Definition NewOpenELBApiServerCommand (klog : list string) : build → runtime → command_line → exit :=
  command NewOpenELBApiServerOptions (apiserver_Flags klog) Validate apiserver_Run.

(** ** Properties *)

(** The controller starts exactly when every step but the registration of the
    webhook succeeds. *)
Lemma controller_Run_ok (setup : string → Result ()) :
  controller_Run setup = Ok () ↔ setup "webhook" ≠ Panic ∧
    Forall (λ s, setup s = Ok ()) ["manager"; "ipam"; "lb"; "start"].
Proof.
  unfold controller_Run, or_fatal. rewrite !Forall_cons, Forall_nil.
  destruct (setup "manager") as [[]|?|], (setup "ipam") as [[]|?|], (setup "webhook") as [[]|?|],
    (setup "lb") as [[]|?|], (setup "start") as [[]|?|]; naive_solver.
Qed.

(** A failure to register the validating webhook is ignored: the controller
    runs without it, and nothing checks the pools. *)
Theorem controller_ignores_webhook (setup : string → Result ()) (e : error)
    (Hok : ∀ s, s ≠ "webhook" → setup s = Ok ()) (Hweb : setup "webhook" = Err e) :
  controller_Run setup = Ok ().
Proof. apply controller_Run_ok. rewrite Hweb. split; [done|]. repeat constructor; by apply Hok. Qed.

(** The API server ends at once, with success, whatever its port. *)
Theorem apiserver_does_nothing (klog : list string) (b : build) (r : runtime) (port : Z) :
  NewOpenELBApiServerCommand klog b r (CmdRun [("http-port", FInt port)]) = mkExit 0 [].
Proof.
  assert (∃ rest, command_flags (apiserver_Flags klog) = (within HTTPOptions (λ p _, mkApiServerOptions p) <$> server.AddFlags) ++ rest)
    as [rest Hf].
  { unfold command_flags. cbn [apiserver_Flags fmap list_fmap fst snd concat]. rewrite foldl_app.
    apply add_flags_prefix. }
  unfold NewOpenELBApiServerCommand, command. rewrite Hf. reflexivity.
Qed.

Lemma controller_ignores_webhook_witness :
  controller_Run (λ s, if decide (s = "webhook") then Err (Errorf "no certificate") else Ok ()) = Ok ().
Proof.
  apply (controller_ignores_webhook _ (Errorf "no certificate")); [|reflexivity].
  intros s Hs. by rewrite decide_False.
Defined.
