(* ===== verification/DeepCopy.v ===== *)
(** * Go memory, and what a deep copy is

    The objects of the API hold pointers, slices and maps, and the controllers
    change a copy of an object they got from a shared cache: the copy must not
    share memory with the object.  This file has the memory ([heap]) with typed
    cells, the reference types ([ptr], [slice], [gomp]), the statements the
    generated copying functions are made of ([copy_ptr], [assign_ptr],
    [copy_slice], [copy_flat], [copy_map], [assign_map]) and the property they
    have ([copies]): the copy has the same contents as the original and all
    memory it reaches is new.  The copying functions themselves are in
    [DeepCopyV1] and [DeepCopyV2]. *)
From S2P Require Import Prelude.
From stdpp Require Import fin_sets fin_map_dom.
Local Open Scope nat_scope.

Abbreviation heap := (gmap positive).

(** A type whose values (or arrays, or maps) are cells of the memory. *)
Class Stored (cell A : Type) := {
  inj : A → cell;
  prj : cell → option A;
  prj_inj a : prj (inj a) = Some a }.

(** The contents of a value, read through all its references, and the cells
    that are read for it. *)
Class Deep (cell A : Type) := {
  dval : Type;
  read : heap cell → A → option dval;
  foot : heap cell → A → gset positive }.
Arguments dval {cell} A {_}.

Class DeepOk (cell A : Type) `{Deep cell A} : Prop := {
  foot_dom (h : heap cell) (x : A) d : read h x = Some d → foot h x ⊆ dom h;
  read_local (h h' : heap cell) (x : A) d : read h x = Some d → (∀ l, l ∈ foot h x → h' !! l = h !! l) →
    read h' x = Some d ∧ foot h' x = foot h x }.

Section memory.
Context {cell : Type}.
Abbreviation H := (heap cell).

Definition deref {A} `{Stored cell A} (h : H) (l : positive) : option A := h !! l ≫= prj.
Definition load {A} `{Stored cell A} (l : positive) : ST H A := λ h,
  (h, match deref h l with Some a => Ok a | None => Panic end).
Definition alloc {A} `{Stored cell A} (a : A) : ST H positive := λ h,
  let l := fresh (dom h) in (<[l := inj a]> h, Ok l).
Definition store {A} `{Stored cell A} (l : positive) (a : A) : ST H () := λ h, (<[l := inj a]> h, Ok ()).

(** ** Values without references *)
Record flat (A : Type) := Flat { unflat : A }.
Arguments Flat {A} _.
Arguments unflat {A} _.

Definition flat_deep {A} : Deep cell A := {| dval := A; read _ x := Some x; foot _ _ := ∅ |}.
#[export] Instance Deep_flat {A} : Deep cell (flat A) := flat_deep.

(** ** The reference types *)

(** The contents behind a reference, when it is readable. *)
Definition read_opt {A} `{D : Deep cell A} (h : H) (o : option A) : option (option (dval A)) :=
  match o with
  | Some x => match read (A := A) h x with Some d => Some (Some d) | None => None end
  | None => None
  end.
Definition foot_opt {A} `{D : Deep cell A} (h : H) (o : option A) : gset positive :=
  match o with Some x => foot (A := A) h x | None => ∅ end.

Record ptr (A : Type) := Ptr { addr : option positive }.
Arguments Ptr {A} _.
Arguments addr {A} _.

Definition deep_ref {X A} `{D : Deep cell X} (at_ : A → option positive) (content : H → A → option X)
    : Deep cell A := {|
  dval := option (dval X);
  read h r := match at_ r with None => Some None | Some _ => read_opt h (content h r) end;
  foot h r := match at_ r with None => ∅ | Some l => {[l]} ∪ foot_opt h (content h r) end |}.

#[export] Instance Deep_ptr {A} `{Stored cell A} `{Deep cell A} : Deep cell (ptr A) :=
  deep_ref (X := A) addr (λ h p, addr p ≫= deref h).

#[export] Instance Deep_list {A} `{Deep cell A} : Deep cell (list A) := {|
  dval := list (dval A);
  read h xs := mapM (M := option) (read (A := A) h) xs;
  foot h xs := ⋃ (foot h <$> xs) |}.

(** A slice is a window of an array: the array, its offset and its length. *)
Record slice (A : Type) := Slice { window : option (positive * nat * nat) }.
Arguments Slice {A} _.
Arguments window {A} _.

Definition elements_of {A} `{Stored cell (list A)} (h : H) (w : positive * nat * nat) : option (list A) :=
  xs ← (deref h w.1.1 : option (list A));
  if decide (w.1.2 + w.2 ≤ length xs) then Some (take w.2 (drop w.1.2 xs)) else None.

#[export] Instance Deep_slice {A} `{Stored cell (list A)} `{Deep cell A} : Deep cell (slice A) :=
  deep_ref (X := list A) (λ s, (λ w, w.1.1) <$> window s) (λ h s, window s ≫= elements_of h).

Record gomp (A : Type) := GoMap { table : option positive }.
Arguments GoMap {A} _.
Arguments table {A} _.

#[export] Instance Deep_gmap {A} `{Deep cell A} : Deep cell (gmap string A) := {|
  dval := gmap string (dval A);
  read h m := if decide (map_Forall (λ _ x, is_Some (read h x)) m) then Some (omap (read h) m) else None;
  foot h m := ⋃ ((λ kv, foot h kv.2) <$> map_to_list m) |}.

#[export] Instance Deep_gomp {A} `{Stored cell (gmap string A)} `{Deep cell A} : Deep cell (gomp A) :=
  deep_ref (X := gmap string A) table (λ h t, table t ≫= deref h).

(** A struct has the references of its fields, given as a tuple. *)
Definition deep_via {A T} (fields : A → T) `{Deep cell T} : Deep cell A :=
  {| dval := dval T; read h x := read h (fields x); foot h x := foot h (fields x) |}.

#[export] Instance Deep_pair {A B} `{Deep cell A} `{Deep cell B} : Deep cell (A * B) := {|
  dval := dval A * dval B;
  read h x := a ← read h x.1; b ← read h x.2; Some (a, b);
  foot h x := foot (A := A) h x.1 ∪ foot (A := B) h x.2 |}.

(** ** The statements of the copying functions

    [into] stands for a [DeepCopyInto] method: it computes the value written to
    [*out] from the one of [*in].  New memory starts with the value of the
    original: each of the methods begins with [*out = *in]. *)

(** [*out = new(T); ( *in).DeepCopyInto( *out)], also the body of [DeepCopy]. *)
Definition copy_ptr {A} `{Stored cell A} (into : A → ST H A) (p : ptr A) : ST H (ptr A) :=
  match addr p with
  | None => mret (Ptr None)
  | Some l => x ← (load l : ST H A); l' ← alloc x; x' ← into x; store l' x';; mret (Ptr (Some l'))
  end.

(** [*out = new(T); **out = **in] *)
Definition assign_ptr {A} `{Stored cell A} (p : ptr A) : ST H (ptr A) :=
  match addr p with
  | None => mret (Ptr None)
  | Some l => x ← load (A := A) l; l' ← alloc x; mret (Ptr (Some l'))
  end.

Fixpoint copy_each {A} (into : A → ST H A) (xs : list A) : ST H (list A) :=
  match xs with
  | [] => mret []
  | x :: rest => x' ← into x; rest' ← copy_each into rest; mret (x' :: rest')
  end.

Definition load_slice {A} `{Stored cell (list A)} (w : positive * nat * nat) : ST H (list A) := λ h,
  (h, match elements_of h w with Some xs => Ok xs | None => Panic end).

(** [make([]T, len)], and each element into its place. *)
Definition copy_slice {A} `{Stored cell (list A)} (into : A → ST H A) (s : slice A) : ST H (slice A) :=
  match window s with
  | None => mret (Slice None)
  | Some w =>
      xs ← load_slice w; l ← alloc xs; ys ← copy_each into xs;
      store l ys;; mret (Slice (Some (l, 0, length xs)))
  end.

(** [make([]T, len); copy( *out, *in)] *)
Definition copy_flat {A} `{Stored cell (list A)} (s : slice A) : ST H (slice A) :=
  match window s with
  | None => mret (Slice None)
  | Some w => xs ← load_slice (A := A) w; l ← alloc xs; mret (Slice (Some (l, 0, length xs)))
  end.

(** [for key, val := range *in { ( *out)[key] = ... }] *)
Fixpoint copy_entries {A} (into : A → ST H A) (l : list (string * A)) (m : gmap string A)
    : ST H (gmap string A) :=
  match l with
  | [] => mret m
  | (key, val) :: rest => val' ← into val; copy_entries into rest (<[key := val']> m)
  end.

Definition copy_map {R : GoRange} {A} `{Stored cell (gmap string A)} (into : A → ST H A) (t : gomp A)
    : ST H (gomp A) :=
  match table t with
  | None => mret (GoMap None)
  | Some l =>
      m ← load (A := gmap string A) l; l' ← alloc (∅ : gmap string A);
      m' ← copy_entries into (range_map m) ∅; store l' m';; mret (GoMap (Some l'))
  end.

(** A map of values without references: [( *out)[key] = val]. *)
Definition assign_map {R : GoRange} {A} `{Stored cell (gmap string A)} (t : gomp A) : ST H (gomp A) :=
  copy_map mret t.

(** [*val.DeepCopy()] *)
Definition deref_copy {A} `{Stored cell A} (into : A → ST H A) (val : A) : ST H A :=
  l ← alloc val; val' ← into val; store l val';; load l.

(** [DeepCopyObject]: nil instead of a nil pointer in an interface. *)
Definition as_object {A} (c : ST H (ptr A)) : ST H (option (ptr A)) :=
  p ← c; mret (match addr p with Some l => Some (Ptr (Some l)) | None => None end).
End memory.
Arguments Flat {A} _.
Arguments unflat {A} _.
Arguments Ptr {A} _.
Arguments addr {A} _.
Arguments Slice {A} _.
Arguments window {A} _.
Arguments GoMap {A} _.
Arguments table {A} _.

(** ** Reading is local *)
Section lemmas.
Context {cell : Type}.
Abbreviation H := (heap cell).

(** [b] has the contents [d] in [h'], in memory that [h] does not have. *)
Definition fresh_in {A} `{D : Deep cell A} (h h' : H) (x : A) (d : dval A) : Prop :=
  read h' x = Some d ∧ foot h' x ## dom h.

(** What every copying function does. *)
Definition copies {A} `{D : Deep cell A} (into : A → ST H A) : Prop := ∀ h x d, read h x = Some d →
  ∃ h' x', into x h = (h', Ok x') ∧ h ⊆ h' ∧ fresh_in h h' x' d.

Lemma read_mono {A} `{DeepOk cell A} (h h' : H) (x : A) d : h ⊆ h' → read h x = Some d →
  read h' x = Some d ∧ foot h' x = foot h x.
Proof.
  intros Hsub Hr. apply (read_local h); [done|]. intros l Hl. apply (foot_dom h x d Hr) in Hl.
  apply elem_of_dom in Hl as [c Hc]. rewrite Hc. by eapply lookup_weaken.
Qed.

(** Memory that the value does not reach may change. *)
Lemma fresh_frame {A} `{DeepOk cell A} (h h1 h2 : H) (x : A) d : fresh_in h h1 x d →
  (∀ l, l ∉ dom h → is_Some (h1 !! l) → h2 !! l = h1 !! l) → fresh_in h h2 x d.
Proof.
  intros [Hr Hf] Hsame. destruct (read_local h1 h2 x d Hr) as [Hr2 Hf2].
  - intros l Hl. apply Hsame; [set_solver|]. apply elem_of_dom. by apply (foot_dom h1 x d).
  - split; [done|]. by rewrite Hf2.
Qed.

Lemma fresh_mono {A} `{DeepOk cell A} (h h1 h2 : H) (x : A) d : h1 ⊆ h2 → fresh_in h h1 x d → fresh_in h h2 x d.
Proof.
  intros Hsub Hf. apply (fresh_frame h h1); [done|]. intros l _ [c Hc]. rewrite Hc. by eapply lookup_weaken.
Qed.

Lemma fresh_weaken {A} `{Deep cell A} (h0 h h' : H) (x : A) d : h0 ⊆ h → fresh_in h h' x d → fresh_in h0 h' x d.
Proof.
  intros Hsub [Hr Hf]. split; [done|]. apply subseteq_dom in Hsub. set_solver.
Qed.

Lemma alloc_fresh (h : H) : h !! fresh (dom h) = None.
Proof. apply not_elem_of_dom, is_fresh. Qed.

Lemma insert_sub (h : H) l c h' : h !! l = None → <[l := c]> h ⊆ h' → h ⊆ h' ∧ l ∉ dom h.
Proof.
  intros Hl Hsub. split; [|by apply not_elem_of_dom].
  etrans; [by apply insert_subseteq|exact Hsub].
Qed.

Lemma deref_insert {A} `{Stored cell A} (h : H) l (a : A) : deref (<[l := inj a]> h) l = Some a.
Proof. unfold deref. rewrite lookup_insert_eq. cbn. apply prj_inj. Qed.

Lemma deref_same {A} `{Stored cell A} (h h' : H) l : h' !! l = h !! l → deref (A := A) h' l = deref h l.
Proof. unfold deref. by intros ->. Qed.

(** *** The instances *)
Lemma flat_deep_ok {A} : DeepOk (H := @flat_deep cell A) cell A.
Proof. split; intros; cbn in *; [set_solver|done]. Qed.

#[export] Instance DeepOk_flat {A} : DeepOk cell (flat A).
Proof. apply flat_deep_ok. Qed.

Lemma read_opt_Some {A} `{Deep cell A} (h : H) (o : option A) d : read_opt h o = Some d →
  ∃ x dx, o = Some x ∧ read h x = Some dx ∧ d = Some dx.
Proof.
  unfold read_opt. destruct o as [x|]; [|done]. destruct (read h x) as [dx|] eqn:E; [|done].
  intros [= <-]. eauto.
Qed.

Lemma read_ref {X A} `{D : Deep cell X} (at_ : A → option positive) (content : H → A → option X) (h : H) (r : A) d :
  read (Deep := deep_ref at_ content) h r = Some d →
  (at_ r = None ∧ d = None) ∨ ∃ l x dx, at_ r = Some l ∧ content h r = Some x ∧ read h x = Some dx ∧ d = Some dx.
Proof.
  unfold read; cbn -[read_opt]. destruct (at_ r) as [l|]; [|intros [= <-]; by left].
  intros (x & dx & ? & ? & ->)%read_opt_Some. right. by exists l, x, dx.
Qed.

Lemma deep_ref_ok {X A} `{DeepOk cell X} (at_ : A → option positive) (content : H → A → option X) :
  (∀ h r l x, at_ r = Some l → content h r = Some x → is_Some (h !! l)) →
  (∀ h h' r l, at_ r = Some l → h' !! l = h !! l → content h' r = content h r) →
  DeepOk (H := deep_ref at_ content) cell A.
Proof.
  intros Hdom Hsame. split; intros h; [intros r d|intros h' r d]; unfold read, foot; cbn -[read_opt];
    destruct (at_ r) as [l|] eqn:El; try set_solver.
  - intros (x & dx & Hx & Hr & _)%read_opt_Some. rewrite Hx. cbn [foot_opt].
    apply Hdom with (l := l) in Hx; [|done]. apply elem_of_dom in Hx. apply foot_dom in Hr. set_solver.
  - intros (x & dx & Hx & Hr & ->)%read_opt_Some Hl. rewrite Hx in *. cbn [foot_opt] in *.
    rewrite (Hsame h h' r l) by (done || apply Hl; set_solver). rewrite Hx. cbn [read_opt foot_opt].
    destruct (read_local h h' x dx Hr) as [-> ->]; [set_solver|done].
Qed.

#[export] Instance DeepOk_ptr {A} `{Stored cell A} `{DeepOk cell A} : DeepOk cell (ptr A).
Proof.
  apply deep_ref_ok; intros h.
  - intros p l x -> Hx. cbn in Hx. unfold deref in Hx. destruct (h !! l); [eauto|done].
  - intros h' p l -> Hl. by apply deref_same.
Qed.

#[export] Instance DeepOk_list {A} `{DeepOk cell A} : DeepOk cell (list A).
Proof.
  split; intros h; [intros xs|intros h' xs]; induction xs as [|x xs IH]; intros d; try set_solver;
    unfold read, foot; cbn -[mapM union_list]; intros Hr.
  - apply mapM_Some_1, Forall2_cons_inv_l in Hr as (dx & ds & Hx & Hxs & ->).
    apply foot_dom in Hx. specialize (IH ds (mapM_Some_2 _ _ _ Hxs)). cbn in *. set_solver.
  - apply mapM_Some_1, Forall2_cons_inv_l in Hr as (dx & ds & Hx & Hxs & ->). intros Hl.
    destruct (read_local h h' x dx Hx) as [Hx' Hf]; [cbn in Hl; set_solver|].
    destruct (IH ds (mapM_Some_2 _ _ _ Hxs)) as [Hr' Hf']; [cbn in *; set_solver|].
    unfold read in Hr'. cbn in Hr', Hf'. split.
    + apply mapM_Some_2. constructor; [done|]. by apply mapM_Some_1.
    + cbn. by rewrite Hf, Hf'.
Qed.

Lemma elements_of_same {A} `{Stored cell (list A)} (h h' : H) w : h' !! w.1.1 = h !! w.1.1 →
  elements_of (A := A) h' w = elements_of h w.
Proof. intros Hl. unfold elements_of. by rewrite (deref_same h h'). Qed.

#[export] Instance DeepOk_slice {A} `{Stored cell (list A)} `{DeepOk cell A} : DeepOk cell (slice A).
Proof.
  apply deep_ref_ok; intros h.
  - intros s l x. destruct (window s) as [w|]; [|done]. intros [= <-] Hx. cbn in Hx. unfold elements_of, deref in Hx.
    destruct (h !! w.1.1); [eauto|done].
  - intros h' s l. destruct (window s) as [w|]; [|done]. intros [= <-] Hl. by apply elements_of_same.
Qed.

Lemma read_gmap {A} `{Deep cell A} (h : H) (m : gmap string A) d : read h m = Some d ↔
  ∀ k, match m !! k with Some x => ∃ dx, read h x = Some dx ∧ d !! k = Some dx | None => d !! k = None end.
Proof.
  unfold read at 1; cbn -[read]. split.
  - destruct (decide _) as [Hall|]; [|done]. intros [= <-] k. rewrite lookup_omap.
    destruct (m !! k) as [x|] eqn:E; [|done]. destruct (Hall k x E) as [dx Hx]. exists dx. by rewrite <- Hx.
  - intros Hd. rewrite decide_True.
    + f_equal. apply map_eq. intros k. rewrite lookup_omap. specialize (Hd k). destruct (m !! k); cbn; [|done].
      destruct Hd as (dx & Hx & ->). done.
    + intros k x E. specialize (Hd k). rewrite E in Hd. destruct Hd as (dx & Hx & _). eauto.
Qed.

Lemma foot_gmap {A} `{Deep cell A} (h : H) (m : gmap string A) l :
  l ∈ foot h m ↔ ∃ k x, m !! k = Some x ∧ l ∈ foot h x.
Proof.
  unfold foot at 1; cbn -[foot]. rewrite elem_of_union_list. split.
  - intros (s & ([k x] & -> & Hin%elem_of_map_to_list)%list_elem_of_fmap & Hl). eauto.
  - intros (k & x & Hk & Hl). exists (foot h x). split; [|done]. apply list_elem_of_fmap. exists (k, x).
    split; [done|]. by apply elem_of_map_to_list.
Qed.

#[export] Instance DeepOk_gmap {A} `{DeepOk cell A} : DeepOk cell (gmap string A).
Proof.
  split.
  - intros h m d Hd l (k & x & Hk & Hl)%foot_gmap. apply read_gmap with (k := k) in Hd. rewrite Hk in Hd.
    destruct Hd as (dx & Hx & _). by apply (foot_dom h x dx).
  - intros h h' m d Hd Hl.
    assert (∀ k x, m !! k = Some x → ∃ dx, read h' x = Some dx ∧ d !! k = Some dx ∧ foot h' x = foot h x) as Hm.
    { intros k x Hk. pose proof (proj1 (read_gmap h m d) Hd k) as Hx. rewrite Hk in Hx.
      destruct Hx as (dx & Hx & Hdk). exists dx.
      destruct (read_local h h' x dx Hx) as [? ?]; [|done]. intros l Hlx. apply Hl, foot_gmap. eauto. }
    split.
    + apply read_gmap. intros k. pose proof (proj1 (read_gmap h m d) Hd k) as Hx.
      destruct (m !! k) as [x|] eqn:E; [|done]. destruct (Hm k x E) as (dx & ? & ? & _). eauto.
    + apply set_eq. intros l. rewrite !foot_gmap. split; intros (k & x & Hk & Hx); exists k, x; split; try done;
        destruct (Hm k x Hk) as (_ & _ & _ & Hf); [by rewrite <- Hf|by rewrite Hf].
Qed.

#[export] Instance DeepOk_gomp {A} `{Stored cell (gmap string A)} `{DeepOk cell A} : DeepOk cell (gomp A).
Proof.
  apply deep_ref_ok; intros h.
  - intros p l x -> Hx. cbn in Hx. unfold deref in Hx. destruct (h !! l); [eauto|done].
  - intros h' p l -> Hl. by apply deref_same.
Qed.

Lemma read_pair {A B} `{Deep cell A} `{Deep cell B} (h : H) (a : A) (b : B) d : read h (a, b) = Some d ↔
  read h a = Some d.1 ∧ read h b = Some d.2.
Proof.
  unfold read at 1. cbn -[read]. destruct d as [da db]. cbn -[read].
  destruct (read h a), (read h b); naive_solver.
Qed.
Lemma foot_pair {A B} `{Deep cell A} `{Deep cell B} (h : H) (a : A) (b : B) : foot h (a, b) = foot h a ∪ foot h b.
Proof. done. Qed.

#[export] Instance DeepOk_pair {A B} `{DeepOk cell A} `{DeepOk cell B} : DeepOk cell (A * B).
Proof.
  split; intros h; [intros [a b] d|intros h' [a b] d]; intros [Ha Hb]%read_pair; rewrite !foot_pair.
  - apply foot_dom in Ha. apply foot_dom in Hb. set_solver.
  - intros Hl. destruct (read_local h h' a _ Ha) as [Ha' ->]; [set_solver|].
    destruct (read_local h h' b _ Hb) as [Hb' ->]; [set_solver|]. by rewrite read_pair.
Qed.

Lemma deep_via_ok {A T} (fields : A → T) `{DeepOk cell T} : DeepOk (H := deep_via fields) cell A.
Proof. split; intros h; [intros x d|intros h' x d]; [apply (foot_dom h (fields x))|apply (read_local h h' (fields x))]. Qed.

(** *** The statements copy *)

(** New memory for the contents of a reference: what is written to it at the
    end is what the reference shows, and the rest of the memory is as it was. *)
Lemma copies_new {X} `{Stored cell X} `{DeepOk cell X} (h : H) (x0 : X) (into : ST H X) d :
  (∀ h0, h ⊆ h0 → ∃ h' y, into h0 = (h', Ok y) ∧ h0 ⊆ h' ∧ fresh_in h0 h' y d) →
  ∃ h' y l, (∀ B (k : positive → X → ST H B), (l' ← alloc x0; y ← into; store l' y;; k l' y) h = k l y h') ∧
    h ⊆ h' ∧ h !! l = None ∧ deref h' l = Some y ∧ fresh_in h h' y d.
Proof.
  intros Hinto. set (l := fresh (dom h)). pose proof (alloc_fresh h) as Hl. fold l in Hl.
  destruct (Hinto (<[l := inj x0]> h)) as (h1 & y & Hy & Hsub & Hr & Hf); [by apply insert_subseteq|].
  destruct (insert_sub h l (inj x0) h1 Hl Hsub) as [Hsub1 Hnot].
  rewrite dom_insert_L in Hf. exists (<[l := inj y]> h1), y, l. split_and!.
  - intros B k. unfold mbind, ST_bind, alloc. fold l. by rewrite Hy.
  - by apply insert_subseteq_r.
  - done.
  - apply deref_insert.
  - destruct (read_local h1 (<[l := inj y]> h1) y d Hr) as [Hr' Hf'].
    + intros k Hk. apply lookup_insert_ne. set_solver.
    + split; [done|]. rewrite Hf'. set_solver.
Qed.

(** A reference to such memory is a copy. *)
Lemma fresh_ref {X A} `{DeepOk cell X} (at_ : A → option positive) (content : H → A → option X) (h h' : H) r l y d :
  at_ r = Some l → content h' r = Some y → h !! l = None → fresh_in h h' y d →
  fresh_in (D := deep_ref at_ content) h h' r (Some d).
Proof.
  intros Hat Hc Hl [Hr Hf]. unfold fresh_in, read, foot. cbn -[read_opt]. rewrite Hat, Hc.
  cbn [read_opt foot_opt]. rewrite Hr. split; [done|]. apply not_elem_of_dom in Hl. set_solver.
Qed.

Lemma copies_ptr {A} `{Stored cell A} `{DeepOk cell A} (into : A → ST H A) :
  copies into → copies (copy_ptr into).
Proof.
  intros Hinto h p d [[Hp ->]|(l & x & dx & Hp & Hx & Hr & ->)]%(read_ref (X := A)); unfold copy_ptr; rewrite Hp in *.
  { exists h, (Ptr None). split_and!; done. }
  destruct (copies_new h x (into x) dx) as (h' & y & l' & Hk & Hsub & Hl & Hd & Hf).
  { intros h0 Hsub. apply Hinto. by apply (read_mono h). }
  exists h', (Ptr (Some l')). split; [|split; [done|]].
  - unfold mbind at 1, ST_bind at 1, load. cbn in Hx. rewrite Hx. exact (Hk _ (λ l _, mret (M := ST H) (Ptr (Some l)))).
  - eapply fresh_ref; [done|exact Hd|done..].
Qed.

Lemma copies_each {A} `{DeepOk cell A} (into : A → ST H A) : copies into → copies (copy_each into).
Proof.
  intros Hinto h xs. revert h. induction xs as [|x xs IH]; intros h d Hr; unfold read in Hr; cbn -[mapM] in Hr.
  { exists h, []. cbn in Hr |- *. split_and!; [done..|]. split; [done|]. set_solver. }
  apply mapM_Some_1, Forall2_cons_inv_l in Hr as (dx & ds & Hx & Hxs & ->).
  destruct (Hinto h x dx Hx) as (h1 & x' & Hi & Hs1 & Hf1).
  destruct (IH h1 ds) as (h2 & xs' & Hi2 & Hs2 & Hf2).
  { apply (read_mono h); [done|]. by apply mapM_Some_2. }
  exists h2, (x' :: xs'). split; [|split; [by etrans|]].
  - cbn. unfold mbind, ST_bind. by rewrite Hi, Hi2.
  - destruct (fresh_mono h h1 h2 x' dx Hs2 Hf1) as [Hr1 Hd1]. destruct (fresh_weaken h h1 h2 xs' _ Hs1 Hf2) as [Hr2 Hd2].
    split; [|unfold foot; cbn; set_solver]. apply mapM_Some_2. constructor; [done|]. by apply mapM_Some_1.
Qed.

Lemma copies_slice {A} `{Stored cell (list A)} `{DeepOk cell A} (into : A → ST H A) :
  copies into → copies (copy_slice into).
Proof.
  intros Hinto h s d [[Hs ->]|(l0 & xs & ds & Hs & Hx & Hr & ->)]%(read_ref (X := list A)); unfold copy_slice;
    destruct (window s) as [w|]; try done.
  { exists h, (Slice None). split_and!; done. }
  destruct (copies_new h xs (copy_each into xs) ds) as (h' & ys & l & Hk & Hsub & Hl & Hd & Hf).
  { intros h0 Hsub. apply copies_each; [done|]. by apply (read_mono h). }
  exists h', (Slice (Some (l, 0, length xs))). split; [|split; [done|]].
  - unfold mbind at 1, ST_bind at 1, load_slice. cbn [mbind option_bind] in Hx. rewrite Hx.
    exact (Hk _ (λ l _, mret (M := ST H) (Slice (Some (l, 0, length xs))))).
  - eapply fresh_ref; [done| |done..]. cbn. unfold elements_of. cbn. rewrite Hd. cbn.
    assert (length ys = length xs) as Hlen.
    { destruct Hf as [Hys _]. apply mapM_Some_1, Forall2_length in Hys, Hr. congruence. }
    rewrite <- Hlen, decide_True by lia. by rewrite firstn_all.
Qed.

Lemma copies_entries {A} `{DeepOk cell A} (into : A → ST H A) : copies into → ∀ l (m : gmap string A) h (d : gmap string (dval A)),
  NoDup l.*1 → (∀ k x, (k, x) ∈ l → m !! k = None ∧ read h x = d !! k ∧ is_Some (d !! k)) →
  ∃ h' m', copy_entries into l m h = (h', Ok m') ∧ h ⊆ h' ∧
    ∀ k, match list_to_map (M := gmap string A) l !! k with
         | Some x => ∃ y dy, m' !! k = Some y ∧ d !! k = Some dy ∧ fresh_in h h' y dy
         | None => m' !! k = m !! k
         end.
Proof.
  intros Hinto l. induction l as [|[k x] l IH]; intros m h d Hnd Hl.
  { exists h, m. done. }
  apply NoDup_cons in Hnd as [Hk Hnd]. destruct (Hl k x) as (Hm & Hr & dx & Hdx); [by left|]. rewrite Hdx in Hr.
  destruct (Hinto h x dx Hr) as (h1 & y & Hi & Hs1 & Hf1).
  assert (∀ b z, (b, z) ∈ l → k ≠ b) as Hkb.
  { intros b z Hin ->. apply Hk, list_elem_of_fmap. by exists (b, z). }
  destruct (IH (<[k := y]> m) h1 d Hnd) as (h2 & m' & Hi2 & Hs2 & Hm').
  { intros b z Hin. specialize (Hkb b z Hin). destruct (Hl b z) as (? & Hz & db & Hdb); [by right|].
    rewrite lookup_insert_ne by done. split_and!; [done| |eauto]. rewrite Hdb in *. by apply (read_mono h). }
  exists h2, m'. split; [|split; [by etrans|]].
  - cbn. unfold mbind, ST_bind. by rewrite Hi.
  - intros b. specialize (Hm' b). cbn [list_to_map foldr]. cbn. destruct (decide (k = b)) as [->|Hne].
    + rewrite lookup_insert_eq. rewrite (proj1 (not_elem_of_list_to_map l b)), lookup_insert_eq in Hm' by done.
      exists y, dx. split_and!; [done..|]. by apply (fresh_mono h h1).
    + rewrite lookup_insert_ne by done. destruct (list_to_map l !! b).
      * destruct Hm' as (z & dz & ? & ? & Hf). exists z, dz. split_and!; [done..|]. by apply (fresh_weaken h h1).
      * by rewrite lookup_insert_ne in Hm' by done.
Qed.

Lemma copies_map {R : GoRange} {A} `{Stored cell (gmap string A)} `{DeepOk cell A} (into : A → ST H A) :
  copies into → copies (copy_map into).
Proof.
  intros Hinto h t d [[Ht ->]|(l & m & dm & Ht & Hx & Hr & ->)]%(read_ref (X := gmap string A)); unfold copy_map;
    rewrite Ht in *.
  { exists h, (GoMap None). split_and!; done. }
  destruct (copies_new (X := gmap string A) h ∅ (copy_entries into (range_map m) ∅) dm)
    as (h' & y & l' & Hk & Hsub & Hl & Hd & Hf).
  { intros h0 Hsub. destruct (read_mono h h0 m dm Hsub Hr) as [Hr0 _].
    destruct (copies_entries into Hinto (range_map m) ∅ h0 dm) as (h1 & m' & Hi & Hs & Hm').
    - apply NoDup_range_map_fst.
    - intros k x Hin%elem_of_range_map. split; [done|]. pose proof (proj1 (read_gmap h0 m dm) Hr0 k) as Hkx.
      rewrite Hin in Hkx. destruct Hkx as (dx & Hdx & Hdk).
      split; [etrans; [exact Hdx|symmetry; exact Hdk]|by exists dx].
    - exists h1, m'. split; [done|]. split; [done|].
      pose proof (proj1 (read_gmap h0 m dm) Hr0) as Hm. rewrite list_to_map_range in Hm'. split.
      + apply read_gmap. intros k. specialize (Hm' k). specialize (Hm k). destruct (m !! k) as [x|].
        * destruct Hm' as (y & dy & -> & ? & Hy & _). eauto.
        * rewrite lookup_empty in Hm'. by rewrite Hm'.
      + intros a (k & y & Hy & Ha)%foot_gmap. specialize (Hm' k). destruct (m !! k) as [x|].
        * destruct Hm' as (y' & dy & Hy' & _ & _ & Hdis). assert (y' = y) as -> by congruence. by apply Hdis.
        * rewrite lookup_empty in Hm'. congruence. }
  exists h', (GoMap (Some l')). split; [|split; [done|]].
  - unfold mbind at 1, ST_bind at 1, load. cbn [mbind option_bind] in Hx. rewrite Hx.
    exact (Hk _ (λ l _, mret (M := ST H) (GoMap (Some l)))).
  - eapply fresh_ref; [done|exact Hd|done..].
Qed.

(** [*out = *in] is a copy of a value without references. *)
Lemma copies_flat_type {A} : copies (D := @flat_deep cell A) mret.
Proof. intros h x d Hr. exists h, x. split_and!; [done..|]. split; [done|]. cbn. set_solver. Qed.

Lemma copies_flat {A} : copies (A := flat A) mret.
Proof. apply copies_flat_type. Qed.

(** The statements that assign are the copying ones for such values. *)
Lemma assign_ptr_ret {A} `{Stored cell A} (p : ptr A) (h : H) : assign_ptr p h = copy_ptr mret p h.
Proof.
  unfold assign_ptr, copy_ptr. destruct (addr p) as [l|]; [|done]. unfold mbind, ST_bind, load.
  destruct (deref h l) as [x|]; [|done]. unfold alloc, store, mret, ST_ret. by rewrite insert_insert_eq.
Qed.

Lemma copy_each_ret {A} (xs : list A) (h : H) : copy_each mret xs h = (h, Ok xs).
Proof. induction xs as [|x xs IH]; [done|]. cbn. unfold mbind, ST_bind, mret, ST_ret in *. by rewrite IH. Qed.

Lemma copy_flat_ret {A} `{Stored cell (list A)} (s : slice A) (h : H) : copy_flat s h = copy_slice mret s h.
Proof.
  unfold copy_flat, copy_slice. destruct (window s) as [w|]; [|done]. unfold mbind, ST_bind, load_slice.
  destruct (elements_of h w) as [xs|]; [|done]. unfold alloc. rewrite copy_each_ret.
  unfold store, mret, ST_ret. by rewrite insert_insert_eq.
Qed.

Lemma copies_ext {A} `{Deep cell A} (f g : A → ST H A) : (∀ x h, f x h = g x h) → copies g → copies f.
Proof. intros Heq Hg h x d Hr. destruct (Hg h x d Hr) as (h' & x' & ? & ?). exists h', x'. by rewrite Heq. Qed.

Lemma copies_assign_ptr {A} `{Stored cell A} `{DeepOk cell A} : copies (A := A) mret → copies (assign_ptr (A := A)).
Proof. intros Hret. apply (copies_ext _ (copy_ptr mret)); [apply assign_ptr_ret|by apply copies_ptr]. Qed.

Lemma copies_copy_flat {A} `{Stored cell (list A)} `{DeepOk cell A} :
  copies (A := A) mret → copies (copy_flat (A := A)).
Proof. intros Hret. apply (copies_ext _ (copy_slice mret)); [apply copy_flat_ret|by apply copies_slice]. Qed.

Lemma copies_assign_map {R : GoRange} {A} `{Stored cell (gmap string A)} `{DeepOk cell A} :
  copies (A := A) mret → copies (assign_map (A := A)).
Proof. apply copies_map. Qed.

Lemma copies_deref {A} `{Stored cell A} `{DeepOk cell A} (into : A → ST H A) :
  copies into → copies (deref_copy into).
Proof.
  intros Hinto h x d Hr. destruct (copies_new h x (into x) d) as (h' & y & l & Hk & Hsub & Hl & Hd & Hf).
  { intros h0 Hsub. apply Hinto. by apply (read_mono h). }
  exists h', y. split; [|done]. etrans; [exact (Hk _ (λ l _, load l))|]. unfold load. by rewrite Hd.
Qed.

(** Two parts of a value, one after the other. *)
Definition pair_into {A B} (f : A → ST H A) (g : B → ST H B) (x : A * B) : ST H (A * B) :=
  a ← f x.1; b ← g x.2; mret (a, b).

Lemma copies_pair {A B} `{DeepOk cell A} `{DeepOk cell B} (f : A → ST H A) (g : B → ST H B) :
  copies f → copies g → copies (pair_into f g).
Proof.
  intros Hf Hg h [a b] d [Ha Hb]%read_pair. destruct (Hf h a _ Ha) as (h1 & a' & Hfa & Hs1 & Hf1).
  destruct (Hg h1 b d.2) as (h2 & b' & Hgb & Hs2 & Hf2); [by apply (read_mono h)|].
  exists h2, (a', b'). split; [|split; [by etrans|]].
  - unfold pair_into, mbind, ST_bind. cbn. by rewrite Hfa, Hgb.
  - destruct (fresh_mono h h1 h2 a' _ Hs2 Hf1) as [Hr1 Hd1].
    destruct (fresh_weaken h h1 h2 b' _ Hs1 Hf2) as [Hr2 Hd2].
    split; [by rewrite read_pair|]. rewrite foot_pair. set_solver.
Qed.

(** A struct whose copying function copies the tuple of its fields. *)
Lemma copies_struct {A T} `{DeepOk cell T} (fields : A → T) (make : T → A) (into : A → ST H A) (into_fields : T → ST H T) :
  (∀ y, fields (make y) = y) → (∀ x h, into x h = (y ← into_fields (fields x); mret (make y)) h) →
  copies into_fields → copies (D := deep_via fields) into.
Proof.
  intros Hmake Hinto Hcopy h x d Hr. destruct (Hcopy h (fields x) d Hr) as (h' & y & Hy & Hsub & Hf).
  exists h', (make y). split; [|split; [done|]].
  - rewrite Hinto. unfold mbind, ST_bind. by rewrite Hy.
  - unfold fresh_in, read, foot. cbn. by rewrite Hmake.
Qed.

(** *** What a copy is good for *)

(** The copy shows what the original shows, and from then on the two are
    separate: whatever happens to the memory there was before does not show in
    the copy, and whatever happens to the new memory does not show in the
    original. *)
Definition isolated {A} `{Deep cell A} (copy : A → ST H A) : Prop := ∀ h x d, read h x = Some d →
  ∃ h' x', copy x h = (h', Ok x') ∧ read h' x' = Some d ∧ read h' x = Some d ∧
    (∀ h2, (∀ l, l ∉ dom h → h2 !! l = h' !! l) → read h2 x' = Some d) ∧
    (∀ h2, (∀ l, l ∈ dom h → h2 !! l = h' !! l) → read h2 x = Some d).

Lemma copies_isolated {A} `{DeepOk cell A} (copy : A → ST H A) : copies copy → isolated copy.
Proof.
  intros Hc h x d Hr. destruct (Hc h x d Hr) as (h' & x' & Hrun & Hsub & Hr' & Hf). exists h', x'.
  destruct (read_mono h h' x d Hsub Hr) as [Hrx Hfx].
  split_and!; [done..| |]; intros h2 Hsame.
  - apply (read_local h'); [done|]. intros l Hl. apply Hsame. set_solver.
  - apply (read_local h'); [done|]. intros l Hl. apply Hsame. rewrite Hfx in Hl.
    by apply (foot_dom h x d).
Qed.
End lemmas.

Create HintDb deepcopy.
#[export] Hint Resolve copies_flat copies_flat_type copies_ptr copies_slice copies_map copies_assign_ptr copies_copy_flat
  copies_assign_map copies_deref copies_pair : deepcopy.

(** ** Scalars, and the types of [k8s.io/apimachinery]

    [metav1.TypeMeta], [ObjectMeta], [ListMeta] and [LabelSelector] are
    third-party types ([meta_cell] is the memory behind them), and their
    [DeepCopyInto] methods are parameters that copy. *)
#[export] Instance Deep_string {cell} : Deep cell string := flat_deep.
#[export] Instance Deep_Z {cell} : Deep cell Z := flat_deep.
#[export] Instance DeepOk_string {cell} : DeepOk cell string := flat_deep_ok.
#[export] Instance DeepOk_Z {cell} : DeepOk cell Z := flat_deep_ok.
Lemma copies_string {cell} : copies (cell := cell) (A := string) mret.
Proof. apply copies_flat_type. Qed.
Lemma copies_Z {cell} : copies (cell := cell) (A := Z) mret.
Proof. apply copies_flat_type. Qed.
#[export] Hint Resolve copies_string copies_Z : deepcopy.

Class MetaTypes := {
  TypeMeta : Type; ObjectMeta : Type; ListMeta : Type; LabelSelector : Type; meta_cell : Type }.

Class MetaV1 {MT : MetaTypes} (cell : Type) := {
  Deep_ObjectMeta :: Deep cell ObjectMeta;
  Deep_ListMeta :: Deep cell ListMeta;
  Deep_LabelSelector :: Deep cell LabelSelector;
  ObjectMeta_DeepCopyInto : ObjectMeta → ST (heap cell) ObjectMeta;
  ListMeta_DeepCopyInto : ListMeta → ST (heap cell) ListMeta;
  LabelSelector_DeepCopyInto : LabelSelector → ST (heap cell) LabelSelector }.

Class MetaV1Ok {MT : MetaTypes} (cell : Type) `{MV : !MetaV1 cell} : Prop := {
  DeepOk_ObjectMeta :: DeepOk cell ObjectMeta;
  DeepOk_ListMeta :: DeepOk cell ListMeta;
  DeepOk_LabelSelector :: DeepOk cell LabelSelector;
  ObjectMeta_copies : copies (cell := cell) ObjectMeta_DeepCopyInto;
  ListMeta_copies : copies (cell := cell) ListMeta_DeepCopyInto;
  LabelSelector_copies : copies (cell := cell) LabelSelector_DeepCopyInto }.
#[export] Hint Resolve ObjectMeta_copies ListMeta_copies LabelSelector_copies : deepcopy.

(** The memory that was not there before. *)
Definition new_memory {cell} (h h' : heap cell) : heap cell := filter (λ kv, kv.1 ∉ dom h) h'.
Lemma new_memory_same {cell} (h h' : heap cell) l : l ∉ dom h → new_memory h h' !! l = h' !! l.
Proof.
  intros Hl. unfold new_memory. destruct (h' !! l) as [c|] eqn:E.
  - by apply map_lookup_filter_Some.
  - apply map_lookup_filter_None. by left.
Qed.

(** The proof for one struct: its fields and their tuple are the same, and its
    copying function goes through the tuple. *)
Ltac solve_fields :=
  intros y; repeat match goal with
    | x : (_ * _)%type |- _ => destruct x
    | x : flat _ |- _ => destruct x
    end; reflexivity.
Ltac solve_into into fields :=
  intros x h; unfold into, fields, pair_into, mbind, ST_bind, mret, ST_ret; cbn; repeat case_match; simplify_eq; reflexivity.
Ltac solve_parts := repeat apply copies_pair; eauto 10 with deepcopy typeclass_instances.
