(* ===== verification/DeepCopyV1.v ===== *)
(** * [api/v1alpha1/zz_generated.deepcopy.go]: copying the objects of the first API version

    The types of the superseded version of the API and their copying methods,
    as in [DeepCopyV2]. *)
From S2P Require Import Prelude DeepCopy.
Local Open Scope Z_scope.

Section copies.
Context {MT : MetaTypes} {R : GoRange}.

(** ** The types *)
Record EipSpec := mk_EipSpec {
  EipSpec_Address : string;
  EipSpec_Protocol : string;
  EipSpec_Disable : bool;
  EipSpec_UsingKnownIPs : bool }.
Record EipStatus := mk_EipStatus {
  EipStatus_Occupied : bool;
  EipStatus_Usage : Z;
  EipStatus_PoolSize : Z }.
Record Eip := mk_Eip {
  Eip_TypeMeta : TypeMeta;
  Eip_ObjectMeta : ObjectMeta;
  Eip_Spec : EipSpec;
  Eip_Status : EipStatus }.
Record EipList := mk_EipList {
  EipList_TypeMeta : TypeMeta;
  EipList_ListMeta : ListMeta;
  EipList_Items : slice Eip }.
Record BgpConfStatus := mk_BgpConfStatus { }.
Record BgpConfSpec := mk_BgpConfSpec {
  BgpConfSpec_As : Z;
  BgpConfSpec_RouterId : string;
  BgpConfSpec_Port : Z }.
Record BgpConf := mk_BgpConf {
  BgpConf_TypeMeta : TypeMeta;
  BgpConf_ObjectMeta : ObjectMeta;
  BgpConf_Spec : BgpConfSpec;
  BgpConf_Status : BgpConfStatus }.
Record BgpConfList := mk_BgpConfList {
  BgpConfList_TypeMeta : TypeMeta;
  BgpConfList_ListMeta : ListMeta;
  BgpConfList_Items : slice BgpConf }.
Record BgpPeerStatus := mk_BgpPeerStatus { }.
Record NeighborConfig := mk_NeighborConfig {
  NeighborConfig_PeerAs : Z;
  NeighborConfig_NeighborAddress : string }.
Record AddPaths := mk_AddPaths {
  AddPaths_SendMax : Z }.
Record Transport := mk_Transport {
  Transport_PassiveMode : bool;
  Transport_RemotePort : Z }.
Record BgpPeerSpec := mk_BgpPeerSpec {
  BgpPeerSpec_Config : NeighborConfig;
  BgpPeerSpec_AddPaths : AddPaths;
  BgpPeerSpec_Transport : Transport;
  BgpPeerSpec_UsingPortForward : bool }.
Record BgpPeer := mk_BgpPeer {
  BgpPeer_TypeMeta : TypeMeta;
  BgpPeer_ObjectMeta : ObjectMeta;
  BgpPeer_Spec : BgpPeerSpec;
  BgpPeer_Status : BgpPeerStatus }.
Record BgpPeerList := mk_BgpPeerList {
  BgpPeerList_TypeMeta : TypeMeta;
  BgpPeerList_ListMeta : ListMeta;
  BgpPeerList_Items : slice BgpPeer }.

(** The cells of the memory: a value of each type, the arrays and the maps. *)
Inductive cell :=
| MetaCell (c : meta_cell)
| C_EipSpec (x : EipSpec)
| C_EipStatus (x : EipStatus)
| C_Eip (x : Eip)
| C_EipList (x : EipList)
| C_BgpConfStatus (x : BgpConfStatus)
| C_BgpConfSpec (x : BgpConfSpec)
| C_BgpConf (x : BgpConf)
| C_BgpConfList (x : BgpConfList)
| C_BgpPeerStatus (x : BgpPeerStatus)
| C_NeighborConfig (x : NeighborConfig)
| C_AddPaths (x : AddPaths)
| C_Transport (x : Transport)
| C_BgpPeerSpec (x : BgpPeerSpec)
| C_BgpPeer (x : BgpPeer)
| C_BgpPeerList (x : BgpPeerList)
| A_Eip (xs : list Eip)
| A_BgpConf (xs : list BgpConf)
| A_BgpPeer (xs : list BgpPeer).
Abbreviation H := (heap cell).
Context {MV : MetaV1 cell}.

#[export] Instance Stored_EipSpec : Stored cell EipSpec :=
  {| inj := C_EipSpec; prj c := match c with C_EipSpec x => Some x | _ => None end; prj_inj _ := eq_refl |}.
#[export] Instance Stored_EipStatus : Stored cell EipStatus :=
  {| inj := C_EipStatus; prj c := match c with C_EipStatus x => Some x | _ => None end; prj_inj _ := eq_refl |}.
#[export] Instance Stored_Eip : Stored cell Eip :=
  {| inj := C_Eip; prj c := match c with C_Eip x => Some x | _ => None end; prj_inj _ := eq_refl |}.
#[export] Instance Stored_EipList : Stored cell EipList :=
  {| inj := C_EipList; prj c := match c with C_EipList x => Some x | _ => None end; prj_inj _ := eq_refl |}.
#[export] Instance Stored_BgpConfStatus : Stored cell BgpConfStatus :=
  {| inj := C_BgpConfStatus; prj c := match c with C_BgpConfStatus x => Some x | _ => None end; prj_inj _ := eq_refl
      |}.
#[export] Instance Stored_BgpConfSpec : Stored cell BgpConfSpec :=
  {| inj := C_BgpConfSpec; prj c := match c with C_BgpConfSpec x => Some x | _ => None end; prj_inj _ := eq_refl |}.
#[export] Instance Stored_BgpConf : Stored cell BgpConf :=
  {| inj := C_BgpConf; prj c := match c with C_BgpConf x => Some x | _ => None end; prj_inj _ := eq_refl |}.
#[export] Instance Stored_BgpConfList : Stored cell BgpConfList :=
  {| inj := C_BgpConfList; prj c := match c with C_BgpConfList x => Some x | _ => None end; prj_inj _ := eq_refl |}.
#[export] Instance Stored_BgpPeerStatus : Stored cell BgpPeerStatus :=
  {| inj := C_BgpPeerStatus; prj c := match c with C_BgpPeerStatus x => Some x | _ => None end; prj_inj _ := eq_refl
      |}.
#[export] Instance Stored_NeighborConfig : Stored cell NeighborConfig :=
  {| inj := C_NeighborConfig; prj c := match c with C_NeighborConfig x => Some x | _ => None end; prj_inj _ := eq_refl
      |}.
#[export] Instance Stored_AddPaths : Stored cell AddPaths :=
  {| inj := C_AddPaths; prj c := match c with C_AddPaths x => Some x | _ => None end; prj_inj _ := eq_refl |}.
#[export] Instance Stored_Transport : Stored cell Transport :=
  {| inj := C_Transport; prj c := match c with C_Transport x => Some x | _ => None end; prj_inj _ := eq_refl |}.
#[export] Instance Stored_BgpPeerSpec : Stored cell BgpPeerSpec :=
  {| inj := C_BgpPeerSpec; prj c := match c with C_BgpPeerSpec x => Some x | _ => None end; prj_inj _ := eq_refl |}.
#[export] Instance Stored_BgpPeer : Stored cell BgpPeer :=
  {| inj := C_BgpPeer; prj c := match c with C_BgpPeer x => Some x | _ => None end; prj_inj _ := eq_refl |}.
#[export] Instance Stored_BgpPeerList : Stored cell BgpPeerList :=
  {| inj := C_BgpPeerList; prj c := match c with C_BgpPeerList x => Some x | _ => None end; prj_inj _ := eq_refl |}.
#[export] Instance Stored_A_Eip : Stored cell (list Eip) :=
  {| inj := A_Eip; prj c := match c with A_Eip x => Some x | _ => None end; prj_inj _ := eq_refl |}.
#[export] Instance Stored_A_BgpConf : Stored cell (list BgpConf) :=
  {| inj := A_BgpConf; prj c := match c with A_BgpConf x => Some x | _ => None end; prj_inj _ := eq_refl |}.
#[export] Instance Stored_A_BgpPeer : Stored cell (list BgpPeer) :=
  {| inj := A_BgpPeer; prj c := match c with A_BgpPeer x => Some x | _ => None end; prj_inj _ := eq_refl |}.

(** ** The references of each type *)
#[export] Instance Deep_EipSpec : Deep cell EipSpec := flat_deep.
#[export] Instance Deep_EipStatus : Deep cell EipStatus := flat_deep.
Definition Eip_fields (x : Eip) :=
  (Flat (Eip_TypeMeta x, Eip_Spec x, Eip_Status x), Eip_ObjectMeta x).
#[export] Instance Deep_Eip : Deep cell Eip := deep_via Eip_fields.
Definition EipList_fields (x : EipList) :=
  (Flat (EipList_TypeMeta x), (EipList_ListMeta x, EipList_Items x)).
#[export] Instance Deep_EipList : Deep cell EipList := deep_via EipList_fields.
#[export] Instance Deep_BgpConfStatus : Deep cell BgpConfStatus := flat_deep.
#[export] Instance Deep_BgpConfSpec : Deep cell BgpConfSpec := flat_deep.
Definition BgpConf_fields (x : BgpConf) :=
  (Flat (BgpConf_TypeMeta x, BgpConf_Spec x, BgpConf_Status x), BgpConf_ObjectMeta x).
#[export] Instance Deep_BgpConf : Deep cell BgpConf := deep_via BgpConf_fields.
Definition BgpConfList_fields (x : BgpConfList) :=
  (Flat (BgpConfList_TypeMeta x), (BgpConfList_ListMeta x, BgpConfList_Items x)).
#[export] Instance Deep_BgpConfList : Deep cell BgpConfList := deep_via BgpConfList_fields.
#[export] Instance Deep_BgpPeerStatus : Deep cell BgpPeerStatus := flat_deep.
#[export] Instance Deep_NeighborConfig : Deep cell NeighborConfig := flat_deep.
#[export] Instance Deep_AddPaths : Deep cell AddPaths := flat_deep.
#[export] Instance Deep_Transport : Deep cell Transport := flat_deep.
#[export] Instance Deep_BgpPeerSpec : Deep cell BgpPeerSpec := flat_deep.
Definition BgpPeer_fields (x : BgpPeer) :=
  (Flat (BgpPeer_TypeMeta x, BgpPeer_Spec x, BgpPeer_Status x), BgpPeer_ObjectMeta x).
#[export] Instance Deep_BgpPeer : Deep cell BgpPeer := deep_via BgpPeer_fields.
Definition BgpPeerList_fields (x : BgpPeerList) :=
  (Flat (BgpPeerList_TypeMeta x), (BgpPeerList_ListMeta x, BgpPeerList_Items x)).
#[export] Instance Deep_BgpPeerList : Deep cell BgpPeerList := deep_via BgpPeerList_fields.

(** ** The copying functions *)
Definition EipSpec_DeepCopyInto (in_ : EipSpec) : ST H EipSpec := mret in_.
Definition EipSpec_DeepCopy : ptr EipSpec → ST H (ptr EipSpec) := copy_ptr EipSpec_DeepCopyInto.

Definition EipStatus_DeepCopyInto (in_ : EipStatus) : ST H EipStatus := mret in_.
Definition EipStatus_DeepCopy : ptr EipStatus → ST H (ptr EipStatus) := copy_ptr EipStatus_DeepCopyInto.

Definition Eip_DeepCopyInto (in_ : Eip) : ST H Eip :=
  out_ObjectMeta ← ObjectMeta_DeepCopyInto (Eip_ObjectMeta in_);
  mret (mk_Eip (Eip_TypeMeta in_) out_ObjectMeta (Eip_Spec in_) (Eip_Status in_)).
Definition Eip_DeepCopy : ptr Eip → ST H (ptr Eip) := copy_ptr Eip_DeepCopyInto.
Definition Eip_DeepCopyObject (in_ : ptr Eip) : ST H (option (ptr Eip)) := as_object (Eip_DeepCopy in_).

Definition EipList_DeepCopyInto (in_ : EipList) : ST H EipList :=
  out_ListMeta ← ListMeta_DeepCopyInto (EipList_ListMeta in_);
  out_Items ← copy_slice Eip_DeepCopyInto (EipList_Items in_);
  mret (mk_EipList (EipList_TypeMeta in_) out_ListMeta out_Items).
Definition EipList_DeepCopy : ptr EipList → ST H (ptr EipList) := copy_ptr EipList_DeepCopyInto.
Definition EipList_DeepCopyObject (in_ : ptr EipList) : ST H (option (ptr EipList)) := as_object (EipList_DeepCopy
    in_).

Definition BgpConfStatus_DeepCopyInto (in_ : BgpConfStatus) : ST H BgpConfStatus := mret in_.
Definition BgpConfStatus_DeepCopy : ptr BgpConfStatus → ST H (ptr BgpConfStatus) := copy_ptr
    BgpConfStatus_DeepCopyInto.

Definition BgpConfSpec_DeepCopyInto (in_ : BgpConfSpec) : ST H BgpConfSpec := mret in_.
Definition BgpConfSpec_DeepCopy : ptr BgpConfSpec → ST H (ptr BgpConfSpec) := copy_ptr BgpConfSpec_DeepCopyInto.

Definition BgpConf_DeepCopyInto (in_ : BgpConf) : ST H BgpConf :=
  out_ObjectMeta ← ObjectMeta_DeepCopyInto (BgpConf_ObjectMeta in_);
  mret (mk_BgpConf (BgpConf_TypeMeta in_) out_ObjectMeta (BgpConf_Spec in_) (BgpConf_Status in_)).
Definition BgpConf_DeepCopy : ptr BgpConf → ST H (ptr BgpConf) := copy_ptr BgpConf_DeepCopyInto.
Definition BgpConf_DeepCopyObject (in_ : ptr BgpConf) : ST H (option (ptr BgpConf)) := as_object (BgpConf_DeepCopy
    in_).

Definition BgpConfList_DeepCopyInto (in_ : BgpConfList) : ST H BgpConfList :=
  out_ListMeta ← ListMeta_DeepCopyInto (BgpConfList_ListMeta in_);
  out_Items ← copy_slice BgpConf_DeepCopyInto (BgpConfList_Items in_);
  mret (mk_BgpConfList (BgpConfList_TypeMeta in_) out_ListMeta out_Items).
Definition BgpConfList_DeepCopy : ptr BgpConfList → ST H (ptr BgpConfList) := copy_ptr BgpConfList_DeepCopyInto.
Definition BgpConfList_DeepCopyObject (in_ : ptr BgpConfList) : ST H (option (ptr BgpConfList)) := as_object
    (BgpConfList_DeepCopy in_).

Definition BgpPeerStatus_DeepCopyInto (in_ : BgpPeerStatus) : ST H BgpPeerStatus := mret in_.
Definition BgpPeerStatus_DeepCopy : ptr BgpPeerStatus → ST H (ptr BgpPeerStatus) := copy_ptr
    BgpPeerStatus_DeepCopyInto.

Definition NeighborConfig_DeepCopyInto (in_ : NeighborConfig) : ST H NeighborConfig := mret in_.
Definition NeighborConfig_DeepCopy : ptr NeighborConfig → ST H (ptr NeighborConfig) := copy_ptr
    NeighborConfig_DeepCopyInto.

Definition AddPaths_DeepCopyInto (in_ : AddPaths) : ST H AddPaths := mret in_.
Definition AddPaths_DeepCopy : ptr AddPaths → ST H (ptr AddPaths) := copy_ptr AddPaths_DeepCopyInto.

Definition Transport_DeepCopyInto (in_ : Transport) : ST H Transport := mret in_.
Definition Transport_DeepCopy : ptr Transport → ST H (ptr Transport) := copy_ptr Transport_DeepCopyInto.

Definition BgpPeerSpec_DeepCopyInto (in_ : BgpPeerSpec) : ST H BgpPeerSpec := mret in_.
Definition BgpPeerSpec_DeepCopy : ptr BgpPeerSpec → ST H (ptr BgpPeerSpec) := copy_ptr BgpPeerSpec_DeepCopyInto.

Definition BgpPeer_DeepCopyInto (in_ : BgpPeer) : ST H BgpPeer :=
  out_ObjectMeta ← ObjectMeta_DeepCopyInto (BgpPeer_ObjectMeta in_);
  mret (mk_BgpPeer (BgpPeer_TypeMeta in_) out_ObjectMeta (BgpPeer_Spec in_) (BgpPeer_Status in_)).
Definition BgpPeer_DeepCopy : ptr BgpPeer → ST H (ptr BgpPeer) := copy_ptr BgpPeer_DeepCopyInto.
Definition BgpPeer_DeepCopyObject (in_ : ptr BgpPeer) : ST H (option (ptr BgpPeer)) := as_object (BgpPeer_DeepCopy
    in_).

Definition BgpPeerList_DeepCopyInto (in_ : BgpPeerList) : ST H BgpPeerList :=
  out_ListMeta ← ListMeta_DeepCopyInto (BgpPeerList_ListMeta in_);
  out_Items ← copy_slice BgpPeer_DeepCopyInto (BgpPeerList_Items in_);
  mret (mk_BgpPeerList (BgpPeerList_TypeMeta in_) out_ListMeta out_Items).
Definition BgpPeerList_DeepCopy : ptr BgpPeerList → ST H (ptr BgpPeerList) := copy_ptr BgpPeerList_DeepCopyInto.
Definition BgpPeerList_DeepCopyObject (in_ : ptr BgpPeerList) : ST H (option (ptr BgpPeerList)) := as_object
    (BgpPeerList_DeepCopy in_).

(** ** They copy *)
Context {MO : MetaV1Ok cell}.

#[export] Instance DeepOk_EipSpec : DeepOk cell EipSpec := flat_deep_ok.
Lemma v1_EipSpec_ret : copies (A := EipSpec) mret.
Proof. apply copies_flat_type. Qed.
Lemma v1_EipSpec_copies : copies EipSpec_DeepCopyInto.
Proof. apply copies_flat_type. Qed.
#[local] Hint Resolve v1_EipSpec_ret v1_EipSpec_copies : deepcopy.
#[export] Instance DeepOk_EipStatus : DeepOk cell EipStatus := flat_deep_ok.
Lemma v1_EipStatus_ret : copies (A := EipStatus) mret.
Proof. apply copies_flat_type. Qed.
Lemma v1_EipStatus_copies : copies EipStatus_DeepCopyInto.
Proof. apply copies_flat_type. Qed.
#[local] Hint Resolve v1_EipStatus_ret v1_EipStatus_copies : deepcopy.
#[export] Instance DeepOk_Eip : DeepOk cell Eip.
Proof. apply deep_via_ok, _. Qed.
Lemma v1_Eip_copies : copies Eip_DeepCopyInto.
Proof.
  apply (copies_struct Eip_fields (λ y, let '(Flat (f_TypeMeta, f_Spec, f_Status), f_ObjectMeta) := y in mk_Eip
      f_TypeMeta f_ObjectMeta f_Spec f_Status)
    Eip_DeepCopyInto (pair_into mret ObjectMeta_DeepCopyInto));
  [solve_fields|solve_into Eip_DeepCopyInto Eip_fields|solve_parts].
Qed.
#[local] Hint Resolve v1_Eip_copies : deepcopy.
#[export] Instance DeepOk_EipList : DeepOk cell EipList.
Proof. apply deep_via_ok, _. Qed.
Lemma v1_EipList_copies : copies EipList_DeepCopyInto.
Proof.
  apply (copies_struct EipList_fields (λ y, let '(Flat (f_TypeMeta), (f_ListMeta, f_Items)) := y in mk_EipList
      f_TypeMeta f_ListMeta f_Items)
    EipList_DeepCopyInto (pair_into mret (pair_into ListMeta_DeepCopyInto (copy_slice Eip_DeepCopyInto))));
  [solve_fields|solve_into EipList_DeepCopyInto EipList_fields|solve_parts].
Qed.
#[local] Hint Resolve v1_EipList_copies : deepcopy.
#[export] Instance DeepOk_BgpConfStatus : DeepOk cell BgpConfStatus := flat_deep_ok.
Lemma v1_BgpConfStatus_ret : copies (A := BgpConfStatus) mret.
Proof. apply copies_flat_type. Qed.
Lemma v1_BgpConfStatus_copies : copies BgpConfStatus_DeepCopyInto.
Proof. apply copies_flat_type. Qed.
#[local] Hint Resolve v1_BgpConfStatus_ret v1_BgpConfStatus_copies : deepcopy.
#[export] Instance DeepOk_BgpConfSpec : DeepOk cell BgpConfSpec := flat_deep_ok.
Lemma v1_BgpConfSpec_ret : copies (A := BgpConfSpec) mret.
Proof. apply copies_flat_type. Qed.
Lemma v1_BgpConfSpec_copies : copies BgpConfSpec_DeepCopyInto.
Proof. apply copies_flat_type. Qed.
#[local] Hint Resolve v1_BgpConfSpec_ret v1_BgpConfSpec_copies : deepcopy.
#[export] Instance DeepOk_BgpConf : DeepOk cell BgpConf.
Proof. apply deep_via_ok, _. Qed.
Lemma v1_BgpConf_copies : copies BgpConf_DeepCopyInto.
Proof.
  apply (copies_struct BgpConf_fields (λ y, let '(Flat (f_TypeMeta, f_Spec, f_Status), f_ObjectMeta) := y in
      mk_BgpConf f_TypeMeta f_ObjectMeta f_Spec f_Status)
    BgpConf_DeepCopyInto (pair_into mret ObjectMeta_DeepCopyInto));
  [solve_fields|solve_into BgpConf_DeepCopyInto BgpConf_fields|solve_parts].
Qed.
#[local] Hint Resolve v1_BgpConf_copies : deepcopy.
#[export] Instance DeepOk_BgpConfList : DeepOk cell BgpConfList.
Proof. apply deep_via_ok, _. Qed.
Lemma v1_BgpConfList_copies : copies BgpConfList_DeepCopyInto.
Proof.
  apply (copies_struct BgpConfList_fields (λ y, let '(Flat (f_TypeMeta), (f_ListMeta, f_Items)) := y in mk_BgpConfList
      f_TypeMeta f_ListMeta f_Items)
    BgpConfList_DeepCopyInto (pair_into mret (pair_into ListMeta_DeepCopyInto (copy_slice BgpConf_DeepCopyInto))));
  [solve_fields|solve_into BgpConfList_DeepCopyInto BgpConfList_fields|solve_parts].
Qed.
#[local] Hint Resolve v1_BgpConfList_copies : deepcopy.
#[export] Instance DeepOk_BgpPeerStatus : DeepOk cell BgpPeerStatus := flat_deep_ok.
Lemma v1_BgpPeerStatus_ret : copies (A := BgpPeerStatus) mret.
Proof. apply copies_flat_type. Qed.
Lemma v1_BgpPeerStatus_copies : copies BgpPeerStatus_DeepCopyInto.
Proof. apply copies_flat_type. Qed.
#[local] Hint Resolve v1_BgpPeerStatus_ret v1_BgpPeerStatus_copies : deepcopy.
#[export] Instance DeepOk_NeighborConfig : DeepOk cell NeighborConfig := flat_deep_ok.
Lemma v1_NeighborConfig_ret : copies (A := NeighborConfig) mret.
Proof. apply copies_flat_type. Qed.
Lemma v1_NeighborConfig_copies : copies NeighborConfig_DeepCopyInto.
Proof. apply copies_flat_type. Qed.
#[local] Hint Resolve v1_NeighborConfig_ret v1_NeighborConfig_copies : deepcopy.
#[export] Instance DeepOk_AddPaths : DeepOk cell AddPaths := flat_deep_ok.
Lemma v1_AddPaths_ret : copies (A := AddPaths) mret.
Proof. apply copies_flat_type. Qed.
Lemma v1_AddPaths_copies : copies AddPaths_DeepCopyInto.
Proof. apply copies_flat_type. Qed.
#[local] Hint Resolve v1_AddPaths_ret v1_AddPaths_copies : deepcopy.
#[export] Instance DeepOk_Transport : DeepOk cell Transport := flat_deep_ok.
Lemma v1_Transport_ret : copies (A := Transport) mret.
Proof. apply copies_flat_type. Qed.
Lemma v1_Transport_copies : copies Transport_DeepCopyInto.
Proof. apply copies_flat_type. Qed.
#[local] Hint Resolve v1_Transport_ret v1_Transport_copies : deepcopy.
#[export] Instance DeepOk_BgpPeerSpec : DeepOk cell BgpPeerSpec := flat_deep_ok.
Lemma v1_BgpPeerSpec_ret : copies (A := BgpPeerSpec) mret.
Proof. apply copies_flat_type. Qed.
Lemma v1_BgpPeerSpec_copies : copies BgpPeerSpec_DeepCopyInto.
Proof. apply copies_flat_type. Qed.
#[local] Hint Resolve v1_BgpPeerSpec_ret v1_BgpPeerSpec_copies : deepcopy.
#[export] Instance DeepOk_BgpPeer : DeepOk cell BgpPeer.
Proof. apply deep_via_ok, _. Qed.
Lemma v1_BgpPeer_copies : copies BgpPeer_DeepCopyInto.
Proof.
  apply (copies_struct BgpPeer_fields (λ y, let '(Flat (f_TypeMeta, f_Spec, f_Status), f_ObjectMeta) := y in
      mk_BgpPeer f_TypeMeta f_ObjectMeta f_Spec f_Status)
    BgpPeer_DeepCopyInto (pair_into mret ObjectMeta_DeepCopyInto));
  [solve_fields|solve_into BgpPeer_DeepCopyInto BgpPeer_fields|solve_parts].
Qed.
#[local] Hint Resolve v1_BgpPeer_copies : deepcopy.
#[export] Instance DeepOk_BgpPeerList : DeepOk cell BgpPeerList.
Proof. apply deep_via_ok, _. Qed.
Lemma v1_BgpPeerList_copies : copies BgpPeerList_DeepCopyInto.
Proof.
  apply (copies_struct BgpPeerList_fields (λ y, let '(Flat (f_TypeMeta), (f_ListMeta, f_Items)) := y in mk_BgpPeerList
      f_TypeMeta f_ListMeta f_Items)
    BgpPeerList_DeepCopyInto (pair_into mret (pair_into ListMeta_DeepCopyInto (copy_slice BgpPeer_DeepCopyInto))));
  [solve_fields|solve_into BgpPeerList_DeepCopyInto BgpPeerList_fields|solve_parts].
Qed.
#[local] Hint Resolve v1_BgpPeerList_copies : deepcopy.
End copies.

(** Deep copies of the objects of the first version share no memory with the
    original either. *)
Theorem v1_DeepCopy_isolated {MT : MetaTypes} {R : GoRange} {MV : MetaV1 cell} {MO : MetaV1Ok cell} :
  isolated Eip_DeepCopy ∧ isolated EipList_DeepCopy ∧ isolated BgpConf_DeepCopy ∧ isolated BgpConfList_DeepCopy ∧
  isolated BgpPeer_DeepCopy ∧ isolated BgpPeerList_DeepCopy.
Proof.
  split_and!; apply copies_isolated, copies_ptr;
    [apply v1_Eip_copies|apply v1_EipList_copies|apply v1_BgpConf_copies|apply v1_BgpConfList_copies|
     apply v1_BgpPeer_copies|apply v1_BgpPeerList_copies].
Qed.
