(* ===== verification/DeepCopyV2.v ===== *)
(** * [api/v1alpha2/zz_generated.deepcopy.go]: copying the objects of the API

    The types of [eip_types.go], [bgpconf_types.go] and [bgppeer_types.go] with
    their references kept (the other files have their contents), and the
    [DeepCopyInto], [DeepCopy] and [DeepCopyObject] methods, statement by
    statement.  What a type refers to ([Deep]) is read off its declaration, the
    copying functions off the generated file: a reference the generated code
    forgets is one the copy would share. *)
From S2P Require Import Prelude DeepCopy.
Local Open Scope Z_scope.

Section copies.
Context {MT : MetaTypes} {R : GoRange}.

(** ** The types *)
Record EipSpec := mk_EipSpec {
  EipSpec_Address : string;
  EipSpec_Protocol : string;
  EipSpec_Interface : string;
  EipSpec_Disable : bool;
  EipSpec_UsingKnownIPs : bool;
  EipSpec_Priority : Z;
  EipSpec_Namespaces : slice string;
  EipSpec_NamespaceSelector : gomp string }.
Record EipStatus := mk_EipStatus {
  EipStatus_Occupied : bool;
  EipStatus_Usage : Z;
  EipStatus_PoolSize : Z;
  EipStatus_Used : gomp string;
  EipStatus_FirstIP : string;
  EipStatus_LastIP : string;
  EipStatus_Ready : bool;
  EipStatus_V4 : bool }.
Record Eip := mk_Eip {
  Eip_TypeMeta : TypeMeta;
  Eip_ObjectMeta : ObjectMeta;
  Eip_Spec : EipSpec;
  Eip_Status : EipStatus }.
Record EipList := mk_EipList {
  EipList_TypeMeta : TypeMeta;
  EipList_ListMeta : ListMeta;
  EipList_Items : slice Eip }.
Record NodeConfStatus := mk_NodeConfStatus {
  NodeConfStatus_RouterId : string;
  NodeConfStatus_As : Z }.
Record BgpConfStatus := mk_BgpConfStatus {
  BgpConfStatus_NodesConfStatus : gomp NodeConfStatus }.
Record GracefulRestart := mk_GracefulRestart {
  GracefulRestart_Enabled : bool;
  GracefulRestart_RestartTime : Z;
  GracefulRestart_HelperOnly : bool;
  GracefulRestart_DeferralTime : Z;
  GracefulRestart_NotificationEnabled : bool;
  GracefulRestart_LonglivedEnabled : bool;
  GracefulRestart_StaleRoutesTime : Z;
  GracefulRestart_PeerRestartTime : Z;
  GracefulRestart_PeerRestarting : bool;
  GracefulRestart_LocalRestarting : bool;
  GracefulRestart_Mode : string }.
Record BgpConfSpec := mk_BgpConfSpec {
  BgpConfSpec_As : Z;
  BgpConfSpec_AsPerRack : gomp Z;
  BgpConfSpec_RouterId : string;
  BgpConfSpec_ListenPort : Z;
  BgpConfSpec_ListenAddresses : slice string;
  BgpConfSpec_Families : slice Z;
  BgpConfSpec_UseMultiplePaths : bool;
  BgpConfSpec_GracefulRestart : ptr GracefulRestart;
  BgpConfSpec_Policy : string }.
Record BgpConf := mk_BgpConf {
  BgpConf_TypeMeta : TypeMeta;
  BgpConf_ObjectMeta : ObjectMeta;
  BgpConf_Spec : BgpConfSpec;
  BgpConf_Status : BgpConfStatus }.
Record BgpConfList := mk_BgpConfList {
  BgpConfList_TypeMeta : TypeMeta;
  BgpConfList_ListMeta : ListMeta;
  BgpConfList_Items : slice BgpConf }.
Record Message := mk_Message {
  Message_Notification : string;
  Message_Update : string;
  Message_Open : string;
  Message_Keepalive : string;
  Message_Refresh : string;
  Message_Discarded : string;
  Message_Total : string;
  Message_WithdrawUpdate : string;
  Message_WithdrawPrefix : string }.
Record Messages := mk_Messages {
  Messages_Received : ptr Message;
  Messages_Sent : ptr Message }.
Record Queues := mk_Queues {
  Queues_Input : Z;
  Queues_Output : Z }.
Record PeerState := mk_PeerState {
  PeerState_AuthPassword : string;
  PeerState_Description : string;
  PeerState_LocalAs : Z;
  PeerState_Messages : ptr Messages;
  PeerState_NeighborAddress : string;
  PeerState_PeerAs : Z;
  PeerState_PeerGroup : string;
  PeerState_PeerType : Z;
  PeerState_Queues : ptr Queues;
  PeerState_RemovePrivateAs : Z;
  PeerState_RouteFlapDamping : bool;
  PeerState_SendCommunity : Z;
  PeerState_SessionState : string;
  PeerState_AdminState : string;
  PeerState_OutQ : Z;
  PeerState_Flops : Z;
  PeerState_RouterId : string }.
Record TimersState := mk_TimersState {
  TimersState_ConnectRetry : string;
  TimersState_HoldTime : string;
  TimersState_KeepaliveInterval : string;
  TimersState_MinimumAdvertisementInterval : string;
  TimersState_NegotiatedHoldTime : string;
  TimersState_Uptime : string;
  TimersState_Downtime : string }.
Record NodePeerStatus := mk_NodePeerStatus {
  NodePeerStatus_PeerState : PeerState;
  NodePeerStatus_TimersState : TimersState }.
Record BgpPeerStatus := mk_BgpPeerStatus {
  BgpPeerStatus_NodesPeerStatus : gomp NodePeerStatus }.
Record PeerConf := mk_PeerConf {
  PeerConf_AuthPassword : string;
  PeerConf_Description : string;
  PeerConf_LocalAs : Z;
  PeerConf_NeighborAddress : string;
  PeerConf_PeerAs : Z;
  PeerConf_PeerGroup : string;
  PeerConf_PeerType : Z;
  PeerConf_RemovePrivateAs : string;
  PeerConf_RouteFlapDamping : bool;
  PeerConf_SendCommunity : Z;
  PeerConf_NeighborInterface : string;
  PeerConf_Vrf : string;
  PeerConf_AllowOwnAs : Z;
  PeerConf_ReplacePeerAs : bool;
  PeerConf_AdminDown : bool }.
Record EbgpMultihop := mk_EbgpMultihop {
  EbgpMultihop_Enabled : bool;
  EbgpMultihop_MultihopTtl : Z }.
Record TimersConfig := mk_TimersConfig {
  TimersConfig_ConnectRetry : string;
  TimersConfig_HoldTime : string;
  TimersConfig_KeepaliveInterval : string;
  TimersConfig_MinimumAdvertisementInterval : string }.
Record Timers := mk_Timers {
  Timers_Config : ptr TimersConfig }.
Record Transport := mk_Transport {
  Transport_MtuDiscovery : bool;
  Transport_PassiveMode : bool;
  Transport_RemoteAddress : string;
  Transport_RemotePort : Z;
  Transport_TcpMss : Z }.
Record MpGracefulRestartConfig := mk_MpGracefulRestartConfig {
  MpGracefulRestartConfig_Enabled : bool }.
Record MpGracefulRestart := mk_MpGracefulRestart {
  MpGracefulRestart_Config : ptr MpGracefulRestartConfig }.
Record Family := mk_Family {
  Family_Afi : string;
  Family_Safi : string }.
Record AfiSafiConfig := mk_AfiSafiConfig {
  AfiSafiConfig_Family : ptr Family;
  AfiSafiConfig_Enabled : bool }.
Record AddPathsConfig := mk_AddPathsConfig {
  AddPathsConfig_Receive : bool;
  AddPathsConfig_SendMax : Z }.
Record AddPaths := mk_AddPaths {
  AddPaths_Config : ptr AddPathsConfig }.
Record AfiSafi := mk_AfiSafi {
  AfiSafi_MpGracefulRestart : ptr MpGracefulRestart;
  AfiSafi_Config : ptr AfiSafiConfig;
  AfiSafi_AddPaths : ptr AddPaths }.
Record BgpPeerSpec := mk_BgpPeerSpec {
  BgpPeerSpec_Conf : ptr PeerConf;
  BgpPeerSpec_EbgpMultihop : ptr EbgpMultihop;
  BgpPeerSpec_Timers : ptr Timers;
  BgpPeerSpec_Transport : ptr Transport;
  BgpPeerSpec_GracefulRestart : ptr GracefulRestart;
  BgpPeerSpec_AfiSafis : slice (ptr AfiSafi);
  BgpPeerSpec_NodeSelector : ptr LabelSelector }.
Record BgpPeer := mk_BgpPeer {
  BgpPeer_TypeMeta : TypeMeta;
  BgpPeer_ObjectMeta : ObjectMeta;
  BgpPeer_Spec : BgpPeerSpec;
  BgpPeer_Status : BgpPeerStatus }.
Record BgpPeerList := mk_BgpPeerList {
  BgpPeerList_TypeMeta : TypeMeta;
  BgpPeerList_ListMeta : ListMeta;
  BgpPeerList_Items : slice BgpPeer }.

(** The cells of the memory: a value of each type, the arrays and the maps. *)
Inductive cell :=
| MetaCell (c : meta_cell)
| C_EipSpec (x : EipSpec)
| C_EipStatus (x : EipStatus)
| C_Eip (x : Eip)
| C_EipList (x : EipList)
| C_NodeConfStatus (x : NodeConfStatus)
| C_BgpConfStatus (x : BgpConfStatus)
| C_GracefulRestart (x : GracefulRestart)
| C_BgpConfSpec (x : BgpConfSpec)
| C_BgpConf (x : BgpConf)
| C_BgpConfList (x : BgpConfList)
| C_Message (x : Message)
| C_Messages (x : Messages)
| C_Queues (x : Queues)
| C_PeerState (x : PeerState)
| C_TimersState (x : TimersState)
| C_NodePeerStatus (x : NodePeerStatus)
| C_BgpPeerStatus (x : BgpPeerStatus)
| C_PeerConf (x : PeerConf)
| C_EbgpMultihop (x : EbgpMultihop)
| C_TimersConfig (x : TimersConfig)
| C_Timers (x : Timers)
| C_Transport (x : Transport)
| C_MpGracefulRestartConfig (x : MpGracefulRestartConfig)
| C_MpGracefulRestart (x : MpGracefulRestart)
| C_Family (x : Family)
| C_AfiSafiConfig (x : AfiSafiConfig)
| C_AddPathsConfig (x : AddPathsConfig)
| C_AddPaths (x : AddPaths)
| C_AfiSafi (x : AfiSafi)
| C_BgpPeerSpec (x : BgpPeerSpec)
| C_BgpPeer (x : BgpPeer)
| C_BgpPeerList (x : BgpPeerList)
| C_LabelSelector (x : LabelSelector)
| A_string (xs : list string)
| A_Eip (xs : list Eip)
| A_Z (xs : list Z)
| A_BgpConf (xs : list BgpConf)
| A_ptr_AfiSafi (xs : list (ptr AfiSafi))
| A_BgpPeer (xs : list BgpPeer)
| M_string (m : gmap string string)
| M_NodeConfStatus (m : gmap string NodeConfStatus)
| M_Z (m : gmap string Z)
| M_NodePeerStatus (m : gmap string NodePeerStatus).
Abbreviation H := (heap cell).
Context {MV : MetaV1 cell}.

#[export] Instance Stored_EipSpec : Stored cell EipSpec :=
  {| inj := C_EipSpec; prj c := match c with C_EipSpec x => Some x | _ => None end; prj_inj _ := eq_refl |}.
#[export] Instance Stored_EipStatus : Stored cell EipStatus :=
  {| inj := C_EipStatus; prj c := match c with C_EipStatus x => Some x | _ => None end; prj_inj _ := eq_refl |}.
#[export] Instance Stored_Eip : Stored cell Eip :=
  {| inj := C_Eip; prj c := match c with C_Eip x => Some x | _ => None end; prj_inj _ := eq_refl |}.
#[export] Instance Stored_EipList : Stored cell EipList :=
  {| inj := C_EipList; prj c := match c with C_EipList x => Some x | _ => None end; prj_inj _ := eq_refl |}.
#[export] Instance Stored_NodeConfStatus : Stored cell NodeConfStatus :=
  {| inj := C_NodeConfStatus; prj c := match c with C_NodeConfStatus x => Some x | _ => None end; prj_inj _ := eq_refl
      |}.
#[export] Instance Stored_BgpConfStatus : Stored cell BgpConfStatus :=
  {| inj := C_BgpConfStatus; prj c := match c with C_BgpConfStatus x => Some x | _ => None end; prj_inj _ := eq_refl
      |}.
#[export] Instance Stored_GracefulRestart : Stored cell GracefulRestart :=
  {| inj := C_GracefulRestart; prj c := match c with C_GracefulRestart x => Some x | _ => None end; prj_inj _ :=
      eq_refl |}.
#[export] Instance Stored_BgpConfSpec : Stored cell BgpConfSpec :=
  {| inj := C_BgpConfSpec; prj c := match c with C_BgpConfSpec x => Some x | _ => None end; prj_inj _ := eq_refl |}.
#[export] Instance Stored_BgpConf : Stored cell BgpConf :=
  {| inj := C_BgpConf; prj c := match c with C_BgpConf x => Some x | _ => None end; prj_inj _ := eq_refl |}.
#[export] Instance Stored_BgpConfList : Stored cell BgpConfList :=
  {| inj := C_BgpConfList; prj c := match c with C_BgpConfList x => Some x | _ => None end; prj_inj _ := eq_refl |}.
#[export] Instance Stored_Message : Stored cell Message :=
  {| inj := C_Message; prj c := match c with C_Message x => Some x | _ => None end; prj_inj _ := eq_refl |}.
#[export] Instance Stored_Messages : Stored cell Messages :=
  {| inj := C_Messages; prj c := match c with C_Messages x => Some x | _ => None end; prj_inj _ := eq_refl |}.
#[export] Instance Stored_Queues : Stored cell Queues :=
  {| inj := C_Queues; prj c := match c with C_Queues x => Some x | _ => None end; prj_inj _ := eq_refl |}.
#[export] Instance Stored_PeerState : Stored cell PeerState :=
  {| inj := C_PeerState; prj c := match c with C_PeerState x => Some x | _ => None end; prj_inj _ := eq_refl |}.
#[export] Instance Stored_TimersState : Stored cell TimersState :=
  {| inj := C_TimersState; prj c := match c with C_TimersState x => Some x | _ => None end; prj_inj _ := eq_refl |}.
#[export] Instance Stored_NodePeerStatus : Stored cell NodePeerStatus :=
  {| inj := C_NodePeerStatus; prj c := match c with C_NodePeerStatus x => Some x | _ => None end; prj_inj _ := eq_refl
      |}.
#[export] Instance Stored_BgpPeerStatus : Stored cell BgpPeerStatus :=
  {| inj := C_BgpPeerStatus; prj c := match c with C_BgpPeerStatus x => Some x | _ => None end; prj_inj _ := eq_refl
      |}.
#[export] Instance Stored_PeerConf : Stored cell PeerConf :=
  {| inj := C_PeerConf; prj c := match c with C_PeerConf x => Some x | _ => None end; prj_inj _ := eq_refl |}.
#[export] Instance Stored_EbgpMultihop : Stored cell EbgpMultihop :=
  {| inj := C_EbgpMultihop; prj c := match c with C_EbgpMultihop x => Some x | _ => None end; prj_inj _ := eq_refl |}.
#[export] Instance Stored_TimersConfig : Stored cell TimersConfig :=
  {| inj := C_TimersConfig; prj c := match c with C_TimersConfig x => Some x | _ => None end; prj_inj _ := eq_refl |}.
#[export] Instance Stored_Timers : Stored cell Timers :=
  {| inj := C_Timers; prj c := match c with C_Timers x => Some x | _ => None end; prj_inj _ := eq_refl |}.
#[export] Instance Stored_Transport : Stored cell Transport :=
  {| inj := C_Transport; prj c := match c with C_Transport x => Some x | _ => None end; prj_inj _ := eq_refl |}.
#[export] Instance Stored_MpGracefulRestartConfig : Stored cell MpGracefulRestartConfig :=
  {| inj := C_MpGracefulRestartConfig; prj c := match c with C_MpGracefulRestartConfig x => Some x | _ => None end;
      prj_inj _ := eq_refl |}.
#[export] Instance Stored_MpGracefulRestart : Stored cell MpGracefulRestart :=
  {| inj := C_MpGracefulRestart; prj c := match c with C_MpGracefulRestart x => Some x | _ => None end; prj_inj _ :=
      eq_refl |}.
#[export] Instance Stored_Family : Stored cell Family :=
  {| inj := C_Family; prj c := match c with C_Family x => Some x | _ => None end; prj_inj _ := eq_refl |}.
#[export] Instance Stored_AfiSafiConfig : Stored cell AfiSafiConfig :=
  {| inj := C_AfiSafiConfig; prj c := match c with C_AfiSafiConfig x => Some x | _ => None end; prj_inj _ := eq_refl
      |}.
#[export] Instance Stored_AddPathsConfig : Stored cell AddPathsConfig :=
  {| inj := C_AddPathsConfig; prj c := match c with C_AddPathsConfig x => Some x | _ => None end; prj_inj _ := eq_refl
      |}.
#[export] Instance Stored_AddPaths : Stored cell AddPaths :=
  {| inj := C_AddPaths; prj c := match c with C_AddPaths x => Some x | _ => None end; prj_inj _ := eq_refl |}.
#[export] Instance Stored_AfiSafi : Stored cell AfiSafi :=
  {| inj := C_AfiSafi; prj c := match c with C_AfiSafi x => Some x | _ => None end; prj_inj _ := eq_refl |}.
#[export] Instance Stored_BgpPeerSpec : Stored cell BgpPeerSpec :=
  {| inj := C_BgpPeerSpec; prj c := match c with C_BgpPeerSpec x => Some x | _ => None end; prj_inj _ := eq_refl |}.
#[export] Instance Stored_BgpPeer : Stored cell BgpPeer :=
  {| inj := C_BgpPeer; prj c := match c with C_BgpPeer x => Some x | _ => None end; prj_inj _ := eq_refl |}.
#[export] Instance Stored_BgpPeerList : Stored cell BgpPeerList :=
  {| inj := C_BgpPeerList; prj c := match c with C_BgpPeerList x => Some x | _ => None end; prj_inj _ := eq_refl |}.
#[export] Instance Stored_LabelSelector : Stored cell LabelSelector :=
  {| inj := C_LabelSelector; prj c := match c with C_LabelSelector x => Some x | _ => None end; prj_inj _ := eq_refl
      |}.
#[export] Instance Stored_A_string : Stored cell (list string) :=
  {| inj := A_string; prj c := match c with A_string x => Some x | _ => None end; prj_inj _ := eq_refl |}.
#[export] Instance Stored_A_Eip : Stored cell (list Eip) :=
  {| inj := A_Eip; prj c := match c with A_Eip x => Some x | _ => None end; prj_inj _ := eq_refl |}.
#[export] Instance Stored_A_Z : Stored cell (list Z) :=
  {| inj := A_Z; prj c := match c with A_Z x => Some x | _ => None end; prj_inj _ := eq_refl |}.
#[export] Instance Stored_A_BgpConf : Stored cell (list BgpConf) :=
  {| inj := A_BgpConf; prj c := match c with A_BgpConf x => Some x | _ => None end; prj_inj _ := eq_refl |}.
#[export] Instance Stored_A_ptr_AfiSafi : Stored cell (list (ptr AfiSafi)) :=
  {| inj := A_ptr_AfiSafi; prj c := match c with A_ptr_AfiSafi x => Some x | _ => None end; prj_inj _ := eq_refl |}.
#[export] Instance Stored_A_BgpPeer : Stored cell (list BgpPeer) :=
  {| inj := A_BgpPeer; prj c := match c with A_BgpPeer x => Some x | _ => None end; prj_inj _ := eq_refl |}.
#[export] Instance Stored_M_string : Stored cell (gmap string string) :=
  {| inj := M_string; prj c := match c with M_string x => Some x | _ => None end; prj_inj _ := eq_refl |}.
#[export] Instance Stored_M_NodeConfStatus : Stored cell (gmap string NodeConfStatus) :=
  {| inj := M_NodeConfStatus; prj c := match c with M_NodeConfStatus x => Some x | _ => None end; prj_inj _ := eq_refl
      |}.
#[export] Instance Stored_M_Z : Stored cell (gmap string Z) :=
  {| inj := M_Z; prj c := match c with M_Z x => Some x | _ => None end; prj_inj _ := eq_refl |}.
#[export] Instance Stored_M_NodePeerStatus : Stored cell (gmap string NodePeerStatus) :=
  {| inj := M_NodePeerStatus; prj c := match c with M_NodePeerStatus x => Some x | _ => None end; prj_inj _ := eq_refl
      |}.

(** ** The references of each type *)
Definition EipSpec_fields (x : EipSpec) :=
  (Flat (EipSpec_Address x, EipSpec_Protocol x, EipSpec_Interface x, EipSpec_Disable x, EipSpec_UsingKnownIPs x,
      EipSpec_Priority x), (EipSpec_Namespaces x, EipSpec_NamespaceSelector x)).
#[export] Instance Deep_EipSpec : Deep cell EipSpec := deep_via EipSpec_fields.
Definition EipStatus_fields (x : EipStatus) :=
  (Flat (EipStatus_Occupied x, EipStatus_Usage x, EipStatus_PoolSize x, EipStatus_FirstIP x, EipStatus_LastIP x,
      EipStatus_Ready x, EipStatus_V4 x), EipStatus_Used x).
#[export] Instance Deep_EipStatus : Deep cell EipStatus := deep_via EipStatus_fields.
Definition Eip_fields (x : Eip) :=
  (Flat (Eip_TypeMeta x), (Eip_ObjectMeta x, (Eip_Spec x, Eip_Status x))).
#[export] Instance Deep_Eip : Deep cell Eip := deep_via Eip_fields.
Definition EipList_fields (x : EipList) :=
  (Flat (EipList_TypeMeta x), (EipList_ListMeta x, EipList_Items x)).
#[export] Instance Deep_EipList : Deep cell EipList := deep_via EipList_fields.
#[export] Instance Deep_NodeConfStatus : Deep cell NodeConfStatus := flat_deep.
Definition BgpConfStatus_fields (x : BgpConfStatus) :=
  BgpConfStatus_NodesConfStatus x.
#[export] Instance Deep_BgpConfStatus : Deep cell BgpConfStatus := deep_via BgpConfStatus_fields.
#[export] Instance Deep_GracefulRestart : Deep cell GracefulRestart := flat_deep.
Definition BgpConfSpec_fields (x : BgpConfSpec) :=
  (Flat (BgpConfSpec_As x, BgpConfSpec_RouterId x, BgpConfSpec_ListenPort x, BgpConfSpec_UseMultiplePaths x,
      BgpConfSpec_Policy x), (BgpConfSpec_AsPerRack x, (BgpConfSpec_ListenAddresses x, (BgpConfSpec_Families x,
      BgpConfSpec_GracefulRestart x)))).
#[export] Instance Deep_BgpConfSpec : Deep cell BgpConfSpec := deep_via BgpConfSpec_fields.
Definition BgpConf_fields (x : BgpConf) :=
  (Flat (BgpConf_TypeMeta x), (BgpConf_ObjectMeta x, (BgpConf_Spec x, BgpConf_Status x))).
#[export] Instance Deep_BgpConf : Deep cell BgpConf := deep_via BgpConf_fields.
Definition BgpConfList_fields (x : BgpConfList) :=
  (Flat (BgpConfList_TypeMeta x), (BgpConfList_ListMeta x, BgpConfList_Items x)).
#[export] Instance Deep_BgpConfList : Deep cell BgpConfList := deep_via BgpConfList_fields.
#[export] Instance Deep_Message : Deep cell Message := flat_deep.
Definition Messages_fields (x : Messages) :=
  (Messages_Received x, Messages_Sent x).
#[export] Instance Deep_Messages : Deep cell Messages := deep_via Messages_fields.
#[export] Instance Deep_Queues : Deep cell Queues := flat_deep.
Definition PeerState_fields (x : PeerState) :=
  (Flat (PeerState_AuthPassword x, PeerState_Description x, PeerState_LocalAs x, PeerState_NeighborAddress x,
      PeerState_PeerAs x, PeerState_PeerGroup x, PeerState_PeerType x, PeerState_RemovePrivateAs x,
      PeerState_RouteFlapDamping x, PeerState_SendCommunity x, PeerState_SessionState x, PeerState_AdminState x,
      PeerState_OutQ x, PeerState_Flops x, PeerState_RouterId x), (PeerState_Messages x, PeerState_Queues x)).
#[export] Instance Deep_PeerState : Deep cell PeerState := deep_via PeerState_fields.
#[export] Instance Deep_TimersState : Deep cell TimersState := flat_deep.
Definition NodePeerStatus_fields (x : NodePeerStatus) :=
  (Flat (NodePeerStatus_TimersState x), NodePeerStatus_PeerState x).
#[export] Instance Deep_NodePeerStatus : Deep cell NodePeerStatus := deep_via NodePeerStatus_fields.
Definition BgpPeerStatus_fields (x : BgpPeerStatus) :=
  BgpPeerStatus_NodesPeerStatus x.
#[export] Instance Deep_BgpPeerStatus : Deep cell BgpPeerStatus := deep_via BgpPeerStatus_fields.
#[export] Instance Deep_PeerConf : Deep cell PeerConf := flat_deep.
#[export] Instance Deep_EbgpMultihop : Deep cell EbgpMultihop := flat_deep.
#[export] Instance Deep_TimersConfig : Deep cell TimersConfig := flat_deep.
Definition Timers_fields (x : Timers) :=
  Timers_Config x.
#[export] Instance Deep_Timers : Deep cell Timers := deep_via Timers_fields.
#[export] Instance Deep_Transport : Deep cell Transport := flat_deep.
#[export] Instance Deep_MpGracefulRestartConfig : Deep cell MpGracefulRestartConfig := flat_deep.
Definition MpGracefulRestart_fields (x : MpGracefulRestart) :=
  MpGracefulRestart_Config x.
#[export] Instance Deep_MpGracefulRestart : Deep cell MpGracefulRestart := deep_via MpGracefulRestart_fields.
#[export] Instance Deep_Family : Deep cell Family := flat_deep.
Definition AfiSafiConfig_fields (x : AfiSafiConfig) :=
  (Flat (AfiSafiConfig_Enabled x), AfiSafiConfig_Family x).
#[export] Instance Deep_AfiSafiConfig : Deep cell AfiSafiConfig := deep_via AfiSafiConfig_fields.
#[export] Instance Deep_AddPathsConfig : Deep cell AddPathsConfig := flat_deep.
Definition AddPaths_fields (x : AddPaths) :=
  AddPaths_Config x.
#[export] Instance Deep_AddPaths : Deep cell AddPaths := deep_via AddPaths_fields.
Definition AfiSafi_fields (x : AfiSafi) :=
  (AfiSafi_MpGracefulRestart x, (AfiSafi_Config x, AfiSafi_AddPaths x)).
#[export] Instance Deep_AfiSafi : Deep cell AfiSafi := deep_via AfiSafi_fields.
Definition BgpPeerSpec_fields (x : BgpPeerSpec) :=
  (BgpPeerSpec_Conf x, (BgpPeerSpec_EbgpMultihop x, (BgpPeerSpec_Timers x, (BgpPeerSpec_Transport x,
      (BgpPeerSpec_GracefulRestart x, (BgpPeerSpec_AfiSafis x, BgpPeerSpec_NodeSelector x)))))).
#[export] Instance Deep_BgpPeerSpec : Deep cell BgpPeerSpec := deep_via BgpPeerSpec_fields.
Definition BgpPeer_fields (x : BgpPeer) :=
  (Flat (BgpPeer_TypeMeta x), (BgpPeer_ObjectMeta x, (BgpPeer_Spec x, BgpPeer_Status x))).
#[export] Instance Deep_BgpPeer : Deep cell BgpPeer := deep_via BgpPeer_fields.
Definition BgpPeerList_fields (x : BgpPeerList) :=
  (Flat (BgpPeerList_TypeMeta x), (BgpPeerList_ListMeta x, BgpPeerList_Items x)).
#[export] Instance Deep_BgpPeerList : Deep cell BgpPeerList := deep_via BgpPeerList_fields.

(** ** The copying functions *)
Definition EipSpec_DeepCopyInto (in_ : EipSpec) : ST H EipSpec :=
  out_Namespaces ← copy_flat (EipSpec_Namespaces in_);
  out_NamespaceSelector ← assign_map (EipSpec_NamespaceSelector in_);
  mret (mk_EipSpec (EipSpec_Address in_) (EipSpec_Protocol in_) (EipSpec_Interface in_) (EipSpec_Disable in_)
      (EipSpec_UsingKnownIPs in_) (EipSpec_Priority in_) out_Namespaces out_NamespaceSelector).
Definition EipSpec_DeepCopy : ptr EipSpec → ST H (ptr EipSpec) := copy_ptr EipSpec_DeepCopyInto.

Definition EipStatus_DeepCopyInto (in_ : EipStatus) : ST H EipStatus :=
  out_Used ← assign_map (EipStatus_Used in_);
  mret (mk_EipStatus (EipStatus_Occupied in_) (EipStatus_Usage in_) (EipStatus_PoolSize in_) out_Used
      (EipStatus_FirstIP in_) (EipStatus_LastIP in_) (EipStatus_Ready in_) (EipStatus_V4 in_)).
Definition EipStatus_DeepCopy : ptr EipStatus → ST H (ptr EipStatus) := copy_ptr EipStatus_DeepCopyInto.

Definition Eip_DeepCopyInto (in_ : Eip) : ST H Eip :=
  out_ObjectMeta ← ObjectMeta_DeepCopyInto (Eip_ObjectMeta in_);
  out_Spec ← EipSpec_DeepCopyInto (Eip_Spec in_);
  out_Status ← EipStatus_DeepCopyInto (Eip_Status in_);
  mret (mk_Eip (Eip_TypeMeta in_) out_ObjectMeta out_Spec out_Status).
Definition Eip_DeepCopy : ptr Eip → ST H (ptr Eip) := copy_ptr Eip_DeepCopyInto.
Definition Eip_DeepCopyObject (in_ : ptr Eip) : ST H (option (ptr Eip)) := as_object (Eip_DeepCopy in_).

Definition EipList_DeepCopyInto (in_ : EipList) : ST H EipList :=
  out_ListMeta ← ListMeta_DeepCopyInto (EipList_ListMeta in_);
  out_Items ← copy_slice Eip_DeepCopyInto (EipList_Items in_);
  mret (mk_EipList (EipList_TypeMeta in_) out_ListMeta out_Items).
Definition EipList_DeepCopy : ptr EipList → ST H (ptr EipList) := copy_ptr EipList_DeepCopyInto.
Definition EipList_DeepCopyObject (in_ : ptr EipList) : ST H (option (ptr EipList)) := as_object (EipList_DeepCopy
    in_).

Definition NodeConfStatus_DeepCopyInto (in_ : NodeConfStatus) : ST H NodeConfStatus := mret in_.
Definition NodeConfStatus_DeepCopy : ptr NodeConfStatus → ST H (ptr NodeConfStatus) := copy_ptr
    NodeConfStatus_DeepCopyInto.

Definition BgpConfStatus_DeepCopyInto (in_ : BgpConfStatus) : ST H BgpConfStatus :=
  out_NodesConfStatus ← assign_map (BgpConfStatus_NodesConfStatus in_);
  mret (mk_BgpConfStatus out_NodesConfStatus).
Definition BgpConfStatus_DeepCopy : ptr BgpConfStatus → ST H (ptr BgpConfStatus) := copy_ptr
    BgpConfStatus_DeepCopyInto.

Definition GracefulRestart_DeepCopyInto (in_ : GracefulRestart) : ST H GracefulRestart := mret in_.
Definition GracefulRestart_DeepCopy : ptr GracefulRestart → ST H (ptr GracefulRestart) := copy_ptr
    GracefulRestart_DeepCopyInto.

Definition BgpConfSpec_DeepCopyInto (in_ : BgpConfSpec) : ST H BgpConfSpec :=
  out_AsPerRack ← assign_map (BgpConfSpec_AsPerRack in_);
  out_ListenAddresses ← copy_flat (BgpConfSpec_ListenAddresses in_);
  out_Families ← copy_flat (BgpConfSpec_Families in_);
  out_GracefulRestart ← assign_ptr (BgpConfSpec_GracefulRestart in_);
  mret (mk_BgpConfSpec (BgpConfSpec_As in_) out_AsPerRack (BgpConfSpec_RouterId in_) (BgpConfSpec_ListenPort in_)
      out_ListenAddresses out_Families (BgpConfSpec_UseMultiplePaths in_) out_GracefulRestart (BgpConfSpec_Policy
      in_)).
Definition BgpConfSpec_DeepCopy : ptr BgpConfSpec → ST H (ptr BgpConfSpec) := copy_ptr BgpConfSpec_DeepCopyInto.

Definition BgpConf_DeepCopyInto (in_ : BgpConf) : ST H BgpConf :=
  out_ObjectMeta ← ObjectMeta_DeepCopyInto (BgpConf_ObjectMeta in_);
  out_Spec ← BgpConfSpec_DeepCopyInto (BgpConf_Spec in_);
  out_Status ← BgpConfStatus_DeepCopyInto (BgpConf_Status in_);
  mret (mk_BgpConf (BgpConf_TypeMeta in_) out_ObjectMeta out_Spec out_Status).
Definition BgpConf_DeepCopy : ptr BgpConf → ST H (ptr BgpConf) := copy_ptr BgpConf_DeepCopyInto.
Definition BgpConf_DeepCopyObject (in_ : ptr BgpConf) : ST H (option (ptr BgpConf)) := as_object (BgpConf_DeepCopy
    in_).

Definition BgpConfList_DeepCopyInto (in_ : BgpConfList) : ST H BgpConfList :=
  out_ListMeta ← ListMeta_DeepCopyInto (BgpConfList_ListMeta in_);
  out_Items ← copy_slice BgpConf_DeepCopyInto (BgpConfList_Items in_);
  mret (mk_BgpConfList (BgpConfList_TypeMeta in_) out_ListMeta out_Items).
Definition BgpConfList_DeepCopy : ptr BgpConfList → ST H (ptr BgpConfList) := copy_ptr BgpConfList_DeepCopyInto.
Definition BgpConfList_DeepCopyObject (in_ : ptr BgpConfList) : ST H (option (ptr BgpConfList)) := as_object
    (BgpConfList_DeepCopy in_).

Definition Message_DeepCopyInto (in_ : Message) : ST H Message := mret in_.
Definition Message_DeepCopy : ptr Message → ST H (ptr Message) := copy_ptr Message_DeepCopyInto.

Definition Messages_DeepCopyInto (in_ : Messages) : ST H Messages :=
  out_Received ← assign_ptr (Messages_Received in_);
  out_Sent ← assign_ptr (Messages_Sent in_);
  mret (mk_Messages out_Received out_Sent).
Definition Messages_DeepCopy : ptr Messages → ST H (ptr Messages) := copy_ptr Messages_DeepCopyInto.

Definition Queues_DeepCopyInto (in_ : Queues) : ST H Queues := mret in_.
Definition Queues_DeepCopy : ptr Queues → ST H (ptr Queues) := copy_ptr Queues_DeepCopyInto.

Definition PeerState_DeepCopyInto (in_ : PeerState) : ST H PeerState :=
  out_Messages ← copy_ptr Messages_DeepCopyInto (PeerState_Messages in_);
  out_Queues ← assign_ptr (PeerState_Queues in_);
  mret (mk_PeerState (PeerState_AuthPassword in_) (PeerState_Description in_) (PeerState_LocalAs in_) out_Messages
      (PeerState_NeighborAddress in_) (PeerState_PeerAs in_) (PeerState_PeerGroup in_) (PeerState_PeerType in_)
      out_Queues (PeerState_RemovePrivateAs in_) (PeerState_RouteFlapDamping in_) (PeerState_SendCommunity in_)
      (PeerState_SessionState in_) (PeerState_AdminState in_) (PeerState_OutQ in_) (PeerState_Flops in_)
      (PeerState_RouterId in_)).
Definition PeerState_DeepCopy : ptr PeerState → ST H (ptr PeerState) := copy_ptr PeerState_DeepCopyInto.

Definition TimersState_DeepCopyInto (in_ : TimersState) : ST H TimersState := mret in_.
Definition TimersState_DeepCopy : ptr TimersState → ST H (ptr TimersState) := copy_ptr TimersState_DeepCopyInto.

Definition NodePeerStatus_DeepCopyInto (in_ : NodePeerStatus) : ST H NodePeerStatus :=
  out_PeerState ← PeerState_DeepCopyInto (NodePeerStatus_PeerState in_);
  mret (mk_NodePeerStatus out_PeerState (NodePeerStatus_TimersState in_)).
Definition NodePeerStatus_DeepCopy : ptr NodePeerStatus → ST H (ptr NodePeerStatus) := copy_ptr
    NodePeerStatus_DeepCopyInto.

Definition BgpPeerStatus_DeepCopyInto (in_ : BgpPeerStatus) : ST H BgpPeerStatus :=
  out_NodesPeerStatus ← copy_map (deref_copy NodePeerStatus_DeepCopyInto) (BgpPeerStatus_NodesPeerStatus in_);
  mret (mk_BgpPeerStatus out_NodesPeerStatus).
Definition BgpPeerStatus_DeepCopy : ptr BgpPeerStatus → ST H (ptr BgpPeerStatus) := copy_ptr
    BgpPeerStatus_DeepCopyInto.

Definition PeerConf_DeepCopyInto (in_ : PeerConf) : ST H PeerConf := mret in_.
Definition PeerConf_DeepCopy : ptr PeerConf → ST H (ptr PeerConf) := copy_ptr PeerConf_DeepCopyInto.

Definition EbgpMultihop_DeepCopyInto (in_ : EbgpMultihop) : ST H EbgpMultihop := mret in_.
Definition EbgpMultihop_DeepCopy : ptr EbgpMultihop → ST H (ptr EbgpMultihop) := copy_ptr EbgpMultihop_DeepCopyInto.

Definition TimersConfig_DeepCopyInto (in_ : TimersConfig) : ST H TimersConfig := mret in_.
Definition TimersConfig_DeepCopy : ptr TimersConfig → ST H (ptr TimersConfig) := copy_ptr TimersConfig_DeepCopyInto.

Definition Timers_DeepCopyInto (in_ : Timers) : ST H Timers :=
  out_Config ← assign_ptr (Timers_Config in_);
  mret (mk_Timers out_Config).
Definition Timers_DeepCopy : ptr Timers → ST H (ptr Timers) := copy_ptr Timers_DeepCopyInto.

Definition Transport_DeepCopyInto (in_ : Transport) : ST H Transport := mret in_.
Definition Transport_DeepCopy : ptr Transport → ST H (ptr Transport) := copy_ptr Transport_DeepCopyInto.

Definition MpGracefulRestartConfig_DeepCopyInto (in_ : MpGracefulRestartConfig) : ST H MpGracefulRestartConfig := mret
    in_.
Definition MpGracefulRestartConfig_DeepCopy : ptr MpGracefulRestartConfig → ST H (ptr MpGracefulRestartConfig) :=
    copy_ptr MpGracefulRestartConfig_DeepCopyInto.

Definition MpGracefulRestart_DeepCopyInto (in_ : MpGracefulRestart) : ST H MpGracefulRestart :=
  out_Config ← assign_ptr (MpGracefulRestart_Config in_);
  mret (mk_MpGracefulRestart out_Config).
Definition MpGracefulRestart_DeepCopy : ptr MpGracefulRestart → ST H (ptr MpGracefulRestart) := copy_ptr
    MpGracefulRestart_DeepCopyInto.

Definition Family_DeepCopyInto (in_ : Family) : ST H Family := mret in_.
Definition Family_DeepCopy : ptr Family → ST H (ptr Family) := copy_ptr Family_DeepCopyInto.

Definition AfiSafiConfig_DeepCopyInto (in_ : AfiSafiConfig) : ST H AfiSafiConfig :=
  out_Family ← assign_ptr (AfiSafiConfig_Family in_);
  mret (mk_AfiSafiConfig out_Family (AfiSafiConfig_Enabled in_)).
Definition AfiSafiConfig_DeepCopy : ptr AfiSafiConfig → ST H (ptr AfiSafiConfig) := copy_ptr
    AfiSafiConfig_DeepCopyInto.

Definition AddPathsConfig_DeepCopyInto (in_ : AddPathsConfig) : ST H AddPathsConfig := mret in_.
Definition AddPathsConfig_DeepCopy : ptr AddPathsConfig → ST H (ptr AddPathsConfig) := copy_ptr
    AddPathsConfig_DeepCopyInto.

Definition AddPaths_DeepCopyInto (in_ : AddPaths) : ST H AddPaths :=
  out_Config ← assign_ptr (AddPaths_Config in_);
  mret (mk_AddPaths out_Config).
Definition AddPaths_DeepCopy : ptr AddPaths → ST H (ptr AddPaths) := copy_ptr AddPaths_DeepCopyInto.

Definition AfiSafi_DeepCopyInto (in_ : AfiSafi) : ST H AfiSafi :=
  out_MpGracefulRestart ← copy_ptr MpGracefulRestart_DeepCopyInto (AfiSafi_MpGracefulRestart in_);
  out_Config ← copy_ptr AfiSafiConfig_DeepCopyInto (AfiSafi_Config in_);
  out_AddPaths ← copy_ptr AddPaths_DeepCopyInto (AfiSafi_AddPaths in_);
  mret (mk_AfiSafi out_MpGracefulRestart out_Config out_AddPaths).
Definition AfiSafi_DeepCopy : ptr AfiSafi → ST H (ptr AfiSafi) := copy_ptr AfiSafi_DeepCopyInto.

Definition BgpPeerSpec_DeepCopyInto (in_ : BgpPeerSpec) : ST H BgpPeerSpec :=
  out_Conf ← assign_ptr (BgpPeerSpec_Conf in_);
  out_EbgpMultihop ← assign_ptr (BgpPeerSpec_EbgpMultihop in_);
  out_Timers ← copy_ptr Timers_DeepCopyInto (BgpPeerSpec_Timers in_);
  out_Transport ← assign_ptr (BgpPeerSpec_Transport in_);
  out_GracefulRestart ← assign_ptr (BgpPeerSpec_GracefulRestart in_);
  out_AfiSafis ← copy_slice (copy_ptr AfiSafi_DeepCopyInto) (BgpPeerSpec_AfiSafis in_);
  out_NodeSelector ← copy_ptr LabelSelector_DeepCopyInto (BgpPeerSpec_NodeSelector in_);
  mret (mk_BgpPeerSpec out_Conf out_EbgpMultihop out_Timers out_Transport out_GracefulRestart out_AfiSafis
      out_NodeSelector).
Definition BgpPeerSpec_DeepCopy : ptr BgpPeerSpec → ST H (ptr BgpPeerSpec) := copy_ptr BgpPeerSpec_DeepCopyInto.

Definition BgpPeer_DeepCopyInto (in_ : BgpPeer) : ST H BgpPeer :=
  out_ObjectMeta ← ObjectMeta_DeepCopyInto (BgpPeer_ObjectMeta in_);
  out_Spec ← BgpPeerSpec_DeepCopyInto (BgpPeer_Spec in_);
  out_Status ← BgpPeerStatus_DeepCopyInto (BgpPeer_Status in_);
  mret (mk_BgpPeer (BgpPeer_TypeMeta in_) out_ObjectMeta out_Spec out_Status).
Definition BgpPeer_DeepCopy : ptr BgpPeer → ST H (ptr BgpPeer) := copy_ptr BgpPeer_DeepCopyInto.
Definition BgpPeer_DeepCopyObject (in_ : ptr BgpPeer) : ST H (option (ptr BgpPeer)) := as_object (BgpPeer_DeepCopy
    in_).

Definition BgpPeerList_DeepCopyInto (in_ : BgpPeerList) : ST H BgpPeerList :=
  out_ListMeta ← ListMeta_DeepCopyInto (BgpPeerList_ListMeta in_);
  out_Items ← copy_slice BgpPeer_DeepCopyInto (BgpPeerList_Items in_);
  mret (mk_BgpPeerList (BgpPeerList_TypeMeta in_) out_ListMeta out_Items).
Definition BgpPeerList_DeepCopy : ptr BgpPeerList → ST H (ptr BgpPeerList) := copy_ptr BgpPeerList_DeepCopyInto.
Definition BgpPeerList_DeepCopyObject (in_ : ptr BgpPeerList) : ST H (option (ptr BgpPeerList)) := as_object
    (BgpPeerList_DeepCopy in_).

(** ** They copy *)
Context {MO : MetaV1Ok cell}.

#[export] Instance DeepOk_EipSpec : DeepOk cell EipSpec.
Proof. apply deep_via_ok, _. Qed.
Lemma EipSpec_copies : copies EipSpec_DeepCopyInto.
Proof.
  apply (copies_struct EipSpec_fields (λ y, let '(Flat (f_Address, f_Protocol, f_Interface, f_Disable,
      f_UsingKnownIPs, f_Priority), (f_Namespaces, f_NamespaceSelector)) := y in mk_EipSpec f_Address f_Protocol
      f_Interface f_Disable f_UsingKnownIPs f_Priority f_Namespaces f_NamespaceSelector)
    EipSpec_DeepCopyInto (pair_into mret (pair_into copy_flat assign_map)));
  [solve_fields|solve_into EipSpec_DeepCopyInto EipSpec_fields|solve_parts].
Qed.
#[local] Hint Resolve EipSpec_copies : deepcopy.
#[export] Instance DeepOk_EipStatus : DeepOk cell EipStatus.
Proof. apply deep_via_ok, _. Qed.
Lemma EipStatus_copies : copies EipStatus_DeepCopyInto.
Proof.
  apply (copies_struct EipStatus_fields (λ y, let '(Flat (f_Occupied, f_Usage, f_PoolSize, f_FirstIP, f_LastIP,
      f_Ready, f_V4), f_Used) := y in mk_EipStatus f_Occupied f_Usage f_PoolSize f_Used f_FirstIP f_LastIP f_Ready
      f_V4)
    EipStatus_DeepCopyInto (pair_into mret assign_map));
  [solve_fields|solve_into EipStatus_DeepCopyInto EipStatus_fields|solve_parts].
Qed.
#[local] Hint Resolve EipStatus_copies : deepcopy.
#[export] Instance DeepOk_Eip : DeepOk cell Eip.
Proof. apply deep_via_ok, _. Qed.
Lemma Eip_copies : copies Eip_DeepCopyInto.
Proof.
  apply (copies_struct Eip_fields (λ y, let '(Flat (f_TypeMeta), (f_ObjectMeta, (f_Spec, f_Status))) := y in mk_Eip
      f_TypeMeta f_ObjectMeta f_Spec f_Status)
    Eip_DeepCopyInto (pair_into mret (pair_into ObjectMeta_DeepCopyInto (pair_into EipSpec_DeepCopyInto
        EipStatus_DeepCopyInto))));
  [solve_fields|solve_into Eip_DeepCopyInto Eip_fields|solve_parts].
Qed.
#[local] Hint Resolve Eip_copies : deepcopy.
#[export] Instance DeepOk_EipList : DeepOk cell EipList.
Proof. apply deep_via_ok, _. Qed.
Lemma EipList_copies : copies EipList_DeepCopyInto.
Proof.
  apply (copies_struct EipList_fields (λ y, let '(Flat (f_TypeMeta), (f_ListMeta, f_Items)) := y in mk_EipList
      f_TypeMeta f_ListMeta f_Items)
    EipList_DeepCopyInto (pair_into mret (pair_into ListMeta_DeepCopyInto (copy_slice Eip_DeepCopyInto))));
  [solve_fields|solve_into EipList_DeepCopyInto EipList_fields|solve_parts].
Qed.
#[local] Hint Resolve EipList_copies : deepcopy.
#[export] Instance DeepOk_NodeConfStatus : DeepOk cell NodeConfStatus := flat_deep_ok.
Lemma NodeConfStatus_ret : copies (A := NodeConfStatus) mret.
Proof. apply copies_flat_type. Qed.
Lemma NodeConfStatus_copies : copies NodeConfStatus_DeepCopyInto.
Proof. apply copies_flat_type. Qed.
#[local] Hint Resolve NodeConfStatus_ret NodeConfStatus_copies : deepcopy.
#[export] Instance DeepOk_BgpConfStatus : DeepOk cell BgpConfStatus.
Proof. apply deep_via_ok, _. Qed.
Lemma BgpConfStatus_copies : copies BgpConfStatus_DeepCopyInto.
Proof.
  apply (copies_struct BgpConfStatus_fields (λ y, let 'f_NodesConfStatus := y in mk_BgpConfStatus f_NodesConfStatus)
    BgpConfStatus_DeepCopyInto assign_map);
  [solve_fields|solve_into BgpConfStatus_DeepCopyInto BgpConfStatus_fields|solve_parts].
Qed.
#[local] Hint Resolve BgpConfStatus_copies : deepcopy.
#[export] Instance DeepOk_GracefulRestart : DeepOk cell GracefulRestart := flat_deep_ok.
Lemma GracefulRestart_ret : copies (A := GracefulRestart) mret.
Proof. apply copies_flat_type. Qed.
Lemma GracefulRestart_copies : copies GracefulRestart_DeepCopyInto.
Proof. apply copies_flat_type. Qed.
#[local] Hint Resolve GracefulRestart_ret GracefulRestart_copies : deepcopy.
#[export] Instance DeepOk_BgpConfSpec : DeepOk cell BgpConfSpec.
Proof. apply deep_via_ok, _. Qed.
Lemma BgpConfSpec_copies : copies BgpConfSpec_DeepCopyInto.
Proof.
  apply (copies_struct BgpConfSpec_fields (λ y, let '(Flat (f_As, f_RouterId, f_ListenPort, f_UseMultiplePaths,
      f_Policy), (f_AsPerRack, (f_ListenAddresses, (f_Families, f_GracefulRestart)))) := y in mk_BgpConfSpec f_As
      f_AsPerRack f_RouterId f_ListenPort f_ListenAddresses f_Families f_UseMultiplePaths f_GracefulRestart f_Policy)
    BgpConfSpec_DeepCopyInto (pair_into mret (pair_into assign_map (pair_into copy_flat (pair_into copy_flat
        assign_ptr)))));
  [solve_fields|solve_into BgpConfSpec_DeepCopyInto BgpConfSpec_fields|solve_parts].
Qed.
#[local] Hint Resolve BgpConfSpec_copies : deepcopy.
#[export] Instance DeepOk_BgpConf : DeepOk cell BgpConf.
Proof. apply deep_via_ok, _. Qed.
Lemma BgpConf_copies : copies BgpConf_DeepCopyInto.
Proof.
  apply (copies_struct BgpConf_fields (λ y, let '(Flat (f_TypeMeta), (f_ObjectMeta, (f_Spec, f_Status))) := y in
      mk_BgpConf f_TypeMeta f_ObjectMeta f_Spec f_Status)
    BgpConf_DeepCopyInto (pair_into mret (pair_into ObjectMeta_DeepCopyInto (pair_into BgpConfSpec_DeepCopyInto
        BgpConfStatus_DeepCopyInto))));
  [solve_fields|solve_into BgpConf_DeepCopyInto BgpConf_fields|solve_parts].
Qed.
#[local] Hint Resolve BgpConf_copies : deepcopy.
#[export] Instance DeepOk_BgpConfList : DeepOk cell BgpConfList.
Proof. apply deep_via_ok, _. Qed.
Lemma BgpConfList_copies : copies BgpConfList_DeepCopyInto.
Proof.
  apply (copies_struct BgpConfList_fields (λ y, let '(Flat (f_TypeMeta), (f_ListMeta, f_Items)) := y in mk_BgpConfList
      f_TypeMeta f_ListMeta f_Items)
    BgpConfList_DeepCopyInto (pair_into mret (pair_into ListMeta_DeepCopyInto (copy_slice BgpConf_DeepCopyInto))));
  [solve_fields|solve_into BgpConfList_DeepCopyInto BgpConfList_fields|solve_parts].
Qed.
#[local] Hint Resolve BgpConfList_copies : deepcopy.
#[export] Instance DeepOk_Message : DeepOk cell Message := flat_deep_ok.
Lemma Message_ret : copies (A := Message) mret.
Proof. apply copies_flat_type. Qed.
Lemma Message_copies : copies Message_DeepCopyInto.
Proof. apply copies_flat_type. Qed.
#[local] Hint Resolve Message_ret Message_copies : deepcopy.
#[export] Instance DeepOk_Messages : DeepOk cell Messages.
Proof. apply deep_via_ok, _. Qed.
Lemma Messages_copies : copies Messages_DeepCopyInto.
Proof.
  apply (copies_struct Messages_fields (λ y, let '(f_Received, f_Sent) := y in mk_Messages f_Received f_Sent)
    Messages_DeepCopyInto (pair_into assign_ptr assign_ptr));
  [solve_fields|solve_into Messages_DeepCopyInto Messages_fields|solve_parts].
Qed.
#[local] Hint Resolve Messages_copies : deepcopy.
#[export] Instance DeepOk_Queues : DeepOk cell Queues := flat_deep_ok.
Lemma Queues_ret : copies (A := Queues) mret.
Proof. apply copies_flat_type. Qed.
Lemma Queues_copies : copies Queues_DeepCopyInto.
Proof. apply copies_flat_type. Qed.
#[local] Hint Resolve Queues_ret Queues_copies : deepcopy.
#[export] Instance DeepOk_PeerState : DeepOk cell PeerState.
Proof. apply deep_via_ok, _. Qed.
Lemma PeerState_copies : copies PeerState_DeepCopyInto.
Proof.
  apply (copies_struct PeerState_fields (λ y, let '(Flat (f_AuthPassword, f_Description, f_LocalAs, f_NeighborAddress,
      f_PeerAs, f_PeerGroup, f_PeerType, f_RemovePrivateAs, f_RouteFlapDamping, f_SendCommunity, f_SessionState,
      f_AdminState, f_OutQ, f_Flops, f_RouterId), (f_Messages, f_Queues)) := y in mk_PeerState f_AuthPassword
      f_Description f_LocalAs f_Messages f_NeighborAddress f_PeerAs f_PeerGroup f_PeerType f_Queues f_RemovePrivateAs
      f_RouteFlapDamping f_SendCommunity f_SessionState f_AdminState f_OutQ f_Flops f_RouterId)
    PeerState_DeepCopyInto (pair_into mret (pair_into (copy_ptr Messages_DeepCopyInto) assign_ptr)));
  [solve_fields|solve_into PeerState_DeepCopyInto PeerState_fields|solve_parts].
Qed.
#[local] Hint Resolve PeerState_copies : deepcopy.
#[export] Instance DeepOk_TimersState : DeepOk cell TimersState := flat_deep_ok.
Lemma TimersState_ret : copies (A := TimersState) mret.
Proof. apply copies_flat_type. Qed.
Lemma TimersState_copies : copies TimersState_DeepCopyInto.
Proof. apply copies_flat_type. Qed.
#[local] Hint Resolve TimersState_ret TimersState_copies : deepcopy.
#[export] Instance DeepOk_NodePeerStatus : DeepOk cell NodePeerStatus.
Proof. apply deep_via_ok, _. Qed.
Lemma NodePeerStatus_copies : copies NodePeerStatus_DeepCopyInto.
Proof.
  apply (copies_struct NodePeerStatus_fields (λ y, let '(Flat (f_TimersState), f_PeerState) := y in mk_NodePeerStatus
      f_PeerState f_TimersState)
    NodePeerStatus_DeepCopyInto (pair_into mret PeerState_DeepCopyInto));
  [solve_fields|solve_into NodePeerStatus_DeepCopyInto NodePeerStatus_fields|solve_parts].
Qed.
#[local] Hint Resolve NodePeerStatus_copies : deepcopy.
#[export] Instance DeepOk_BgpPeerStatus : DeepOk cell BgpPeerStatus.
Proof. apply deep_via_ok, _. Qed.
Lemma BgpPeerStatus_copies : copies BgpPeerStatus_DeepCopyInto.
Proof.
  apply (copies_struct BgpPeerStatus_fields (λ y, let 'f_NodesPeerStatus := y in mk_BgpPeerStatus f_NodesPeerStatus)
    BgpPeerStatus_DeepCopyInto (copy_map (deref_copy NodePeerStatus_DeepCopyInto)));
  [solve_fields|solve_into BgpPeerStatus_DeepCopyInto BgpPeerStatus_fields|solve_parts].
Qed.
#[local] Hint Resolve BgpPeerStatus_copies : deepcopy.
#[export] Instance DeepOk_PeerConf : DeepOk cell PeerConf := flat_deep_ok.
Lemma PeerConf_ret : copies (A := PeerConf) mret.
Proof. apply copies_flat_type. Qed.
Lemma PeerConf_copies : copies PeerConf_DeepCopyInto.
Proof. apply copies_flat_type. Qed.
#[local] Hint Resolve PeerConf_ret PeerConf_copies : deepcopy.
#[export] Instance DeepOk_EbgpMultihop : DeepOk cell EbgpMultihop := flat_deep_ok.
Lemma EbgpMultihop_ret : copies (A := EbgpMultihop) mret.
Proof. apply copies_flat_type. Qed.
Lemma EbgpMultihop_copies : copies EbgpMultihop_DeepCopyInto.
Proof. apply copies_flat_type. Qed.
#[local] Hint Resolve EbgpMultihop_ret EbgpMultihop_copies : deepcopy.
#[export] Instance DeepOk_TimersConfig : DeepOk cell TimersConfig := flat_deep_ok.
Lemma TimersConfig_ret : copies (A := TimersConfig) mret.
Proof. apply copies_flat_type. Qed.
Lemma TimersConfig_copies : copies TimersConfig_DeepCopyInto.
Proof. apply copies_flat_type. Qed.
#[local] Hint Resolve TimersConfig_ret TimersConfig_copies : deepcopy.
#[export] Instance DeepOk_Timers : DeepOk cell Timers.
Proof. apply deep_via_ok, _. Qed.
Lemma Timers_copies : copies Timers_DeepCopyInto.
Proof.
  apply (copies_struct Timers_fields (λ y, let 'f_Config := y in mk_Timers f_Config)
    Timers_DeepCopyInto assign_ptr);
  [solve_fields|solve_into Timers_DeepCopyInto Timers_fields|solve_parts].
Qed.
#[local] Hint Resolve Timers_copies : deepcopy.
#[export] Instance DeepOk_Transport : DeepOk cell Transport := flat_deep_ok.
Lemma Transport_ret : copies (A := Transport) mret.
Proof. apply copies_flat_type. Qed.
Lemma Transport_copies : copies Transport_DeepCopyInto.
Proof. apply copies_flat_type. Qed.
#[local] Hint Resolve Transport_ret Transport_copies : deepcopy.
#[export] Instance DeepOk_MpGracefulRestartConfig : DeepOk cell MpGracefulRestartConfig := flat_deep_ok.
Lemma MpGracefulRestartConfig_ret : copies (A := MpGracefulRestartConfig) mret.
Proof. apply copies_flat_type. Qed.
Lemma MpGracefulRestartConfig_copies : copies MpGracefulRestartConfig_DeepCopyInto.
Proof. apply copies_flat_type. Qed.
#[local] Hint Resolve MpGracefulRestartConfig_ret MpGracefulRestartConfig_copies : deepcopy.
#[export] Instance DeepOk_MpGracefulRestart : DeepOk cell MpGracefulRestart.
Proof. apply deep_via_ok, _. Qed.
Lemma MpGracefulRestart_copies : copies MpGracefulRestart_DeepCopyInto.
Proof.
  apply (copies_struct MpGracefulRestart_fields (λ y, let 'f_Config := y in mk_MpGracefulRestart f_Config)
    MpGracefulRestart_DeepCopyInto assign_ptr);
  [solve_fields|solve_into MpGracefulRestart_DeepCopyInto MpGracefulRestart_fields|solve_parts].
Qed.
#[local] Hint Resolve MpGracefulRestart_copies : deepcopy.
#[export] Instance DeepOk_Family : DeepOk cell Family := flat_deep_ok.
Lemma Family_ret : copies (A := Family) mret.
Proof. apply copies_flat_type. Qed.
Lemma Family_copies : copies Family_DeepCopyInto.
Proof. apply copies_flat_type. Qed.
#[local] Hint Resolve Family_ret Family_copies : deepcopy.
#[export] Instance DeepOk_AfiSafiConfig : DeepOk cell AfiSafiConfig.
Proof. apply deep_via_ok, _. Qed.
Lemma AfiSafiConfig_copies : copies AfiSafiConfig_DeepCopyInto.
Proof.
  apply (copies_struct AfiSafiConfig_fields (λ y, let '(Flat (f_Enabled), f_Family) := y in mk_AfiSafiConfig f_Family
      f_Enabled)
    AfiSafiConfig_DeepCopyInto (pair_into mret assign_ptr));
  [solve_fields|solve_into AfiSafiConfig_DeepCopyInto AfiSafiConfig_fields|solve_parts].
Qed.
#[local] Hint Resolve AfiSafiConfig_copies : deepcopy.
#[export] Instance DeepOk_AddPathsConfig : DeepOk cell AddPathsConfig := flat_deep_ok.
Lemma AddPathsConfig_ret : copies (A := AddPathsConfig) mret.
Proof. apply copies_flat_type. Qed.
Lemma AddPathsConfig_copies : copies AddPathsConfig_DeepCopyInto.
Proof. apply copies_flat_type. Qed.
#[local] Hint Resolve AddPathsConfig_ret AddPathsConfig_copies : deepcopy.
#[export] Instance DeepOk_AddPaths : DeepOk cell AddPaths.
Proof. apply deep_via_ok, _. Qed.
Lemma AddPaths_copies : copies AddPaths_DeepCopyInto.
Proof.
  apply (copies_struct AddPaths_fields (λ y, let 'f_Config := y in mk_AddPaths f_Config)
    AddPaths_DeepCopyInto assign_ptr);
  [solve_fields|solve_into AddPaths_DeepCopyInto AddPaths_fields|solve_parts].
Qed.
#[local] Hint Resolve AddPaths_copies : deepcopy.
#[export] Instance DeepOk_AfiSafi : DeepOk cell AfiSafi.
Proof. apply deep_via_ok, _. Qed.
Lemma AfiSafi_copies : copies AfiSafi_DeepCopyInto.
Proof.
  apply (copies_struct AfiSafi_fields (λ y, let '(f_MpGracefulRestart, (f_Config, f_AddPaths)) := y in mk_AfiSafi
      f_MpGracefulRestart f_Config f_AddPaths)
    AfiSafi_DeepCopyInto (pair_into (copy_ptr MpGracefulRestart_DeepCopyInto) (pair_into (copy_ptr
        AfiSafiConfig_DeepCopyInto) (copy_ptr AddPaths_DeepCopyInto))));
  [solve_fields|solve_into AfiSafi_DeepCopyInto AfiSafi_fields|solve_parts].
Qed.
#[local] Hint Resolve AfiSafi_copies : deepcopy.
#[export] Instance DeepOk_BgpPeerSpec : DeepOk cell BgpPeerSpec.
Proof. apply deep_via_ok, _. Qed.
Lemma BgpPeerSpec_copies : copies BgpPeerSpec_DeepCopyInto.
Proof.
  apply (copies_struct BgpPeerSpec_fields (λ y, let '(f_Conf, (f_EbgpMultihop, (f_Timers, (f_Transport,
      (f_GracefulRestart, (f_AfiSafis, f_NodeSelector)))))) := y in mk_BgpPeerSpec f_Conf f_EbgpMultihop f_Timers
      f_Transport f_GracefulRestart f_AfiSafis f_NodeSelector)
    BgpPeerSpec_DeepCopyInto (pair_into assign_ptr (pair_into assign_ptr (pair_into (copy_ptr Timers_DeepCopyInto)
        (pair_into assign_ptr (pair_into assign_ptr (pair_into (copy_slice (copy_ptr AfiSafi_DeepCopyInto)) (copy_ptr
        LabelSelector_DeepCopyInto))))))));
  [solve_fields|solve_into BgpPeerSpec_DeepCopyInto BgpPeerSpec_fields|solve_parts].
Qed.
#[local] Hint Resolve BgpPeerSpec_copies : deepcopy.
#[export] Instance DeepOk_BgpPeer : DeepOk cell BgpPeer.
Proof. apply deep_via_ok, _. Qed.
Lemma BgpPeer_copies : copies BgpPeer_DeepCopyInto.
Proof.
  apply (copies_struct BgpPeer_fields (λ y, let '(Flat (f_TypeMeta), (f_ObjectMeta, (f_Spec, f_Status))) := y in
      mk_BgpPeer f_TypeMeta f_ObjectMeta f_Spec f_Status)
    BgpPeer_DeepCopyInto (pair_into mret (pair_into ObjectMeta_DeepCopyInto (pair_into BgpPeerSpec_DeepCopyInto
        BgpPeerStatus_DeepCopyInto))));
  [solve_fields|solve_into BgpPeer_DeepCopyInto BgpPeer_fields|solve_parts].
Qed.
#[local] Hint Resolve BgpPeer_copies : deepcopy.
#[export] Instance DeepOk_BgpPeerList : DeepOk cell BgpPeerList.
Proof. apply deep_via_ok, _. Qed.
Lemma BgpPeerList_copies : copies BgpPeerList_DeepCopyInto.
Proof.
  apply (copies_struct BgpPeerList_fields (λ y, let '(Flat (f_TypeMeta), (f_ListMeta, f_Items)) := y in mk_BgpPeerList
      f_TypeMeta f_ListMeta f_Items)
    BgpPeerList_DeepCopyInto (pair_into mret (pair_into ListMeta_DeepCopyInto (copy_slice BgpPeer_DeepCopyInto))));
  [solve_fields|solve_into BgpPeerList_DeepCopyInto BgpPeerList_fields|solve_parts].
Qed.
#[local] Hint Resolve BgpPeerList_copies : deepcopy.
End copies.

(** C37: a deep copy of any object or list of the API shows what the original
    shows and shares no memory with it: no change of the memory there was
    before shows in the copy, and no change of the new memory shows in the
    original (the one in the shared cache, say). *)
Theorem DeepCopy_isolated {MT : MetaTypes} {R : GoRange} {MV : MetaV1 cell} {MO : MetaV1Ok cell} :
  isolated Eip_DeepCopy ∧ isolated EipList_DeepCopy ∧ isolated BgpConf_DeepCopy ∧ isolated BgpConfList_DeepCopy ∧
  isolated BgpPeer_DeepCopy ∧ isolated BgpPeerList_DeepCopy.
Proof.
  split_and!; apply copies_isolated, copies_ptr;
    [apply Eip_copies|apply EipList_copies|apply BgpConf_copies|apply BgpConfList_copies|apply BgpPeer_copies|
     apply BgpPeerList_copies].
Qed.

(** ** Witness: a peer with families, a selector and a status *)
Definition demo_types : MetaTypes :=
  {| TypeMeta := string; ObjectMeta := (flat string * gomp string)%type; ListMeta := flat string;
     LabelSelector := gomp string; meta_cell := () |}.

Definition demo_meta : @MetaV1 demo_types (@cell demo_types) :=
  @Build_MetaV1 demo_types (@cell demo_types)
    (Deep_pair (A := flat string) (B := gomp string)) Deep_flat (Deep_gomp (A := string))
    (pair_into mret (assign_map (R := canonical_range) (A := string))) mret
    (assign_map (R := canonical_range) (A := string)).

Lemma demo_meta_ok : @MetaV1Ok demo_types (@cell demo_types) demo_meta.
Proof.
  split; cbn; try apply _; try apply copies_flat.
  - apply copies_pair; [apply copies_flat|apply copies_assign_map, copies_string].
  - apply copies_assign_map, copies_string.
Qed.

Definition demo_status : NodePeerStatus :=
  mk_NodePeerStatus
    (mk_PeerState "" "" 50001 (Ptr None) "10.0.0.1" 50000 "" 0 (Ptr (Some 9%positive)) 0 false 0 "ESTABLISHED" "UP" 0
        0 "")
    (mk_TimersState "" "" "" "" "" "" "").

Definition demo_peer : @BgpPeer demo_types :=
  @mk_BgpPeer demo_types "BgpPeer" (Flat "peer", GoMap (Some 2%positive))
    (mk_BgpPeerSpec (Ptr (Some 3%positive)) (Ptr None) (Ptr None) (Ptr None) (Ptr None)
       (Slice (Some (4%positive, 1%nat, 1%nat))) (Ptr (Some 7%positive)))
    (mk_BgpPeerStatus (GoMap (Some 8%positive))).

Definition demo_heap : heap (@cell demo_types) := list_to_map [
  (1%positive, C_BgpPeer demo_peer);
  (2%positive, M_string {["app" := "openelb"]});
  (3%positive, C_PeerConf (mk_PeerConf "" "" 0 "10.0.0.1" 50000 "" 0 "" false 0 "" "" 0 false false));
  (4%positive, A_ptr_AfiSafi [Ptr None; Ptr (Some 5%positive); Ptr None]);
  (5%positive, C_AfiSafi (mk_AfiSafi (Ptr None) (Ptr (Some 6%positive)) (Ptr None)));
  (6%positive, C_AfiSafiConfig (mk_AfiSafiConfig (Ptr None) true));
  (7%positive, @C_LabelSelector demo_types (GoMap (Some 10%positive)));
  (8%positive, M_NodePeerStatus {["node1" := demo_status]});
  (9%positive, C_Queues (mk_Queues 1 2));
  (10%positive, M_string {["kubernetes.io/hostname" := "node1"]})].

Definition demo_read (h : heap (@cell demo_types)) (p : ptr (@BgpPeer demo_types)) :=
  @read _ _ (@Deep_ptr _ _ _ (@Deep_BgpPeer demo_types demo_meta)) h p.
Definition demo_copy : ST (heap (@cell demo_types)) (ptr (@BgpPeer demo_types)) :=
  @BgpPeer_DeepCopy demo_types canonical_range demo_meta (Ptr (Some 1%positive)).

Lemma DeepCopy_isolated_witness :
  ∃ h' p', demo_copy demo_heap = (h', Ok p') ∧ is_Some (demo_read h' p') ∧
    demo_read (new_memory demo_heap h') p' = demo_read demo_heap (Ptr (Some 1%positive)).
Proof.
  destruct (demo_read demo_heap (Ptr (Some 1%positive))) as [d|] eqn:Hd; [|vm_compute in Hd; done].
  destruct (@DeepCopy_isolated demo_types canonical_range demo_meta demo_meta_ok) as (_ & _ & _ & _ & Hpeer & _).
  destruct (Hpeer demo_heap (Ptr (Some 1%positive)) d Hd) as (h' & p' & Hrun & Hr & _ & Hold & _).
  exists h', p'. split; [exact Hrun|]. split; [by exists d|]. apply Hold.
  intros l Hl. exact (new_memory_same demo_heap h' l Hl).
Defined.
